(* ===== verification/_CoqProject ===== *)
-Q . S2P
Prelude.v
Bytes.v
CText.v
PMem.v
Watch.v
Expr.v
ExprGram.v
Cpu.v
Axi4.v
Devices.v
Xbar.v
AxiSlave.v
AxiBurst.v
Soc.v
Duplex.v
Env.v
DepObs.v
CacheObs.v
PerfObs.v
DivTb.v
IntrTb.v
Disasm.v
Elf.v
Variants.v
Sdb.v
Watchlist.v
Session.v
Init.v
Builds.v
SimType.v
BatchRun.v
Gol.v
GolProf.v
GolCount.v
GolRun.v
