(* ===== verification/Prelude.v ===== *)
(** * The simulation host of an RV64IM in-order core

    The repository holds the SystemVerilog of an in-order RV64IM core and the
    C++ around it.  This library models the C++: the simulator that clocks the
    Verilated core next to a reference simulator and a debugger shell, with its
    start-up and its instrumented builds, the AXI4 bus devices, the observers
    that turn per-cycle signals into profiles, the harnesses that run the game
    of life and two test benches.  The RTL, the reference simulator, the C
    library's clock, random source and option scanner, LLVM's disassembler and
    the contents of files are parameters.

    ** Parts, and where they are modelled

    - [Prelude] (this file): faults, the output monad [io] with its
      postconditions, machine integers, runs of a step function, automation.
      [Bytes]: byte-addressed memory, little-endian loads and stores.  [CText]:
      the [printf], [strtoul], [atoi] and [strtok] behaviour the sources rely
      on.
    - [PMem]: [sim/csrc/init.cpp] ([pmem], [paddr_read], [paddr_write],
      [load_img]), [sys_timer.c], and the DPI port [mem_read], [mem_write] of
      [sim_main.cpp].
    - [Watch]: [watchpoint.cpp], the pool of 32 linked nodes.
    - [Expr]: [expr.cpp], lexer, parenthesis test, recursive evaluator and
      [expr] with its static buffers; [isa_reg_str2val] of [sim_main.cpp].
      [ExprGram]: a reference grammar of expressions, what it means, and that
      [Expr.expr] computes it.
    - [Cpu]: [sim_main.cpp] (clocking, reset, [exec_once], [cpu_exec], exit
      status) and [difftest.cpp], for the default build.  [Variants]: the same
      functions, the monitors and the end of [main] under
      [PERFORMANCE_MODEL], [LOADUSE_P1_MONITOR] and [ICACHE_64SET_MONITOR];
      [Builds] is the program around them, shell included.
    - [Disasm]: the glue of [disasm.cc] around LLVM.  [Elf]: [read_elf] of
      [sdb.cpp], [ftrace] and [itrace] of [sim_main.cpp].
    - [Sdb]: [sdb.cpp] (command table, handlers, main loop) and [main] of
      [npc_main.cpp] after initialisation.  It composes [Cpu], [Watch] and
      [Expr]: the shell state is the three together.  [Watchlist]: an abstract
      list of watchpoints, and that the pool of a session holds it.  [Session]:
      an abstract shell of three actions, and that [Sdb.sdb_lines] refines it.
    - [Init]: options, log, image and reference ([init.cpp]), [init_sim], and
      [program], the whole [main] of the default build.  [SimType] and
      [BatchRun] hold properties of [program] as a whole.
    - [Axi4]: [include/axi4.hpp], the three signal bundles.  [Devices]:
      [mmio_dev.hpp], [mmio_mem.hpp], [axi4_mem.hpp], [uartlite.hpp].
      [Xbar]: [axi4_xbar.hpp].  [AxiSlave]: [axi4_slave.hpp], the two channel
      state machines for the default template parameters.  [AxiBurst]: whole
      bursts against one channel of the slave.  [Duplex]: both channels at
      work at once.  [Soc]: slave, crossbar and devices together.
    - [Env]: environment parsing and JSON text shared by the observers.
      [DepObs]: [dependency_observer.cpp].  [CacheObs]:
      [models/cache/monitor/cache_observer.cpp].  [PerfObs]:
      [models/attribution/monitor/perf_observer.cpp].
    - [DivTb]: [tests/custom/divider_drc1_tb.cpp].  [IntrTb]:
      [tests/custom/intr_directed_tb.cpp].
    - [Gol]: [workloads/gol/scripts/gol_profiling_verilator_harness.cpp].
      [GolProf]: the two harnesses that count while they run it,
      [models/cache/gol_cache_profile_harness.cpp] and
      [models/loaduse_p1/gol_profile_harness.cpp], which share all but the
      calls of the dependency observer and the verdict.  [GolCount]: what their
      counters hold.  [GolRun]: their runs, as runs of [Gol].

    ** Conventions

    A definition keeps the name of the function it models where that is free; a
    record has the fields of the struct or of the file's static variables.
    Integers are [Z] with their width written out ([u8] to [u64], [s32]);
    [int] arithmetic faults outside its range ([as_int]).  A call returns
    [io A]: what it prints, in order, and a value or the fault that stops the
    program (null dereference, access out of bounds, failed assertion, signed
    overflow, exit, or fuel used up).  Virtual functions are type classes
    ([mmio_dev], [axi_backend]); code that is not in the repository's C++ is a
    class or a record too ([Dut], [RefSim], [Instrumented], [Divider],
    [IntrTop], [GolCore], [PerfPorts], [llvm]), and so is what tells the two
    counting harnesses apart ([Probe]).  The interface [axi_memory] states what
    a bus memory promises; the burst theorems are proved against it.
    [axi4_mem] discharges it, and so does the crossbar, from the interface
    [dev_memory] of the devices it maps.

    ** What is proved

    - Evaluator: a well-formed expression over decimal and hexadecimal
      numbers, registers and memory operands, of at most 32 tokens printed with
      any number of blanks between them, none included, that is a single
      operand or starts with a parenthesis and stays within [int], evaluates
      to the value of its tree, read with the last hexadecimal number for all
      of them and the last register for all of them, since each kind shares a
      buffer; every other one reads in front of the array of tokens; the
      parenthesis test is right on such expressions; evaluation terminates on
      every text.
    - Memory: masked stores merge lanes; write then read; exactly when an
      access faults; the clock.
    - Simulation loop: the loop goes through rounds that agree with the
      reference and stops right at the first that does not; one comparison in
      full; resynchronisation after devices;
      memory written on the rising edge only; termination.
    - The program: what start-up leaves when it succeeds, and that it needs a
      reference; the exit code of a batch run; the overflow of the loop's
      counter; from any options and any lines typed, the simulation state stays
      well typed.
    - Instrumented builds: from start-up to exit they run the program exactly
      as the default build does, whatever is typed; the profile they leave is
      that of the region of interest; which lines the cache monitor marks; when
      the exit code is 0.
    - Watchpoints and shell: list operations of the pool, the invariant over
      arbitrary sessions, that the linked nodes hold at every time the list
      of watchpoints the lines typed have made, the latest first, and [info w]
      prints it, the commands [w], [p], [x], [si] and [q]; to the
      simulation a session is the steps, continuations and quits of its lines.
    - Traces: the symbol table read from a well-formed file, what the function
      trace logs with it, and the text of the instruction trace.
    - Bus: legal incrementing read and write bursts return and store the
      addressed bytes, and round trip, also through the crossbar, where they
      reach one RAM and nothing else; a read burst among the beats of a write
      burst returns what was stored when its request came, and disturbs
      nothing; the strobe splitter; the crossbar keeps
      its ranges disjoint and routes to the one device that covers an access;
      the UART refines a pair of queues and four registers, spills of its
      writes included; bundles copy the right directions.
    - Observers: the totals of the dependency report are those of a
      partition of its episodes in five classes; both
      it and the performance profile are exactly those of the region of
      interest; the cache counters keep the identities the report checks,
      every cycle is charged to one cause, and JSON strings read back.
    - Benches: the expected results of the divider bench are those of the
      RISC-V division instructions, and a zero exit code means that every case
      was answered; the interrupt bench returns 0 exactly for the runs it is
      meant to accept.
    - Game of life: the harness always reaches a verdict, which is the one the
      committed marker writes call for, and reaches it on time when the last
      event comes; the counting harnesses do to core, memory and markers what
      it does, but for five more cycles behind a watchdog, and for the fault
      they stop at exactly when a committed write reaches past the memory;
      their counters are those of the region of interest, which is
      found in the image, and satisfy their identities.
    - Where the code does not do what its comments or its shape say, the
      behaviour it has is proved instead: deletion of a watchpoint loses a
      node, the operator scan of the evaluator reads in front of its array,
      sparse strobes store shifted data, wrapping bursts are refused,
      the last read beat is not held, a mismatch before [ebreak] is masked, a
      write before a UART register triggers it, an oversized binary overruns, a
      disassembly of tabs alone reads before its text or stops at an
      assertion, the last entry of the symbol table is logged as missing.

    ** Fuel

    Loops that are not structural take a bound: [make_token] one more than the
    length of the text (a match is never empty), [eval] two more than the
    number of tokens ([Expr.eval_terminates]), the walks over the pool 32 (its
    number of nodes), [cpu_loop] the number of instructions
    ([Cpu.cpu_exec_terminates]), the strobe loops the width of the window, the
    scan of an image its length, the loops of the game-of-life harnesses their
    watchdog ([Gol.gol_run_verdict], [GolRun.cache_run_verdict]).  The theorems
    state results, not only partial correctness; where a bound is an argument
    they ask for enough of it.

    ** Not modelled

    The RTL, which is SystemVerilog; LLVM itself, a parameter of [Disasm];
    [getopt_long], whose results are a parameter of [Init]; wave dumps; the
    macro headers ([macro.h], [utils.h], [config.h]), whose values the
    definitions use; shell and Python scripts. *)
From stdpp Require Import base numbers list option strings gmap.

Local Open Scope Z_scope.

(** ** Faults and the output monad *)

(** How a C++ run can stop other than by returning: the undefined behaviours
    and the [assert]/[exit] calls the modelled code can reach, and the bound
    of a loop model that was given too little fuel. *)
Inductive fault :=
| NullDeref
| OutOfBounds
| AssertFail
| SignedOverflow
| DivOverflow
| ExitCall (code : Z)
| OutOfFuel.

Inductive res (A : Type) :=
| Ok (a : A)
| Fault (f : fault).
Arguments Ok {A} _.
Arguments Fault {A} _.

#[global] Instance fault_eq_dec : EqDecision fault.
Proof. solve_decision. Defined.

(** What a call prints (to the terminal, or to the log file with the [Log]
    macro), in order, and how it ends. *)
Definition io (A : Type) : Type := list string * res A.

#[global] Instance io_ret : MRet io := λ A a, ([], Ok a).
#[global] Instance io_bind : MBind io := λ A B f m,
  match m.2 with
  | Ok a => let r := f a in (m.1 ++ r.1, r.2)
  | Fault x => (m.1, Fault x)
  end.

Definition emit (s : string) : io unit := ([s], Ok tt).
Definition fail {A} (f : fault) : io A := ([], Fault f).
Definition result {A} (m : io A) : res A := m.2.

Lemma io_bind_ret_l {A B} (a : A) (f : A → io B) : (mret a ≫= f) = f a.
Proof. unfold mbind, io_bind; simpl. by destruct (f a). Qed.

Lemma io_bind_assoc {A B C} (m : io A) (f : A → io B) (g : B → io C) :
  ((m ≫= f) ≫= g) = (m ≫= λ a, f a ≫= g).
Proof.
  destruct m as [o [a|x]]; unfold mbind, io_bind; simpl; [|done].
  destruct (f a) as [o' [b|y]]; simpl; by rewrite ?app_assoc.
Qed.

Lemma result_bind {A B} (m : io A) (f : A → io B) :
  result (m ≫= f) = match result m with Ok a => result (f a) | Fault x => Fault x end.
Proof. by destruct m as [o [a|x]]. Qed.

(** A run that returns has returned from its parts. *)
Lemma result_bind_Ok {A B} (m : io A) (f : A → io B) b :
  result (m ≫= f) = Ok b → ∃ a, result m = Ok a ∧ result (f a) = Ok b.
Proof. rewrite result_bind. destruct (result m) as [a|]; [by exists a|done]. Qed.

(** Two continuations that agree on what the run returned. *)
Lemma io_bind_ext {A B} (m : io A) (f g : A → io B) :
  (∀ a, result m = Ok a → f a = g a) → (m ≫= f) = (m ≫= g).
Proof.
  intros H. destruct m as [o [a|x]]; [|done]. unfold mbind, io_bind; simpl. by rewrite (H a).
Qed.

(** ** Machine integers *)

(** Conversion to an unsigned [w]-bit type, and the two signed types used. *)
Definition wrap (w z : Z) : Z := z mod 2 ^ w.
Definition u8 (z : Z) : Z := wrap 8 z.
Definition u16 (z : Z) : Z := wrap 16 z.
Definition u32 (z : Z) : Z := wrap 32 z.
Definition u64 (z : Z) : Z := wrap 64 z.
Definition swrap (w z : Z) : Z := (z + 2 ^ (w - 1)) mod 2 ^ w - 2 ^ (w - 1).
Definition s32 (z : Z) : Z := swrap 32 z.
Definition s64 (z : Z) : Z := swrap 64 z.

(** Arithmetic on [int] is undefined outside its range. *)
Definition INT_MAX : Z := 2 ^ 31 - 1.
Definition INT_MIN : Z := - 2 ^ 31.
Definition in_int (z : Z) : bool := (INT_MIN <=? z) && (z <=? INT_MAX).
Definition as_int (z : Z) : io Z := if in_int z then mret z else fail SignedOverflow.

Lemma as_int_in z : INT_MIN <= z <= INT_MAX → as_int z = mret z.
Proof.
  intros Hz. unfold as_int, in_int. destruct (INT_MIN <=? z) eqn:E1, (z <=? INT_MAX) eqn:E2;
    rewrite ?Z.leb_gt in *; simpl; (done || lia).
Qed.

(** A C truth value: an expression of integer type used as a condition, and a
    [bool] used as an operand of [+=]. *)
Definition truthy (z : Z) : bool := negb (z =? 0).

Lemma pow2_pos w : 0 <= w → 0 < 2 ^ w.
Proof. intros. by apply Z.pow_pos_nonneg. Qed.

Lemma wrap_range w z : 0 <= w → 0 <= wrap w z < 2 ^ w.
Proof. intros. unfold wrap. apply Z.mod_pos_bound. by apply pow2_pos. Qed.

Lemma wrap_small w z : 0 <= z < 2 ^ w → wrap w z = z.
Proof. intros. unfold wrap. by apply Z.mod_small. Qed.

Lemma wrap_wrap w z : 0 <= w → wrap w (wrap w z) = wrap w z.
Proof. intros. unfold wrap. by rewrite Zmod_mod. Qed.

Lemma wrap_wrap_le v w z : 0 <= v <= w → wrap v (wrap w z) = wrap v z.
Proof.
  intros. unfold wrap. apply Z.mod_mod_divide.
  exists (2 ^ (w - v)). rewrite <- Z.pow_add_r by lia. f_equal; lia.
Qed.

Lemma wrap_add_l w a b : wrap w (wrap w a + b) = wrap w (a + b).
Proof. unfold wrap. by rewrite Zplus_mod_idemp_l. Qed.
Lemma wrap_add_r w a b : wrap w (a + wrap w b) = wrap w (a + b).
Proof. unfold wrap. by rewrite Zplus_mod_idemp_r. Qed.

Lemma wrap_add w a b : wrap w (wrap w a + wrap w b) = wrap w (a + b).
Proof. by rewrite wrap_add_l, wrap_add_r. Qed.
Lemma wrap_add3 w a b c : wrap w (wrap w a + wrap w b + wrap w c) = wrap w (a + b + c).
Proof. by rewrite wrap_add_r, <- wrap_add_l, wrap_add, wrap_add_l. Qed.

Lemma swrap_small w z : 0 < w → - 2 ^ (w - 1) <= z < 2 ^ (w - 1) → swrap w z = z.
Proof.
  intros Hw Hz. unfold swrap.
  assert (2 ^ w = 2 * 2 ^ (w - 1)) as E by (rewrite <- Z.pow_succ_r by lia; f_equal; lia).
  rewrite Z.mod_small; lia.
Qed.

Lemma wrap_swrap w z : 0 < w → wrap w (swrap w z) = wrap w z.
Proof.
  intros. unfold wrap, swrap. rewrite Zminus_mod_idemp_l. f_equal. lia.
Qed.

Lemma swrap_wrap w z : 0 < w → swrap w (wrap w z) = swrap w z.
Proof. intros. unfold wrap, swrap. by rewrite Zplus_mod_idemp_l. Qed.

Lemma swrap_wrap_le v w z : 0 < v <= w → swrap v (wrap w z) = swrap v z.
Proof.
  intros. rewrite <- (swrap_wrap v (wrap w z)), wrap_wrap_le, swrap_wrap by lia. done.
Qed.

(** A mask of one bit, used as a condition. *)
Lemma truthy_land_bit z i : 0 <= i → truthy (Z.land z (2 ^ i)) = Z.testbit z i.
Proof.
  intros Hi. assert (Z.land z (2 ^ i) = if Z.testbit z i then 2 ^ i else 0) as ->.
  { apply Z.bits_inj'. intros n Hn. rewrite Z.land_spec, Z.pow2_bits_eqb by lia.
    destruct (Z.eqb_spec i n) as [->|Hne].
    - rewrite andb_true_r. destruct (Z.testbit z n); [by rewrite Z.pow2_bits_true by lia|by rewrite Z.bits_0].
    - rewrite andb_false_r. destruct (Z.testbit z i); [by rewrite Z.pow2_bits_false by lia|by rewrite Z.bits_0]. }
  destruct (Z.testbit z i); [|done]. unfold truthy. pose proof (pow2_pos i Hi).
  destruct (Z.eqb_spec (2 ^ i) 0); [lia|done].
Qed.

Lemma testbit_wrap w z i : 0 <= i < w → Z.testbit (wrap w z) i = Z.testbit z i.
Proof. intros. unfold wrap. apply Z.mod_pow2_bits_low; lia. Qed.

Lemma swrap_range w z : 0 < w → - 2 ^ (w - 1) <= swrap w z < 2 ^ (w - 1).
Proof.
  intros Hw. unfold swrap.
  assert (2 ^ w = 2 * 2 ^ (w - 1)) as E by (rewrite <- Z.pow_succ_r by lia; f_equal; lia).
  pose proof (Z.mod_pos_bound (z + 2 ^ (w - 1)) (2 ^ w) (pow2_pos w ltac:(lia))). lia.
Qed.

(** ** Automation *)

Create HintDb sim.
Create Rewrite HintDb sim.

#[export] Hint Resolve pow2_pos wrap_range : sim.
#[export] Hint Rewrite @io_bind_ret_l @io_bind_assoc @result_bind : sim.

(** Case analysis on every boolean test of the goal, keeping its equation, and
    turning the integer tests among them into propositions. *)
Ltac bool_to_prop :=
  repeat match goal with
  | H : (_ && _) = true |- _ => apply andb_true_iff in H as [? ?]
  | H : (_ || _) = false |- _ => apply orb_false_iff in H as [? ?]
  | H : negb _ = true |- _ => apply negb_true_iff in H
  | H : negb _ = false |- _ => apply negb_false_iff in H
  | H : (_ <? _) = true |- _ => apply Z.ltb_lt in H
  | H : (_ <? _) = false |- _ => apply Z.ltb_ge in H
  | H : (_ <=? _) = true |- _ => apply Z.leb_le in H
  | H : (_ <=? _) = false |- _ => apply Z.leb_gt in H
  | H : (_ =? _) = true |- _ => apply Z.eqb_eq in H
  | H : (_ =? _) = false |- _ => apply Z.eqb_neq in H
  | H : bool_decide _ = true |- _ => apply bool_decide_eq_true in H
  | H : bool_decide _ = false |- _ => apply bool_decide_eq_false in H
  end.

Ltac case_if :=
  match goal with
  | |- context [if ?b then _ else _] => let E := fresh "E" in destruct b eqn:E
  | H : context [if ?b then _ else _] |- _ => let E := fresh "E" in destruct b eqn:E
  end.

Ltac split_ifs := repeat (case_if; simplify_eq/=); bool_to_prop.

(** Linear arithmetic with division and remainder by constants. *)
Ltac dlia := Z.to_euclidean_division_equations; lia.

(** A closed decidable proposition, by evaluation. *)
Ltac decide_now := apply (bool_decide_eq_true_1 _); vm_compute; reflexivity.

(** Decide a comparison on [Z] whose truth follows by arithmetic. *)
Ltac zif_true :=
  match goal with
  | |- context [?a <? ?b] => replace (a <? b) with true by (symmetry; apply Z.ltb_lt; lia)
  | |- context [?a <=? ?b] => replace (a <=? b) with true by (symmetry; apply Z.leb_le; lia)
  | |- context [?a =? ?b] => replace (a =? b) with true by (symmetry; apply Z.eqb_eq; lia)
  end.
Ltac zif_false :=
  match goal with
  | |- context [?a <? ?b] => replace (a <? b) with false by (symmetry; apply Z.ltb_ge; lia)
  | |- context [?a <=? ?b] => replace (a <=? b) with false by (symmetry; apply Z.leb_gt; lia)
  | |- context [?a =? ?b] => replace (a =? b) with false by (symmetry; apply Z.eqb_neq; lia)
  end.

(** ** Lists *)

Definition sum_list_Z (l : list Z) : Z := foldr Z.add 0 l.

Lemma sum_list_Z_app l k : sum_list_Z (l ++ k) = sum_list_Z l + sum_list_Z k.
Proof. induction l as [|x l IH]; simpl; [done|]. unfold sum_list_Z in *. simpl. lia. Qed.

(** A signal sampled once per cycle: the cycles it is high, and its maximal
    runs of high cycles, [prev] being its level before. *)
Definition n_true (l : list bool) : Z := sum_list_Z (Z.b2z <$> l).
Definition rising (prev cur : bool) : nat := if cur && negb prev then 1%nat else 0%nat.
Fixpoint runs (prev : bool) (l : list bool) : nat :=
  match l with
  | [] => O
  | b :: l => (rising prev b + runs b l)%nat
  end.

Lemma n_true_snoc l b : n_true (l ++ [b]) = n_true l + Z.b2z b.
Proof. unfold n_true. rewrite fmap_app, sum_list_Z_app. unfold sum_list_Z at 2. cbn. lia. Qed.

Lemma runs_snoc prev l b : runs prev (l ++ [b]) = (runs prev l + rising (default prev (last l)) b)%nat.
Proof.
  revert prev. induction l as [|x l IH]; intros prev; cbn [runs app]; [cbn; lia|].
  rewrite IH, last_cons. destruct l as [|y l]; [cbn; lia|].
  destruct (last (y :: l)) eqn:E; [cbn; lia|by apply last_None in E].
Qed.

(** Running a step function over a list of inputs. *)
Fixpoint run {S E : Type} (step : S → E → S) (s : S) (es : list E) : S :=
  match es with
  | [] => s
  | e :: es => run step (step s e) es
  end.

Lemma run_app {S E} (step : S → E → S) s es fs :
  run step s (es ++ fs) = run step (run step s es) fs.
Proof. revert s; induction es as [|e es IH]; intros s; simpl; [done|]. by rewrite IH. Qed.

(** Rule induction on runs: what every step preserves, every run preserves. *)
Lemma run_inv {S E} (step : S → E → S) (P : S → Prop) :
  (∀ s e, P s → P (step s e)) → ∀ es s, P s → P (run step s es).
Proof. intros H es; induction es; simpl; eauto. Qed.

Lemma run_inv_Forall {S E} (step : S → E → S) (P : S → Prop) (Q : E → Prop) :
  (∀ s e, P s → Q e → P (step s e)) →
  ∀ es s, Forall Q es → P s → P (run step s es).
Proof. intros H es; induction es; simpl; intros s HQ; inversion HQ; subst; eauto. Qed.

(** ** Enough fuel *)

(** A run that does not stop for want of fuel. *)
Definition fuelled {A} (m : io A) : Prop := result m ≠ Fault OutOfFuel.

Lemma fuelled_ret {A} (a : A) : fuelled (mret a).
Proof. done. Qed.
Lemma fuelled_emit s : fuelled (emit s).
Proof. done. Qed.
Lemma fuelled_fail {A} f : f ≠ OutOfFuel → fuelled (fail (A := A) f).
Proof. unfold fuelled. simpl. congruence. Qed.
Lemma fuelled_bind {A B} (m : io A) (f : A → io B) :
  fuelled m → (∀ a, result m = Ok a → fuelled (f a)) → fuelled (m ≫= f).
Proof.
  unfold fuelled. rewrite result_bind. intros Hm Hf.
  destruct (result m) as [a|x]; [by apply Hf|congruence].
Qed.
#[export] Hint Resolve fuelled_ret fuelled_emit fuelled_fail fuelled_bind : sim.

(** ** Postconditions *)

(** What a run has when it returns. *)
Definition ensures {A} (m : io A) (P : A → Prop) : Prop := ∀ a, result m = Ok a → P a.

Lemma ensures_ret {A} (a : A) (P : A → Prop) : P a → ensures (mret a) P.
Proof. intros Hp b E. by simplify_eq/=. Qed.
Lemma ensures_fail {A} f (P : A → Prop) : ensures (fail f) P.
Proof. done. Qed.
Lemma ensures_bind {A B} (m : io A) (f : A → io B) (P : B → Prop) :
  ensures m (λ a, ensures (f a) P) → ensures (m ≫= f) P.
Proof. intros H b (a & Ha & Hb)%result_bind_Ok. by eapply H. Qed.
Lemma ensures_mono {A} (m : io A) (P Q : A → Prop) : ensures m P → (∀ a, P a → Q a) → ensures m Q.
Proof. intros H HPQ a E. by apply HPQ, H. Qed.
Lemma ensures_any {A} (m : io A) (P : A → Prop) : (∀ a, P a) → ensures m P.
Proof. intros H a _. apply H. Qed.
Lemma ensures_as_int z (P : Z → Prop) : (in_int z = true → P z) → ensures (as_int z) P.
Proof. unfold as_int. intros H. destruct (in_int z); [apply ensures_ret; auto|apply ensures_fail]. Qed.
