(* ===== verification/Bytes.v ===== *)
(** * Byte arrays
    The memories of the program are byte arrays reached through pointers:
    [pmem] of [init.cpp], the [mem] of [axi4_mem] and [mmio_mem], the [r_data]
    staging buffer of [axi4_slave], [memory_] of the GOL harnesses.  This file
    gives them one representation, little-endian access of any width, and the
    equivalence "same bytes" with the accesses that respect it.

    A byte array is a finite map from offsets to bytes in which an absent
    offset holds 0; its length is kept by the component that owns it, which
    also checks it where the source does. *)
From stdpp Require Import base numbers list option gmap.
From S2P Require Import Prelude.

Local Open Scope Z_scope.

Abbreviation bytes := (gmap Z Z).

Definition get (m : bytes) (a : Z) : Z := default 0 (m !! a).

(** [memcpy(buffer, &mem[a], n)] and [memcpy(&mem[a], l, length l)]. *)
Fixpoint load_bytes (m : bytes) (a : Z) (n : nat) : list Z :=
  match n with
  | O => []
  | S n => get m a :: load_bytes m (a + 1) n
  end.

Fixpoint store_bytes (m : bytes) (a : Z) (l : list Z) : bytes :=
  match l with
  | [] => m
  | b :: l => store_bytes (<[a := b]> m) (a + 1) l
  end.

(** Little-endian integers. *)
Fixpoint le_combine (l : list Z) : Z :=
  match l with
  | [] => 0
  | b :: l => b + 2 ^ 8 * le_combine l
  end.

Fixpoint le_split (n : nat) (z : Z) : list Z :=
  match n with
  | O => []
  | S n => z mod 2 ^ 8 :: le_split n (z / 2 ^ 8)
  end.

Definition load (m : bytes) (a : Z) (n : nat) : Z := le_combine (load_bytes m a n).
Definition store (m : bytes) (a : Z) (n : nat) (z : Z) : bytes :=
  store_bytes m a (le_split n z).

Definition is_byte (b : Z) : Prop := 0 <= b < 2 ^ 8.
#[global] Instance is_byte_dec b : Decision (is_byte b).
Proof. unfold is_byte. apply _. Defined.

(** Every byte of the array is a byte. *)
Definition bytes_ok (m : bytes) : Prop := ∀ a, is_byte (get m a).

(** Same contents. *)
Definition bytes_equiv (m1 m2 : bytes) : Prop := ∀ a, get m1 a = get m2 a.
#[global] Instance bytes_equiv_equiv : Equivalence bytes_equiv.
Proof.
  split.
  - intros m a. done.
  - intros m1 m2 H a. by rewrite H.
  - intros m1 m2 m3 H1 H2 a. by rewrite H1.
Qed.

(** ** Accesses *)

Lemma get_empty a : get ∅ a = 0.
Proof. unfold get. by rewrite lookup_empty. Qed.

Lemma get_insert m a b k : get (<[a := b]> m) k = if decide (a = k) then b else get m k.
Proof. unfold get. rewrite lookup_insert. by case_decide. Qed.

Lemma length_load_bytes m a n : length (load_bytes m a n) = n.
Proof. revert a; induction n; intros; simpl; [done|]. by rewrite IHn. Qed.

Lemma load_bytes_lookup m a n (i : nat) :
  (i < n)%nat → load_bytes m a n !! i = Some (get m (a + Z.of_nat i)).
Proof.
  revert a i; induction n; intros a i Hi; [lia|]. destruct i; simpl.
  - f_equal. f_equal. lia.
  - rewrite IHn by lia. f_equal. f_equal. lia.
Qed.

Lemma load_bytes_app m a n k :
  load_bytes m a (n + k) = load_bytes m a n ++ load_bytes m (a + Z.of_nat n) k.
Proof.
  revert a; induction n as [|n IH]; intros a; simpl.
  - f_equal. lia.
  - f_equal. rewrite IH. do 2 f_equal. lia.
Qed.

Lemma store_bytes_app m a l k :
  store_bytes m a (l ++ k) = store_bytes (store_bytes m a l) (a + Z.of_nat (length l)) k.
Proof.
  revert m a; induction l as [|b l IH]; intros m a; simpl.
  - f_equal. lia.
  - rewrite IH. f_equal. lia.
Qed.

Lemma get_store_bytes m a l k :
  get (store_bytes m a l) k =
    if decide (a <= k < a + Z.of_nat (length l))
    then default 0 (l !! Z.to_nat (k - a)) else get m k.
Proof.
  revert m a; induction l as [|b l IH]; intros m a; simpl.
  - rewrite decide_False by lia. done.
  - rewrite IH, get_insert.
    destruct (decide (a = k)) as [->|Hne].
    + rewrite decide_False by lia. rewrite decide_True by lia.
      by rewrite Z.sub_diag.
    + case_decide.
      * rewrite decide_True by lia.
        replace (Z.to_nat (k - a)) with (S (Z.to_nat (k - (a + 1)))) by lia. done.
      * by rewrite decide_False by lia.
Qed.

(** Reading back what was stored, and reading elsewhere. *)
Lemma load_store_bytes m a l :
  load_bytes (store_bytes m a l) a (length l) = l.
Proof.
  apply list_eq. intros i. destruct (decide (i < length l)%nat) as [Hi|Hi].
  - rewrite load_bytes_lookup by done. rewrite get_store_bytes.
    rewrite decide_True by lia. replace (Z.to_nat (a + Z.of_nat i - a)) with i by lia.
    apply lookup_lt_is_Some in Hi as [x Hx]. by rewrite Hx.
  - rewrite !lookup_ge_None_2; [done|lia|rewrite length_load_bytes; lia].
Qed.

Lemma load_store_bytes_disjoint m a l b n :
  b + Z.of_nat n <= a ∨ a + Z.of_nat (length l) <= b →
  load_bytes (store_bytes m a l) b n = load_bytes m b n.
Proof.
  intros Hd. apply list_eq. intros i. destruct (decide (i < n)%nat) as [Hi|Hi].
  - rewrite !load_bytes_lookup by done. rewrite get_store_bytes.
    by rewrite decide_False by lia.
  - rewrite !lookup_ge_None_2; [done|rewrite length_load_bytes; lia..].
Qed.

(** ** Respecting "same contents" *)

#[global] Instance get_proper : Proper (bytes_equiv ==> eq ==> eq) get.
Proof. intros m1 m2 H a ? <-. apply H. Qed.

#[global] Instance load_bytes_proper : Proper (bytes_equiv ==> eq ==> eq ==> eq) load_bytes.
Proof.
  intros m1 m2 H a ? <- n ? <-. revert a; induction n as [|n IH]; intros a; simpl; [done|].
  by rewrite H, IH.
Qed.

#[global] Instance load_proper : Proper (bytes_equiv ==> eq ==> eq ==> eq) load.
Proof. intros m1 m2 H a ? <- n ? <-. unfold load. by rewrite H. Qed.

#[global] Instance store_bytes_proper :
  Proper (bytes_equiv ==> eq ==> eq ==> bytes_equiv) store_bytes.
Proof.
  intros m1 m2 H a ? <- l ? <- k. rewrite !get_store_bytes. case_decide; [done|apply H].
Qed.

#[global] Instance store_proper :
  Proper (bytes_equiv ==> eq ==> eq ==> eq ==> bytes_equiv) store.
Proof. intros m1 m2 H a ? <- n ? <- z ? <-. unfold store. by rewrite H. Qed.

(** Storing back what is there changes nothing. *)
Lemma store_load_bytes m a n : bytes_equiv (store_bytes m a (load_bytes m a n)) m.
Proof.
  intros k. rewrite get_store_bytes, length_load_bytes. case_decide; [|done].
  rewrite load_bytes_lookup by lia. simpl. f_equal. lia.
Qed.

(** ** Little-endian integers *)

Lemma length_le_split n z : length (le_split n z) = n.
Proof. revert z; induction n; intros; simpl; [done|]. by rewrite IHn. Qed.

Lemma le_split_bytes n z : Forall is_byte (le_split n z).
Proof.
  revert z; induction n; intros; simpl; constructor; [|done].
  apply Z.mod_pos_bound. lia.
Qed.

Lemma le_combine_split n z : le_combine (le_split n z) = z mod 2 ^ (8 * Z.of_nat n).
Proof.
  revert z; induction n as [|n IH]; intros z; simpl.
  - by rewrite Z.mod_1_r.
  - rewrite IH. replace (8 * Z.of_nat (S n)) with (8 + 8 * Z.of_nat n) by lia.
    rewrite Z.pow_add_r by lia. rewrite Z.rem_mul_r; [lia|lia|].
    apply pow2_pos. lia.
Qed.

Lemma le_combine_range l : Forall is_byte l → 0 <= le_combine l < 2 ^ (8 * Z.of_nat (length l)).
Proof.
  induction 1 as [|b l Hb Hl IH]; simpl; [lia|]. unfold is_byte in Hb.
  replace (8 * Z.of_nat (S (length l))) with (8 + 8 * Z.of_nat (length l)) by lia.
  rewrite Z.pow_add_r by lia. lia.
Qed.

Lemma le_split_combine l : Forall is_byte l → le_split (length l) (le_combine l) = l.
Proof.
  induction 1 as [|b l Hb Hl IH]; simpl; [done|]. unfold is_byte in Hb.
  rewrite (Z.mul_comm (2 ^ 8)), Z.mod_add, Z.mod_small by lia.
  rewrite Z.div_add, Z.div_small by lia. rewrite Z.add_0_l. by rewrite IH.
Qed.

Lemma load_store m a n z : load (store m a n z) a n = z mod 2 ^ (8 * Z.of_nat n).
Proof.
  unfold load, store. rewrite <- le_combine_split.
  rewrite <- (length_le_split n z) at 2. by rewrite load_store_bytes.
Qed.

Lemma load_store_disjoint m a n z b k :
  b + Z.of_nat k <= a ∨ a + Z.of_nat n <= b →
  load (store m a n z) b k = load m b k.
Proof.
  intros. unfold load, store. rewrite load_store_bytes_disjoint; [done|].
  by rewrite length_le_split.
Qed.

Lemma bytes_ok_load m a n : bytes_ok m → Forall is_byte (load_bytes m a n).
Proof. intros H. revert a; induction n; intros; simpl; constructor; auto. Qed.

Lemma load_range m a n : bytes_ok m → 0 <= load m a n < 2 ^ (8 * Z.of_nat n).
Proof.
  intros H. unfold load. rewrite <- (length_load_bytes m a n) at 3.
  by apply le_combine_range, bytes_ok_load.
Qed.

Lemma bytes_ok_empty : bytes_ok ∅.
Proof. intros a. rewrite get_empty. unfold is_byte. lia. Qed.

Lemma bytes_ok_insert m a b : bytes_ok m → is_byte b → bytes_ok (<[a := b]> m).
Proof. intros Hm Hb k. rewrite get_insert. case_decide; auto. Qed.

Lemma bytes_ok_store_bytes m a l : bytes_ok m → Forall is_byte l → bytes_ok (store_bytes m a l).
Proof.
  intros Hm Hl. revert m a Hm; induction Hl; intros; simpl; auto using bytes_ok_insert.
Qed.

Lemma bytes_ok_store m a n z : bytes_ok m → bytes_ok (store m a n z).
Proof. intros. apply bytes_ok_store_bytes; auto using le_split_bytes. Qed.

#[export] Hint Resolve bytes_ok_empty bytes_ok_insert bytes_ok_store bytes_ok_store_bytes
  bytes_ok_load le_split_bytes : sim.
#[export] Hint Rewrite length_load_bytes length_le_split load_store_bytes load_store : sim.
