(* ===== verification/CText.v ===== *)
(** * Text functions of the C library
    The parts of [<stdio.h>], [<stdlib.h>] and [<string.h>] the simulator and
    the observers rely on, as the C standard defines them in the "C" locale:
    the [printf] conversions [%u]/[%lu]/[%llu]/[%d]/[%x] with zero padding,
    [strtoul]/[strtoull]/[strtol]/[atoi], and [strtok].  A C string is a
    [string] without its terminator. *)
From Stdlib Require Import Ascii.
From stdpp Require Import base numbers list option strings.
From S2P Require Import Prelude.

Local Open Scope Z_scope.

#[global] Arguments String.append !_ _ : simpl nomatch.

Definition code (c : ascii) : Z := Z.of_N (N_of_ascii c).
Definition chr (z : Z) : ascii := ascii_of_N (Z.to_N z).
Definition one (c : ascii) : string := String c EmptyString.

(** Tab, line feed and the double quote. *)
Definition tab : string := one "009".
Definition nl : string := one "010".
Definition dq : string := one "034".

Definition in_range (lo hi : Z) (c : ascii) : bool := (lo <=? code c) && (code c <=? hi).
Definition is_space (c : ascii) : bool := (code c =? 32) || in_range 9 13 c.
Definition is_digit (c : ascii) : bool := in_range 48 57 c.
Definition is_lower (c : ascii) : bool := in_range 97 122 c.
Definition is_upper (c : ascii) : bool := in_range 65 90 c.

(** Value of a digit of a base up to 36. *)
Definition digit_val (c : ascii) : option Z :=
  if is_digit c then Some (code c - 48)
  else if is_lower c then Some (code c - 87)
  else if is_upper c then Some (code c - 55)
  else None.
Definition digit_in (b : Z) (c : ascii) : option Z :=
  d ← digit_val c; if d <? b then Some d else None.

(** ** Printing *)

Definition digit_char (d : Z) : ascii := chr (if d <? 10 then 48 + d else 87 + d).

Fixpoint digits (fuel : nat) (b n : Z) (acc : list Z) : list Z :=
  match fuel with
  | O => acc
  | S f => if n <? b then n :: acc else digits f b (n / b) (n mod b :: acc)
  end.
Definition digits_of (b n : Z) : list Z := digits (S (Z.to_nat (Z.log2 n))) b n [].

Fixpoint of_digits (ds : list Z) : string :=
  match ds with
  | [] => EmptyString
  | d :: ds => String (digit_char d) (of_digits ds)
  end.

Fixpoint zeros (n : nat) : string :=
  match n with O => EmptyString | S n => String "0" (zeros n) end.

(** [%u], [%lu], [%llu] of a non-negative value; [%d], [%ld]; [%x]; and the
    [0w] flag-and-width. *)
Definition fmt_u (n : Z) : string := of_digits (digits_of 10 n).
Definition fmt_d (n : Z) : string := if n <? 0 then "-" +:+ fmt_u (- n) else fmt_u n.
Definition fmt_x (n : Z) : string := of_digits (digits_of 16 n).
Definition pad0 (w : nat) (s : string) : string := zeros (w - String.length s) +:+ s.
Definition fmt_0x (w : nat) (n : Z) : string := pad0 w (fmt_x n).

(** ** Parsing *)

Fixpoint skip_space (s : string) : string :=
  match s with
  | String c s' => if is_space c then skip_space s' else s
  | EmptyString => s
  end.

Fixpoint scan_digits (b : Z) (s : string) (acc : Z) : Z * string :=
  match s with
  | String c s' =>
      match digit_in b c with
      | Some d => scan_digits b s' (acc * b + d)
      | None => (acc, s)
      end
  | EmptyString => (acc, s)
  end.

(** The subject sequence of [strtoul] and its kin for base 0 or a fixed base:
    sign, magnitude (unbounded) and what follows, or [None] when no conversion
    could be performed ([*endptr] is then the whole text). *)
Definition split_sign (s : string) : bool * string :=
  match s with
  | String c s' =>
      if (code c =? 45) then (true, s') else if (code c =? 43) then (false, s') else (false, s)
  | EmptyString => (false, s)
  end.

Definition starts_digit (b : Z) (s : string) : bool :=
  match s with
  | String c _ => match digit_in b c with Some _ => true | None => false end
  | EmptyString => false
  end.

Definition hex_prefix (s : string) : option string :=
  match s with
  | String c (String x s') =>
      if (code c =? 48) && ((code x =? 120) || (code x =? 88)) && starts_digit 16 s'
      then Some s' else None
  | _ => None
  end.

Definition strto (base : Z) (text : string) : option (bool * Z * string) :=
  let '(neg, s) := split_sign (skip_space text) in
  let '(b, s') :=
    if base =? 0 then
      match hex_prefix s with
      | Some s' => (16, s')
      | None => (match s with String c _ => if code c =? 48 then 8 else 10 | _ => 10 end, s)
      end
    else (base, s) in
  if starts_digit b s' then
    let '(v, rest) := scan_digits b s' 0 in Some (neg, v, rest)
  else None.

(** [strtoul]/[strtoull] on LP64: the value, and [*endptr]. *)
Definition ULLONG_MAX : Z := 2 ^ 64 - 1.
Definition strtoull (base : Z) (text : string) : Z * string :=
  match strto base text with
  | None => (0, text)
  | Some (neg, v, rest) =>
      ((if v <=? ULLONG_MAX then if neg then u64 (- v) else v else ULLONG_MAX), rest)
  end.

(** [strtol] clamps to the range of [long]; [atoi] is its conversion to [int]. *)
Definition strtol (base : Z) (text : string) : Z * string :=
  match strto base text with
  | None => (0, text)
  | Some (neg, v, rest) =>
      let v := if neg : bool then - v else v in
      (Z.max (- 2 ^ 63) (Z.min (2 ^ 63 - 1) v), rest)
  end.
Definition atoi (text : string) : Z := s32 (strtol 10 text).1.

(** [strtok] with a delimiter set given as a predicate: the token and the text
    left for the next call. *)
Fixpoint skip_while (p : ascii → bool) (s : string) : string :=
  match s with
  | String c s' => if p c then skip_while p s' else s
  | EmptyString => s
  end.
Fixpoint take_until (p : ascii → bool) (s : string) : string * string :=
  match s with
  | String c s' =>
      if p c then (EmptyString, s')
      else let '(t, r) := take_until p s' in (String c t, r)
  | EmptyString => (EmptyString, EmptyString)
  end.
Definition strtok (p : ascii → bool) (s : string) : option (string * string) :=
  match skip_while p s with
  | EmptyString => None
  | s' => Some (take_until p s')
  end.

(** ** Facts *)

Lemma code_chr z : 0 <= z < 256 → code (chr z) = z.
Proof.
  intros Hz. unfold code, chr. rewrite N_ascii_embedding by lia. lia.
Qed.

Lemma digit_val_char d : 0 <= d < 36 → digit_val (digit_char d) = Some d.
Proof.
  intros Hd. unfold digit_val, digit_char, is_digit, is_lower, in_range.
  destruct (d <? 10) eqn:E; bool_to_prop; rewrite code_chr by lia.
  - replace (48 <=? 48 + d) with true by lia. replace (48 + d <=? 57) with true by lia.
    simpl. f_equal. lia.
  - replace (48 <=? 87 + d) with true by lia. replace (87 + d <=? 57) with false by lia.
    replace (97 <=? 87 + d) with true by lia. replace (87 + d <=? 122) with true by lia.
    simpl. f_equal. lia.
Qed.

Lemma digit_in_char b d : b <= 36 → 0 <= d < b → digit_in b (digit_char d) = Some d.
Proof.
  intros. unfold digit_in. rewrite digit_val_char by lia. simpl. by zif_true.
Qed.

Definition value_from (b acc : Z) (ds : list Z) : Z := fold_left (λ a d, a * b + d) ds acc.

Lemma digits_value b n fuel acc :
  2 <= b → 0 <= n < b ^ Z.of_nat fuel → value_from b 0 (digits fuel b n acc) = value_from b n acc.
Proof.
  intros Hb. revert n acc; induction fuel as [|f IH]; intros n acc Hn; simpl.
  - change (b ^ Z.of_nat 0) with 1 in Hn. replace n with 0 by lia. done.
  - case_if; bool_to_prop; [done|].
    rewrite IH.
    + simpl. f_equal. pose proof (Z.div_mod n b). lia.
    + split; [apply Z.div_pos; lia|]. apply Z.div_lt_upper_bound; [lia|].
      rewrite <- Z.pow_succ_r by lia. replace (Z.succ (Z.of_nat f)) with (Z.of_nat (S f)) by lia.
      apply Hn.
Qed.

Lemma digits_range b n fuel acc :
  2 <= b → 0 <= n → Forall (λ d, 0 <= d < b) acc →
  Forall (λ d, 0 <= d < b) (digits fuel b n acc).
Proof.
  intros Hb. revert n acc; induction fuel as [|f IH]; intros n acc Hn Ha; simpl; [done|].
  case_if; bool_to_prop; [constructor; [lia|done]|].
  apply IH; [apply Z.div_pos; lia|].
  constructor; [apply Z.mod_pos_bound; lia|done].
Qed.

Lemma digits_fuel b n : 2 <= b → 0 <= n → 0 <= n < b ^ Z.of_nat (S (Z.to_nat (Z.log2 n))).
Proof.
  intros Hb Hn. split; [done|].
  apply Z.lt_le_trans with (2 ^ Z.succ (Z.log2 n)).
  - destruct (decide (n = 0)) as [->|]; [done|]. apply Z.log2_spec. lia.
  - pose proof (Z.log2_nonneg n).
    replace (Z.of_nat (S (Z.to_nat (Z.log2 n)))) with (Z.succ (Z.log2 n)) by lia.
    apply Z.pow_le_mono_l. lia.
Qed.

Lemma digits_of_value b n : 2 <= b → 0 <= n → value_from b 0 (digits_of b n) = n.
Proof. intros. unfold digits_of. rewrite digits_value by auto using digits_fuel. done. Qed.

Lemma digits_of_range b n : 2 <= b → 0 <= n → Forall (λ d, 0 <= d < b) (digits_of b n).
Proof. intros. by apply digits_range. Qed.

(** The leading digit of a positive number is not 0. *)
Lemma digits_head b n fuel acc :
  2 <= b → 0 < n < b ^ Z.of_nat fuel → ∃ d ds, digits fuel b n acc = d :: ds ∧ d ≠ 0.
Proof.
  intros Hb. revert n acc; induction fuel as [|f IH]; intros n acc Hn; simpl.
  - change (b ^ Z.of_nat 0) with 1 in Hn. lia.
  - case_if; bool_to_prop; [exists n, acc; split; [done|lia]|].
    apply IH. split; [apply Z.div_str_pos; lia|]. apply Z.div_lt_upper_bound; [lia|].
    rewrite <- Z.pow_succ_r by lia. replace (Z.succ (Z.of_nat f)) with (Z.of_nat (S f)) by lia.
      apply Hn.
Qed.

Lemma digits_of_nonempty b n : digits_of b n ≠ [].
Proof.
  unfold digits_of. assert (∀ f acc m, acc ≠ [] → digits f b m acc ≠ []) as H.
  { intros f; induction f; intros acc m Ha; simpl; [done|]. case_if; auto. }
  simpl. case_if; [done|]. by apply H.
Qed.

Lemma scan_digits_of b ds s acc :
  b <= 36 → Forall (λ d, 0 <= d < b) ds → starts_digit b s = false →
  scan_digits b (of_digits ds +:+ s) acc = (value_from b acc ds, s).
Proof.
  intros Hb Hds Hs. revert acc; induction Hds as [|d ds Hd Hds IH]; intros acc; simpl.
  - destruct s as [|c s]; simpl in *; [done|]. by destruct (digit_in b c).
  - by rewrite digit_in_char, IH by lia.
Qed.

Lemma append_nil_r (s : string) : s +:+ "" = s.
Proof. induction s as [|c s IH]; simpl; [done|]. by rewrite IH. Qed.

Lemma length_append s t : String.length (s +:+ t) = (String.length s + String.length t)%nat.
Proof. induction s as [|c s IH]; simpl; [done|]. by rewrite IH. Qed.

Lemma length_of_digits ds : String.length (of_digits ds) = length ds.
Proof. induction ds; simpl; congruence. Qed.

(** A number below [b^k] has at most [k] digits. *)
Lemma length_digits fuel b n acc k :
  2 <= b → (0 < k)%nat → 0 <= n < b ^ Z.of_nat k → (length (digits fuel b n acc) <= k + length acc)%nat.
Proof.
  intros Hb. revert n acc k; induction fuel as [|f IH]; intros n acc k Hk Hn; simpl; [lia|].
  case_if; bool_to_prop; simpl; [lia|]. destruct k as [|[|k]]; [lia|simpl in Hn; lia|].
  etrans; [apply (IH _ _ (S k)); [lia|]|simpl; lia].
  split; [apply Z.div_pos; lia|]. apply Z.div_lt_upper_bound; [lia|].
  rewrite <- Z.pow_succ_r by lia. replace (Z.succ (Z.of_nat (S k))) with (Z.of_nat (S (S k))) by lia. apply Hn.
Qed.

Lemma append_assoc s t u : (s +:+ t) +:+ u = s +:+ (t +:+ u).
Proof. induction s as [|c s IH]; simpl; [done|]. by rewrite IH. Qed.

Lemma code_digit_char d : 0 <= d < 10 → code (digit_char d) = 48 + d.
Proof. intros. unfold digit_char. replace (d <? 10) with true by lia. apply code_chr. lia. Qed.

(** [strtoull] with base 0, and [strtol] with base 10, read a decimal back. *)
Lemma strto_fmt_u_base base n :
  base = 0 ∨ base = 10 → 0 <= n → strto base (fmt_u n) = Some (false, n, "").
Proof.
  intros Hb Hn. unfold fmt_u.
  pose proof (digits_of_range 10 n ltac:(lia) Hn) as Hr.
  pose proof (digits_of_value 10 n ltac:(lia) Hn) as Hv.
  destruct (decide (n = 0)) as [->|Hz]; [by destruct Hb as [->| ->]|].
  destruct (digits_head 10 n (S (Z.to_nat (Z.log2 n))) []) as (d & ds & Hd & Hd0);
    [lia|split; [lia|]; apply digits_fuel; lia|].
  change (digits_of 10 n = d :: ds) in Hd. rewrite Hd in *.
  assert (0 <= d < 10) by (by inversion Hr).
  assert (starts_digit 10 (of_digits (d :: ds)) = true) as Hs
    by (simpl; by rewrite digit_in_char by lia).
  unfold strto, split_sign. simpl skip_space. unfold is_space, in_range.
  rewrite !code_digit_char by done.
  replace (48 + d =? 32) with false by lia. replace (9 <=? 48 + d) with true by lia.
  replace (48 + d <=? 13) with false by lia. cbn [orb andb].
  rewrite !code_digit_char by done.
  replace (48 + d =? 45) with false by lia. replace (48 + d =? 43) with false by lia.
  assert (hex_prefix (of_digits (d :: ds)) = None) as Hh.
  { simpl. destruct (of_digits ds); [done|]. rewrite code_digit_char by done.
    by replace (48 + d =? 48) with false by lia. }
  cbn [of_digits] in *. rewrite Hh.
  pose proof (scan_digits_of 10 (d :: ds) "" 0 ltac:(lia) Hr eq_refl) as Hsc.
  rewrite append_nil_r in Hsc. cbn [of_digits] in Hsc.
  destruct Hb as [->| ->]; cbn -[starts_digit scan_digits].
  - rewrite code_digit_char by done. replace (48 + d =? 48) with false by lia. rewrite Hs, Hsc. by rewrite Hv.
  - rewrite Hs, Hsc. by rewrite Hv.
Qed.

Lemma strto_fmt_u n : 0 <= n → strto 0 (fmt_u n) = Some (false, n, "").
Proof. apply strto_fmt_u_base. by left. Qed.

Lemma atoi_fmt_u n : 0 <= n <= INT_MAX → atoi (fmt_u n) = n.
Proof.
  intros Hn. unfold INT_MAX in Hn. unfold atoi, strtol. rewrite strto_fmt_u_base by (lia || by right).
  simpl fst. rewrite Z.min_r, Z.max_r by lia. apply swrap_small; lia.
Qed.

Lemma of_digits_zeros k ds : zeros k +:+ of_digits ds = of_digits (replicate k 0 ++ ds).
Proof. induction k; simpl; [done|]. by rewrite IHk. Qed.

Lemma value_from_zeros b k ds : value_from b 0 (replicate k 0 ++ ds) = value_from b 0 ds.
Proof. induction k; simpl; [done|]. unfold value_from in *; simpl. by replace (0 * b + 0) with 0 by lia. Qed.

(** ... and a zero-padded hexadecimal with its prefix. *)
Lemma strto_fmt_0x w n : 0 <= n → strto 0 ("0x" +:+ fmt_0x w n) = Some (false, n, "").
Proof.
  intros Hn. unfold fmt_0x, fmt_x, pad0. rewrite of_digits_zeros.
  set (k := (w - _)%nat). set (ds := replicate k 0 ++ digits_of 16 n).
  assert (Forall (λ d, 0 <= d < 16) ds) as Hr.
  { apply Forall_app; split; [apply Forall_replicate; lia|]. by apply digits_of_range. }
  assert (value_from 16 0 ds = n) as Hv.
  { unfold ds. rewrite value_from_zeros. by apply digits_of_value. }
  assert (starts_digit 16 (of_digits ds) = true) as Hs.
  { destruct ds as [|d ds'] eqn:E.
    - destruct (digits_of_nonempty 16 n). unfold ds in E. by apply app_eq_nil in E as [_ ?].
    - simpl. inversion Hr; subst. by rewrite digit_in_char by lia. }
  unfold strto. simpl. change (code "0" =? 48) with true.
  change ((code "x" =? 120) || (code "x" =? 88)) with true. rewrite Hs. simpl. rewrite Hs.
  pose proof (scan_digits_of 16 ds "" 0 ltac:(lia) Hr eq_refl) as Hsc.
  rewrite append_nil_r in Hsc. rewrite Hsc. by rewrite Hv.
Qed.

Lemma strtoull_fmt_u n : 0 <= n < 2 ^ 64 → strtoull 0 (fmt_u n) = (n, "").
Proof.
  intros. unfold strtoull. rewrite strto_fmt_u by lia.
  unfold ULLONG_MAX. by zif_true.
Qed.

Lemma strtoull_fmt_0x w n : 0 <= n < 2 ^ 64 → strtoull 0 ("0x" +:+ fmt_0x w n) = (n, "").
Proof.
  intros. unfold strtoull. rewrite strto_fmt_0x by lia.
  unfold ULLONG_MAX. by zif_true.
Qed.

(** A padded hexadecimal that fits has the width asked for. *)
Lemma length_fmt_0x w n : (0 < w)%nat → 0 <= n < 16 ^ Z.of_nat w → String.length (fmt_0x w n) = w.
Proof.
  intros Hw Hn. unfold fmt_0x, fmt_x, pad0. rewrite of_digits_zeros, !length_of_digits, length_app, length_replicate.
  pose proof (length_digits (S (Z.to_nat (Z.log2 n))) 16 n [] w ltac:(lia) Hw Hn) as H.
  fold (digits_of 16 n) in H. cbn [length] in H. lia.
Qed.
