(* ===== verification/PMem.v ===== *)
(** * Physical memory and the DPI memory port
    [init.cpp]: the byte array [pmem], its bounds check, [paddr_read] and
    [paddr_write], and the image loader.  [sys_timer.c]: the microsecond
    clock.  [sim_main.cpp]: [mem_read] and [mem_write], the functions the RTL
    calls for every memory access, with the RTC and the serial port decoded
    before the memory. *)
From stdpp Require Import base numbers list option strings gmap.
From S2P Require Import Prelude Bytes CText.

Local Open Scope Z_scope.

Definition CONFIG_MSIZE : Z := 0x8000000.
Definition CONFIG_PC_RET : Z := 0x80000000.

(** The pointer [pmem + addr - CONFIG_PC_RET], as an offset into [pmem]. *)
Definition get_mem_addr (addr : Z) : Z := addr - CONFIG_PC_RET.

Definition addr_in_mem (addr : Z) : bool :=
  (addr <? CONFIG_PC_RET + CONFIG_MSIZE) && (CONFIG_PC_RET <=? addr).

(** Access of [n] bytes through such a pointer: outside the array it is
    undefined. *)
Definition in_pmem (off : Z) (n : nat) : bool :=
  (0 <=? off) && (off + Z.of_nat n <=? CONFIG_MSIZE).
Definition pmem_load (pmem : bytes) (off : Z) (n : nat) : io Z :=
  if in_pmem off n then mret (load pmem off n) else fail OutOfBounds.
Definition pmem_store (pmem : bytes) (off : Z) (n : nat) (data : Z) : io bytes :=
  if in_pmem off n then mret (store pmem off n data) else fail OutOfBounds.

Definition over_boundry (addr : Z) : string :=
  "addr 0x" +:+ fmt_0x 16 addr +:+ " over mem boundry" +:+ nl.

Definition paddr_read (pmem : bytes) (addr lens : Z) : io Z :=
  if addr_in_mem addr then
    if lens =? 1 then pmem_load pmem (get_mem_addr addr) 1
    else if lens =? 2 then pmem_load pmem (get_mem_addr addr) 2
    else if lens =? 4 then pmem_load pmem (get_mem_addr addr) 4
    else if lens =? 8 then pmem_load pmem (get_mem_addr addr) 8
    else fail AssertFail
  else emit (over_boundry addr);; mret 0.

Definition paddr_write (pmem : bytes) (addr len data : Z) : io bytes :=
  if addr_in_mem addr then
    if len =? 1 then pmem_store pmem (get_mem_addr addr) 1 data
    else if len =? 2 then pmem_store pmem (get_mem_addr addr) 2 data
    else if len =? 4 then pmem_store pmem (get_mem_addr addr) 4 data
    else if len =? 8 then pmem_store pmem (get_mem_addr addr) 8 data
    else fail AssertFail
  else emit (over_boundry addr);; mret pmem.

(** [load_img]: no image argument; a name that cannot be opened ([fopen]
    returns NULL and [fseek] is called on it); a file with its contents.  The
    single element of [size] bytes that [fread] reads is not read when [size]
    is 0, and lands past the array when the file is longer than it. *)
Inductive image :=
| NoImage
| CannotOpen (name : string)
| ImageFile (name : string) (contents : list Z).

Definition load_img (pmem : bytes) (img : image) : io (Z * bytes) :=
  match img with
  | NoImage =>
      emit "No image is given. Use the default build-in image.";; mret (4096, pmem)
  | CannotOpen _ => fail NullDeref
  | ImageFile name contents =>
      let size := Z.of_nat (length contents) in
      emit ("The image is " +:+ name +:+ ", size = " +:+ fmt_d size +:+ nl);;
      if size =? 0 then fail AssertFail
      else if in_pmem 0 (length contents) then mret (size, store_bytes pmem 0 contents)
      else fail OutOfBounds
  end.

(** ** The clock *)

(** [boot_time], and how many times the system clock was read. *)
Record timer := Timer { boot_time : Z; readings : nat }.
Definition timer_init : timer := Timer 0 0.

Section clock.
(** Successive results of [gettimeofday]: seconds and microseconds. *)
Variable gettimeofday : nat → Z * Z.

Definition get_time_internal (t : timer) : Z * timer :=
  let '(tv_sec, tv_usec) := gettimeofday (readings t) in
  (u64 (tv_sec * 1000000 + tv_usec), Timer (boot_time t) (S (readings t))).

Definition get_time (t : timer) : Z * timer :=
  let t :=
    if boot_time t =? 0 then
      let '(us, t') := get_time_internal t in Timer us (readings t')
    else t in
  let '(now, t) := get_time_internal t in
  (u64 (now - boot_time t), t).

(** ** The DPI memory port *)

Definition RTC_HI : Z := 0xa0000048.
Definition RTC_LO : Z := 0xa0000040.
Definition SERIAL : Z := 0xa00003f8.

(** [mem_read]: the eight bytes left in [*rdata] ([rdata] before the call). *)
Definition mem_read (t : timer) (pmem : bytes) (raddr ren rdata : Z) : io (Z * timer) :=
  if truthy ren then
    if (u32 raddr =? RTC_HI) || (u32 raddr =? RTC_LO) then
      mret (get_time t)
    else
      let addr := u32 raddr in
      r_data ← paddr_read pmem addr 8;
      mret (r_data, t)
  else mret (rdata, t).

(** The byte loop of [mem_write]: lane [i] goes to [addr + i]. *)
Fixpoint write_lanes (pmem : bytes) (addr wdata wmask : Z) (lanes : list Z) : io bytes :=
  match lanes with
  | [] => mret pmem
  | i :: lanes =>
      pmem ← (if Z.land wmask (Z.shiftl 1 i) =? Z.shiftl 1 i
              then paddr_write pmem (u32 (addr + i)) 1 (u8 (Z.shiftr wdata (8 * i)))
              else mret pmem);
      write_lanes pmem addr wdata wmask lanes
  end.

Definition mem_write (clk : Z) (pmem : bytes) (waddr wdata wmask wen : Z) : io bytes :=
  if truthy (Z.land wen (Z.b2z (clk =? 1))) then
    if u32 waddr =? SERIAL then emit (one (chr (u8 wdata)));; mret pmem
    else write_lanes pmem (u32 waddr) wdata wmask [0; 1; 2; 3; 4; 5; 6; 7]
  else mret pmem.
End clock.

(** ** Lemmas *)

Lemma paddr_read_fuelled pmem addr lens : fuelled (paddr_read pmem addr lens).
Proof. unfold paddr_read, pmem_load. by repeat case_if. Qed.
Lemma paddr_write_fuelled pmem addr len data : fuelled (paddr_write pmem addr len data).
Proof. unfold paddr_write, pmem_store. by repeat case_if. Qed.
#[export] Hint Resolve paddr_read_fuelled paddr_write_fuelled : sim.

Lemma write_lanes_fuelled lanes pmem addr wdata wmask :
  fuelled (write_lanes pmem addr wdata wmask lanes).
Proof.
  revert pmem. induction lanes; intros pmem; cbn [write_lanes]; [done|].
  apply fuelled_bind; [case_if|]; auto with sim.
Qed.
Lemma mem_read_fuelled gettimeofday t pmem raddr ren rdata :
  fuelled (mem_read gettimeofday t pmem raddr ren rdata).
Proof. unfold mem_read. repeat case_if; auto with sim. Qed.
Lemma mem_write_fuelled clk pmem waddr wdata wmask wen :
  fuelled (mem_write clk pmem waddr wdata wmask wen).
Proof. unfold mem_write. repeat case_if; auto using write_lanes_fuelled with sim. Qed.
#[export] Hint Resolve mem_read_fuelled mem_write_fuelled : sim.

Definition access_len (len : Z) : Prop := len ∈ [1; 2; 4; 8].

(** The access of [len] bytes at [addr] lies inside the array. *)
Definition fits (addr len : Z) : Prop :=
  CONFIG_PC_RET <= addr ∧ addr + len <= CONFIG_PC_RET + CONFIG_MSIZE.
#[global] Instance fits_dec addr len : Decision (fits addr len).
Proof. unfold fits. apply _. Defined.
#[global] Instance access_len_dec len : Decision (access_len len).
Proof. unfold access_len. apply _. Defined.

Lemma fits_in_mem addr len : 0 < len → fits addr len → addr_in_mem addr = true.
Proof.
  unfold fits, addr_in_mem, CONFIG_PC_RET, CONFIG_MSIZE. intros.
  apply andb_true_iff; split; [apply Z.ltb_lt|apply Z.leb_le]; lia.
Qed.

Lemma in_pmem_fits addr n :
  in_pmem (get_mem_addr addr) n = bool_decide (fits addr (Z.of_nat n)).
Proof.
  unfold in_pmem, get_mem_addr, fits, CONFIG_PC_RET, CONFIG_MSIZE.
  symmetry. case_bool_decide; symmetry.
  - apply andb_true_iff; split; apply Z.leb_le; lia.
  - apply andb_false_iff. destruct (decide (0 <= addr - 0x80000000)); [right|left]; lia.
Qed.

(** Both accessors, at every legal width, in one equation. *)
Lemma paddr_read_len pmem addr len :
  access_len len → addr_in_mem addr = true →
  paddr_read pmem addr len = pmem_load pmem (get_mem_addr addr) (Z.to_nat len).
Proof.
  intros Hl Hm. unfold paddr_read. rewrite Hm. unfold access_len in Hl.
  rewrite !elem_of_cons, elem_of_nil in Hl. by destruct Hl as [->|[->|[->|[->|[]]]]].
Qed.

Lemma paddr_write_len pmem addr len data :
  access_len len → addr_in_mem addr = true →
  paddr_write pmem addr len data = pmem_store pmem (get_mem_addr addr) (Z.to_nat len) data.
Proof.
  intros Hl Hm. unfold paddr_write. rewrite Hm. unfold access_len in Hl.
  rewrite !elem_of_cons, elem_of_nil in Hl. by destruct Hl as [->|[->|[->|[->|[]]]]].
Qed.

Lemma access_len_pos len : access_len len → 0 < len.
Proof. unfold access_len. rewrite !elem_of_cons, elem_of_nil. lia. Qed.

Lemma paddr_read_fits pmem addr len :
  access_len len → fits addr len →
  paddr_read pmem addr len = mret (load pmem (get_mem_addr addr) (Z.to_nat len)).
Proof.
  intros Hl Hf. pose proof (access_len_pos _ Hl).
  rewrite paddr_read_len by eauto using fits_in_mem.
  unfold pmem_load. rewrite in_pmem_fits, bool_decide_eq_true_2; [done|].
  by rewrite Z2Nat.id by lia.
Qed.

Lemma paddr_write_fits pmem addr len data :
  access_len len → fits addr len →
  paddr_write pmem addr len data = mret (store pmem (get_mem_addr addr) (Z.to_nat len) data).
Proof.
  intros Hl Hf. pose proof (access_len_pos _ Hl).
  rewrite paddr_write_len by eauto using fits_in_mem.
  unfold pmem_store. rewrite in_pmem_fits, bool_decide_eq_true_2; [done|].
  by rewrite Z2Nat.id by lia.
Qed.

(** Which lanes a mask selects, and what they hold. *)
Definition lane_on (wmask i : Z) : bool := Z.land wmask (Z.shiftl 1 i) =? Z.shiftl 1 i.
Definition lane_byte (wdata i : Z) : Z := u8 (Z.shiftr wdata (8 * i)).

Lemma lane_on_testbit wmask i : 0 <= i → lane_on wmask i = Z.testbit wmask i.
Proof.
  intros Hi. unfold lane_on. rewrite Z.shiftl_1_l.
  destruct (Z.testbit wmask i) eqn:E.
  - apply Z.eqb_eq. apply Z.bits_inj'. intros n Hn.
    rewrite Z.land_spec, Z.pow2_bits_eqb by done.
    destruct (Z.eqb_spec i n) as [<-|]; [by rewrite E|by rewrite andb_false_r].
  - apply Z.eqb_neq. intros H. apply (f_equal (λ z, Z.testbit z i)) in H.
    rewrite Z.land_spec, Z.pow2_bits_true, E in H by done. done.
Qed.

Lemma get_store_1 pmem off b k :
  is_byte b → get (store pmem off 1 b) k = if decide (k = off) then b else get pmem k.
Proof.
  intros Hb. unfold store. rewrite get_store_bytes, length_le_split. simpl.
  case_decide.
  - assert (k = off) as -> by lia. rewrite decide_True by done.
    rewrite Z.sub_diag. simpl. by apply Z.mod_small.
  - by rewrite decide_False by lia.
Qed.

(** The byte loop writes exactly the selected lanes among those it visits. *)
Lemma write_lanes_get lanes pmem addr wdata wmask :
  fits addr 8 → NoDup lanes → Forall (λ i, 0 <= i < 8) lanes →
  ∃ pmem', write_lanes pmem addr wdata wmask lanes = mret pmem' ∧
    ∀ k, get pmem' k =
      let i := k - get_mem_addr addr in
      if decide (i ∈ lanes) then if lane_on wmask i then lane_byte wdata i else get pmem k
      else get pmem k.
Proof.
  intros Hf. revert pmem. induction lanes as [|i lanes IH]; intros pmem Hnd Hall; cbn [write_lanes].
  - exists pmem. split; [done|]. intros k. cbv zeta.
    rewrite decide_False; [done|]. by intros ?%elem_of_nil.
  - apply NoDup_cons in Hnd as [Hi Hnd]. apply Forall_cons in Hall as [Hb Hall].
    fold (lane_on wmask i). fold (lane_byte wdata i).
    assert (is_byte (lane_byte wdata i)) as Hbyte by (apply wrap_range; lia).
    assert (u32 (addr + i) = addr + i) as Hu.
    { unfold fits, CONFIG_PC_RET, CONFIG_MSIZE in Hf. apply wrap_small. lia. }
    destruct (lane_on wmask i) eqn:Hon.
    + rewrite Hu, paddr_write_fits; [|by left|unfold fits in *; lia].
      rewrite io_bind_ret_l. change (Z.to_nat 1) with 1%nat.
      edestruct (IH (store pmem (get_mem_addr (addr + i)) 1
        (lane_byte wdata i)) Hnd Hall) as (pmem' & -> & Hg).
      exists pmem'. split; [done|]. intros k. rewrite Hg. cbv zeta.
      unfold get_mem_addr. rewrite get_store_1 by done.
      set (j := k - (addr - CONFIG_PC_RET)).
      destruct (decide (j = i)) as [Hj|Hj].
      * rewrite Hj. rewrite decide_False by done. rewrite decide_True by lia.
        rewrite decide_True by (by left). by rewrite Hon.
      * rewrite (decide_False (P := k = _)) by lia.
        destruct (decide (j ∈ lanes)); [rewrite decide_True by (by right); done|].
        rewrite decide_False; [done|]. by intros [?|?]%elem_of_cons.
    + rewrite io_bind_ret_l. destruct (IH pmem Hnd Hall) as (pmem' & -> & Hg).
      exists pmem'. split; [done|]. intros k. rewrite Hg. cbv zeta.
      set (j := k - get_mem_addr addr).
      destruct (decide (j ∈ lanes)); [rewrite decide_True by (by right); done|].
      destruct (decide (j ∈ i :: lanes)) as [[->|?]%elem_of_cons|]; [by rewrite Hon|done|done].
Qed.

(** The little-endian word with the masked bytes of [wdata] over [old]. *)
Definition merge_lanes (old wdata wmask : Z) : Z :=
  le_combine (map (λ i, if Z.testbit wmask i then lane_byte wdata i else lane_byte old i)
                [0; 1; 2; 3; 4; 5; 6; 7]).

Lemma load_8_map pmem off :
  load pmem off 8 = le_combine (map (λ i, get pmem (off + i)) [0; 1; 2; 3; 4; 5; 6; 7]).
Proof.
  unfold load. f_equal. cbn [load_bytes map].
  rewrite <- !Z.add_assoc, Z.add_0_r. done.
Qed.

Lemma lane_byte_load pmem off i :
  bytes_ok pmem → 0 <= i < 8 → lane_byte (load pmem off 8) i = get pmem (off + i).
Proof.
  intros Hok Hi. pose proof (bytes_ok_load pmem off 8 Hok) as Hb.
  pose proof (le_split_combine _ Hb) as Hsplit. rewrite length_load_bytes in Hsplit.
  fold (load pmem off 8) in Hsplit. unfold lane_byte, u8, wrap.
  rewrite Z.shiftr_div_pow2 by lia.
  assert (∀ n z j, (j < n)%nat →
    le_split n z !! j = Some ((z / 2 ^ (8 * Z.of_nat j)) mod 2 ^ 8)) as Hnth.
  { intros n. induction n as [|n IH]; intros z j Hj; [lia|]. destruct j; simpl.
    - by rewrite Z.div_1_r.
    - rewrite IH by lia. do 2 f_equal. rewrite Z.div_div by (try apply pow2_pos; lia).
      f_equal. rewrite <- Z.pow_add_r by lia. f_equal. lia. }
  specialize (Hnth 8%nat (load pmem off 8) (Z.to_nat i) ltac:(lia)).
  rewrite Hsplit, load_bytes_lookup, Z2Nat.id in Hnth by lia. by injection Hnth.
Qed.

Lemma fits_not_device addr len :
  0 < len → fits addr len → (addr =? RTC_HI) = false ∧ (addr =? RTC_LO) = false ∧ (addr =? SERIAL) = false.
Proof.
  unfold fits, RTC_HI, RTC_LO, SERIAL, CONFIG_PC_RET, CONFIG_MSIZE. intros.
  split_and!; apply Z.eqb_neq; lia.
Qed.

Section clock_facts.
Variable gettimeofday : nat → Z * Z.

(** Reading [n] of the clock in microseconds, and the results of [n] calls of
    [get_time] one after the other. *)
Definition clock_us (n : nat) : Z := (gettimeofday n).1 * 1000000 + (gettimeofday n).2.

Fixpoint get_times (n : nat) (t : timer) : list Z :=
  match n with
  | O => []
  | S n => let '(v, t') := get_time gettimeofday t in v :: get_times n t'
  end.

Lemma get_time_booted t :
  0 < boot_time t → boot_time t <= clock_us (readings t) < 2 ^ 64 →
  get_time gettimeofday t
  = (clock_us (readings t) - boot_time t, Timer (boot_time t) (S (readings t))).
Proof.
  intros Hb Hc. unfold get_time. zif_false. unfold get_time_internal, clock_us in *.
  destruct (gettimeofday (readings t)) as [s us]; simpl in *.
  unfold u64. rewrite (wrap_small 64 (s * 1000000 + us)) by lia.
  by rewrite wrap_small by lia.
Qed.

Lemma get_times_booted n t :
  0 < boot_time t →
  (∀ i, (i < n)%nat → boot_time t <= clock_us (readings t + i) < 2 ^ 64) →
  get_times n t = map (λ i, clock_us i - boot_time t) (seq (readings t) n).
Proof.
  revert t; induction n as [|n IH]; intros t Hb Hc; simpl; [done|].
  rewrite get_time_booted; [|done|].
  - f_equal. rewrite IH; [done|done|]. intros i Hi. simpl.
    replace (S (readings t + i)) with (readings t + S i)%nat by lia. apply Hc. lia.
  - replace (readings t) with (readings t + 0)%nat by lia. apply Hc. lia.
Qed.
End clock_facts.

(** ** Properties *)

(** C6. A masked 8-byte write through the DPI port followed by a read of the
    same address returns, byte lane by byte lane, the written byte where the
    mask bit is set and the old byte elsewhere; no byte outside the eight
    lanes changes and the array still holds bytes only. *)
Theorem mem_write_read_merge gettimeofday t pmem waddr wdata wmask rdata :
  bytes_ok pmem → fits (u32 waddr) 8 →
  ∃ pmem', mem_write 1 pmem waddr wdata wmask 1 = mret pmem' ∧
    bytes_ok pmem' ∧
    mem_read gettimeofday t pmem' waddr 1 rdata
      = mret (merge_lanes (load pmem (get_mem_addr (u32 waddr)) 8) wdata wmask, t) ∧
    ∀ k, k < get_mem_addr (u32 waddr) ∨ get_mem_addr (u32 waddr) + 8 <= k →
      get pmem' k = get pmem k.
Proof.
  intros Hok Hf. destruct (fits_not_device _ 8 ltac:(lia) Hf) as (H1 & H2 & H3).
  unfold mem_write. rewrite H3. change (truthy _) with true. cbv iota.
  edestruct (write_lanes_get [0; 1; 2; 3; 4; 5; 6; 7] pmem (u32 waddr) wdata wmask Hf)
    as (pmem' & -> & Hg); [by apply (bool_decide_eq_true _)|repeat constructor; lia|].
  cbv zeta in Hg. exists pmem'. split; [done|]. split_and!.
  - intros k. rewrite Hg. repeat case_match; try apply Hok. apply wrap_range. lia.
  - unfold mem_read. rewrite H1, H2. simpl orb. change (truthy 1) with true. cbv iota.
    rewrite paddr_read_fits by (done || (unfold access_len; set_solver)).
    rewrite io_bind_ret_l. do 2 f_equal. change (Z.to_nat 8) with 8%nat.
    rewrite load_8_map. unfold merge_lanes. f_equal.
    apply map_ext_in. intros i Hi%list_elem_of_In. rewrite Hg.
    replace (get_mem_addr (u32 waddr) + i - get_mem_addr (u32 waddr)) with i by lia.
    rewrite decide_True by done.
    assert (0 <= i < 8) by (rewrite !elem_of_cons, elem_of_nil in Hi; lia).
    rewrite lane_on_testbit by lia. by rewrite lane_byte_load.
  - intros k Hk. rewrite Hg. rewrite decide_False; [done|].
    rewrite !elem_of_cons, elem_of_nil. lia.
Qed.

Lemma mem_write_read_merge_witness :
  ∃ pmem', mem_write 1 ∅ 0x80000010 0x1122334455667788 0x0f 1 = mret pmem' ∧
    mem_read (λ _, (0, 0)) timer_init pmem' 0x80000010 1 0 = mret (0x55667788, timer_init).
Proof.
  destruct (mem_write_read_merge (λ _, (0, 0)) timer_init ∅ 0x80000010 0x1122334455667788 0x0f 0
    bytes_ok_empty ltac:(decide_now))
    as (p & Hw & _ & Hr & _).
  exists p. split; [exact Hw|]. rewrite Hr. vm_compute. reflexivity.
Defined.

(** Reading back a value written at any legal width gives the value reduced
    to that width, and no access of a disjoint range notices the write. *)
Theorem paddr_write_read pmem addr len data :
  access_len len → fits addr len →
  ∃ pmem', paddr_write pmem addr len data = mret pmem' ∧
    paddr_read pmem' addr len = mret (data mod 2 ^ (8 * len)) ∧
    ∀ addr2 len2, access_len len2 → fits addr2 len2 →
      addr2 + len2 <= addr ∨ addr + len <= addr2 →
      paddr_read pmem' addr2 len2 = paddr_read pmem addr2 len2.
Proof.
  intros Hl Hf. pose proof (access_len_pos _ Hl). eexists. split_and!.
  - by apply paddr_write_fits.
  - rewrite paddr_read_fits, load_store by done. by rewrite Z2Nat.id by lia.
  - intros addr2 len2 Hl2 Hf2 Hd. pose proof (access_len_pos _ Hl2).
    rewrite !paddr_read_fits by done. f_equal. apply load_store_disjoint.
    unfold get_mem_addr. lia.
Qed.

Lemma paddr_write_read_witness :
  ∃ pmem', paddr_write ∅ 0x87fffffc 4 0x1deadbeef = mret pmem' ∧
    paddr_read pmem' 0x87fffffc 4 = mret 0xdeadbeef.
Proof.
  destruct (paddr_write_read ∅ 0x87fffffc 4 0x1deadbeef) as (p & Hw & Hr & _).
  - decide_now.
  - decide_now.
  - exists p. split; [exact Hw|]. rewrite Hr. vm_compute. reflexivity.
Defined.

(** At a legal width [paddr_read] stops with a fault exactly when the
    bounds check accepts the first byte of an access whose last byte is past
    the end of [pmem]; every other call returns. *)
Theorem paddr_read_fault_iff pmem addr len f :
  access_len len →
  result (paddr_read pmem addr len) = Fault f ↔
  f = OutOfBounds ∧ addr_in_mem addr = true ∧ ¬ fits addr len.
Proof.
  intros Hl. destruct (addr_in_mem addr) eqn:Hm.
  - rewrite paddr_read_len by done. unfold pmem_load. rewrite in_pmem_fits, Z2Nat.id.
    + case_bool_decide; simpl; naive_solver.
    + apply access_len_pos in Hl. lia.
  - unfold paddr_read. rewrite Hm. naive_solver.
Qed.

Lemma paddr_read_fault_witness :
  result (paddr_read ∅ 0x87fffffc 8) = Fault OutOfBounds.
Proof.
  apply (paddr_read_fault_iff ∅ 0x87fffffc 8 OutOfBounds).
  - decide_now.
  - split_and!; [reflexivity|vm_compute; reflexivity|].
    decide_now.
Defined.

(** With a clock that never goes below its first reading, the [n] first
    calls of [get_time] return the microseconds elapsed since that first
    reading: the first call reads the clock twice, every later one once. *)
Theorem get_times_elapsed gettimeofday n :
  (∀ i, (i <= n)%nat → 0 < clock_us gettimeofday 0 <= clock_us gettimeofday i) →
  (∀ i, (i <= n)%nat → clock_us gettimeofday i < 2 ^ 64) →
  get_times gettimeofday n timer_init
  = map (λ i, clock_us gettimeofday i - clock_us gettimeofday 0) (seq 1 n).
Proof.
  intros Hlo Hhi. destruct n as [|n]; [done|].
  assert (get_times gettimeofday (S n) timer_init
    = get_times gettimeofday (S n) (Timer (clock_us gettimeofday 0) 1)) as ->.
  { simpl. unfold get_time at 1. simpl boot_time. change (0 =? 0) with true. cbv iota.
    unfold get_time_internal at 1 2. simpl readings.
    destruct (gettimeofday 0%nat) as [s us] eqn:E0.
    assert (u64 (s * 1000000 + us) = clock_us gettimeofday 0) as ->.
    { specialize (Hlo 0%nat ltac:(lia)). specialize (Hhi 0%nat ltac:(lia)).
      unfold clock_us, u64 in *. rewrite E0 in *. simpl in *. apply wrap_small. lia. }
    unfold get_time at 1. simpl boot_time.
    specialize (Hlo 0%nat ltac:(lia)). by zif_false. }
  apply (get_times_booted gettimeofday (S n) (Timer (clock_us gettimeofday 0) 1)); simpl.
  - specialize (Hlo 0%nat ltac:(lia)). lia.
  - intros i Hi. specialize (Hlo (S i) ltac:(lia)). specialize (Hhi (S i) ltac:(lia)). lia.
Qed.

Lemma get_times_elapsed_witness :
  get_times (λ i, (7, 10 * Z.of_nat i)) 3 timer_init = [10; 20; 30].
Proof.
  rewrite (get_times_elapsed (λ i, (7, 10 * Z.of_nat i)) 3).
  - vm_compute. reflexivity.
  - intros i Hi. unfold clock_us. simpl. lia.
  - intros i Hi. unfold clock_us. simpl. lia.
Defined.
