(* ===== verification/Watch.v ===== *)
(** * The watchpoint pool
    [watchpoint.cpp]: thirty-two nodes linked into a list of watchpoints in use
    ([head]) and a list of free nodes ([free_]).  Nodes are shared between the
    two lists through their [next] pointers, so the pool is modelled as the
    array of nodes with pointers as optional indices, and the lists are read
    off it by [chain]. *)
From stdpp Require Import base numbers list option strings relations.
From S2P Require Import Prelude CText.

Local Open Scope Z_scope.

Definition NR_WP : nat := 32.

Record WP := mkWP {
  NO : Z;
  next : option nat;
  string_ : option string;
  value : Z
}.

Record pool := Pool {
  wp_pool : list WP;
  head : option nat;
  free_ : option nat
}.

Definition set_next (w : WP) (n : option nat) : WP := mkWP (NO w) n (string_ w) (value w).

Definition init_node (i : nat) : WP :=
  mkWP (Z.of_nat i) (if (i =? NR_WP - 1)%nat then None else Some (S i)) None 0.
Definition init_wp_pool : pool :=
  Pool (init_node <$> seq 0 NR_WP) None (Some 0%nat).

(** Following a pointer. *)
Definition deref (ns : list WP) (p : option nat) : io (nat * WP) :=
  match p with
  | None => fail NullDeref
  | Some i => match ns !! i with Some w => mret (i, w) | None => fail OutOfBounds end
  end.

Definition new_wp (p : pool) : io (nat * pool) :=
  match free_ p with
  | None => fail AssertFail
  | Some _ =>
      '(tmp, t) ← deref (wp_pool p) (free_ p);
      let p := Pool (<[tmp := set_next t (head p)]> (wp_pool p)) (Some tmp) (next t) in
      emit ("Set watchpoint " +:+ fmt_d (NO t) +:+ nl);;
      mret (tmp, p)
  end.

(** The search loop of [free_wp]: from [p1], with [p2] the node before it, to
    the node numbered [no].  The fuel bounds the walk; the pool has 32 nodes. *)
Fixpoint find_wp (fuel : nat) (ns : list WP) (no : Z) (p1 p2 : option nat) :
    io (nat * option nat) :=
  '(i, w) ← deref ns p1;
  if NO w =? no then mret (i, p2)
  else match fuel with
       | O => fail OutOfFuel
       | S f => find_wp f ns no (next w) p1
       end.

Definition free_wp (wp : nat) (p : pool) : io pool :=
  let ns := wp_pool p in
  '(_, w) ← deref ns (Some wp);
  '(h, wh) ← deref ns (head p);
  '(p1, p) ←
    (if NO wh =? NO w then
       emit ("Free watchpoint " +:+ fmt_d (NO wh) +:+ nl);;
       mret (h, Pool ns (next wh) (free_ p))
     else
       '(p1, p2) ← find_wp NR_WP ns (NO w) (head p) (head p);
       '(_, w1) ← deref ns (Some p1);
       '(i2, w2) ← deref ns p2;
       emit ("Free watchpoint " +:+ fmt_d (NO w1) +:+ nl);;
       mret (p1, Pool (<[i2 := set_next w2 (next w1)]> ns) (head p) (free_ p)));
  '(_, wf) ← deref (wp_pool p) (free_ p);
  '(_, w1) ← deref (wp_pool p) (Some p1);
  mret (Pool (<[p1 := set_next w1 (next wf)]> (wp_pool p)) (head p) (Some p1)).

(** ** The lists the pool holds *)

Inductive chain (ns : list WP) : option nat → list nat → Prop :=
| chain_nil : chain ns None []
| chain_cons i w l : ns !! i = Some w → chain ns (next w) l → chain ns (Some i) (i :: l).
#[export] Hint Constructors chain : sim.

(** The pool [p] holds the watchpoints [hs] in use and the free nodes [fs]. *)
Record holds (p : pool) (hs fs : list nat) : Prop := Holds {
  holds_len : length (wp_pool p) = NR_WP;
  holds_no : ∀ i w, wp_pool p !! i = Some w → NO w = Z.of_nat i;
  holds_head : chain (wp_pool p) (head p) hs;
  holds_free : chain (wp_pool p) (free_ p) fs;
  holds_nodup : NoDup (hs ++ fs)
}.

Lemma chain_insert (ns : list WP) p l i w : chain ns p l → i ∉ l → chain (<[i := w]> ns) p l.
Proof.
  induction 1 as [|j v l Hj Hc IH]; intros Hi; [constructor|].
  apply not_elem_of_cons in Hi as [Hne Hi].
  econstructor; [|by apply IH]. by rewrite list_lookup_insert_ne.
Qed.

Lemma chain_lt (ns : list WP) p l i : chain ns p l → i ∈ l → (i < length ns)%nat.
Proof.
  induction 1; intros Hi; [by apply elem_of_nil in Hi|].
  apply elem_of_cons in Hi as [->|Hi]; [by eapply lookup_lt_Some|auto].
Qed.

Lemma holds_init : holds init_wp_pool [] (seq 0 NR_WP).
Proof.
  split.
  - done.
  - intros i w H. change ((init_node <$> seq 0 NR_WP) !! i = Some w) in H.
    apply list_lookup_fmap_Some in H as (j & -> & Hj).
    apply lookup_seq in Hj as [-> _]. done.
  - constructor.
  - simpl free_. unfold NR_WP.
    repeat (econstructor; [vm_compute; reflexivity|]; cbn [next]). constructor.
  - rewrite app_nil_l. apply NoDup_seq.
Qed.

Lemma holds_lookup p hs fs i : holds p hs fs → i ∈ hs ++ fs → ∃ w, wp_pool p !! i = Some w.
Proof.
  intros H Hi. apply lookup_lt_is_Some. apply elem_of_app in Hi as [Hi|Hi];
    [eapply chain_lt, Hi; apply H|eapply chain_lt, Hi; apply H].
Qed.

Lemma no_insert (ns : list WP) (j : nat) v n :
  (∀ i w, ns !! i = Some w → NO w = Z.of_nat i) → ns !! j = Some v → ∀ i w, <[j := set_next v n]> ns !! i = Some w → NO w = Z.of_nat i.
Proof.
  intros no Hj i w Hi. apply list_lookup_insert_Some in Hi as [(<- & <- & _)|(_ & Hi)]; [exact (no _ _ Hj)|eauto].
Qed.

Lemma deref_Some (ns : list WP) i w : ns !! i = Some w → deref ns (Some i) = mret (i, w).
Proof. intros H. unfold deref. by rewrite H. Qed.

(** Numbers identify nodes. *)
Lemma no_eqb p hs fs i j w v :
  holds p hs fs → wp_pool p !! i = Some w → wp_pool p !! j = Some v →
  (NO w =? NO v) = bool_decide (i = j).
Proof.
  intros H Hi Hj. rewrite (holds_no _ _ _ H i w Hi), (holds_no _ _ _ H j v Hj).
  case_bool_decide; [apply Z.eqb_eq|apply Z.eqb_neq]; lia.
Qed.

(** The search finds a node of the list together with the one before it. *)
Lemma find_wp_chain fuel (ns : list WP) no q pre i w post p2 :
  chain ns q (pre ++ i :: post) →
  (∀ j v, j ∈ pre → ns !! j = Some v → NO v ≠ no) →
  ns !! i = Some w → NO w = no → (length pre <= fuel)%nat →
  find_wp fuel ns no q p2 = mret (i, from_option Some p2 (last pre)).
Proof.
  revert fuel q p2; induction pre as [|j pre IH]; intros fuel q p2 Hc Hpre Hi Hno Hf.
  - inversion Hc as [|? v ? Hv]; subst. rewrite Hi in Hv. simplify_eq.
    destruct fuel; unfold find_wp; rewrite (deref_Some _ _ _ Hi), io_bind_ret_l;
      by rewrite Z.eqb_refl.
  - inversion Hc as [|? v ? Hv Hc']; subst. destruct fuel as [|fuel]; [simpl in Hf; lia|].
    cbn [find_wp]. rewrite (deref_Some _ _ _ Hv), io_bind_ret_l. cbv beta iota.
    rewrite (proj2 (Z.eqb_neq _ _)); [|by eapply Hpre; [left|]].
    rewrite IH; [|done| |done|done|simpl in Hf; lia].
    + do 2 f_equal. destruct pre as [|k pre]; [done|]. change (last (j :: k :: pre)) with (last (k :: pre)).
      destruct (last_is_Some (k :: pre)) as [_ Hl]. by destruct (Hl ltac:(done)) as [? ->].
    + intros k u Hk. apply Hpre. by right.
Qed.

Lemma chain_unlink (ns : list WP) q pre j i post wj wi :
  chain ns q (pre ++ j :: i :: post) → ns !! j = Some wj → ns !! i = Some wi →
  NoDup (pre ++ j :: i :: post) →
  chain (<[j := set_next wj (next wi)]> ns) q (pre ++ j :: post).
Proof.
  intros Hc Hj Hi. revert q Hc; induction pre as [|k pre IH]; intros q Hc Hnd; simpl in *.
  - inversion Hc as [|? v ? Hv Hc']; subst. rewrite Hj in Hv; simplify_eq.
    inversion Hc' as [|? u ? Hu Hc'' Hn]; subst. rewrite Hi in Hu; simplify_eq.
    apply NoDup_cons in Hnd as [Hnj Hnd].
    econstructor; [apply list_lookup_insert_eq; by eapply lookup_lt_Some|].
    cbn [next set_next]. apply chain_insert; [done|]. set_solver.
  - inversion Hc as [|? v ? Hv Hc']; subst. apply NoDup_cons in Hnd as [Hnk Hnd].
    econstructor; [|by apply IH]. rewrite list_lookup_insert_ne; [done|]. set_solver.
Qed.

Lemma NoDup_length_lt (l : list nat) n : NoDup l → (∀ x, x ∈ l → (x < n)%nat) → (length l <= n)%nat.
Proof.
  intros Hnd Hlt. replace n with (length (seq 0 n)) by apply length_seq.
  apply submseteq_length.
  apply NoDup_submseteq; [done|]. intros x Hx. apply elem_of_seq. specialize (Hlt x Hx). lia.
Qed.

(** Moving the unlinked node to the front of the free list, over its head. *)
Lemma holds_recycle ns hp f fs i wi wf hs :
  length ns = NR_WP → (∀ j w, ns !! j = Some w → NO w = Z.of_nat j) →
  chain ns hp hs → chain ns (Some f) (f :: fs) →
  ns !! i = Some wi → ns !! f = Some wf → NoDup (i :: hs ++ f :: fs) →
  holds (Pool (<[i := set_next wi (next wf)]> ns) hp (Some i)) hs (i :: fs).
Proof.
  intros Hlen Hno Hh Hf Hi Hwf Hnd.
  assert (i ∉ hs ∧ i ≠ f ∧ i ∉ fs) as (Hihs & Hif & Hifs) by (apply NoDup_cons in Hnd; set_solver).
  split; simpl.
  - by rewrite length_insert.
  - by apply no_insert.
  - by apply chain_insert.
  - econstructor; [apply list_lookup_insert_eq; by eapply lookup_lt_Some|].
    cbn [next set_next]. apply chain_insert; [|done].
    inversion Hf as [|? v ? Hv Hc]; subst. rewrite Hwf in Hv. by simplify_eq.
  - apply NoDup_cons in Hnd as [_ Hnd]. apply NoDup_app in Hnd as (N1 & N2 & N3).
    apply NoDup_cons in N3 as [_ N3].
    apply NoDup_app. split; [done|]. split; [|by apply NoDup_cons].
    intros x Hx [->|Hx']%elem_of_cons; [done|]. by eapply N2; [|right].
Qed.

Lemma new_wp_ok p hs i fs :
  holds p hs (i :: fs) →
  ∃ p', new_wp p = (["Set watchpoint " +:+ fmt_d (Z.of_nat i) +:+ nl], Ok (i, p')) ∧
        holds p' (i :: hs) fs.
Proof.
  intros H. pose proof (holds_free _ _ _ H) as Hf. inversion Hf as [|? w ? Hw Hc Hp]; subst.
  unfold new_wp. rewrite <- Hp, (deref_Some _ _ _ Hw), io_bind_ret_l. cbv beta iota zeta.
  rewrite (holds_no _ _ _ H _ _ Hw). eexists. split; [done|].
  pose proof (holds_nodup _ _ _ H) as Hnd. apply NoDup_app in Hnd as (N1 & N2 & N3).
  apply NoDup_cons in N3 as [Hi N3].
  assert (i ∉ hs) by (intros Hx; by eapply N2; [|left]).
  split; simpl.
  - rewrite length_insert. apply H.
  - apply no_insert; [apply H|done].
  - econstructor; [apply list_lookup_insert_eq; by eapply lookup_lt_Some|].
    cbn [next set_next]. apply chain_insert; [apply H|done].
  - by apply chain_insert.
  - apply NoDup_cons. split; [|apply NoDup_app; split_and!; [done| |done]].
    + set_solver.
    + intros x Hx Hx'. by eapply N2; [|right].
Qed.

Lemma new_wp_exhausted p hs : holds p hs [] → new_wp p = fail AssertFail.
Proof.
  intros H. pose proof (holds_free _ _ _ H) as Hf. unfold new_wp. by inversion Hf.
Qed.

(** What [free_wp] has done just before it touches the free list. *)
Lemma free_wp_unlink p hs fs i :
  holds p hs fs → i ∈ hs →
  ∃ ns' hp' wi hs1 hs2, hs = hs1 ++ i :: hs2 ∧
    length ns' = NR_WP ∧ (∀ j w, ns' !! j = Some w → NO w = Z.of_nat j) ∧
    chain ns' hp' (hs1 ++ hs2) ∧ chain ns' (free_ p) fs ∧ ns' !! i = Some wi ∧
    free_wp i p =
      (emit ("Free watchpoint " +:+ fmt_d (Z.of_nat i) +:+ nl);;
       '(_, wf) ← deref ns' (free_ p);
       mret (Pool (<[i := set_next wi (next wf)]> ns') hp' (Some i))).
Proof.
  intros H Hin. destruct (list_elem_of_split _ _ Hin) as (hs1 & hs2 & ->).
  pose proof (holds_head _ _ _ H) as Hh. pose proof (holds_free _ _ _ H) as Hf.
  pose proof (holds_nodup _ _ _ H) as Hnd. apply NoDup_app in Hnd as (N1 & N2 & N3).
  assert (i ∉ fs) as Hifs by (apply N2; set_solver).
  destruct (holds_lookup _ _ _ i H ltac:(set_solver)) as [w Hw].
  destruct hs1 as [|h hs1 _] using rev_ind.
  - inversion Hh as [|? v ? Hv Hc Hp]; subst. rewrite Hw in Hv; simplify_eq.
    exists (wp_pool p), (next v), v, [], hs2. split_and!; try done; [apply H|apply H|].
    unfold free_wp. rewrite <- Hp, (deref_Some _ _ _ Hw), !io_bind_ret_l. cbv beta iota.
    rewrite Z.eqb_refl, (holds_no _ _ _ H _ _ Hw), io_bind_assoc. cbv beta.
    f_equal. rewrite io_bind_ret_l. cbn [wp_pool free_ head].
    by rewrite (deref_Some _ _ _ Hw).
  - rewrite <- app_assoc in Hh, N1. simpl in Hh, N1.
    destruct (holds_lookup _ _ _ h H ltac:(set_solver)) as [wh Hwh].
    pose proof (holds_len _ _ _ H) as Hlen.
    assert (length (hs1 ++ [h]) <= NR_WP)%nat as Hfuel.
    { assert (NoDup ((hs1 ++ [h]) ++ i :: hs2)) as Hx by (by rewrite <- app_assoc).
      apply NoDup_app in Hx as [Hx _]. rewrite <- Hlen. apply NoDup_length_lt; [done|].
      intros x Hx'. eapply chain_lt; [exact Hh|set_solver]. }
    pose proof N1 as Nhs. apply NoDup_app in Nhs as (_ & Npre & Nhs).
    apply NoDup_cons in Nhs as [Nh Nhs].
    assert (h ≠ i) as Hhi by set_solver.
    assert (i ∉ hs1) as Hihs1 by set_solver.
    assert (∃ h0 t, hs1 ++ h :: i :: hs2 = h0 :: t ∧ h0 ≠ i) as (h0 & t & Et & Hh0).
    { destruct hs1 as [|h0 hs1]; eexists _, _; (split; [done|]); set_solver. }
    rewrite Et in Hh. inversion Hh as [|? w0 ? Hw0 _ Hp]; subst. rewrite <- Et in Hh.
    exists (<[h := set_next wh (next w)]> (wp_pool p)), (head p), w, (hs1 ++ [h]), hs2.
    rewrite <- !app_assoc. simpl. split_and!; [done| | | | | |].
    + by rewrite length_insert.
    + apply no_insert; [apply H|done].
    + by apply chain_unlink with i.
    + apply chain_insert; [done|]. intros Hx. apply (N2 h); [set_solver|done].
    + by rewrite list_lookup_insert_ne.
    + assert (deref (wp_pool p) (head p) = mret (h0, w0)) as Hd
        by (rewrite <- Hp; by apply deref_Some).
      unfold free_wp. rewrite (deref_Some _ _ _ Hw), Hd, !io_bind_ret_l. cbv beta iota.
      rewrite (no_eqb _ _ _ h0 i _ _ H Hw0 Hw), bool_decide_eq_false_2 by done.
      rewrite (find_wp_chain NR_WP _ _ _ (hs1 ++ [h]) i w hs2);
        [|by rewrite <- app_assoc|intros j v Hj Hv Ej|done|done|done].
      2: { apply Z.eqb_eq in Ej. rewrite (no_eqb _ _ _ j i _ _ H Hv Hw) in Ej.
           apply bool_decide_eq_true in Ej as ->. set_solver. }
      rewrite last_snoc, io_bind_ret_l. cbn [from_option].
      rewrite (deref_Some _ _ _ Hw), io_bind_ret_l, (deref_Some _ _ _ Hwh), io_bind_ret_l.
      cbv beta iota. rewrite (holds_no _ _ _ H _ _ Hw), io_bind_assoc. f_equal.
      rewrite io_bind_ret_l. cbn [wp_pool free_ head].
      by rewrite (deref_Some (<[h:=_]> _) i w) by (by rewrite list_lookup_insert_ne).
Qed.

Lemma free_wp_null p hs i :
  holds p hs [] → i ∈ hs → result (free_wp i p) = Fault NullDeref.
Proof.
  intros H Hi. destruct (free_wp_unlink _ _ _ _ H Hi)
    as (ns & hp & wi & hs1 & hs2 & -> & Hlen & Hno & Hh & Hf & Hwi & ->).
  by inversion Hf.
Qed.

Lemma free_wp_ok p hs f fs i :
  holds p hs (f :: fs) → i ∈ hs →
  ∃ p' hs1 hs2, hs = hs1 ++ i :: hs2 ∧
    free_wp i p = (["Free watchpoint " +:+ fmt_d (Z.of_nat i) +:+ nl], Ok p') ∧
    holds p' (hs1 ++ hs2) (i :: fs) ∧ f ∉ (hs1 ++ hs2) ++ i :: fs.
Proof.
  intros H Hi. destruct (free_wp_unlink _ _ _ _ H Hi)
    as (ns & hp & wi & hs1 & hs2 & -> & Hlen & Hno & Hh & Hf & Hwi & ->).
  pose proof (holds_nodup _ _ _ H) as Hnd.
  inversion Hf as [|? wf ? Hwf Hc Hp]; subst. rewrite (deref_Some _ _ _ Hwf), io_bind_ret_l.
  rewrite <- app_assoc in Hnd. simpl in Hnd. rewrite <- Permutation_middle in Hnd.
  eexists _, hs1, hs2. split; [done|]. split; [done|]. split.
  - apply holds_recycle with f; try done; [by rewrite Hp|]. by rewrite <- app_assoc.
  - rewrite (app_assoc hs1 hs2) in Hnd. apply NoDup_cons in Hnd as [Hni Hnd].
    apply NoDup_app in Hnd as (_ & Hnd & Hf'). apply NoDup_cons in Hf' as [Hf' _].
    rewrite elem_of_app, elem_of_cons. intros [Hx|[->|Hx]].
    + by eapply (Hnd f); [|left].
    + apply Hni. apply elem_of_app. right. left.
    + done.
Qed.

(** Sessions: pools reached from [init_wp_pool] by [new_wp] and by [free_wp] of a
    node in use (what [cmd_w] and [cmd_d] do), with the number of deletions. *)
Inductive session : nat → pool → Prop :=
| session_init : session 0 init_wp_pool
| session_new k p o i p' : session k p → new_wp p = (o, Ok (i, p')) → session k p'
| session_free k p hs fs i o p' :
    session k p → holds p hs fs → i ∈ hs → free_wp i p = (o, Ok p') → session (S k) p'.

Lemma chain_fun ns p l l' : chain ns p l → chain ns p l' → l = l'.
Proof.
  intros H; revert l'; induction H as [|i w l Hw Hc IH]; intros l' H'; inversion H'; [done|].
  simplify_eq. f_equal. auto.
Qed.

Lemma holds_fun p hs fs hs' fs' : holds p hs fs → holds p hs' fs' → hs = hs' ∧ fs = fs'.
Proof. intros H H'. split; eapply chain_fun; [apply H|apply H'|apply H|apply H']. Qed.

(** Text and value of a node are payload: overwriting them keeps the lists. *)
Lemma chain_payload (ns : list WP) q l i w w' :
  chain ns q l → ns !! i = Some w → next w' = next w → chain (<[i := w']> ns) q l.
Proof.
  intros Hc Hi Hn. induction Hc as [|j v l Hj Hc IH]; [constructor|].
  destruct (decide (i = j)) as [->|Hne].
  - rewrite Hi in Hj. simplify_eq.
    econstructor; [apply list_lookup_insert_eq; by eapply lookup_lt_Some|]. by rewrite Hn.
  - econstructor; [by rewrite list_lookup_insert_ne|done].
Qed.

Lemma holds_payload p hs fs i w w' :
  holds p hs fs → wp_pool p !! i = Some w → NO w' = NO w → next w' = next w →
  holds (Pool (<[i := w']> (wp_pool p)) (head p) (free_ p)) hs fs.
Proof.
  intros [Hl Hno Hh Hf Hnd] Hi HN Hn. split; simpl; [|..|done].
  - by rewrite length_insert.
  - intros j v Hj. apply list_lookup_insert_Some in Hj as [(<- & <- & _)|(_ & Hj)]; [|eauto].
    rewrite HN. eauto.
  - by eapply chain_payload.
  - by eapply chain_payload.
Qed.

(** ... and the pool operations keep them, node by node. *)
Definition same_payload (ns ns' : list WP) : Prop :=
  ∀ i w', ns' !! i = Some w' → ∃ w, ns !! i = Some w ∧ string_ w' = string_ w ∧ value w' = value w.

Lemma same_payload_refl ns : same_payload ns ns.
Proof. intros i w H. eauto. Qed.

Lemma same_payload_next ns0 ns i w n :
  same_payload ns0 ns → ns !! i = Some w → same_payload ns0 (<[i := set_next w n]> ns).
Proof.
  intros Hp Hi j v Hj. apply list_lookup_insert_Some in Hj as [(<- & <- & _)|(_ & Hj)]; [|eauto].
  destruct (Hp _ _ Hi) as (w0 & ? & ? & ?). by exists w0.
Qed.

Lemma deref_inv (ns : list WP) q i w : result (deref ns q) = Ok (i, w) → q = Some i ∧ ns !! i = Some w.
Proof.
  unfold deref. destruct q as [j|]; [|done]. destruct (ns !! j) eqn:E; [|done].
  by intros; simplify_eq/=.
Qed.

Lemma new_wp_payload p i p' :
  result (new_wp p) = Ok (i, p') → same_payload (wp_pool p) (wp_pool p').
Proof.
  unfold new_wp. destruct (free_ p) as [f|]; [|done].
  intros ([j w] & [_ Hj]%deref_inv & H)%result_bind_Ok. cbv beta iota zeta in H.
  apply result_bind_Ok in H as (_ & _ & H). simplify_eq/=.
  apply same_payload_next; [apply same_payload_refl|done].
Qed.

Lemma free_wp_payload i p p' :
  result (free_wp i p) = Ok p' → same_payload (wp_pool p) (wp_pool p').
Proof.
  unfold free_wp. cbv zeta.
  intros ([? w] & _ & H)%result_bind_Ok. cbv beta iota in H.
  apply result_bind_Ok in H as ([h wh] & _ & H). cbv beta iota in H.
  apply result_bind_Ok in H as ([p1 q] & Hq & H). cbv beta iota in H.
  apply result_bind_Ok in H as ([? wf] & _ & H). cbv beta iota in H.
  apply result_bind_Ok in H as ([? w1] & [[= <-] Hw1]%deref_inv & H). simplify_eq/=.
  apply same_payload_next; [|done]. clear Hw1. revert Hq. case_if.
  - intros (_ & _ & Hq)%result_bind_Ok. simplify_eq/=. apply same_payload_refl.
  - intros ([i1 i2] & _ & Hq)%result_bind_Ok. cbv beta iota in Hq.
    apply result_bind_Ok in Hq as ([? u1] & _ & Hq). cbv beta iota in Hq.
    apply result_bind_Ok in Hq as ([j2 u2] & [_ Hu2]%deref_inv & Hq). cbv beta iota in Hq.
    apply result_bind_Ok in Hq as (_ & _ & Hq). simplify_eq/=.
    apply same_payload_next; [apply same_payload_refl|done].
Qed.

(** ** Properties *)

(** [new_wp] moves the first free node to the front of the list in use,
    announces its number and keeps both lists well formed and disjoint; with
    no free node left its assertion fails. *)
Theorem new_wp_spec p hs fs :
  holds p hs fs →
  match fs with
  | [] => new_wp p = fail AssertFail
  | i :: fs' =>
      ∃ p', new_wp p = (["Set watchpoint " +:+ fmt_d (Z.of_nat i) +:+ nl], Ok (i, p')) ∧
            holds p' (i :: hs) fs'
  end.
Proof. destruct fs; [apply new_wp_exhausted|apply new_wp_ok]. Qed.

Lemma new_wp_spec_witness :
  ∃ p', new_wp init_wp_pool = (["Set watchpoint 0" +:+ nl], Ok (0%nat, p')) ∧
        holds p' [0%nat] (seq 1 31).
Proof. exact (new_wp_spec init_wp_pool [] (seq 0 NR_WP) holds_init). Defined.

(** [free_wp] of a node in use unlinks exactly that node, keeping the order
    of the others, and makes it the head of the free list in place of the
    previous head: that previous head is on neither list afterwards, and when
    the free list is empty the call dereferences NULL. *)
Theorem free_wp_spec p hs fs i :
  holds p hs fs → i ∈ hs →
  match fs with
  | [] => result (free_wp i p) = Fault NullDeref
  | f :: fs' =>
      ∃ p' hs1 hs2, hs = hs1 ++ i :: hs2 ∧
        free_wp i p = (["Free watchpoint " +:+ fmt_d (Z.of_nat i) +:+ nl], Ok p') ∧
        holds p' (hs1 ++ hs2) (i :: fs') ∧ f ∉ (hs1 ++ hs2) ++ i :: fs'
  end.
Proof. destruct fs; [apply free_wp_null|apply free_wp_ok]. Qed.

Lemma free_wp_spec_witness :
  ∃ p p', new_wp init_wp_pool = (["Set watchpoint 0" +:+ nl], Ok (0%nat, p)) ∧
    free_wp 0 p = (["Free watchpoint 0" +:+ nl], Ok p') ∧ holds p' [] (0%nat :: seq 2 30).
Proof.
  destruct (new_wp_ok init_wp_pool [] 0 (seq 1 31) holds_init) as (p & Hn & Hp).
  destruct (free_wp_spec p [0%nat] (seq 1 31) 0 Hp ltac:(left))
    as (p' & hs1 & hs2 & E & Hf & Hh & _).
  exists p, p'. split; [exact Hn|]. split; [exact Hf|].
  destruct hs1 as [|? [|? ?]]; [|discriminate E|discriminate E]. injection E as <-. exact Hh.
Defined.

(** C39. Every deletion leaks one node: after [k] deletions the two lists
    together hold [32 - k] nodes, so a session can delete at most 31
    watchpoints, whatever it allocates in between. *)
Theorem session_leaks k p :
  session k p →
  ∃ hs fs, holds p hs fs ∧ (length hs + length fs + k = NR_WP)%nat ∧ (k <= 31)%nat.
Proof.
  induction 1 as [|k p o i p' _ (hs & fs & H & Hl & Hk) E|k p hs fs i o p' _ (hs' & fs' & H & Hl & Hk) H' Hi E].
  - exists [], (seq 0 NR_WP). split_and!; [apply holds_init|done|lia].
  - destruct fs as [|j fs].
    + by rewrite (new_wp_exhausted _ _ H) in E.
    + destruct (new_wp_ok _ _ _ _ H) as (p'' & E' & H'). rewrite E' in E. simplify_eq.
      exists (i :: hs), fs. simpl in *. split_and!; [done|lia|lia].
  - destruct (holds_fun _ _ _ _ _ H' H) as [-> ->]. destruct fs' as [|f fs].
    + pose proof (free_wp_null _ _ _ H Hi) as En. by rewrite E in En.
    + destruct (free_wp_ok _ _ _ _ _ H Hi) as (p'' & hs1 & hs2 & -> & E' & H'' & _).
      rewrite E' in E. simplify_eq.
      exists (hs1 ++ hs2), (i :: fs). rewrite !length_app in *. simpl in *.
      unfold NR_WP in *. split_and!; [done|lia|lia].
Qed.

Lemma session_leaks_witness :
  ∃ p hs fs, session 1 p ∧ holds p hs fs ∧ (length hs + length fs = 31)%nat.
Proof.
  destruct (new_wp_ok init_wp_pool [] 0 (seq 1 31) holds_init) as (p & Hn & Hp).
  destruct (free_wp_ok p [0%nat] 1 (seq 2 30) 0 Hp ltac:(left)) as (p' & _ & _ & _ & Hf & _).
  assert (session 1 p') as Hs.
  { eapply session_free; [eapply session_new; [apply session_init|exact Hn]|exact Hp|left|exact Hf]. }
  destruct (session_leaks 1 p' Hs) as (hs & fs & H & Hl & _).
  exists p', hs, fs. split; [exact Hs|]. split; [exact H|]. unfold NR_WP in Hl. lia.
Defined.
