(* ===== verification/Expr.v ===== *)
(** * The expression evaluator of the debugger
    [expr.cpp]: the rule table and the lexer [make_token], the parenthesis test,
    the recursive [eval] that splits a token range at its last operator of
    lowest precedence, and [expr], which rewrites hexadecimal and register
    tokens through two static buffers before evaluating.  Also
    [isa_reg_str2val] of [sim_main.cpp], which [expr] calls.

    The static buffers [s1] and [s2] are shared by every hexadecimal and every
    register token of an expression, and the array [str] of pointers survives
    from one call to the next; both are part of the state. *)
From Stdlib Require Import Ascii.
From stdpp Require Import base numbers list option strings gmap.
From S2P Require Import Prelude Bytes CText PMem.

Local Open Scope Z_scope.

(** ** Lexer *)

Definition TK_NOTYPE : Z := 255.
Definition TK_EQ : Z := 256.
Definition TK_NUM : Z := 257.
Definition TK_NEQ : Z := 258.
Definition TK_AND : Z := 259.
Definition TK_H : Z := 260.
Definition TK_REG : Z := 261.

(** A piece of a regular expression: a set of characters repeated between a
    minimum and a maximum number of times.  In every rule only the last piece
    has a variable number of repetitions, so matching greedily piece by piece
    gives the longest match at the start of the text, the one [regexec]
    reports with [rm_so == 0]. *)
Record piece := Piece { in_class : ascii → bool; least : nat; most : option nat }.
Definition lit (c : ascii) : piece := Piece (Ascii.eqb c) 1 (Some 1%nat).

Record rule := Rule { regex : string; pieces : list piece; token_type : Z }.

Definition is_alnum (c : ascii) : bool := is_upper c || is_lower c || is_digit c.

Definition rules : list rule := [
  Rule "0[xX][A-Za-z0-9]{1,8}"
    [lit "0"; Piece (λ c, Ascii.eqb c "x" || Ascii.eqb c "X") 1 (Some 1%nat);
     Piece is_alnum 1 (Some 8%nat)] TK_H;
  Rule "\$[a-z0-9]{1,2}"
    [lit "$"; Piece (λ c, is_lower c || is_digit c) 1 (Some 2%nat)] TK_REG;
  Rule " +" [Piece (Ascii.eqb " ") 1 None] TK_NOTYPE;
  Rule "\+" [lit "+"] (code "+");
  Rule "==" [lit "="; lit "="] TK_EQ;
  Rule "!=" [lit "!"; lit "="] TK_NEQ;
  Rule "&&" [lit "&"; lit "&"] TK_AND;
  Rule "[0-9]+" [Piece is_digit 1 None] TK_NUM;
  Rule "-" [lit "-"] (code "-");
  Rule "\*" [lit "*"] (code "*");
  Rule "/" [lit "/"] (code "/");
  Rule "\(" [lit "("] (code "(");
  Rule ")" [lit ")"] (code ")") ].

(** How many leading characters are in a class, up to a maximum. *)
Fixpoint count_class (p : ascii → bool) (most : option nat) (s : string) : nat :=
  match s, most with
  | _, Some O => O
  | String c s', _ => if p c then S (count_class p (pred <$> most) s') else O
  | EmptyString, _ => O
  end.

Fixpoint sdrop (n : nat) (s : string) : string :=
  match n, s with
  | S n, String _ s' => sdrop n s'
  | _, _ => s
  end.
Fixpoint stake (n : nat) (s : string) : string :=
  match n, s with
  | S n, String c s' => String c (stake n s')
  | _, _ => EmptyString
  end.

(** Length of the match of a rule at the start of the text. *)
Fixpoint match_pieces (ps : list piece) (s : string) : option nat :=
  match ps with
  | [] => Some O
  | p :: ps =>
      let n := count_class (in_class p) (most p) s in
      if (n <? least p)%nat then None
      else k ← match_pieces ps (sdrop n s); Some (n + k)%nat
  end.

(** The first rule of the table that matches: its index and the length. *)
Fixpoint first_rule (i : nat) (rs : list rule) (s : string) : option (nat * rule * nat) :=
  match rs with
  | [] => None
  | r :: rs =>
      match match_pieces (pieces r) s with
      | Some n => Some (i, r, n)
      | None => first_rule (S i) rs s
      end
  end.

Record Token := mkToken { type : Z; str : string }.
Definition NR_TOKEN : nat := 32.
Definition STR_SIZE : nat := 32.
Definition no_tokens : list Token := replicate NR_TOKEN (mkToken 0 "").

Fixpoint spaces (n : nat) : string :=
  match n with O => "" | S n => " " +:+ spaces n end.

Definition match_msg (i : nat) (r : rule) (position len : nat) (rest : string) : string :=
  "match rules[" +:+ fmt_d (Z.of_nat i) +:+ "] = " +:+ dq +:+ regex r +:+ dq
  +:+ " at position " +:+ fmt_d (Z.of_nat position) +:+ " with len " +:+ fmt_d (Z.of_nat len)
  +:+ ": " +:+ stake len rest +:+ nl.

(** The loop of [make_token] on the text from [position] on.  Storing a 33rd
    token, or a lexeme that fills the 32-byte [str] and leaves no terminator,
    is out of bounds.  The fuel bounds the iterations: a match is never empty,
    so one more than the length of the text is enough. *)
Fixpoint make_token_loop (fuel : nat) (e : string) (position : nat) (rest : string)
    (tokens : list Token) (nr_token : nat) : io (bool * list Token * nat) :=
  match rest with
  | EmptyString => mret (true, tokens, nr_token)
  | _ =>
      match first_rule 0 rules rest with
      | None =>
          emit ("no match at position " +:+ fmt_d (Z.of_nat position) +:+ nl +:+ e +:+ nl
                +:+ spaces position +:+ "^" +:+ nl);;
          mret (false, tokens, nr_token)
      | Some (i, r, len) =>
          emit (match_msg i r position len rest);;
          match fuel with
          | O => fail OutOfFuel
          | S fuel =>
              if token_type r =? TK_NOTYPE then
                make_token_loop fuel e (position + len) (sdrop len rest) tokens nr_token
              else if (nr_token <? NR_TOKEN)%nat && (len <? STR_SIZE)%nat then
                make_token_loop fuel e (position + len) (sdrop len rest)
                  (<[nr_token := mkToken (token_type r) (stake len rest)]> tokens) (S nr_token)
              else fail OutOfBounds
          end
      end
  end.

Definition make_token (e : string) : io (bool * list Token * nat) :=
  make_token_loop (S (String.length e)) e 0 e no_tokens 0.

(** ** Evaluator *)

(** First character of a C string, 0 when it is empty. *)
Definition first_char (s : string) : Z :=
  match s with String c _ => code c | EmptyString => 0 end.
Definition is_char (c : ascii) (s : string) : bool := first_char s =? code c.

(** The array of C strings [eval] walks: NULL where a pointer was never set. *)
Definition cstr_at (strs : list (option string)) (i : Z) : io string :=
  if i <? 0 then fail OutOfBounds
  else match strs !! Z.to_nat i with
       | None => fail OutOfBounds
       | Some None => fail NullDeref
       | Some (Some s) => mret s
       end.

Section eval.
Variable strs : list (option string).

(** The loop of [check_parentheses] over [k] elements from [i]. *)
Fixpoint paren_loop (i : Z) (k : nat) (n : Z) : io Z :=
  match k with
  | O => mret n
  | S k =>
      s ← cstr_at strs i;
      let n := if is_char "(" s then n + 1
               else if is_char ")" s && truthy n then n - 1 else n in
      paren_loop (i + 1) k n
  end.

Definition check_parentheses (p q : Z) : io bool :=
  sp ← cstr_at strs p;
  sq ← cstr_at strs q;
  if is_char "(" sp && is_char ")" sq then
    n ← paren_loop (p + 1) (Z.to_nat (q - (p + 1))) 0;
    mret (n =? 0)
  else mret false.

(** The candidates of the operator scan, all [p] at the start. *)
Record ops := mkOps { op1 : Z; op2 : Z; op3 : Z; op4 : Z }.

(** The body of the scan at index [i].  The last branch is guarded by a test of
    the element before: for the first element of the array that is a read in
    front of the array. *)
Definition scan_step (i : Z) (s : string) (n : Z) (o : ops) : io (Z * ops) :=
  if is_char "(" s then mret (n + 1, o)
  else if is_char ")" s then mret (n - 1, o)
  else if n =? 0 then
    if String.eqb s "&&" then mret (n, mkOps i (op2 o) (op3 o) (op4 o))
    else if String.eqb s "==" || String.eqb s "!=" then mret (n, mkOps (op1 o) i (op3 o) (op4 o))
    else if is_char "+" s || is_char "-" s then mret (n, mkOps (op1 o) (op2 o) i (op4 o))
    else
      before ← cstr_at strs (i - 1);
      if (negb (is_char "*" before) || negb (is_char "/" before)) && (is_char "*" s || is_char "/" s)
      then mret (n, mkOps (op1 o) (op2 o) (op3 o) i)
      else mret (n, o)
  else mret (n, o).

Fixpoint scan_ops (i : Z) (k : nat) (n : Z) (o : ops) : io ops :=
  match k with
  | O => mret o
  | S k =>
      s ← cstr_at strs i;
      '(n, o) ← scan_step i s n o;
      scan_ops (i + 1) k n o
  end.

Definition choose_op (p : Z) (o : ops) : Z :=
  if negb (op1 o =? p) then op1 o
  else if negb (op2 o =? p) then op2 o
  else if negb (op3 o =? p) then op3 o
  else op4 o.

(** The [switch] on the operator, on two [int] operands. *)
Definition apply_op (op : string) (val1 val2 : Z) : io Z :=
  if is_char "+" op then v ← as_int (val1 + val2); mret (u32 v)
  else if is_char "-" op then v ← as_int (val1 - val2); mret (u32 v)
  else if is_char "*" op then v ← as_int (val1 * val2); mret (u32 v)
  else if is_char "/" op then
    if val2 =? 0 then emit ("Can't /0" +:+ nl);; mret 0
    else v ← as_int (Z.quot val1 val2); mret (u32 v)
  else if is_char "=" op then mret (Z.b2z (val1 =? val2))
  else if is_char "!" op then mret (Z.b2z (negb (val1 =? val2)))
  else if is_char "&" op then mret (Z.b2z (truthy val1 && truthy val2))
  else emit ("Can't get op sign" +:+ nl);; mret 0.

Fixpoint eval (fuel : nat) (pmem : bytes) (p q : Z) : io Z :=
  match fuel with
  | O => fail OutOfFuel
  | S fuel =>
      if q <? p then emit ("Bad expression:p>q" +:+ nl);; mret 0
      else if p =? q then
        s ← cstr_at strs p;
        mret (u32 (strtoull 0 s).1)
      else
        par ← check_parentheses p q;
        if par : bool then eval fuel pmem (p + 1) (q - 1)
        else
          o ← scan_ops p (Z.to_nat (q - p)) 0 (mkOps p p p p);
          let op := choose_op p o in
          sp ← cstr_at strs p;
          if (op =? p) && is_char "*" sp then
            a ← eval fuel pmem (p + 1) q;
            v ← paddr_read pmem a 4;
            mret (u32 v)
          else
            v1 ← eval fuel pmem p (op - 1);
            v2 ← eval fuel pmem (op + 1) q;
            s ← cstr_at strs op;
            apply_op s (s32 v1) (s32 v2)
  end.
End eval.

(** ** Registers and the entry point *)

Definition regs : list string := [
  "$0"; "ra"; "sp"; "gp"; "tp"; "t0"; "t1"; "t2";
  "s0"; "s1"; "a0"; "a1"; "a2"; "a3"; "a4"; "a5";
  "a6"; "a7"; "s2"; "s3"; "s4"; "s5"; "s6"; "s7";
  "s8"; "s9"; "s10"; "s11"; "t3"; "t4"; "t5"; "t6"; "pc" ].

(** [cpu_gpr[i]]: the 33 entries of the register array (32 registers, [pc]). *)
Definition gpr_at (cpu_gpr : list Z) (i : nat) : io Z :=
  match cpu_gpr !! i with Some v => mret v | None => fail OutOfBounds end.

Fixpoint find_reg (i : nat) (names : list string) (s : string) : option nat :=
  match names with
  | [] => None
  | r :: names => if String.eqb s r then Some i else find_reg (S i) names s
  end.

(** The value, and whether [*success] was set.  The search covers [regs[1]] to
    [regs[30]]. *)
Definition isa_reg_str2val (cpu_gpr : list Z) (wb_pc_now : Z) (s : string) : io (Z * bool) :=
  if String.eqb s "pc" then mret (wb_pc_now, true)
  else if String.eqb s "0" then v ← gpr_at cpu_gpr 0; mret (v, true)
  else match find_reg 1 (take 30 (drop 1 regs)) s with
       | Some i => v ← gpr_at cpu_gpr i; mret (v, true)
       | None => mret (0, false)
       end.

(** Pointers stored in the static array [str]. *)
Inductive cptr := PNull | PTok (i : nat) | PS1 | PS2.

Record statics := Statics {
  buf1 : string;
  buf2 : string;
  strs_ : list cptr
}.
Definition statics_init : statics := Statics "" "" (replicate 32 PNull).

Definition follow (tokens : list Token) (st : statics) (p : cptr) : option string :=
  match p with
  | PNull => None
  | PTok i => str <$> tokens !! i
  | PS1 => Some (buf1 st)
  | PS2 => Some (buf2 st)
  end.

(** The pass over the tokens that fills [str]. *)
Fixpoint fill_strs (cpu_gpr : list Z) (wb_pc_now : Z) (st : statics) (a : nat) (ts : list Token) :
    io statics :=
  match ts with
  | [] => mret st
  | t :: ts =>
      st ←
        (if type t =? TK_H then
           let tmp := u32 (strtol 0 (str t)).1 in
           mret (Statics (fmt_u tmp) (buf2 st) (<[a := PS1]> (strs_ st)))
         else if type t =? TK_REG then
           '(v, bo) ← isa_reg_str2val cpu_gpr wb_pc_now (sdrop 1 (str t));
           if bo : bool then mret (Statics (buf1 st) (fmt_u (u32 v)) (<[a := PS2]> (strs_ st)))
           else mret st
         else mret (Statics (buf1 st) (buf2 st) (<[a := PTok a]> (strs_ st))));
      fill_strs cpu_gpr wb_pc_now st (S a) ts
  end.

(** The value, what [*success] was set to if it was, and the static state left. *)
Definition expr (cpu_gpr : list Z) (wb_pc_now : Z) (pmem : bytes) (st : statics) (e : string) :
    io (Z * option bool * statics) :=
  '(ok, tokens, nr_token) ← make_token e;
  if negb ok then mret (0, Some false, st)
  else
    st ← fill_strs cpu_gpr wb_pc_now st 0 (take nr_token tokens);
    let strs := follow tokens st <$> strs_ st in
    v ← eval strs (S (S nr_token)) pmem 0 (Z.of_nat nr_token - 1);
    mret (v, None, st).

(** ** Termination *)

Lemma fuelled_cstr_at strs i : fuelled (cstr_at strs i).
Proof. unfold cstr_at. repeat case_match; done. Qed.

Lemma fuelled_paren_loop strs i k n : fuelled (paren_loop strs i k n).
Proof.
  revert i n; induction k; intros i n; simpl; [done|].
  apply fuelled_bind; auto using fuelled_cstr_at.
Qed.

Lemma fuelled_check_parentheses strs p q : fuelled (check_parentheses strs p q).
Proof.
  unfold check_parentheses. apply fuelled_bind; [apply fuelled_cstr_at|]. intros sp _.
  apply fuelled_bind; [apply fuelled_cstr_at|]. intros sq _. case_match; [|done].
  apply fuelled_bind; auto using fuelled_paren_loop, fuelled_ret.
Qed.

Lemma fuelled_scan_step strs i s n o : fuelled (scan_step strs i s n o).
Proof.
  unfold scan_step. repeat (case_if; [done|]). case_if; [|done]. repeat (case_if; [done|]).
  apply fuelled_bind; [apply fuelled_cstr_at|]. intros b _. by case_if.
Qed.

Lemma fuelled_scan_ops strs i k n o : fuelled (scan_ops strs i k n o).
Proof.
  revert i n o; induction k; intros i n o; simpl; [done|].
  apply fuelled_bind; [apply fuelled_cstr_at|]. intros s _.
  apply fuelled_bind; [apply fuelled_scan_step|]. by intros [n' o'] _.
Qed.

Lemma fuelled_paddr_read pmem a len : fuelled (paddr_read pmem a len).
Proof. unfold paddr_read, pmem_load. repeat case_match; done. Qed.

Lemma fuelled_apply_op s x y : fuelled (apply_op s x y).
Proof. unfold apply_op, as_int. repeat case_match; done. Qed.

#[export] Hint Resolve fuelled_cstr_at fuelled_paren_loop fuelled_check_parentheses
  fuelled_scan_step fuelled_scan_ops fuelled_paddr_read fuelled_apply_op : sim.

(** The candidate of a class. *)
Definition get_op (c : nat) (o : ops) : Z :=
  match c with 1%nat => op1 o | 2%nat => op2 o | 3%nat => op3 o | _ => op4 o end.

(** Every candidate of the scan is [p] or an index of the scanned range. *)
Definition ops_in (p lo hi : Z) (o : ops) : Prop :=
  ∀ c, get_op c o = p ∨ lo <= get_op c o < hi.

Lemma scan_step_in strs p lo i s n o n' o' :
  lo <= i → ops_in p lo i o → result (scan_step strs i s n o) = Ok (n', o') → ops_in p lo (i + 1) o'.
Proof.
  intros Hi Ho E.
  assert (ops_in p lo (i + 1) o) as Hw by (intros c; destruct (Ho c); [by left|right; lia]).
  unfold scan_step in E. repeat case_if; rewrite ?result_bind in E; try (destruct (result (cstr_at _ _)); [case_if|]); simplify_eq/=; try done;
    intros c; specialize (Hw c); destruct c as [|[|[|[|c]]]]; simpl in *; try done; right; lia.
Qed.

Lemma scan_ops_in strs p lo i k n o o' :
  lo <= i → ops_in p lo i o → result (scan_ops strs i k n o) = Ok o' →
  ops_in p lo (i + Z.of_nat k) o'.
Proof.
  revert i n o; induction k as [|k IH]; intros i n o Hi Ho E; simpl in E.
  - simplify_eq. by rewrite Z.add_0_r.
  - rewrite result_bind in E. destruct (result (cstr_at strs i)) as [s|]; [|done].
    rewrite result_bind in E. destruct (result (scan_step strs i s n o)) as [[n' o'']|] eqn:Es; [|done].
    replace (i + Z.of_nat (S k)) with (i + 1 + Z.of_nat k) by lia.
    eapply IH; [lia| |done]. by eapply scan_step_in.
Qed.

Lemma choose_op_in p lo hi o : ops_in p lo hi o → choose_op p o = p ∨ lo <= choose_op p o < hi.
Proof.
  intros H. pose proof (H 1%nat) as H1. pose proof (H 2%nat) as H2.
  pose proof (H 3%nat) as H3. pose proof (H 4%nat) as H4. simpl in *.
  unfold choose_op. by repeat case_if.
Qed.

Lemma eval_fuelled strs pmem fuel p q :
  q - p + 1 < Z.of_nat fuel → 0 < Z.of_nat fuel → fuelled (eval strs fuel pmem p q).
Proof.
  revert p q; induction fuel as [|fuel IH]; intros p q Hf H0; [lia|]. cbn [eval].
  case_if; bool_to_prop; [done|]. case_if; bool_to_prop; [auto with sim|].
  apply fuelled_bind; [auto with sim|]. intros par _.
  destruct par; [apply IH; lia|].
  apply fuelled_bind; [auto with sim|]. intros o Ho. cbv zeta.
  apply (scan_ops_in strs p p) in Ho; [|lia|by intros [|[|[|[|?]]]]; left].
  apply choose_op_in in Ho. set (op := choose_op p o) in *.
  apply fuelled_bind; [auto with sim|]. intros sp _.
  case_if.
  - apply fuelled_bind; [apply IH; lia|]. auto with sim.
  - apply fuelled_bind; [apply IH; lia|]. intros v1 _.
    apply fuelled_bind; [apply IH; lia|]. intros v2 _.
    apply fuelled_bind; auto with sim.
Qed.

(** Filling the array keeps its size. *)
Lemma fill_strs_length cpu_gpr wb_pc_now ts st a st' :
  result (fill_strs cpu_gpr wb_pc_now st a ts) = Ok st' → length (strs_ st') = length (strs_ st).
Proof.
  revert st a. induction ts as [|t ts IH]; intros st a; cbn [fill_strs].
  - intros [= <-]. done.
  - rewrite result_bind. destruct (result _) as [st1|] eqn:E; [|done]. intros H.
    apply IH in H. rewrite H. clear H IH. revert E. case_if.
    { intros [= <-]. apply length_insert. }
    case_if; [|intros [= <-]; apply length_insert].
    rewrite result_bind. destruct (result _) as [[v bo]|]; [|done].
    destruct bo; intros [= <-]; [apply length_insert|done].
Qed.

Lemma expr_strs_length cpu_gpr wb_pc_now pmem st e r :
  result (expr cpu_gpr wb_pc_now pmem st e) = Ok r → length (strs_ r.2) = length (strs_ st).
Proof.
  unfold expr. rewrite result_bind. destruct (result _) as [[[ok tokens] nr]|]; [|done].
  destruct ok; cbn [negb]; [|by intros; simplify_eq/=].
  rewrite result_bind. destruct (result (fill_strs _ _ _ _ _)) as [st'|] eqn:E; [|done].
  apply fill_strs_length in E. cbv zeta. rewrite result_bind.
  destruct (result _) as [v|]; [|done]. by intros; simplify_eq/=.
Qed.

(** ** Properties *)

(** [eval] terminates on every array of strings, well formed or not: the
    recursion bound that [expr] gives it (two more than the number of tokens)
    is never exhausted. *)
Theorem eval_terminates strs pmem (nr_token : nat) :
  result (eval strs (S (S nr_token)) pmem 0 (Z.of_nat nr_token - 1)) ≠ Fault OutOfFuel.
Proof. apply eval_fuelled; lia. Qed.

(** The ABI names of registers 1 to 30 and [pc] resolve to the register
    they name; register 31 is outside the search, so [t6] does not resolve. *)
Theorem isa_reg_str2val_names cpu_gpr wb_pc_now i name v :
  (1 <= i <= 30)%nat → regs !! i = Some name → cpu_gpr !! i = Some v →
  isa_reg_str2val cpu_gpr wb_pc_now name = mret (v, true) ∧
  isa_reg_str2val cpu_gpr wb_pc_now "pc" = mret (wb_pc_now, true) ∧
  isa_reg_str2val cpu_gpr wb_pc_now "t6" = mret (0, false).
Proof.
  intros Hi Hn Hv. split; [|done].
  assert (i ∈ seq 1 30) as Hin by (apply elem_of_seq; lia).
  unfold isa_reg_str2val, gpr_at. unfold regs in Hn.
  repeat (apply elem_of_cons in Hin as [->|Hin];
    [simpl in Hn; injection Hn as <-; simpl; by rewrite Hv|]).
  by apply elem_of_nil in Hin.
Qed.

Lemma isa_reg_str2val_names_witness :
  isa_reg_str2val (Z.of_nat <$> seq 100 33) 0 "a0" = mret (110, true).
Proof.
  apply (isa_reg_str2val_names (Z.of_nat <$> seq 100 33) 0 10 "a0" 110).
  - lia.
  - vm_compute; reflexivity.
  - vm_compute; reflexivity.
Defined.

(** Two hexadecimal literals share the buffer [s1]: both operands read the
    second one. *)
Example expr_hex_shared :
  ∃ st', result (expr (replicate 33 0) 0 ∅ statics_init "(0x10+0x20)") = Ok (64, None, st').
Proof. eexists. vm_compute. reflexivity. Qed.

(** Without the parentheses the scan reads in front of the array. *)
Example expr_reads_before :
  result (expr (replicate 33 0) 0 ∅ statics_init "1+2") = Fault OutOfBounds.
Proof. vm_compute. reflexivity. Qed.

(** A register that does not resolve leaves a NULL element behind. *)
Example expr_t6_null :
  result (expr (replicate 33 0) 0 ∅ statics_init "$t6") = Fault NullDeref.
Proof. vm_compute. reflexivity. Qed.
