(* ===== verification/ExprGram.v ===== *)
(** * What the expression evaluator computes
    A reference grammar with the usual precedences over decimal and hexadecimal
    numbers, registers, parentheses and memory operands, its meaning on [int],
    and the proof that [Expr.expr] computes it on printed expressions, up to
    the two buffers that all hexadecimal and all register tokens of a text
    share.  The operator scan looks at the element in front of the one it is
    at, so the proof is for expressions that are a single operand or start with
    a parenthesis ([inside]); on all others [expr] faults. *)
From Stdlib Require Import Ascii.
From stdpp Require Import base numbers list option strings gmap.
From S2P Require Import Prelude Bytes CText PMem Expr.

Local Open Scope Z_scope.

(** ** Reference grammar
    [&&] binds loosest, then [==] and [!=], then [+] and [-], then [*] and [/],
    all associating to the left; a memory operand [* e] takes a number, a
    register or a parenthesis, and can only start a product. *)

Inductive binop := BAnd | BEq | BNe | BAdd | BSub | BMul | BDiv.
#[global] Instance binop_eq_dec : EqDecision binop.
Proof. solve_decision. Defined.

(** [Hex w n] is [n] after [0x], padded to [w] digits. *)
Inductive ex :=
| Num (n : Z)
| Hex (w : nat) (n : Z)
| Reg (name : string)
| Paren (e : ex)
| Deref (e : ex)
| Bin (o : binop) (a b : ex).

Definition level (o : binop) : nat :=
  match o with BAnd => 1 | BEq | BNe => 2 | BAdd | BSub => 3 | BMul | BDiv => 4 end.
Definition sym (o : binop) : string :=
  match o with
  | BAnd => "&&" | BEq => "==" | BNe => "!=" | BAdd => "+" | BSub => "-"
  | BMul => "*" | BDiv => "/"
  end.
Definition sym_type (o : binop) : Z :=
  match o with
  | BAnd => TK_AND | BEq => TK_EQ | BNe => TK_NEQ | BAdd => code "+" | BSub => code "-"
  | BMul => code "*" | BDiv => code "/"
  end.

(** The registers that the lexer reads whole and the search finds. *)
Definition reg_names : list string :=
  ["0"; "pc"; "ra"; "sp"; "gp"; "tp"; "t0"; "t1"; "t2"; "s0"; "s1"; "a0"; "a1"; "a2"; "a3"; "a4"; "a5";
   "a6"; "a7"; "s2"; "s3"; "s4"; "s5"; "s6"; "s7"; "s8"; "s9"; "t3"; "t4"; "t5"].

(** [wf l e]: [e] is what a grammar of precedence level at least [l] generates. *)
Fixpoint wf (l : nat) (e : ex) : bool :=
  match e with
  | Num n => (0 <=? n) && (n <? 2 ^ 32)
  | Hex w n => (w <=? 8)%nat && ((0 <=? n) && (n <? 2 ^ 32))
  | Reg r => bool_decide (r ∈ reg_names)
  | Paren e => wf 1 e
  | Deref e => (l <=? 4)%nat && wf 5 e
  | Bin o a b => (l <=? level o)%nat && wf (level o) a && wf (S (level o)) b
  end.

(** The tokens of an expression, with the types the lexer gives them. *)
Definition left_paren : Token := mkToken (code "(") "(".
Definition right_paren : Token := mkToken (code ")") ")".
Fixpoint tokens_of (e : ex) : list Token :=
  match e with
  | Num n => [mkToken TK_NUM (fmt_u n)]
  | Hex w n => [mkToken TK_H ("0x" +:+ fmt_0x w n)]
  | Reg r => [mkToken TK_REG ("$" +:+ r)]
  | Paren e => left_paren :: tokens_of e ++ [right_paren]
  | Deref e => mkToken (code "*") "*" :: tokens_of e
  | Bin o a b => tokens_of a ++ mkToken (sym_type o) (sym o) :: tokens_of b
  end.
Fixpoint toks (e : ex) : list string :=
  match e with
  | Num n => [fmt_u n]
  | Hex w n => ["0x" +:+ fmt_0x w n]
  | Reg r => ["$" +:+ r]
  | Paren e => "(" :: toks e ++ [")"]
  | Deref e => "*" :: toks e
  | Bin o a b => toks a ++ sym o :: toks b
  end.

Lemma toks_tokens e : toks e = str <$> tokens_of e.
Proof.
  induction e as [n|w n|r|e IH|e IH|o a IHa b IHb]; cbn [toks tokens_of]; rewrite ?fmap_cons, ?fmap_app, ?fmap_cons; cbn;
    by rewrite ?IH, ?IHa, ?IHb.
Qed.

(** ** Meaning *)

(** Operators on [int]; undefined when a division by zero or a value outside
    the range of [int] occurs. *)
Definition check_int (z : Z) : option Z := if in_int z then Some z else None.
Definition zop (o : binop) (x y : Z) : option Z :=
  match o with
  | BAdd => check_int (x + y)
  | BSub => check_int (x - y)
  | BMul => check_int (x * y)
  | BDiv => if y =? 0 then None else check_int (Z.quot x y)
  | BEq => Some (Z.b2z (x =? y))
  | BNe => Some (Z.b2z (negb (x =? y)))
  | BAnd => Some (Z.b2z (truthy x && truthy y))
  end.

Section meaning.
Variables (cpu_gpr : list Z) (wb_pc_now : Z) (pmem : bytes).

Definition reg_value (r : string) : option Z :=
  match result (isa_reg_str2val cpu_gpr wb_pc_now r) with Ok (v, true) => Some v | _ => None end.

(** A number or a register counts as the [int] its low 32 bits are; a memory
    operand is the word at the address its operand gives, which has to lie in
    memory. *)
Fixpoint zeval (e : ex) : option Z :=
  match e with
  | Num n | Hex _ n => Some (s32 n)
  | Reg r => s32 <$> reg_value r
  | Paren e => zeval e
  | Deref e =>
      a ← zeval e;
      if bool_decide (fits (u32 a) 4) then Some (s32 (load pmem (get_mem_addr (u32 a)) 4)) else None
  | Bin o a b => x ← zeval a; y ← zeval b; zop o x y
  end.

(** What the code computes for a tree whose tokens reach the evaluator as they
    are; [strtoull] of a register is 0. *)
Fixpoint denote (e : ex) : io Z :=
  match e with
  | Num n | Hex _ n => mret (u32 n)
  | Reg r => mret (u32 (strtoull 0 ("$" +:+ r)).1)
  | Paren e => denote e
  | Deref e => a ← denote e; v ← paddr_read pmem a 4; mret (u32 v)
  | Bin o a b =>
      v1 ← denote a; v2 ← denote b; apply_op (sym o) (s32 v1) (s32 v2)
  end.

(** The hexadecimal numbers and the registers of an expression, in order. *)
Fixpoint hexes (e : ex) : list Z :=
  match e with
  | Hex _ n => [n]
  | Num _ | Reg _ => []
  | Paren e | Deref e => hexes e
  | Bin _ a b => hexes a ++ hexes b
  end.
Fixpoint registers (e : ex) : list string :=
  match e with
  | Reg r => [r]
  | Num _ | Hex _ _ => []
  | Paren e | Deref e => registers e
  | Bin _ a b => registers a ++ registers b
  end.

(** Every hexadecimal number replaced by [h], every register by [r]. *)
Fixpoint with_last (h : Z) (r : string) (e : ex) : ex :=
  match e with
  | Num n => Num n
  | Hex w _ => Hex w h
  | Reg _ => Reg r
  | Paren e => Paren (with_last h r e)
  | Deref e => Deref (with_last h r e)
  | Bin o a b => Bin o (with_last h r a) (with_last h r b)
  end.
(** How the code reads an expression: the last hexadecimal number and the last
    register stand for all. *)
Definition last_hex (e : ex) : Z := default 0 (last (hexes e)).
Definition last_reg (e : ex) : string := default EmptyString (last (registers e)).
Definition as_read (e : ex) : ex := with_last (last_hex e) (last_reg e) e.

(** The decimal texts that [expr] puts in their place. *)
Fixpoint flat (h v : Z) (e : ex) : ex :=
  match e with
  | Num n => Num n
  | Hex _ _ => Num h
  | Reg _ => Num v
  | Paren e => Paren (flat h v e)
  | Deref e => Deref (flat h v e)
  | Bin o a b => Bin o (flat h v a) (flat h v b)
  end.

Lemma with_last_same h r e :
  Forall (λ x, x = h) (hexes e) → Forall (λ x, x = r) (registers e) → with_last h r e = e.
Proof.
  induction e as [n|w n|s|e IH|e IH|o a IHa b IHb]; cbn [hexes registers with_last]; intros Hh Hr.
  - done.
  - apply Forall_cons in Hh as [-> _]. done.
  - apply Forall_cons in Hr as [-> _]. done.
  - by rewrite IH.
  - by rewrite IH.
  - apply Forall_app in Hh as [? ?]. apply Forall_app in Hr as [? ?]. by rewrite IHa, IHb.
Qed.

(** With one hexadecimal number and one register, the code reads what is written. *)
Definition one_of_each (e : ex) : Prop :=
  (∀ x y, x ∈ hexes e → y ∈ hexes e → x = y) ∧ (∀ x y, x ∈ registers e → y ∈ registers e → x = y).

Lemma same_last {A} (d : A) (l : list A) :
  (∀ x y, x ∈ l → y ∈ l → x = y) → Forall (λ x, x = default d (last l)) l.
Proof.
  intros H. apply Forall_forall. intros x Hx. destruct (last l) as [y|] eqn:E.
  - cbn. apply H; [done|]. apply last_Some in E as [l' ->]. set_solver.
  - apply last_None in E as ->. by apply elem_of_nil in Hx.
Qed.

Lemma as_read_same e : one_of_each e → as_read e = e.
Proof. intros [Hh Hr]. apply with_last_same; by apply same_last. Qed.

Lemma s32_u32 z : s32 (u32 z) = s32 z.
Proof. unfold s32, u32. by rewrite swrap_wrap. Qed.
Lemma u32_s32 z : u32 (s32 z) = u32 z.
Proof. unfold s32, u32. by rewrite wrap_swrap. Qed.
Lemma in_int_swrap z : in_int (s32 z) = true.
Proof.
  pose proof (swrap_range 32 z ltac:(lia)). unfold in_int, INT_MIN, INT_MAX, s32.
  apply andb_true_iff; split; apply Z.leb_le; lia.
Qed.

Lemma zeval_flat h r v e :
  (registers e ≠ [] → reg_value r = Some v) → zeval (flat h (u32 v) e) = zeval (with_last h r e).
Proof.
  induction e as [n|w n|s|e IH|e IH|o a IHa b IHb]; cbn [registers flat with_last zeval]; intros Hr.
  - done.
  - done.
  - rewrite Hr by done. cbn. by rewrite s32_u32.
  - by apply IH.
  - by rewrite IH.
  - rewrite IHa, IHb; [done| |]; intros H; apply Hr; intros [? ?]%app_nil; done.
Qed.

Lemma zop_int o x y v : zop o x y = Some v → in_int v = true.
Proof.
  unfold zop, check_int. intros H. destruct o; repeat case_if; simplify_eq; try done;
    match goal with |- context [Z.b2z ?b] => by destruct b end.
Qed.

Lemma in_int_s32 z : in_int z = true → s32 (u32 z) = z.
Proof.
  unfold in_int, INT_MIN, INT_MAX. intros H. bool_to_prop. unfold s32, u32.
  rewrite swrap_wrap by lia. apply swrap_small; lia.
Qed.

Lemma apply_op_zop o x y v : zop o x y = Some v → apply_op (sym o) x y = mret (u32 v).
Proof.
  unfold zop, check_int. intros H. destruct o; unfold apply_op, as_int; simpl;
    repeat case_if; simplify_eq; try done;
    match goal with |- context [Z.b2z ?b] => by destruct b end.
Qed.

Lemma denote_zeval h v0 e v :
  zeval (flat h v0 e) = Some v → in_int v = true ∧ denote (flat h v0 e) = mret (u32 v).
Proof.
  revert v. induction e as [n|w n|s|e IH|e IH|o a IHa b IHb]; intros v Hz; cbn [flat zeval denote] in *.
  1-3: injection Hz as <-; rewrite u32_s32; by split; [apply in_int_swrap|].
  - by apply IH.
  - destruct (zeval (flat h v0 e)) as [a|]; [|done]. cbn [mbind option_bind] in Hz. case_bool_decide as Hf; [|done].
    injection Hz as <-. destruct (IH a eq_refl) as [_ ->]. split; [apply in_int_swrap|].
    rewrite io_bind_ret_l, paddr_read_fits, io_bind_ret_l by (done || decide_now). by rewrite u32_s32.
  - destruct (zeval (flat h v0 a)) as [x|]; [|done]. destruct (zeval (flat h v0 b)) as [y|]; [|done].
    cbn [mbind option_bind] in Hz. destruct (IHa x eq_refl) as [Hx ->]. destruct (IHb y eq_refl) as [Hy ->].
    rewrite !io_bind_ret_l, !in_int_s32 by done. split; [by eapply zop_int|by apply apply_op_zop].
Qed.
End meaning.

Lemma wf_flat h v l e :
  0 <= h < 2 ^ 32 → 0 <= v < 2 ^ 32 → wf l e = true → wf l (flat h v e) = true.
Proof.
  intros Hh Hv. revert l. induction e as [n|w n|s|e IH|e IH|o a IHa b IHb]; intros l; cbn [wf flat]; auto.
  - intros _. apply andb_true_iff. rewrite Z.leb_le, Z.ltb_lt. lia.
  - intros _. apply andb_true_iff. rewrite Z.leb_le, Z.ltb_lt. lia.
  - intros [H1 H2]%andb_true_iff. by rewrite H1, IH.
  - intros [[H1 H2]%andb_true_iff H3]%andb_true_iff. by rewrite H1, IHa, IHb.
Qed.

(** ** Tokens of an expression *)

(** A token that starts a number or a register is no operator and no
    parenthesis. *)
Definition leaf_tok (s : string) : Prop := 48 <= first_char s <= 57 ∨ first_char s = 36.
#[global] Instance leaf_tok_dec s : Decision (leaf_tok s).
Proof. unfold leaf_tok. apply _. Defined.

Lemma fmt_u_leaf n : 0 <= n → leaf_tok (fmt_u n).
Proof.
  intros Hn. left. unfold fmt_u. pose proof (digits_of_range 10 n ltac:(lia) Hn) as Hr.
  pose proof (digits_of_nonempty 10 n). destruct (digits_of 10 n) as [|d ds]; [done|].
  inversion Hr; subst. simpl. rewrite code_digit_char by done. lia.
Qed.

Lemma leaf_tok_is_char s c : leaf_tok s → ¬ (48 <= code c <= 57 ∨ code c = 36) → is_char c s = false.
Proof. unfold leaf_tok, is_char. intros. apply Z.eqb_neq. lia. Qed.

Lemma leaf_tok_neq s t : leaf_tok s → ¬ leaf_tok t → String.eqb s t = false.
Proof. intros Hs Ht. apply String.eqb_neq. by intros ->. Qed.

(** The scan where the element before can be read: the guard holds of every
    character. *)
Definition note (i : Z) (s : string) (n : Z) (o : ops) : Z * ops :=
  if is_char "(" s then (n + 1, o)
  else if is_char ")" s then (n - 1, o)
  else if n =? 0 then
    if String.eqb s "&&" then (n, mkOps i (op2 o) (op3 o) (op4 o))
    else if String.eqb s "==" || String.eqb s "!=" then (n, mkOps (op1 o) i (op3 o) (op4 o))
    else if is_char "+" s || is_char "-" s then (n, mkOps (op1 o) (op2 o) i (op4 o))
    else if is_char "*" s || is_char "/" s then (n, mkOps (op1 o) (op2 o) (op3 o) i)
    else (n, o)
  else (n, o).

Lemma scan_step_note strs i s n o :
  is_char "(" s = true ∨ (∃ b, cstr_at strs (i - 1) = mret b) → scan_step strs i s n o = mret (note i s n o).
Proof.
  unfold scan_step, note. intros [->|[b Hb]]; [done|]. repeat (case_if; [done|]). case_if; [|done].
  repeat (case_if; [done|]). rewrite Hb, io_bind_ret_l.
  assert (negb (is_char "*" b) || negb (is_char "/" b) = true) as ->; [|cbn [andb]; by case_if].
  unfold is_char. destruct (Z.eqb_spec (first_char b) (code "*")) as [->|]; done.
Qed.

Lemma leaf_tok_scan i s n o : leaf_tok s → note i s n o = (n, o).
Proof.
  intros Hs. unfold note. rewrite !leaf_tok_is_char by (done || decide_now).
  rewrite !leaf_tok_neq by (done || decide_now). by repeat case_if.
Qed.

(** The list views of the two loops. *)
Fixpoint scan_l (i : Z) (l : list string) (n : Z) (o : ops) : Z * ops :=
  match l with
  | [] => (n, o)
  | s :: l => let '(n, o) := note i s n o in scan_l (i + 1) l n o
  end.
Definition pw (n : Z) (s : string) : Z :=
  if is_char "(" s then n + 1 else if is_char ")" s && truthy n then n - 1 else n.
Definition pwalk (n : Z) (l : list string) : Z := foldl pw n l.

(** The strings [l] stand in the array from index [p] on. *)
Definition seg (strs : list (option string)) (p : nat) (l : list string) : Prop :=
  ∀ j s, l !! j = Some s → strs !! (p + j)%nat = Some (Some s).

Lemma seg_cons strs p s l :
  seg strs p (s :: l) ↔ strs !! p = Some (Some s) ∧ seg strs (S p) l.
Proof.
  split.
  - intros H. split; [rewrite <- (Nat.add_0_r p); by apply H|].
    intros j t Hj. replace (S p + j)%nat with (p + S j)%nat by lia. by apply H.
  - intros [H1 H2] [|j] t Hj; simpl in Hj; [simplify_eq; by rewrite Nat.add_0_r|].
    replace (p + S j)%nat with (S p + j)%nat by lia. by apply H2.
Qed.

Lemma seg_app strs p l k :
  seg strs p (l ++ k) ↔ seg strs p l ∧ seg strs (p + length l) k.
Proof.
  revert p; induction l as [|s l IH]; intros p; simpl.
  - rewrite Nat.add_0_r. split; [intros; split; [by intros ? ? ?|done]|by intros [_ ?]].
  - rewrite !seg_cons, IH. replace (S p + length l)%nat with (p + S (length l))%nat by lia.
    tauto.
Qed.

Lemma cstr_at_seg strs p s : strs !! p = Some (Some s) → cstr_at strs (Z.of_nat p) = mret s.
Proof. intros H. unfold cstr_at. zif_false. by rewrite Nat2Z.id, H. Qed.

(** The element before the range can be read, or the first element does not
    make the scan look at it. *)
Definition behind (strs : list (option string)) (p : nat) : Prop := ∃ b, cstr_at strs (Z.of_nat p - 1) = mret b.
Definition ready (strs : list (option string)) (p : nat) (l : list string) : Prop :=
  ∀ s, head l = Some s → is_char "(" s = true ∨ behind strs p.

Lemma behind_seg strs p s : strs !! p = Some (Some s) → behind strs (S p).
Proof. intros H. exists s. replace (Z.of_nat (S p) - 1) with (Z.of_nat p) by lia. by apply cstr_at_seg. Qed.

Lemma scan_ops_list strs p l n o :
  seg strs p l → ready strs p l →
  scan_ops strs (Z.of_nat p) (length l) n o = mret (scan_l (Z.of_nat p) l n o).2.
Proof.
  revert p n o; induction l as [|s l IH]; intros p n o Hs Hr; cbn [length scan_ops scan_l]; [done|].
  apply seg_cons in Hs as [Hp Hs]. rewrite (cstr_at_seg _ _ _ Hp), io_bind_ret_l.
  rewrite scan_step_note, io_bind_ret_l by (by apply Hr). destruct (note _ s n o) as [n' o'].
  replace (Z.of_nat p + 1) with (Z.of_nat (S p)) by lia. apply IH; [done|].
  intros s' _. right. by eapply behind_seg.
Qed.

Lemma paren_loop_list strs p l n :
  seg strs p l → paren_loop strs (Z.of_nat p) (length l) n = mret (pwalk n l).
Proof.
  revert p n; induction l as [|s l IH]; intros p n Hs; simpl; [done|].
  apply seg_cons in Hs as [Hp Hs]. rewrite (cstr_at_seg _ _ _ Hp), io_bind_ret_l.
  replace (Z.of_nat p + 1) with (Z.of_nat (S p)) by lia. by apply IH.
Qed.

Lemma scan_l_app i l k n o :
  scan_l i (l ++ k) n o =
    let '(n', o') := scan_l i l n o in scan_l (i + Z.of_nat (length l)) k n' o'.
Proof.
  revert i n o; induction l as [|s l IH]; intros i n o; simpl.
  - by rewrite Z.add_0_r.
  - destruct (note i s n o) as [n' o']. rewrite IH.
    destruct (scan_l (i + 1) l n' o'). f_equal. lia.
Qed.

Lemma length_toks e : (1 <= length (toks e))%nat.
Proof. destruct e; simpl; rewrite ?length_app; simpl; lia. Qed.

Lemma sym_not_paren o : is_char "(" (sym o) = false ∧ is_char ")" (sym o) = false.
Proof. by destruct o. Qed.

(** Leaves of a well-formed expression are leaf tokens. *)
Fixpoint leaves_ok (e : ex) : Prop :=
  match e with
  | Num n => leaf_tok (fmt_u n)
  | Hex _ _ | Reg _ => True
  | Paren e | Deref e => leaves_ok e
  | Bin _ a b => leaves_ok a ∧ leaves_ok b
  end.
Lemma wf_leaves l e : wf l e = true → leaves_ok e.
Proof.
  revert l; induction e as [n|w n|r|e IH|e IH|o a IHa b IHb]; intros l H; simpl in *; bool_to_prop; eauto.
  by apply fmt_u_leaf.
Qed.

(** The three kinds of leaf, and their only token. *)
Definition leaf (e : ex) : option string :=
  match e with
  | Num n => Some (fmt_u n) | Hex w n => Some ("0x" +:+ fmt_0x w n) | Reg r => Some ("$" +:+ r)
  | _ => None
  end.
Lemma leaf_toks e s : leaf e = Some s → leaves_ok e → toks e = [s] ∧ leaf_tok s.
Proof.
  destruct e; intros [= <-]; cbn [leaves_ok toks]; intros H; (split; [done|]); [done| |by right].
  left. change (48 <= 48 <= 57). lia.
Qed.

(** Inside parentheses the scan records nothing. *)
Lemma scan_deep e i n o : leaves_ok e → 1 <= n → scan_l i (toks e) n o = (n, o).
Proof.
  revert i n o; induction e as [m|w m|r|e IH|e IH|c a IHa b IHb]; intros i n o Hl Hn.
  1-3: (edestruct leaf_toks as [-> Hs]; [reflexivity|exact Hl|]); cbn [scan_l]; by rewrite leaf_tok_scan.
  - simpl in *. rewrite scan_l_app, IH by (done || lia). simpl.
    change (is_char "(" "(") with true. unfold note. simpl. f_equal. lia.
  - cbn [toks scan_l]. unfold note at 1. change (is_char "(" "*") with false. change (is_char ")" "*") with false.
    cbv iota. replace (n =? 0) with false by lia. by apply IH.
  - simpl in *. destruct Hl. rewrite scan_l_app, IHa by done. simpl.
    unfold note at 1. destruct (sym_not_paren c) as [-> ->].
    replace (n =? 0) with false by lia. by rewrite IHb.
Qed.

(** At depth 0 it records, for each class, the last operator of the class. *)
Definition set_op (c : binop) (i : Z) (o : ops) : ops :=
  match c with
  | BAnd => mkOps i (op2 o) (op3 o) (op4 o)
  | BEq | BNe => mkOps (op1 o) i (op3 o) (op4 o)
  | BAdd | BSub => mkOps (op1 o) (op2 o) i (op4 o)
  | BMul | BDiv => mkOps (op1 o) (op2 o) (op3 o) i
  end.

Fixpoint recorded (i : Z) (e : ex) (o : ops) : ops :=
  match e with
  | Num _ | Hex _ _ | Reg _ | Paren _ => o
  | Deref e => recorded (i + 1) e (set_op BMul i o)
  | Bin c a b =>
      let j := i + Z.of_nat (length (toks a)) in
      recorded (j + 1) b (set_op c j (recorded i a o))
  end.

Lemma note_sym c i o : note i (sym c) 0 o = (0, set_op c i o).
Proof. by destruct c. Qed.

Lemma scan_toks e i o : leaves_ok e → scan_l i (toks e) 0 o = (0, recorded i e o).
Proof.
  revert i o; induction e as [m|w m|r|e IH|e IH|c a IHa b IHb]; intros i o Hl.
  1-3: (edestruct leaf_toks as [-> Hs]; [reflexivity|exact Hl|]); cbn [scan_l recorded]; by rewrite leaf_tok_scan.
  - simpl in *. change (note i "(" 0 o) with (1, o). cbv beta iota.
    rewrite scan_l_app, scan_deep by (done || lia). done.
  - cbn [toks scan_l recorded]. change (note i "*" 0 o) with (0, set_op BMul i o). by apply IH.
  - simpl in *. destruct Hl. rewrite scan_l_app, IHa by done. cbn [scan_l].
    rewrite note_sym. by rewrite IHb.
Qed.

(** An expression of level at least [l] touches no class below [l]. *)
Lemma recorded_low e l c i o :
  wf l e = true → (1 <= c < l)%nat → get_op c (recorded i e o) = get_op c o.
Proof.
  revert l i o; induction e as [m|w m|r|e IH|e IH|k a IHa b IHb]; intros l i o Hw Hc; simpl in *; try done.
  { apply andb_true_iff in Hw as [Hl%Nat.leb_le Hw]. rewrite (IH 5%nat) by (done || lia).
    destruct c as [|[|[|[|?]]]]; done || lia. }
  bool_to_prop. assert (l <= level k)%nat by (by apply Nat.leb_le).
  rewrite (IHb (S (level k))), <- (IHa (level k) i o) by (done || lia).
  destruct k; simpl in *; destruct c as [|[|[|[|[|]]]]]; simpl; done || lia.
Qed.

(** The operator chosen for a binary expression is its root. *)
Lemma choose_root l k a b p :
  wf l (Bin k a b) = true →
  choose_op p (recorded p (Bin k a b) (mkOps p p p p)) = p + Z.of_nat (length (toks a)).
Proof.
  intros Hw. simpl in Hw. bool_to_prop. simpl recorded.
  set (j := p + _). set (o := recorded (j + 1) b _).
  pose proof (length_toks a).
  assert (∀ c, (1 <= c < level k)%nat → get_op c o = p) as Hlow.
  { intros c Hc. unfold o. rewrite (recorded_low b (S (level k))) by (done || lia).
    assert (get_op c (set_op k j (recorded p a (mkOps p p p p)))
      = get_op c (recorded p a (mkOps p p p p))) as ->.
    { destruct k; simpl in *; destruct c as [|[|[|[|[|]]]]]; simpl; done || lia. }
    rewrite (recorded_low a (level k)) by done. destruct c as [|[|[|[|[|]]]]]; done. }
  assert (get_op (level k) o = j) as Hk.
  { unfold o. rewrite (recorded_low b (S (level k))); [by destruct k|done|].
    destruct k; simpl; lia. }
  unfold choose_op.
  pose proof (Hlow 1%nat) as H1'. pose proof (Hlow 2%nat) as H2'. pose proof (Hlow 3%nat) as H3'.
  simpl in H1', H2', H3'.
  assert ((j =? p) = false) as Hjp by (apply Z.eqb_neq; lia).
  destruct k; simpl in *; rewrite ?H1', ?H2', ?H3', ?Hk, ?Z.eqb_refl, ?Hjp by lia; done.
Qed.

(** ** Parentheses *)

Ltac app_norm := repeat (progress (simpl; rewrite <- ?app_assoc)).

Lemma pwalk_app n l k : pwalk n (l ++ k) = pwalk (pwalk n l) k.
Proof. apply foldl_app. Qed.

Lemma pw_leaf n s : leaf_tok s → pw n s = n.
Proof. intros. unfold pw. by rewrite !leaf_tok_is_char by (done || decide_now). Qed.
Lemma pw_sym n c : pw n (sym c) = n.
Proof. unfold pw. by destruct (sym_not_paren c) as [-> ->]. Qed.
Lemma pw_close n : 1 <= n → pw n ")" = n - 1.
Proof. intros. unfold pw, truthy. simpl. by replace (n =? 0) with false by lia. Qed.

Lemma pwalk_toks e n : leaves_ok e → 0 <= n → pwalk n (toks e) = n.
Proof.
  revert n; induction e as [m|w m|r|e IH|e IH|c a IHa b IHb]; intros n Hl Hn.
  1-3: (edestruct leaf_toks as [-> Hs]; [reflexivity|exact Hl|]); by apply pw_leaf.
  all: simpl in *.
  - change (pw n "(") with (n + 1). fold (pwalk (n + 1) (toks e ++ [")"])).
    rewrite pwalk_app, IH by (done || lia). simpl. rewrite pw_close by lia. lia.
  - change (pw n "*") with n. by apply IH.
  - destruct Hl. rewrite pwalk_app, IHa by done. simpl. rewrite pw_sym. by apply IHb.
Qed.

(** If an expression starts with a parenthesis, what follows the matching one
    leaves the walk where it is; and symmetrically at its end. *)
Lemma toks_first e :
  leaves_ok e →
  (∃ s l, toks e = s :: l ∧ is_char "(" s = false) ∨
  (∃ e' l, leaves_ok e' ∧ toks e = "(" :: toks e' ++ ")" :: l ∧ ∀ n, 0 <= n → pwalk n l = n).
Proof.
  induction e as [m|w m|r|e IH|e IH|c a IHa b IHb]; intros Hl.
  1-3: left; (edestruct leaf_toks as [-> Hs]; [reflexivity|exact Hl|]); eexists _, [];
    (split; [done|]); apply leaf_tok_is_char; (done || decide_now).
  all: simpl in *.
  - right. exists e, []. done.
  - left. by exists "*", (toks e).
  - destruct Hl as [Ha Hb]. destruct (IHa Ha) as [(s & l & -> & Hs)|(e' & l & He' & -> & Hw)].
    + left. by exists s, (l ++ sym c :: toks b).
    + right. exists e', (l ++ sym c :: toks b). split_and!; [done| |].
      * simpl. by rewrite <- app_assoc.
      * intros n Hn. rewrite pwalk_app, Hw by done. simpl. rewrite pw_sym. by apply pwalk_toks.
Qed.

Lemma toks_last e :
  leaves_ok e →
  (∃ s l, toks e = l ++ [s] ∧ leaf_tok s) ∨
  (∃ e' l, leaves_ok e' ∧ toks e = l ++ "(" :: toks e' ++ [")"] ∧ ∀ n, 0 <= n → pwalk n l = n).
Proof.
  induction e as [m|w m|r|e IH|e IH|c a IHa b IHb]; intros Hl.
  1-3: left; (edestruct leaf_toks as [-> Hs]; [reflexivity|exact Hl|]); by eexists _, [].
  all: simpl in *.
  - right. exists e, []. done.
  - destruct (IH Hl) as [(s & l & -> & Hs)|(e' & l & He' & -> & Hw)].
    + left. by exists s, ("*" :: l).
    + right. exists e', ("*" :: l). split_and!; [done|done|]. intros n Hn. change (pwalk n ("*" :: l)) with (pwalk n l).
      by apply Hw.
  - destruct Hl as [Ha Hb]. destruct (IHb Hb) as [(s & l & -> & Hs)|(e' & l & He' & -> & Hw)].
    + left. exists s, (toks a ++ sym c :: l). by rewrite <- app_assoc.
    + right. exists e', (toks a ++ sym c :: l). split_and!; [done| |].
      * by rewrite <- app_assoc.
      * intros n Hn. rewrite pwalk_app, pwalk_toks by done. simpl. rewrite pw_sym. by apply Hw.
Qed.

(** In all cases the last token adds no operator. *)
Lemma toks_snoc e :
  leaves_ok e → ∃ l t, toks e = l ++ [t] ∧ ∀ i n o, (note i t n o).2 = o.
Proof.
  intros Hl. destruct (toks_last e Hl) as [(s & l & -> & Hs)|(e' & l & _ & -> & _)].
  - exists l, s. split; [done|]. intros. by rewrite leaf_tok_scan.
  - exists (l ++ "(" :: toks e'), ")". split; [|done]. by rewrite <- app_assoc.
Qed.

Lemma check_parentheses_list strs p s0 mid s1 :
  seg strs p (s0 :: mid ++ [s1]) →
  check_parentheses strs (Z.of_nat p) (Z.of_nat p + Z.of_nat (S (length mid)))
  = mret (is_char "(" s0 && is_char ")" s1 && (pwalk 0 mid =? 0)).
Proof.
  intros Hs. apply seg_cons in Hs as [H0 Hs]. apply seg_app in Hs as [Hm H1].
  apply seg_cons in H1 as [H1 _]. unfold check_parentheses.
  rewrite (cstr_at_seg _ _ _ H0), io_bind_ret_l.
  replace (Z.of_nat p + Z.of_nat (S (length mid))) with (Z.of_nat (S p + length mid)) by lia.
  rewrite (cstr_at_seg _ _ _ H1), io_bind_ret_l.
  destruct (is_char "(" s0 && is_char ")" s1); [|done].
  replace (Z.of_nat p + 1) with (Z.of_nat (S p)) by lia.
  replace (Z.to_nat _) with (length mid) by lia.
  by rewrite (paren_loop_list _ _ _ _ Hm), io_bind_ret_l.
Qed.

(** A pair of outer parentheses is recognised, and two different groups at the
    ends of a binary expression are not mistaken for one. *)
Lemma bin_not_surrounded c a b :
  leaves_ok a → leaves_ok b →
  ∃ s0 mid s1, toks (Bin c a b) = s0 :: mid ++ [s1] ∧
    is_char "(" s0 && is_char ")" s1 && (pwalk 0 mid =? 0) = false.
Proof.
  intros Ha Hb. simpl.
  destruct (toks_first a Ha) as [(s & l & -> & Hs)|(e & l & He & -> & Hw)];
  destruct (toks_last b Hb) as [(s' & l' & -> & Hs')|(e' & l' & He' & -> & Hw')].
  - exists s, (l ++ sym c :: l'), s'. split; [by app_norm|].
    by rewrite Hs.
  - exists s, (l ++ sym c :: l' ++ "(" :: toks e'), ")". split; [by app_norm|].
    by rewrite Hs.
  - exists "(", ((toks e ++ ")" :: l) ++ sym c :: l'), s'. split; [by app_norm|].
    rewrite (leaf_tok_is_char s') by (done || decide_now). by rewrite andb_false_r.
  - exists "(", (toks e ++ (")" :: l) ++ sym c :: l' ++ "(" :: toks e'), ")".
    split; [by app_norm|]. apply andb_false_iff. right. apply Z.eqb_neq.
    rewrite !pwalk_app, pwalk_toks by (done || lia). simpl.
    change (pw 0 ")") with 0. fold (pwalk 0 l). rewrite Hw by lia. rewrite pw_sym.
    fold (pwalk 0 (l' ++ "(" :: toks e')). rewrite pwalk_app, Hw' by lia. simpl.
    change (pw 0 "(") with 1. fold (pwalk 1 (toks e')). rewrite pwalk_toks by (done || lia). lia.
Qed.


(** ** The evaluator follows the grammar *)

Section eval_correct.
Variables (strs : list (option string)) (pmem : bytes).

(** The scan of a range that is no single token records its operators. *)
Lemma scan_ops_toks e p :
  leaves_ok e → seg strs p (toks e) → ready strs p (toks e) →
  scan_ops strs (Z.of_nat p) (length (toks e) - 1) 0
    (mkOps (Z.of_nat p) (Z.of_nat p) (Z.of_nat p) (Z.of_nat p))
  = mret (recorded (Z.of_nat p) e (mkOps (Z.of_nat p) (Z.of_nat p) (Z.of_nat p) (Z.of_nat p))).
Proof.
  intros Hl Hs Hr. set (o0 := mkOps _ _ _ _). destruct (toks_snoc e Hl) as (ini & t & Ei & Ht).
  pose proof (scan_toks e (Z.of_nat p) o0 Hl) as Hsc.
  rewrite Ei in *. apply seg_app in Hs as [Hini _].
  replace (length (ini ++ [t]) - 1)%nat with (length ini) by (rewrite length_app; simpl; lia).
  rewrite (scan_ops_list strs p ini 0 o0 Hini) by (intros s' H'; apply Hr; by destruct ini). f_equal.
  rewrite scan_l_app in Hsc. destruct (scan_l (Z.of_nat p) ini 0 o0) as [n o]. simpl in *.
  specialize (Ht (Z.of_nat p + Z.of_nat (length ini)) n o).
  destruct (note _ t n o) as [n' o']. simpl in *. congruence.
Qed.

(** One unfolding of [eval] on a range that is not surrounded by a pair of
    parentheses. *)
Lemma eval_split fuel e p s0 mid s1 :
  leaves_ok e → seg strs p (toks e) → ready strs p (toks e) → toks e = s0 :: mid ++ [s1] →
  is_char "(" s0 && is_char ")" s1 && (pwalk 0 mid =? 0) = false →
  let zp := Z.of_nat p in let q := zp + Z.of_nat (length (toks e)) - 1 in
  let op := choose_op zp (recorded zp e (mkOps zp zp zp zp)) in
  eval strs (S fuel) pmem zp q
  = if (op =? zp) && is_char "*" s0 then
      a ← eval strs fuel pmem (zp + 1) q; v ← paddr_read pmem a 4; mret (u32 v)
    else
      v1 ← eval strs fuel pmem zp (op - 1); v2 ← eval strs fuel pmem (op + 1) q;
      s ← cstr_at strs op; apply_op s (s32 v1) (s32 v2).
Proof.
  intros Hl Hs Hr Et Hpar. cbv zeta.
  pose proof (check_parentheses_list strs p s0 mid s1) as Hc. rewrite <- Et, Hpar in Hc.
  assert (length (toks e) = S (S (length mid))) as Em
    by (rewrite Et; simpl; rewrite length_app; simpl; lia).
  pose proof (scan_ops_toks e p Hl Hs Hr) as Hscan.
  set (q := Z.of_nat p + Z.of_nat (length (toks e)) - 1) in *. cbn [eval].
  replace (q <? Z.of_nat p) with false by lia. replace (Z.of_nat p =? q) with false by lia.
  replace (Z.of_nat p + Z.of_nat (S (length mid))) with q in Hc by lia.
  rewrite (Hc Hs), io_bind_ret_l. cbv beta iota.
  replace (Z.to_nat (q - Z.of_nat p)) with (length (toks e) - 1)%nat by lia.
  rewrite Hscan, io_bind_ret_l. cbv zeta.
  rewrite Et in Hs. apply seg_cons in Hs as [Hsp _].
  by rewrite (cstr_at_seg _ _ _ Hsp), io_bind_ret_l.
Qed.

Lemma eval_bin fuel l c a b p :
  wf l (Bin c a b) = true → seg strs p (toks (Bin c a b)) → ready strs p (toks (Bin c a b)) →
  eval strs (S fuel) pmem (Z.of_nat p) (Z.of_nat p + Z.of_nat (length (toks (Bin c a b))) - 1)
  = (v1 ← eval strs fuel pmem (Z.of_nat p) (Z.of_nat p + Z.of_nat (length (toks a)) - 1);
     v2 ← eval strs fuel pmem (Z.of_nat (S (p + length (toks a))))
            (Z.of_nat (S (p + length (toks a))) + Z.of_nat (length (toks b)) - 1);
     apply_op (sym c) (s32 v1) (s32 v2)).
Proof.
  intros Hw Hs Hr. pose proof (wf_leaves _ _ Hw) as Hl. pose proof Hl as [Hla Hlb].
  pose proof (length_toks a) as La.
  destruct (bin_not_surrounded c a b Hla Hlb) as (s0 & mid & s1 & Et & Hpar).
  rewrite (eval_split fuel _ _ _ _ _ Hl Hs Hr Et Hpar), (choose_root _ _ _ _ _ Hw).
  simpl toks in Hs. apply seg_app in Hs as [_ Hs]. apply seg_cons in Hs as [Hsy _].
  replace (Z.of_nat p + Z.of_nat (length (toks a)) =? Z.of_nat p) with false by lia.
  cbn [andb]. cbv iota.
  replace (Z.of_nat p + Z.of_nat (length (toks a))) with (Z.of_nat (p + length (toks a))) by lia.
  replace (Z.of_nat (p + length (toks a)) + 1) with (Z.of_nat (S (p + length (toks a)))) by lia.
  replace (Z.of_nat (S (p + length (toks a))) + Z.of_nat (length (toks b)) - 1)
    with (Z.of_nat p + Z.of_nat (length (toks (Bin c a b))) - 1)
    by (simpl; rewrite length_app; simpl; lia).
  by rewrite (cstr_at_seg _ _ _ Hsy).
Qed.

(** At level 5 the scan finds nothing: what a memory operand reads is no
    operator. *)
Lemma recorded_operand e i o : wf 5 e = true → recorded i e o = o.
Proof. by destruct e as [| | | | |[]]. Qed.

Lemma deref_not_surrounded e :
  ∃ mid s1, toks (Deref e) = "*" :: mid ++ [s1] ∧
    is_char "(" "*" && is_char ")" s1 && (pwalk 0 mid =? 0) = false.
Proof.
  cbn [toks]. pose proof (length_toks e) as H. destruct (toks e) as [|s l] using rev_ind; [simpl in H; lia|].
  by exists l, s.
Qed.

Lemma eval_deref fuel e p :
  wf 5 e = true → seg strs p (toks (Deref e)) → ready strs p (toks (Deref e)) →
  eval strs (S fuel) pmem (Z.of_nat p) (Z.of_nat p + Z.of_nat (length (toks (Deref e))) - 1)
  = (a ← eval strs fuel pmem (Z.of_nat (S p)) (Z.of_nat (S p) + Z.of_nat (length (toks e)) - 1);
     v ← paddr_read pmem a 4; mret (u32 v)).
Proof.
  intros Hw Hs Hr. destruct (deref_not_surrounded e) as (mid & s1 & Et & Hpar).
  rewrite (eval_split fuel _ _ _ _ _ (wf_leaves 5 e Hw : leaves_ok (Deref e)) Hs Hr Et Hpar).
  cbn [recorded]. rewrite recorded_operand by done. unfold choose_op. cbn [set_op op1 op2 op3 op4].
  rewrite Z.eqb_refl. cbn [negb]. rewrite Z.eqb_refl. change (is_char "*" "*") with true. cbn [andb]. cbv iota.
  replace (Z.of_nat p + 1) with (Z.of_nat (S p)) by lia.
  by replace (Z.of_nat (S p) + Z.of_nat (length (toks e)) - 1)
    with (Z.of_nat p + Z.of_nat (length (toks (Deref e))) - 1) by (simpl; lia).
Qed.

Lemma eval_paren fuel e p :
  leaves_ok e → seg strs p (toks (Paren e)) →
  eval strs (S fuel) pmem (Z.of_nat p) (Z.of_nat p + Z.of_nat (length (toks (Paren e))) - 1)
  = eval strs fuel pmem (Z.of_nat (S p)) (Z.of_nat (S p) + Z.of_nat (length (toks e)) - 1).
Proof.
  intros Hl Hs.
  assert (length (toks (Paren e)) = S (S (length (toks e)))) as El
    by (simpl; rewrite length_app; simpl; lia).
  pose proof (check_parentheses_list strs p "(" (toks e) ")" Hs) as Hc. rewrite El.
  set (q := Z.of_nat p + Z.of_nat (S (S (length (toks e)))) - 1). cbn [eval].
  replace (q <? Z.of_nat p) with false by lia. replace (Z.of_nat p =? q) with false by lia.
  replace (Z.of_nat p + Z.of_nat (S (length (toks e)))) with q in Hc by lia.
  rewrite Hc, io_bind_ret_l, pwalk_toks by (done || lia). cbv beta iota.
  f_equal; lia.
Qed.

Lemma eval_leaf fuel s p :
  seg strs p [s] →
  eval strs (S fuel) pmem (Z.of_nat p) (Z.of_nat p + Z.of_nat (length [s]) - 1)
  = mret (u32 (strtoull 0 s).1).
Proof.
  intros Hs. apply seg_cons in Hs as [Hs _]. simpl length. cbn [eval]. zif_false. zif_true.
  by rewrite (cstr_at_seg _ _ _ Hs), io_bind_ret_l.
Qed.

(** The expressions whose evaluation does not look in front of its range: a
    single number or register, and what starts with a parenthesis. *)
Fixpoint starts_paren (e : ex) : bool :=
  match e with Paren _ => true | Bin _ a _ => starts_paren a | _ => false end.
Definition inside (e : ex) : bool := bool_decide (is_Some (leaf e)) || starts_paren e.

Lemma toks_starts e : leaves_ok e → ∃ s l, toks e = s :: l ∧
  if starts_paren e then s = "(" else leaf_tok s ∨ s = "*".
Proof.
  induction e as [m|w m|r|e IH|e IH|c a IHa b IHb]; intros Hl.
  1-3: (edestruct leaf_toks as [-> Hs]; [reflexivity|exact Hl|]); eexists _, []; (split; [done|by left]).
  - by eexists _, _.
  - eexists _, _. split; [done|by right].
  - destruct Hl as [Ha _]. destruct (IHa Ha) as (s & l & E & H). exists s, (l ++ sym c :: toks b).
    split; [cbn [toks]; by rewrite E|done].
Qed.

Lemma inside_single e : inside e = true → starts_paren e = true ∨ (∃ s, toks e = [s]).
Proof.
  unfold inside. intros [H|H]%orb_true_iff; [right|by left]. apply bool_decide_eq_true in H as [s Hs].
  destruct e; try done; by eexists.
Qed.

(** Such a range, or one with something readable in front of it. *)
Definition safe (p : nat) (e : ex) : Prop := inside e = true ∨ behind strs p.

Lemma safe_left c a b p : safe p (Bin c a b) → safe p a.
Proof. intros [H|H]; [left|by right]. unfold inside in *. cbn in H. rewrite H. apply orb_true_r. Qed.

Lemma safe_ready e p : leaves_ok e → leaf e = None → safe p e → ready strs p (toks e).
Proof.
  intros Hl Hn [H|H]; [|by right]. unfold inside in H. rewrite Hn in H. change (starts_paren e = true) in H.
  destruct (toks_starts e Hl) as (s & l & -> & E). rewrite H in E. subst. intros ? [= <-]. by left.
Qed.

Lemma eval_toks e l fuel p :
  wf l e = true → seg strs p (toks e) → safe p e → (length (toks e) <= fuel)%nat →
  eval strs fuel pmem (Z.of_nat p) (Z.of_nat p + Z.of_nat (length (toks e)) - 1) = denote pmem e.
Proof.
  revert e l p; induction fuel as [|fuel IH]; intros e l p Hw Hs Hr Hf.
  { pose proof (length_toks e). lia. }
  pose proof (wf_leaves _ _ Hw) as Hl.
  destruct e as [n|w n|r|e|e|c a b]; cbn [denote].
  1-3: cbn [toks wf] in *; rewrite eval_leaf by done.
  - bool_to_prop. by rewrite strtoull_fmt_u by lia.
  - bool_to_prop. by rewrite strtoull_fmt_0x by lia.
  - done.
  - rewrite eval_paren by done. cbn [toks] in *.
    apply seg_cons in Hs as [Hp Hs]. apply seg_app in Hs as [Hs _]. cbn [length] in Hf. rewrite length_app in Hf.
    cbn [length] in Hf. apply (IH e 1%nat); [done|done|right; by eapply behind_seg|lia].
  - cbn [wf] in Hw. bool_to_prop. rewrite eval_deref by (done || by apply safe_ready). cbn [toks] in *.
    apply seg_cons in Hs as [Hp Hs]. cbn [length] in Hf.
    rewrite (IH e 5%nat) by (done || lia || (right; by eapply behind_seg)). done.
  - rewrite (eval_bin _ _ _ _ _ _ Hw Hs) by (by apply safe_ready). apply safe_left in Hr. cbn [toks wf] in *.
    apply seg_app in Hs as [Hsa Hs]. apply seg_cons in Hs as [Hp Hsb].
    rewrite length_app in Hf. cbn [length] in Hf. bool_to_prop.
    rewrite (IH a (level c)), (IH b (S (level c))) by (done || lia || (right; by eapply behind_seg)). done.
Qed.

(** Any other expression at the start of the array: its first element makes the
    scan read in front of it. *)
Lemma eval_outside e fuel :
  leaves_ok e → inside e = false → seg strs 0 (toks e) →
  result (eval strs (S fuel) pmem 0 (Z.of_nat (length (toks e)) - 1)) = Fault OutOfBounds.
Proof.
  intros Hl Hi Hs. unfold inside in Hi. apply orb_false_iff in Hi as [Hn Hp].
  assert (∃ s0 mid s1, toks e = s0 :: mid ++ [s1] ∧ (leaf_tok s0 ∨ s0 = "*")) as (s0 & mid & s1 & E & H0).
  { destruct (toks_starts e Hl) as (s & l & E & H0). rewrite Hp in H0. rewrite E.
    destruct l as [|s1 mid _] using rev_ind; [|by eexists _, _, _]. exfalso.
    destruct e as [| | |e|e|c a b]; cbn in *; try done.
    all: apply (f_equal length) in E; rewrite ?length_app in E; cbn in E.
    - pose proof (length_toks e). lia.
    - pose proof (length_toks a). lia. }
  pose proof (check_parentheses_list strs 0 s0 mid s1) as Hc. rewrite <- E in Hc. specialize (Hc Hs).
  assert (is_char "(" s0 = false) as E0.
  { destruct H0 as [H0| ->]; [|done]. by apply leaf_tok_is_char; [|decide_now]. }
  rewrite E0 in Hc. cbn [andb] in Hc. change (Z.of_nat 0) with 0 in Hc.
  replace (0 + Z.of_nat (S (length mid))) with (Z.of_nat (length (toks e)) - 1) in Hc
    by (rewrite E; cbn; rewrite length_app; cbn; lia).
  assert (2 <= length (toks e))%nat as H2 by (rewrite E; cbn; rewrite length_app; cbn; lia).
  cbn [eval]. zif_false. zif_false. rewrite Hc, io_bind_ret_l, result_bind. cbv iota.
  replace (Z.to_nat _) with (S (length (toks e) - 2)) by lia. cbn [scan_ops].
  rewrite E in Hs. apply seg_cons in Hs as [Hs _]. change 0 with (Z.of_nat 0). rewrite (cstr_at_seg _ _ _ Hs), io_bind_ret_l.
  unfold scan_step. rewrite E0. destruct H0 as [H0| ->]; [|done].
  rewrite !leaf_tok_is_char by (done || decide_now). by rewrite !leaf_tok_neq by (done || decide_now).
Qed.
End eval_correct.

(** ** The lexer on printed expressions *)

(** Tokens with any number of blanks before, between and behind them; the
    numbers that [gaps] leaves out are 0. *)
Fixpoint lay (gaps : list nat) (ts : list string) : string :=
  spaces (default 0%nat (head gaps)) +:+
  match ts with [] => "" | t :: ts => t +:+ lay (tail gaps) ts end.

(** Numbers and registers are read up to the first character that cannot
    continue them, so what follows matters. *)
Definition wordy (u : Token) : bool :=
  (type u =? TK_NUM) || (type u =? TK_H) || (type u =? TK_REG).
Definition word_end (s : string) : Prop :=
  match s with String c _ => is_alnum c = false | EmptyString => True end.

(** A lexeme: read whole by a rule of its type, whatever may follow it. *)
Record lexeme (u : Token) : Prop := {
  lex_type : type u ≠ TK_NOTYPE;
  lex_rule : ∀ s, (wordy u = true → word_end s) → ∃ i r,
    first_rule 0 rules (str u +:+ s) = Some (i, r, String.length (str u)) ∧ token_type r = type u;
  lex_short : (String.length (str u) < STR_SIZE)%nat;
  lex_head : ∃ c t', str u = String c t' ∧ Ascii.eqb " " c = false ∧
    (wordy u = false → is_alnum c = false)
}.

Lemma sdrop_app t s : sdrop (String.length t) (t +:+ s) = s.
Proof. induction t as [|c t IH]; simpl; [by destruct s|done]. Qed.
Lemma stake_app t s : stake (String.length t) (t +:+ s) = t.
Proof. induction t as [|c t IH]; simpl; [by destruct s|by rewrite IH]. Qed.

(** What is neither a letter nor a digit stops the classes of the rules. *)
Lemma word_end_stops s p m :
  word_end s → (∀ c, p c = true → is_alnum c = true) → count_class p m s = 0%nat.
Proof.
  intros Hs Hp. destruct s as [|c s]; [by destruct m as [[|]|]|]. cbn in Hs.
  destruct (p c) eqn:E; [by rewrite Hp in Hs|]. destruct m as [[|]|]; cbn; by rewrite ?E.
Qed.
Lemma digit_alnum c : is_digit c = true → is_alnum c = true.
Proof. unfold is_alnum. intros ->. by rewrite orb_true_r. Qed.
Lemma lower_digit_alnum c : is_lower c || is_digit c = true → is_alnum c = true.
Proof. unfold is_alnum. rewrite <- orb_assoc. intros ->. by rewrite orb_true_r. Qed.

(** Tokens without a variable part are lexemes by computation. *)
Ltac fixed_lexeme :=
  split; [by decide_now
         |intros [|c' s'] _; eexists _, _; (split; [reflexivity|reflexivity])
         |simpl; unfold STR_SIZE; lia
         |eexists _, _; (split; [reflexivity|split; [reflexivity|done]])].

Lemma lexeme_sym o : lexeme (mkToken (sym_type o) (sym o)).
Proof. destruct o; fixed_lexeme. Qed.
Lemma lexeme_left : lexeme left_paren.
Proof. fixed_lexeme. Qed.
Lemma lexeme_right : lexeme right_paren.
Proof. fixed_lexeme. Qed.

(** The register names of one character and of two. *)
Lemma lexeme_zero : lexeme (mkToken TK_REG "$0").
Proof.
  split; [by decide_now| |simpl; unfold STR_SIZE; lia|eexists _, _; (split; [reflexivity|by split])].
  intros s Hs. specialize (Hs eq_refl). cbn [str].
  pose proof (word_end_stops s _ (Some 1%nat) Hs lower_digit_alnum) as Hc.
  exists 1%nat, (default (Rule EmptyString [] 0) (rules !! 1%nat)). split; [|done].
  change (String.length "$0") with 2%nat. revert Hc.
  destruct s as [|c s]; [done|]. intros Hc.
  change (count_class (λ c, is_lower c || is_digit c) (Some 2%nat) (String "0" (String c s)))
    with (S (count_class (λ c, is_lower c || is_digit c) (Some 1%nat) (String c s))).
  cbn in Hc. cbn. destruct (is_lower c || is_digit c); [done|]. done.
Qed.
Lemma lexeme_reg r : r ∈ reg_names → lexeme (mkToken TK_REG ("$" +:+ r)).
Proof.
  unfold reg_names. intros H. apply elem_of_cons in H as [->|H]; [apply lexeme_zero|].
  repeat (apply elem_of_cons in H as [->|H]; [fixed_lexeme|]). by apply elem_of_nil in H.
Qed.

Lemma is_digit_char d : 0 <= d < 10 → is_digit (digit_char d) = true.
Proof.
  intros. unfold is_digit, in_range. rewrite code_digit_char by done.
  apply andb_true_iff; split; apply Z.leb_le; lia.
Qed.

Lemma count_digits ds s :
  Forall (λ d, 0 <= d < 10) ds → word_end s →
  count_class is_digit None (of_digits ds +:+ s) = length ds.
Proof.
  intros Hd Hs. induction Hd as [|d ds Hd _ IH]; simpl.
  - by apply word_end_stops; [|apply digit_alnum].
  - rewrite is_digit_char by done. by rewrite IH.
Qed.

(** Digits that do not start with a 0 followed by more are read by the number
    rule. *)
Lemma first_rule_digits d ds s :
  Forall (λ d, 0 <= d < 10) (d :: ds) → (d = 0 → ds = []) → word_end s →
  first_rule 0 rules (of_digits (d :: ds) +:+ s)
  = Some (7%nat, Rule "[0-9]+" [Piece is_digit 1 None] TK_NUM, length (d :: ds)).
Proof.
  intros Hd H0 Hs. pose proof (count_digits _ _ Hd Hs) as Hc.
  apply Forall_cons in Hd as [Hd _]. simpl in Hc |- *. rewrite is_digit_char in Hc by done.
  injection Hc as Hc.
  assert (d = 0 ∨ d = 1 ∨ d = 2 ∨ d = 3 ∨ d = 4 ∨ d = 5 ∨ d = 6 ∨ d = 7 ∨ d = 8 ∨ d = 9) as Hcase by lia.
  destruct Hcase as [->|Hcase].
  - rewrite (H0 eq_refl) in *. destruct s as [|c s]; [done|]. cbn in Hs.
    assert (Ascii.eqb c "x" || Ascii.eqb c "X" = false) as Hx.
    { apply orb_false_iff; split; apply Ascii.eqb_neq; intros ->; by vm_compute in Hs. }
    simpl in Hc |- *. rewrite Hx. simpl. by rewrite Hc.
  - repeat (destruct Hcase as [->|Hcase];
      [simpl; rewrite Hc; simpl; by rewrite Nat.add_0_r|]).
    subst. simpl. rewrite Hc. simpl. by rewrite Nat.add_0_r.
Qed.

Lemma lexeme_num n : 0 <= n < 2 ^ 32 → lexeme (mkToken TK_NUM (fmt_u n)).
Proof.
  intros Hn. unfold fmt_u.
  pose proof (digits_of_range 10 n ltac:(lia) ltac:(lia)) as Hr.
  pose proof (digits_of_nonempty 10 n) as Hne.
  assert (length (digits_of 10 n) < STR_SIZE)%nat as Hlen.
  { unfold digits_of. pose proof (length_digits (S (Z.to_nat (Z.log2 n))) 10 n [] 10 ltac:(lia) ltac:(lia) ltac:(lia)).
    unfold STR_SIZE. simpl length in *. lia. }
  assert (∀ d ds, digits_of 10 n = d :: ds → d = 0 → ds = []) as H0.
  { intros d ds E Ed. destruct (decide (n = 0)) as [->|]; [compute in E; congruence|].
    destruct (digits_head 10 n (S (Z.to_nat (Z.log2 n))) []) as (d' & ds' & E' & Hd');
      [lia|split; [lia|]; apply digits_fuel; lia|].
    unfold digits_of in E. rewrite E' in E. congruence. }
  destruct (digits_of 10 n) as [|d ds]; [done|]. specialize (H0 d ds eq_refl).
  split; cbn [str type].
  - done.
  - intros s Hs. specialize (Hs eq_refl). eexists _, _. rewrite first_rule_digits by done.
    by rewrite length_of_digits.
  - by rewrite length_of_digits.
  - eexists _, _. split; [reflexivity|]. split; [|done]. apply Forall_cons in Hr as [Hd _].
    apply Ascii.eqb_neq. intros E. apply (f_equal code) in E.
    rewrite code_digit_char in E by done. change (code " ") with 32 in E. lia.
Qed.

(** Hexadecimal digits are alphanumeric, and at most eight of them are read. *)
Lemma is_alnum_char d : 0 <= d < 16 → is_alnum (digit_char d) = true.
Proof.
  intros Hd. assert (d ∈ seqZ 0 16) as Hin by (apply elem_of_seqZ; lia).
  revert Hin. change (seqZ 0 16) with [0; 1; 2; 3; 4; 5; 6; 7; 8; 9; 10; 11; 12; 13; 14; 15].
  intros Hin. repeat (apply elem_of_cons in Hin as [->|Hin]; [done|]). by apply elem_of_nil in Hin.
Qed.

Lemma count_hex ds s m :
  Forall (λ d, 0 <= d < 16) ds → word_end s → (length ds <= m)%nat →
  count_class is_alnum (Some m) (of_digits ds +:+ s) = length ds.
Proof.
  intros Hd Hs. revert m. induction Hd as [|d ds Hd _ IH]; intros m Hm; simpl in *.
  - by apply word_end_stops.
  - destruct m as [|m]; [lia|]. rewrite is_alnum_char by done. simpl. by rewrite IH by lia.
Qed.

Lemma first_rule_hex x n :
  count_class is_alnum (Some 8%nat) x = n → (0 < n)%nat →
  ∃ r, first_rule 0 rules ("0x" +:+ x) = Some (0%nat, r, S (S n)) ∧ token_type r = TK_H.
Proof.
  intros Hn H0. exists (hd (Rule EmptyString [] 0) rules). split; [|reflexivity].
  destruct x as [|c x']; [simpl in Hn; lia|]. set (x := String c x') in *.
  change (first_rule 0 rules ("0x" +:+ x)) with
    (match
       (k ← (k ← (let n := count_class is_alnum (Some 8%nat) x in if (n <? 1)%nat then None else Some (n + 0)%nat);
             Some (1 + k)%nat);
        Some (1 + k)%nat)
     with
     | Some len => Some (0%nat, hd (Rule EmptyString [] 0) rules, len)
     | None => first_rule 1 (tl rules) ("0x" +:+ x)
     end).
  rewrite Hn. cbv zeta. replace (n <? 1)%nat with false by (symmetry; apply Nat.ltb_ge; lia).
  simpl. by rewrite Nat.add_0_r.
Qed.

Lemma lexeme_hex w n : (w <= 8)%nat → 0 <= n < 2 ^ 32 → lexeme (mkToken TK_H ("0x" +:+ fmt_0x w n)).
Proof.
  intros Hw Hn. unfold fmt_0x, fmt_x, pad0. rewrite of_digits_zeros, length_of_digits.
  pose proof (digits_of_range 16 n ltac:(lia) ltac:(lia)) as Hr.
  assert (0 < length (digits_of 16 n))%nat as H0
    by (pose proof (digits_of_nonempty 16 n); destruct (digits_of 16 n); [done|simpl; lia]).
  assert (length (digits_of 16 n) <= 8)%nat as H8 by (unfold digits_of; by apply (length_digits _ 16 n [] 8); lia).
  set (ds := replicate _ 0 ++ digits_of 16 n).
  assert (0 < length ds <= 8)%nat as Hl by (unfold ds; rewrite length_app, length_replicate; lia).
  assert (Forall (λ d, 0 <= d < 16) ds) as Hd
    by (apply Forall_app; split; [apply Forall_replicate; lia|done]).
  clearbody ds. split; cbn [str type].
  - done.
  - intros s Hs. pose proof (count_hex ds s 8 Hd (Hs eq_refl) ltac:(lia)) as Hc.
    destruct (first_rule_hex _ _ Hc ltac:(lia)) as (r & Hf & Ht). exists 0%nat, r.
    change (String.length ("0x" +:+ of_digits ds)) with (S (S (String.length (of_digits ds)))).
    by rewrite length_of_digits.
  - change (String.length ("0x" +:+ of_digits ds)) with (S (S (String.length (of_digits ds)))).
    rewrite length_of_digits. unfold STR_SIZE. lia.
  - eexists _, _. split; [reflexivity|by split].
Qed.

Lemma toks_lexemes l e : wf l e = true → Forall lexeme (tokens_of e).
Proof.
  revert l; induction e as [n|w n|r|e IH|e IH|o a IHa b IHb]; intros l H; cbn [wf tokens_of] in *; bool_to_prop.
  - constructor; [|done]. by apply lexeme_num.
  - constructor; [|done]. apply lexeme_hex; [by apply Nat.leb_le|done].
  - constructor; [|done]. by apply lexeme_reg.
  - constructor; [apply lexeme_left|]. apply Forall_app; split; [eauto|].
    constructor; [apply lexeme_right|done].
  - constructor; [apply (lexeme_sym BMul)|eauto].
  - apply Forall_app; split; [eauto|]. constructor; [apply lexeme_sym|eauto].
Qed.

(** No two words stand side by side; [prev] tells whether one comes before. *)
Fixpoint apart (prev : bool) (us : list Token) : bool :=
  match us with [] => true | u :: us => negb (prev && wordy u) && apart (wordy u) us end.

Lemma blanks_apart_weaken us : apart true us = true → apart false us = true.
Proof. destruct us as [|u us]; [done|]. cbn. by intros [_ ->]%andb_true_iff. Qed.

Lemma apart_tokens e us : apart true us = true → apart false (tokens_of e ++ us) = true.
Proof.
  revert us; induction e as [n|w n|r|e IH|e IH|o a IHa b IHb]; intros us Hus; cbn [tokens_of app].
  1-3: by cbn.
  - rewrite <- app_assoc. apply IH. cbn. by apply blanks_apart_weaken.
  - by apply IH.
  - rewrite <- app_assoc. apply IHa. cbn [app apart].
    replace (wordy (mkToken (sym_type o) (sym o))) with false by (by destruct o). by apply IHb.
Qed.

Lemma spaces_append n s : spaces (S n) +:+ s = String " " (spaces n +:+ s).
Proof. done. Qed.

(** What stands behind a word ends it. *)
Lemma lay_ends gaps us u :
  Forall lexeme us → apart (wordy u) us = true → wordy u = true → word_end (lay gaps (str <$> us)).
Proof.
  intros Hl Ha Hu. destruct us as [|v us]; cbn [fmap list_fmap lay];
    destruct (default 0%nat (head gaps)); try done.
  apply Forall_cons in Hl as [[_ _ _ (c & t' & -> & _ & Hc)] _]. cbn in Ha |- *. rewrite Hu in Ha.
  apply Hc. by destruct (wordy v).
Qed.

(** A run of blanks is skipped by the blank rule. *)
Lemma count_blanks n s :
  (∀ c s', s = String c s' → Ascii.eqb " " c = false) → count_class (Ascii.eqb " ") None (spaces n +:+ s) = n.
Proof.
  intros Hs. induction n as [|n IH].
  - destruct s as [|c s']; [done|]. cbn -[Ascii.eqb]. by rewrite (Hs c s' eq_refl).
  - rewrite spaces_append. cbn -[spaces]. by rewrite IH.
Qed.
Lemma first_rule_blanks n s :
  (∀ c s', s = String c s' → Ascii.eqb " " c = false) →
  first_rule 0 rules (spaces (S n) +:+ s) = Some (2%nat, Rule " +" [Piece (Ascii.eqb " ") 1 None] TK_NOTYPE, S n).
Proof.
  intros Hs. pose proof (count_blanks n s Hs) as Hc. rewrite spaces_append. revert Hc.
  generalize (spaces n +:+ s) as x. intros x Hc. simpl. rewrite Hc. simpl. by rewrite Nat.add_0_r.
Qed.

Lemma length_spaces n : String.length (spaces n) = n.
Proof. induction n as [|n IH]; [done|]. cbn. by rewrite IH. Qed.

(** The array after the tokens [ds] have been stored. *)
Definition stored (ds : list Token) : list Token :=
  ds ++ replicate (NR_TOKEN - length ds) (mkToken 0 "").

Lemma stored_snoc ds t :
  (length ds < NR_TOKEN)%nat → <[length ds := t]> (stored ds) = stored (ds ++ [t]).
Proof.
  intros H. unfold stored. rewrite length_app. simpl.
  rewrite insert_app_r_alt by lia. rewrite Nat.sub_diag.
  replace (NR_TOKEN - length ds)%nat with (S (NR_TOKEN - (length ds + 1))) by lia.
  simpl. by rewrite <- app_assoc.
Qed.

Lemma make_token_step fuel e pos u s ds :
  lexeme u → (wordy u = true → word_end s) → (length ds < NR_TOKEN)%nat →
  result (make_token_loop (S fuel) e pos (str u +:+ s) (stored ds) (length ds))
  = result (make_token_loop fuel e (pos + String.length (str u)) s (stored (ds ++ [u])) (length (ds ++ [u]))).
Proof.
  intros [Hty Hr Hshort (c & t' & Ht & _)] Hs Hd.
  destruct (Hr s Hs) as (i & r & Hf & Ety). cbn [make_token_loop].
  assert (∃ c' x, str u +:+ s = String c' x) as (c' & x & Ex) by (rewrite Ht; by eexists _, _).
  rewrite Ex at 1. rewrite Hf, result_bind. cbn [emit result snd].
  rewrite Ety, sdrop_app, stake_app. rewrite (proj2 (Z.eqb_neq _ _) Hty).
  rewrite (proj2 (Nat.ltb_lt _ _) Hd), (proj2 (Nat.ltb_lt _ _) Hshort). simpl andb. cbv iota.
  rewrite stored_snoc by done. rewrite length_app, Nat.add_1_r. by destruct u.
Qed.

(** Blanks change the position only, and cost at most one iteration. *)
Lemma make_token_blanks fuel e pos n s ts k :
  (∀ c s', s = String c s' → Ascii.eqb " " c = false) →
  ∃ fuel' pos', result (make_token_loop (n + fuel) e pos (spaces n +:+ s) ts k)
    = result (make_token_loop fuel' e pos' s ts k) ∧ (fuel <= fuel')%nat.
Proof.
  intros Hs. destruct n as [|n]; [by exists fuel, pos|].
  exists (n + fuel)%nat, (pos + S n)%nat. split; [|lia]. pose proof (first_rule_blanks n s Hs) as Hf.
  pose proof (sdrop_app (spaces (S n)) s) as Hd. rewrite length_spaces in Hd.
  cbn [Nat.add make_token_loop]. rewrite spaces_append in Hf, Hd |- *. rewrite Hf, result_bind.
  cbn [emit result snd token_type]. change (TK_NOTYPE =? TK_NOTYPE) with true. cbv iota. by rewrite Hd.
Qed.

Lemma make_token_lexemes us gaps fuel e pos ds prev :
  Forall lexeme us → apart prev us = true → (length ds + length us <= NR_TOKEN)%nat →
  (String.length (lay gaps (str <$> us)) <= fuel)%nat →
  result (make_token_loop fuel e pos (lay gaps (str <$> us)) (stored ds) (length ds))
  = Ok (true, stored (ds ++ us), (length ds + length us)%nat).
Proof.
  intros Hl. revert gaps fuel pos ds prev; induction Hl as [|u us Hu Hus IH]; intros gaps fuel pos ds prev Ha Hlen Hf;
    rewrite ?fmap_cons in *; cbn [lay fmap list_fmap] in *; set (n := default 0%nat (head gaps)) in *;
    rewrite length_append, length_spaces in Hf.
  - replace fuel with (n + (fuel - n))%nat by lia.
    destruct (make_token_blanks (fuel - n) e pos n "" (stored ds) (length ds)) as (f' & pos' & E & _); [done|].
    rewrite E, app_nil_r, Nat.add_0_r. by destruct f'.
  - cbn [apart] in Ha. apply andb_true_iff in Ha as [_ Ha]. rewrite length_append in Hf.
    pose proof Hu as [_ _ _ (c & t' & Et & Hb & _)].
    replace fuel with (n + (fuel - n))%nat by lia.
    destruct (make_token_blanks (fuel - n) e pos n (str u +:+ lay (tail gaps) (str <$> us)) (stored ds) (length ds))
      as (f' & pos' & E & Hf'); [by rewrite Et; intros ? ? [= <- _]|]. rewrite E.
    assert (0 < String.length (str u))%nat as H0 by (rewrite Et; cbn; lia).
    destruct f' as [|f']; [lia|]. cbn [length] in Hlen.
    rewrite make_token_step; [|done|by intros Hw; apply (lay_ends _ _ u)|lia].
    rewrite (IH (tail gaps) f' _ (ds ++ [u]) (wordy u)); [|done|rewrite length_app; cbn; lia|lia].
    rewrite <- app_assoc, length_app. cbn. do 2 f_equal. lia.
Qed.

Lemma length_lay gaps us :
  Forall lexeme us → (length us <= String.length (lay gaps (str <$> us)))%nat.
Proof.
  intros Hl. revert gaps; induction Hl as [|u us [_ _ _ (c & t' & E & _)] _ IH]; intros gaps; [cbn; lia|].
  rewrite fmap_cons. cbn [lay]. rewrite !length_append, E. specialize (IH (tail gaps)). cbn. lia.
Qed.

(** ** The two shared buffers *)

Lemma wf_pieces l e :
  wf l e = true →
  Forall (λ n, 0 <= n < 2 ^ 32) (hexes e) ∧ Forall (λ r, r ∈ reg_names) (registers e).
Proof.
  revert l; induction e as [n|w n|r|e IH|e IH|o a IHa b IHb]; intros l H; cbn [wf hexes registers] in *;
    bool_to_prop; eauto 10 using Forall_nil_2, Forall_cons_2.
  destruct (IHa _ H1), (IHb _ H0). split; apply Forall_app; done.
Qed.

(** The texts the tokens of a type give, in order. *)
Definition texts (ty : Z) (f : Token → string) : list Token → list string :=
  omap (λ u, if type u =? ty then Some (f u) else None).
Definition hex_texts := texts TK_H (λ u, fmt_u (u32 (strtol 0 (str u)).1)).
Definition reg_texts := texts TK_REG (λ u, sdrop 1 (str u)).

Lemma texts_app ty f us vs : texts ty f (us ++ vs) = texts ty f us ++ texts ty f vs.
Proof. apply omap_app. Qed.
Lemma texts_skip ty f u us : type u ≠ ty → texts ty f (u :: us) = texts ty f us.
Proof. intros H%Z.eqb_neq. unfold texts. cbn [omap list_omap]. by rewrite H. Qed.
Lemma sym_type_plain o : sym_type o ≠ TK_H ∧ sym_type o ≠ TK_REG.
Proof. by destruct o. Qed.

Section fill.
Variables (cpu_gpr : list Z) (wb_pc_now : Z).

(** Every register of the grammar resolves. *)
Definition resolves (r : string) : Prop :=
  ∃ v, isa_reg_str2val cpu_gpr wb_pc_now r = mret (v, true).
Lemma reg_resolves r : length cpu_gpr = 33%nat → r ∈ reg_names → resolves r.
Proof.
  intros gpr_33 H. unfold resolves. unfold reg_names in H.
  assert (∀ i, (i < 33)%nat → ∃ v, gpr_at cpu_gpr i = mret v) as Hg.
  { intros i Hi. rewrite <- gpr_33 in Hi. apply lookup_lt_is_Some in Hi as [v Hv].
    exists v. unfold gpr_at. by rewrite Hv. }
  repeat (apply elem_of_cons in H as [->|H];
    [first [by eexists|cbv -[gpr_at mret mbind];
       match goal with |- context [gpr_at _ ?i] => destruct (Hg i ltac:(lia)) as [v ->] end; by exists v]|]).
  by apply elem_of_nil in H.
Qed.

Lemma reg_value_resolves r v :
  isa_reg_str2val cpu_gpr wb_pc_now r = mret (v, true) → reg_value cpu_gpr wb_pc_now r = Some v.
Proof. unfold reg_value. by intros ->. Qed.

(** The pointer a token leaves behind, and what the buffers are set from. *)
Definition slot (a : nat) (u : Token) : cptr :=
  if type u =? TK_H then PS1 else if type u =? TK_REG then PS2 else PTok a.
Definition reg_text (r : string) : string := fmt_u (u32 (default 0 (reg_value cpu_gpr wb_pc_now r))).

(** One token: the pointer, and the buffer it rewrites if any. *)
Lemma fill_step st a u us :
  (type u = TK_REG → resolves (sdrop 1 (str u))) →
  ∃ b1 b2, fill_strs cpu_gpr wb_pc_now st a (u :: us)
      = fill_strs cpu_gpr wb_pc_now (Statics b1 b2 (<[a := slot a u]> (strs_ st))) (S a) us ∧
    default (buf1 st) (last (hex_texts (u :: us))) = default b1 (last (hex_texts us)) ∧
    default (buf2 st) (reg_text <$> last (reg_texts (u :: us))) = default b2 (reg_text <$> last (reg_texts us)).
Proof.
  intros Hr. cbn [fill_strs]. unfold slot, hex_texts, reg_texts, texts. cbn [omap list_omap].
  destruct (type u =? TK_H) eqn:EH.
  { apply Z.eqb_eq in EH. rewrite EH. cbv zeta. rewrite io_bind_ret_l. eexists _, _. split; [done|].
    rewrite last_cons. by destruct (last _). }
  destruct (type u =? TK_REG) eqn:ER.
  - apply Z.eqb_eq in ER. destruct (Hr ER) as [v Hv].
    rewrite Hv, !io_bind_ret_l. eexists _, _. split_and!; [done|done|].
    rewrite last_cons. destruct (last _); [done|]. unfold reg_text. cbn -[sdrop].
    by rewrite (reg_value_resolves _ _ Hv).
  - rewrite io_bind_ret_l. by exists (buf1 st), (buf2 st).
Qed.

Lemma fill_strs_spec st a us :
  Forall (λ u, type u = TK_REG → resolves (sdrop 1 (str u))) us →
  (a + length us <= length (strs_ st))%nat →
  ∃ ps, fill_strs cpu_gpr wb_pc_now st a us
      = mret (Statics (default (buf1 st) (last (hex_texts us)))
                      (default (buf2 st) (reg_text <$> last (reg_texts us))) ps) ∧
    ∀ j, ps !! j = if decide (a <= j < a + length us)%nat then slot j <$> us !! (j - a)%nat
                   else strs_ st !! j.
Proof.
  intros Hu. revert st a; induction Hu as [|u us Hr _ IH]; intros st a Hlen; cbn [length] in *.
  { exists (strs_ st). split; [by destruct st|]. intros j. by rewrite decide_False by lia. }
  destruct (fill_step st a u us Hr) as (b1 & b2 & -> & -> & ->).
  destruct (IH (Statics b1 b2 (<[a := slot a u]> (strs_ st))) (S a)) as (ps & -> & Hps).
  { cbn [strs_]. rewrite length_insert. lia. }
  exists ps. split; [done|]. intros j. rewrite Hps. cbn [strs_].
  destruct (decide (j = a)) as [->|Hja].
  - rewrite decide_False, decide_True by lia. rewrite list_lookup_insert_eq by lia. by rewrite Nat.sub_diag.
  - rewrite list_lookup_insert_ne by done. repeat case_decide; [|lia|lia|done].
    by replace (j - a)%nat with (S (j - S a)) by lia.
Qed.
End fill.

(** The string an element of the array points to. *)
Definition seen (b1 b2 : string) (u : Token) : string :=
  if type u =? TK_H then b1 else if type u =? TK_REG then b2 else str u.

Lemma toks_flat h v b1 b2 e :
  (hexes e ≠ [] → b1 = fmt_u h) → (registers e ≠ [] → b2 = fmt_u v) →
  toks (flat h v e) = seen b1 b2 <$> tokens_of e.
Proof.
  induction e as [n|w n|r|e IH|e IH|o a IHa b IHb]; cbn [hexes registers toks flat tokens_of];
    intros Hh Hr; rewrite ?fmap_cons, ?fmap_app, ?fmap_cons.
  - done.
  - by rewrite Hh.
  - by rewrite Hr.
  - by rewrite IH.
  - by rewrite IH.
  - rewrite IHa, IHb by (intros H; first [apply Hh|apply Hr]; by intros [? ?]%app_nil).
    by destruct o.
Qed.

Lemma strtol_fmt_0x w n : 0 <= n < 2 ^ 63 → strtol 0 ("0x" +:+ fmt_0x w n) = (n, "").
Proof.
  intros. unfold strtol. rewrite strto_fmt_0x by lia. f_equal. rewrite Z.min_r, Z.max_r by lia. done.
Qed.

Lemma hex_texts_of l e : wf l e = true → hex_texts (tokens_of e) = fmt_u <$> hexes e.
Proof.
  unfold hex_texts. revert l; induction e as [n|w n|r|e IH|e IH|o a IHa b IHb]; intros l H;
    cbn [wf tokens_of hexes] in *; bool_to_prop.
  - done.
  - unfold texts. cbn [omap list_omap type str]. rewrite strtol_fmt_0x by lia. cbn. unfold u32. by rewrite wrap_small.
  - done.
  - rewrite texts_skip, texts_app, (IH 1%nat) by done. apply app_nil_r.
  - rewrite texts_skip by done. by apply (IH 5%nat).
  - rewrite texts_app, texts_skip, fmap_app by apply sym_type_plain. by erewrite IHa, IHb.
Qed.

Lemma reg_texts_of e : reg_texts (tokens_of e) = registers e.
Proof.
  unfold reg_texts. induction e as [n|w n|r|e IH|e IH|o a IHa b IHb]; cbn [tokens_of registers].
  - done.
  - done.
  - cbn. by destruct r.
  - rewrite texts_skip, texts_app, IH by done. apply app_nil_r.
  - by rewrite texts_skip by done.
  - rewrite texts_app, texts_skip by apply sym_type_plain. by rewrite IHa, IHb.
Qed.

Lemma tokens_regs cpu_gpr wb_pc_now l e :
  wf l e = true → (registers e ≠ [] → length cpu_gpr = 33%nat) →
  Forall (λ u, type u = TK_REG → resolves cpu_gpr wb_pc_now (sdrop 1 (str u))) (tokens_of e).
Proof.
  revert l; induction e as [n|w n|r|e IH|e IH|o a IHa b IHb]; intros l H Hr; cbn [wf tokens_of registers] in *;
    bool_to_prop.
  - by constructor.
  - by constructor.
  - constructor; [|done]. intros _. replace (sdrop 1 _) with r by by destruct r. by apply reg_resolves; [apply Hr|].
  - constructor; [done|]. apply Forall_app; split; [eauto|by constructor].
  - constructor; [done|eauto].
  - assert (∀ x y : list string, (x ++ y ≠ [] → length cpu_gpr = 33%nat) →
      (x ≠ [] → length cpu_gpr = 33%nat) ∧ (y ≠ [] → length cpu_gpr = 33%nat)) as Happ.
    { intros x y Hxy. split; intros Hne; apply Hxy; by intros [? ?]%app_nil. }
    apply Happ in Hr as [Hra Hrb]. apply Forall_app; split; [eauto|]. constructor; [by destruct o|eauto].
Qed.

(** ** The evaluator on printed expressions *)

Lemma length_tokens_of e : length (tokens_of e) = length (toks e).
Proof. by rewrite toks_tokens, length_fmap. Qed.

Lemma lay_toks_nonempty l e gaps : wf l e = true → lay gaps (toks e) ≠ "".
Proof.
  intros Hw Hs. pose proof (length_lay gaps _ (toks_lexemes l e Hw)) as Hl. rewrite <- toks_tokens, Hs in Hl.
  rewrite length_tokens_of in Hl. pose proof (length_toks e). simpl in Hl. lia.
Qed.

Lemma u32_range z : 0 <= u32 z < 2 ^ 32.
Proof. apply Z.mod_pos_bound. done. Qed.

(** The strings the array shows once it is filled for [us]. *)
Lemma seg_filled us b1 b2 ps :
  (∀ j, (j < length us)%nat → ps !! j = slot j <$> us !! j) →
  seg (follow (stored us) (Statics b1 b2 ps) <$> ps) 0 (seen b1 b2 <$> us).
Proof.
  intros Hps j s Hj. cbn [Nat.add]. rewrite list_lookup_fmap in Hj.
  destruct (us !! j) as [u|] eqn:E; [|done]. injection Hj as <-.
  pose proof (lookup_lt_Some _ _ _ E). rewrite list_lookup_fmap, Hps, E by done. cbn. f_equal.
  unfold slot, seen. case_if; [done|]. case_if; [done|]. cbn. unfold stored.
  by rewrite lookup_app_l, E by done.
Qed.

Section value.
Variables (cpu_gpr : list Z) (wb_pc_now : Z) (pmem : bytes).

(** What the last register is read as. *)
Definition last_value (e : ex) : Z := u32 (default 0 (reg_value cpu_gpr wb_pc_now (last_reg e))).

Lemma wf_range l e : wf l e = true → 0 <= last_hex e < 2 ^ 32.
Proof.
  intros [Hh _]%wf_pieces. unfold last_hex. destruct (last (hexes e)) as [h|] eqn:E; cbn; [|lia].
  apply last_Some in E as [l' E]. rewrite E in Hh. apply Forall_app in Hh as [_ Hh].
  by apply Forall_cons in Hh as [? _].
Qed.

(** The tokens the evaluator sees are those of the expression with the decimal
    texts of the two buffers in place. *)
Lemma seen_flat l e b1 b2 :
  wf l e = true →
  toks (flat (last_hex e) (last_value e) e)
  = seen (default b1 (last (hex_texts (tokens_of e))))
         (default b2 (reg_text cpu_gpr wb_pc_now <$> last (reg_texts (tokens_of e)))) <$> tokens_of e.
Proof.
  intros Hw. rewrite (hex_texts_of _ _ Hw), reg_texts_of, fmap_last. apply toks_flat.
  - unfold last_hex. intros H. destruct (last (hexes e)) as [h|] eqn:E; [done|].
    by apply last_None in E.
  - unfold last_value, last_reg. intros H. destruct (last (registers e)) as [r|] eqn:E; [done|].
    by apply last_None in E.
Qed.

Lemma zeval_as_read l e :
  wf l e = true → (registers e ≠ [] → length cpu_gpr = 33%nat) →
  zeval cpu_gpr wb_pc_now pmem (flat (last_hex e) (last_value e) e)
  = zeval cpu_gpr wb_pc_now pmem (as_read e).
Proof.
  intros [_ Hr]%wf_pieces H33. apply zeval_flat. intros Hne. specialize (H33 Hne). unfold last_reg.
  destruct (last (registers e)) as [r|] eqn:E; [|by apply last_None in E].
  apply last_Some in E as [l' E]. rewrite E in Hr. apply Forall_app in Hr as [_ Hr].
  apply Forall_cons in Hr as [Hr _]. cbn.
  destruct (reg_resolves cpu_gpr wb_pc_now r H33 Hr) as [v Hv].
  by rewrite (reg_value_resolves _ _ _ _ Hv).
Qed.

(** On a printed expression [expr] comes down to [eval] on its tokens, with the
    decimal texts of the two buffers in place. *)
Lemma expr_eval st e gaps :
  wf 1 e = true → (registers e ≠ [] → length cpu_gpr = 33%nat) →
  (length (toks e) <= NR_TOKEN)%nat → length (strs_ st) = NR_TOKEN →
  let f := flat (last_hex e) (last_value e) e in
  ∃ st' strs, seg strs 0 (toks f) ∧
    result (expr cpu_gpr wb_pc_now pmem st (lay gaps (toks e)))
    = match result (eval strs (S (S (length (toks f)))) pmem 0 (Z.of_nat (length (toks f)) - 1)) with
      | Ok v => Ok (v, None, st')
      | Fault x => Fault x
      end.
Proof.
  intros Hw H33 Hn Hst f. pose proof (toks_lexemes 1 e Hw) as Hl. rewrite <- length_tokens_of in Hn.
  pose proof (seen_flat 1 e (buf1 st) (buf2 st) Hw) as Hseen. fold f in Hseen.
  set (us := tokens_of e) in *. rewrite (toks_tokens e). fold us.
  destruct (fill_strs_spec cpu_gpr wb_pc_now st 0 us (tokens_regs _ _ 1 e Hw H33) ltac:(lia)) as (ps & Hfill & Hps).
  set (b1 := default _ (last (hex_texts us))) in *. set (b2 := default _ (_ <$> last (reg_texts us))) in *.
  exists (Statics b1 b2 ps), (follow (stored us) (Statics b1 b2 ps) <$> ps). split.
  { rewrite Hseen. apply seg_filled. intros j Hj. rewrite Hps, decide_True, Nat.sub_0_r by lia. done. }
  unfold expr, make_token. rewrite result_bind. change no_tokens with (stored []).
  change 0%nat with (length (A := Token) []) at 3.
  rewrite (make_token_lexemes us gaps _ _ 0 [] false); [|done| |done|lia]; cycle 1.
  { rewrite <- (app_nil_r us). by apply apart_tokens. }
  cbn [negb app length Nat.add].
  assert (take (length us) (stored us) = us) as ->.
  { unfold stored. rewrite take_app_le by lia. apply take_ge. lia. }
  rewrite Hfill, io_bind_ret_l, result_bind. cbv zeta. cbn [strs_]. rewrite Hseen, length_fmap. done.
Qed.

Lemma inside_flat h v e : inside (flat h v e) = inside e.
Proof.
  unfold inside. assert (starts_paren (flat h v e) = starts_paren e) as -> by (induction e; cbn; auto).
  f_equal. apply bool_decide_ext. by destruct e; split; intros [? [=]]; eexists.
Qed.

(** The value of a printed expression. *)
Lemma expr_value st e gaps v :
  wf 1 e = true → inside e = true → zeval cpu_gpr wb_pc_now pmem (as_read e) = Some v →
  (registers e ≠ [] → length cpu_gpr = 33%nat) →
  (length (toks e) <= NR_TOKEN)%nat → length (strs_ st) = NR_TOKEN →
  ∃ st', result (expr cpu_gpr wb_pc_now pmem st (lay gaps (toks e))) = Ok (u32 v, None, st').
Proof.
  intros Hw Hi Hz H33 Hn Hst. rewrite <- (zeval_as_read 1) in Hz by done.
  destruct (denote_zeval _ _ _ _ _ _ _ Hz) as [_ Hd].
  destruct (expr_eval st e gaps Hw H33 Hn Hst) as (st' & strs & Hseg & E). exists st'. rewrite E.
  pose proof (wf_flat (last_hex e) (last_value e) 1 e (wf_range 1 e Hw) (u32_range _) Hw) as Hwf.
  set (f := flat _ _ e) in *. pose proof (eval_toks strs pmem f 1 (S (S (length (toks f)))) 0 Hwf Hseg) as He.
  change (Z.of_nat 0) with 0 in He. rewrite Z.add_0_l in He.
  rewrite He, Hd by (lia || (left; unfold f; by rewrite inside_flat)). done.
Qed.

Lemma expr_outside st e gaps :
  wf 1 e = true → inside e = false → (registers e ≠ [] → length cpu_gpr = 33%nat) →
  (length (toks e) <= NR_TOKEN)%nat → length (strs_ st) = NR_TOKEN →
  result (expr cpu_gpr wb_pc_now pmem st (lay gaps (toks e))) = Fault OutOfBounds.
Proof.
  intros Hw Hi H33 Hn Hst. destruct (expr_eval st e gaps Hw H33 Hn Hst) as (st' & strs & Hseg & E). rewrite E.
  pose proof (wf_flat (last_hex e) (last_value e) 1 e (wf_range 1 e Hw) (u32_range _) Hw) as Hwf.
  by rewrite eval_outside by (eauto using wf_leaves || by rewrite inside_flat).
Qed.
End value.

(** ** Properties *)

(** C1. What [expr] does with every well-formed expression over decimal and
    hexadecimal numbers, registers, parentheses and memory operands, of at most
    32 tokens printed with any number of blanks between them, none included,
    when the register array is there if a register is named.  A single number
    or register, and every expression that starts with a parenthesis, evaluates
    to what the usual precedence and left associativity give it, provided no
    value leaves [int], no divisor is zero and every memory operand lies in
    memory; hexadecimal numbers are all read as the last one and registers all
    as the last one, so that with at most one of each the expression is read as
    it is written.  Every other expression makes the operator scan read the
    element before the start of the array of tokens. *)
Theorem expr_correct cpu_gpr wb_pc_now pmem st e gaps :
  wf 1 e = true → (registers e ≠ [] → length cpu_gpr = 33%nat) →
  (length (toks e) <= NR_TOKEN)%nat → length (strs_ st) = NR_TOKEN →
  (∀ v, inside e = true → zeval cpu_gpr wb_pc_now pmem (as_read e) = Some v →
     ∃ st', result (expr cpu_gpr wb_pc_now pmem st (lay gaps (toks e))) = Ok (u32 v, None, st')) ∧
  (one_of_each e → as_read e = e) ∧
  (inside e = false → result (expr cpu_gpr wb_pc_now pmem st (lay gaps (toks e))) = Fault OutOfBounds).
Proof.
  intros Hw Hg Hn Hst. split_and!; [|apply as_read_same|].
  - intros v Hi Hz. by apply expr_value.
  - intros Hi. by apply expr_outside.
Qed.

(** In parentheses the expression is evaluated, and without them it reads in
    front of the array. *)
Lemma expr_correct_witness :
  let e := Bin BSub (Deref (Paren (Bin BAdd (Reg "sp") (Hex 2 16))))
             (Bin BMul (Num 3) (Paren (Bin BSub (Num 4) (Num 2)))) in
  let gpr := Z.add 0x80000000 <$> seqZ 0 33 in
  let pmem := store ∅ (get_mem_addr 0x80000012) 4 42 in
  let text := lay [0; 1; 0; 0; 1; 1; 0; 1; 2; 0]%nat (toks (Paren e)) in
  text = "( *($sp + 0x10) -  3*(4-2))" ∧
  (∃ st', result (expr gpr 0 pmem statics_init text) = Ok (36, None, st')) ∧
  as_read (Paren e) = Paren e ∧
  result (expr gpr 0 pmem statics_init (lay [] (toks e))) = Fault OutOfBounds.
Proof.
  cbv zeta. set (e := Bin BSub _ _). split; [vm_compute; reflexivity|].
  destruct (expr_correct (Z.add 0x80000000 <$> seqZ 0 33) 0 (store ∅ (get_mem_addr 0x80000012) 4 42) statics_init
    (Paren e) [0; 1; 0; 0; 1; 1; 0; 1; 2; 0]%nat) as (H1 & H2 & _);
    [vm_compute; reflexivity|intros _; vm_compute; reflexivity|vm_compute; lia|vm_compute; reflexivity|].
  destruct (expr_correct (Z.add 0x80000000 <$> seqZ 0 33) 0 (store ∅ (get_mem_addr 0x80000012) 4 42) statics_init
    e []) as (_ & _ & H3);
    [vm_compute; reflexivity|intros _; vm_compute; reflexivity|vm_compute; lia|vm_compute; reflexivity|].
  split; [|split].
  - apply (H1 36); vm_compute; reflexivity.
  - apply H2. split; intros x y Hx Hy.
    + change (x ∈ [16]) in Hx. change (y ∈ [16]) in Hy. apply list_elem_of_singleton in Hx, Hy. congruence.
    + change (x ∈ ["sp"]) in Hx. change (y ∈ ["sp"]) in Hy. apply list_elem_of_singleton in Hx, Hy. congruence.
  - apply H3. vm_compute. reflexivity.
Defined.

(** [check_parentheses] answers yes on the tokens of a parenthesised
    expression and no on those of any other expression of two tokens or more,
    in particular on one that merely starts and ends with different groups. *)
Theorem check_parentheses_matched strs p l e :
  wf l e = true → seg strs p (toks e) → (2 <= length (toks e))%nat →
  check_parentheses strs (Z.of_nat p) (Z.of_nat p + Z.of_nat (length (toks e)) - 1)
  = mret (match e with Paren _ => true | _ => false end).
Proof.
  intros Hw Hs H2. apply wf_leaves in Hw.
  assert (∀ s0 mid s1, toks e = s0 :: mid ++ [s1] →
    check_parentheses strs (Z.of_nat p) (Z.of_nat p + Z.of_nat (length (toks e)) - 1)
    = mret (is_char "(" s0 && is_char ")" s1 && (pwalk 0 mid =? 0))) as Hc.
  { intros s0 mid s1 E. rewrite E in Hs |- *. rewrite <- (check_parentheses_list _ _ _ _ _ Hs).
    f_equal. simpl. rewrite length_app. simpl. lia. }
  destruct e as [n|w n|r|e|e|c a b]; cbn [toks length] in H2; [lia|lia|lia| | |].
  - rewrite (Hc "(" (toks e) ")" eq_refl). by rewrite pwalk_toks by (done || lia).
  - destruct (deref_not_surrounded e) as (mid & s1 & Et & Hf). by rewrite (Hc _ _ _ Et), Hf.
  - destruct Hw as [Ha Hb]. destruct (bin_not_surrounded c a b Ha Hb) as (s0 & mid & s1 & Et & Hf).
    by rewrite (Hc _ _ _ Et), Hf.
Qed.

Lemma check_parentheses_matched_witness :
  check_parentheses (Some <$> ["("; "1"; ")"; "+"; "("; "2"; ")"]) 0 6 = mret false.
Proof.
  apply (check_parentheses_matched _ 0 1 (Bin BAdd (Paren (Num 1)) (Paren (Num 2)))).
  - vm_compute; reflexivity.
  - intros j s Hj. change (toks _) with ["("; "1"; ")"; "+"; "("; "2"; ")"] in Hj.
    simpl Nat.add. rewrite list_lookup_fmap, Hj. reflexivity.
  - vm_compute. lia.
Defined.

(** Outside the grammar: a memory operand of a memory operand, or one after
    [*], is not read; the scan takes its star for a product. *)
Example expr_double_deref :
  let run := expr (replicate 33 0) 0 (store ∅ (get_mem_addr 0x80000000) 4 7) statics_init in
  (∃ st', result (run "(2+*0x80000000)") = Ok (9, None, st')) ∧
  (∃ st', result (run "( **0x80000000)") = Ok (0, None, st')) ∧
  (∃ st', result (run "(2**0x80000000)") = Ok (0, None, st')).
Proof. split_and!; eexists; vm_compute; reflexivity. Qed.
