(* ===== verification/Cpu.v ===== *)
(** * The CPU loop and differential testing
    [sim_main.cpp] (clocking, DPI callbacks, [exec_once], [cpu_exec], exit
    status), [difftest.cpp] (the lock-step comparison with a reference
    simulator) and the macros of [common.h] they use, in the default build
    (none of [PERFORMANCE_MODEL], [LOADUSE_P1_MONITOR] and
    [ICACHE_64SET_MONITOR] defined, [CONFIG_DIFFTEST] 1, tracing off).

    Two things are not in the sources and are parameters: the model that
    Verilator generates from the RTL (class [Dut]) and the reference simulator
    loaded from a shared object (class [RefSim]).  The generated model calls
    back into the C++ while it evaluates; its [eval] is therefore a tree of
    the DPI calls it makes, which [run_dpi] runs with the callbacks of
    [sim_main.cpp]. *)
From stdpp Require Import base numbers list option strings gmap.
From S2P Require Import Prelude Bytes CText PMem Expr.

Local Open Scope Z_scope.

Definition NPC_RUNNING : Z := 0.
Definition NPC_END : Z := 1.
Definition NPC_QUIT : Z := 2.
Definition NPC_ABORT : Z := 3.

(** ** Parameters *)

(** DPI calls of one evaluation of the generated model. *)
Inductive dpi (T : Type) :=
| DRet (t : T)
| DMemRead (raddr ren rdata : Z) (k : Z → dpi T)
| DMemWrite (waddr wdata wmask wen : Z) (k : dpi T)
| DSetEbreak (ebreak : Z) (k : dpi T)
| DSetGprPtr (ptr : bool) (k : dpi T).
Arguments DRet {T} _.
Arguments DMemRead {T} _ _ _ _.
Arguments DMemWrite {T} _ _ _ _ _.
Arguments DSetEbreak {T} _ _.
Arguments DSetGprPtr {T} _ _.

(** Output ports of the simulation top that the loop reads. *)
Record outs := Outs {
  wb_sign : Z; wb_pc : Z; wb_inst : Z; wb_intr : Z; intr_num : Z; wb_device : Z
}.

(** The generated model: evaluation at given clock and reset inputs, its output
    ports, and the register array it hands out with [set_gpr_ptr]. *)
Class Dut (T : Type) := {
  dut_eval : Z → Z → T → dpi T;
  dut_out : T → outs;
  dut_gpr : T → list Z
}.

(** The functions of the reference simulator: [difftest_memcpy] and
    [difftest_regcpy] towards it, [difftest_regcpy] from it (33 words), and
    [difftest_exec], [difftest_raise_intr]. *)
Class RefSim (R : Type) := {
  ref_memcpy : R → Z → list Z → R;
  ref_put_regs : R → list Z → R;
  ref_get_regs : R → list Z;
  ref_exec : R → Z → R;
  ref_raise_intr : R → Z → R
}.

(** ** State *)

(** What the DPI callbacks reach. *)
Record host := Host {
  pmem : bytes;
  clock : timer;
  is_ebreak : Z;
  gpr_ptr : bool
}.

Section cpu.
Context {T R : Type} `{Dut T} `{RefSim R}.
Variable gettimeofday : nat → Z * Z.

Record sim := Sim {
  top : T;
  clk : Z;
  rstn : Z;
  hst : host;
  ref : R;
  main_time : Z;
  cpu_state : Z;
  wb_pc_now : Z;
  wb_num : Z;
  difftest_error : Z;
  is_skip_ref : bool
}.

Definition set_top (s : sim) (c r : Z) (h : host) (t : T) (time : Z) : sim :=
  Sim t c r h (ref s) time (cpu_state s) (wb_pc_now s) (wb_num s) (difftest_error s)
    (is_skip_ref s).
Definition set_rstn (s : sim) (r : Z) : sim := set_top s (clk s) r (hst s) (top s) (main_time s).
Definition set_ref (s : sim) (r : R) (skip : bool) : sim :=
  Sim (top s) (clk s) (rstn s) (hst s) r (main_time s) (cpu_state s) (wb_pc_now s) (wb_num s)
    (difftest_error s) skip.
Definition set_cpu_state (s : sim) (n : Z) : sim :=
  Sim (top s) (clk s) (rstn s) (hst s) (ref s) (main_time s) (u8 n) (wb_pc_now s) (wb_num s)
    (difftest_error s) (is_skip_ref s).
Definition set_error (s : sim) (n : Z) : sim :=
  Sim (top s) (clk s) (rstn s) (hst s) (ref s) (main_time s) (cpu_state s) (wb_pc_now s) (wb_num s)
    n (is_skip_ref s).
Definition set_wb (s : sim) (pc num : Z) : sim :=
  Sim (top s) (clk s) (rstn s) (hst s) (ref s) (main_time s) (cpu_state s) pc num
    (difftest_error s) (is_skip_ref s).

(** ** Clocking *)

Definition set_ebreak (h : host) (ebreak : Z) : host :=
  Host (pmem h) (clock h) ebreak (gpr_ptr h).
Definition set_gpr_ptr (h : host) (ptr : bool) : io host :=
  if ptr then mret (Host (pmem h) (clock h) (is_ebreak h) true)
  else emit ("fail get ptr" +:+ nl);; mret h.

(** Evaluation of the model with the clock input at [c]. *)
Fixpoint run_dpi (c : Z) (h : host) (d : dpi T) : io (host * T) :=
  match d with
  | DRet t => mret (h, t)
  | DMemRead raddr ren rdata k =>
      '(v, tm) ← mem_read gettimeofday (clock h) (pmem h) raddr ren rdata;
      run_dpi c (Host (pmem h) tm (is_ebreak h) (gpr_ptr h)) (k v)
  | DMemWrite waddr wdata wmask wen k =>
      m ← mem_write c (pmem h) waddr wdata wmask wen;
      run_dpi c (Host m (clock h) (is_ebreak h) (gpr_ptr h)) k
  | DSetEbreak e k => run_dpi c (set_ebreak h e) k
  | DSetGprPtr ptr k => h ← set_gpr_ptr h ptr; run_dpi c h k
  end.

(** [top->clk = c; top->eval();] *)
Definition eval_at (c : Z) (s : sim) : io sim :=
  '(h, t) ← run_dpi c (hst s) (dut_eval c (rstn s) (top s));
  mret (set_top s c (rstn s) h t (main_time s)).

Definition tick_time (s : sim) : sim :=
  set_top s (clk s) (rstn s) (hst s) (top s) (u64 (main_time s + 1)).

Definition single_cycle (s : sim) : io sim :=
  s ← eval_at 0 s;
  let s := tick_time s in
  s ← eval_at 1 s;
  mret (tick_time s).

Fixpoint cycles (n : nat) (s : sim) : io sim :=
  match n with
  | O => mret s
  | S n => s ← single_cycle s; cycles n s
  end.

Definition reset (n : Z) (s : sim) : io sim :=
  s ← cycles (Z.to_nat n) (set_rstn s 0);
  mret (set_rstn s 1).

(** ** Differential testing *)

(** [cpu_gpr]: the pointer the RTL handed over, NULL before it did. *)
Definition cpu_gpr (s : sim) : io (list Z) :=
  if gpr_ptr (hst s) then mret (dut_gpr (top s)) else fail NullDeref.

Definition reg_line (i : nat) (v : Z) : string :=
  "reg[" +:+ fmt_d (Z.of_nat i) +:+ tab +:+ "]: " +:+ default "" (regs !! i)
  +:+ tab +:+ "= 0x" +:+ fmt_x v +:+ nl.
Fixpoint reg_lines (g : list Z) (ix : list nat) : io unit :=
  match ix with
  | [] => emit nl
  | i :: ix => v ← gpr_at g i; emit (reg_line i v);; reg_lines g ix
  end.
Definition isa_reg_display (s : sim) : io unit :=
  g ← cpu_gpr s; reg_lines g (seq 0 33).

(** [init_difftest]: [so] is the file name, [opened] what [dlopen] and the
    four [dlsym] calls found, [img_size] bytes of [pmem] the image. *)
Definition init_difftest (so : option string) (opened : bool) (dlerror : string)
    (dlsym : string → bool) (img_size : Z) (s : sim) : io sim :=
  match so with
  | None => fail AssertFail
  | Some so =>
      emit ("Difftesd file is " +:+ so +:+ nl);;
      (if opened then mret tt else emit ("dlopen error. msg:" +:+ dlerror));;
      if opened && dlsym "difftest_memcpy" && dlsym "difftest_regcpy" && dlsym "difftest_exec"
         && dlsym "difftest_raise_intr" then
        if in_pmem 0 (Z.to_nat img_size) then
          let r := ref_memcpy (ref s) CONFIG_PC_RET
                     (load_bytes (pmem (hst s)) 0 (Z.to_nat img_size)) in
          g ← cpu_gpr s;
          mret (set_ref s (ref_put_regs r g) (is_skip_ref s))
        else fail OutOfBounds
      else fail AssertFail
  end.

Definition difftest_skip_ref (s : sim) : sim := set_ref s (ref s) true.

Definition difftest_step (s : sim) : io sim :=
  if is_skip_ref s then
    g ← cpu_gpr s; mret (set_ref s (ref_put_regs (ref s) g) false)
  else mret (set_ref s (ref_exec (ref s) 1) (is_skip_ref s)).

Definition mismatch_msg (i : nat) (r g : Z) : string :=
  "ref_reg[" +:+ fmt_d (Z.of_nat i) +:+ "] = 0x" +:+ fmt_x r +:+ "; cpu_gpr["
  +:+ fmt_d (Z.of_nat i) +:+ "] = 0x" +:+ fmt_x g +:+ "; Difftest regs error" +:+ nl.

Fixpoint compare_regs (rr g : list Z) (ix : list nat) : io bool :=
  match ix with
  | [] => mret true
  | i :: ix =>
      r ← gpr_at rr i; v ← gpr_at g i;
      if r =? v then compare_regs rr g ix
      else emit (mismatch_msg i r v);; mret false
  end.

(** [ref_reg] starts as 33 zeros and [regcpy] overwrites its 33 words. *)
Definition ref_difftest_checkregs (s : sim) : io bool :=
  g ← cpu_gpr s;
  compare_regs (ref_get_regs (ref s)) g (seq 0 33).

Definition difftest_check (s : sim) : io sim :=
  ok ← ref_difftest_checkregs s;
  if ok : bool then mret s
  else
    let s := set_cpu_state s NPC_ABORT in
    isa_reg_display s;;
    mret (set_error s 1).

(** ** The loop *)

Definition exec_once (s : sim) : io sim :=
  let o := dut_out (top s) in
  if truthy (wb_sign o) then
    let s := set_wb s (wb_pc o) (wb_num s) in
    s ← (if truthy (wb_num s) then
           s ← difftest_step s;
           let s := if truthy (wb_intr o)
                    then set_ref s (ref_raise_intr (ref s) (intr_num o)) (is_skip_ref s) else s in
           s ← difftest_check s;
           mret (if truthy (wb_device o) then difftest_skip_ref s else s)
         else mret s);
    n ← as_int (wb_num s + 1);
    mret (set_wb s (wb_pc_now s) n)
  else mret s.

(** The [for] loop from counter [i] to the bound [n], an [unsigned int]; the
    fuel bounds the iterations. *)
Fixpoint cpu_loop (fuel : nat) (i n : Z) (s : sim) : io sim :=
  if i <? n then
    if truthy (difftest_error s) then mret s
    else
      s ← exec_once s;
      if is_ebreak (hst s) =? 1 then mret (set_cpu_state s NPC_END)
      else
        s ← single_cycle s;
        i ← as_int (i + 1);
        match fuel with
        | O => fail OutOfFuel
        | S fuel => cpu_loop fuel i n s
        end
  else mret s.

Definition pc16 (pc : Z) : string := fmt_0x 16 pc +:+ nl.

Definition cpu_exec (fuel : nat) (n : Z) (s : sim) : io sim :=
  if cpu_state s =? NPC_ABORT then
    emit ("Program execution has ABORT at 0X" +:+ pc16 (wb_pc_now s));; mret s
  else if cpu_state s =? NPC_QUIT then mret s
  else if cpu_state s =? NPC_END then
    emit ("Program execution has ended. To restart the program, exit NEMU and run again." +:+ nl);;
    mret s
  else
    s ← cpu_loop fuel 0 (u32 n) (set_cpu_state s NPC_RUNNING);
    if cpu_state s =? NPC_ABORT then
      emit ("npc: ABORT at pc = 0x" +:+ pc16 (wb_pc_now s));; mret s
    else if cpu_state s =? NPC_END then
      g ← cpu_gpr s; a0 ← gpr_at g 10;
      emit ("npc: " +:+ (if a0 =? 0 then "HIT GOOD TRAP" else "HIT BAD TRAP") +:+ " at pc = 0x"
            +:+ pc16 (wb_pc_now s));;
      mret s
    else mret (set_cpu_state s NPC_RUNNING).

Definition is_exit_status_bad (s : sim) : io Z :=
  good ← (if cpu_state s =? NPC_END then
            g ← cpu_gpr s; a0 ← gpr_at g 10;
            mret ((a0 =? 0) || (cpu_state s =? NPC_QUIT))
          else mret (cpu_state s =? NPC_QUIT));
  mret (Z.b2z (negb good)).
End cpu.
Arguments sim : clear implicits.
Arguments Sim {T R} _ _ _ _ _ _ _ _ _ _ _.

(** ** Lemmas *)

Section cpu_facts.
Context {T R : Type} `{!Dut T} `{!RefSim R}.
Implicit Types s : sim T R.

(** Both register files are 33 words. *)
Hypothesis dut_gpr_len : ∀ t : T, length (dut_gpr t) = 33%nat.
Hypothesis ref_regs_len : ∀ r : R, length (ref_get_regs r) = 33%nat.

Lemma gpr_at_Some g i v : g !! i = Some v → gpr_at g i = mret v.
Proof. intros E. unfold gpr_at. by rewrite E. Qed.

Lemma compare_regs_result rr g ix :
  (∀ i, i ∈ ix → is_Some (rr !! i) ∧ is_Some (g !! i)) →
  result (compare_regs rr g ix) = Ok (bool_decide (Forall (λ i, rr !! i = g !! i) ix)).
Proof.
  induction ix as [|i ix IH]; intros Hs; simpl.
  - done.
  - destruct (Hs i ltac:(left)) as [[r Hr] [v Hv]].
    rewrite (gpr_at_Some _ _ _ Hr), io_bind_ret_l, (gpr_at_Some _ _ _ Hv), io_bind_ret_l.
    case_if; bool_to_prop.
    + subst. rewrite IH by (intros; apply Hs; by right). f_equal.
      apply bool_decide_ext. rewrite Forall_cons. naive_solver congruence.
    + simpl. f_equal. symmetry. apply bool_decide_eq_false_2.
      rewrite Forall_cons. naive_solver congruence.
Qed.

Lemma compare_regs_all rr g :
  length rr = 33%nat → length g = 33%nat →
  result (compare_regs rr g (seq 0 33)) = Ok (bool_decide (rr = g)).
Proof.
  intros Hr Hg. rewrite compare_regs_result.
  - f_equal. apply bool_decide_ext. rewrite Forall_forall. split; [|by intros ->].
    intros Hall. apply list_eq. intros i. destruct (decide (i < 33)%nat).
    + apply Hall. apply elem_of_seq. lia.
    + by rewrite !lookup_ge_None_2 by lia.
  - intros i Hi%elem_of_seq. split; apply lookup_lt_is_Some; lia.
Qed.

Lemma reg_lines_result g ix :
  (∀ i, i ∈ ix → is_Some (g !! i)) → result (reg_lines g ix) = Ok tt.
Proof.
  induction ix as [|i ix IH]; intros Hs; simpl; [done|].
  destruct (Hs i ltac:(left)) as [v Hv].
  rewrite (gpr_at_Some _ _ _ Hv), io_bind_ret_l, result_bind. simpl.
  apply IH. intros j Hj. apply Hs. by right.
Qed.

Lemma isa_reg_display_result s : gpr_ptr (hst s) = true → result (isa_reg_display s) = Ok tt.
Proof.
  intros Hp. unfold isa_reg_display, cpu_gpr. rewrite Hp, io_bind_ret_l.
  apply reg_lines_result. intros i Hi%elem_of_seq.
  apply lookup_lt_is_Some. rewrite dut_gpr_len. lia.
Qed.

Definition regs_agree s : bool := bool_decide (ref_get_regs (ref s) = dut_gpr (top s)).

Lemma difftest_check_result s :
  gpr_ptr (hst s) = true →
  result (difftest_check s) =
    Ok (if regs_agree s then s else set_error (set_cpu_state s NPC_ABORT) 1).
Proof.
  intros Hp. unfold difftest_check, ref_difftest_checkregs, cpu_gpr.
  rewrite Hp, io_bind_ret_l, result_bind, compare_regs_all by done.
  unfold regs_agree. case_bool_decide; [done|]. cbv zeta.
  by rewrite result_bind, isa_reg_display_result.
Qed.

(** The reference after the step that precedes a check at [s]. *)
Definition stepped s : R :=
  let o := dut_out (top s) in
  let r := if is_skip_ref s then ref_put_regs (ref s) (dut_gpr (top s)) else ref_exec (ref s) 1 in
  if truthy (wb_intr o) then ref_raise_intr r (intr_num o) else r.

(** [exec_once] finds nothing to object at [s]: no instruction is written
    back, or it is the first one, or the registers agree after the step. *)
Definition checks s : bool := truthy (wb_sign (dut_out (top s))) && truthy (wb_num s).
Definition agree s : Prop :=
  checks s = false ∨ ref_get_regs (stepped s) = dut_gpr (top s).
#[global] Instance agree_dec s : Decision (agree s).
Proof. unfold agree. apply _. Defined.

Lemma difftest_step_result s :
  gpr_ptr (hst s) = true →
  difftest_step s =
    mret (set_ref s (if is_skip_ref s then ref_put_regs (ref s) (dut_gpr (top s))
                     else ref_exec (ref s) 1) false).
Proof.
  intros Hp. unfold difftest_step, cpu_gpr. rewrite Hp.
  destruct (is_skip_ref s) eqn:E; [by rewrite io_bind_ret_l|done].
Qed.

(** What [exec_once] is at a state where it checks. *)
Lemma exec_once_checks s :
  checks s = true →
  exec_once s =
    let o := dut_out (top s) in
    s ← (s ← difftest_step (set_wb s (wb_pc o) (wb_num s));
         let s := if truthy (wb_intr o)
                  then set_ref s (ref_raise_intr (ref s) (intr_num o)) (is_skip_ref s) else s in
         s ← difftest_check s;
         mret (if truthy (wb_device o) then difftest_skip_ref s else s));
    n ← as_int (wb_num s + 1);
    mret (set_wb s (wb_pc_now s) n).
Proof.
  unfold checks, exec_once. intros Hc. bool_to_prop. cbv zeta. cbn [wb_num set_wb].
  destruct (truthy (wb_sign _)); [|done]. by destruct (truthy (wb_num s)).
Qed.

(** The state a check leaves, before the counter moves. *)
Definition checked s : sim T R :=
  let o := dut_out (top s) in
  let ok := bool_decide (ref_get_regs (stepped s) = dut_gpr (top s)) in
  Sim (top s) (clk s) (rstn s) (hst s) (stepped s) (main_time s)
      (if ok then cpu_state s else NPC_ABORT) (wb_pc o) (wb_num s)
      (if ok then difftest_error s else 1) (truthy (wb_device o)).

Lemma exec_once_check_result s :
  gpr_ptr (hst s) = true → checks s = true →
  result (exec_once s) =
    if in_int (wb_num s + 1) then Ok (set_wb (checked s) (wb_pc (dut_out (top s))) (wb_num s + 1))
    else Fault SignedOverflow.
Proof.
  intros Hp Hc. rewrite exec_once_checks by done. cbv zeta.
  rewrite difftest_step_result, io_bind_ret_l by done. unfold checked, stepped, as_int.
  cbn [is_skip_ref set_wb ref top]. set (r := if is_skip_ref s then _ else _).
  destruct (truthy (wb_intr (dut_out (top s)))); rewrite !result_bind, difftest_check_result by done;
    unfold regs_agree; cbn [ref set_ref top set_wb]; case_bool_decide; cbn [result snd mret io_ret];
    destruct (truthy (wb_device (dut_out (top s)))); cbn; by case_if.
Qed.

Lemma exec_once_nocheck s s' :
  checks s = false → result (exec_once s) = Ok s' →
  top s' = top s ∧ hst s' = hst s ∧ ref s' = ref s ∧
  difftest_error s' = difftest_error s ∧ cpu_state s' = cpu_state s.
Proof.
  unfold checks, exec_once. cbv zeta. intros Hc E.
  destruct (truthy (wb_sign (dut_out (top s)))); cbn in Hc; [|by simplify_eq/=].
  cbn [wb_num set_wb] in E. rewrite Hc, io_bind_ret_l, result_bind in E.
  unfold as_int in E. case_if; by simplify_eq/=.
Qed.

Lemma exec_once_gpr s s' : checks s = true → result (exec_once s) = Ok s' → gpr_ptr (hst s) = true.
Proof.
  intros Hc E. destruct (gpr_ptr (hst s)) eqn:Hp; [done|]. exfalso. revert E.
  rewrite exec_once_checks by done. cbv zeta. unfold difftest_step, cpu_gpr.
  cbn [is_skip_ref set_wb hst]. rewrite Hp. destruct (is_skip_ref s); [done|].
  rewrite io_bind_ret_l. unfold difftest_check, ref_difftest_checkregs, cpu_gpr.
  by destruct (truthy (wb_intr _)); cbn [hst set_ref set_wb]; rewrite Hp.
Qed.

Lemma exec_once_ok s s' :
  result (exec_once s) = Ok s' →
  top s' = top s ∧ hst s' = hst s ∧
  difftest_error s' = (if decide (agree s) then difftest_error s else 1) ∧
  cpu_state s' = (if decide (agree s) then cpu_state s else NPC_ABORT).
Proof.
  intros E. destruct (checks s) eqn:Hc.
  - rewrite exec_once_check_result in E by eauto using exec_once_gpr.
    destruct (in_int _); simplify_eq/=.
    assert (bool_decide (ref_get_regs (stepped s) = dut_gpr (top s)) = bool_decide (agree s)) as ->.
    { apply bool_decide_ext. unfold agree. rewrite Hc. naive_solver. }
    by destruct (decide (agree s)); case_bool_decide.
  - destruct (exec_once_nocheck _ _ Hc E) as (? & ? & _ & ? & ?).
    by rewrite !decide_True by (by left).
Qed.

(** *** What clocking leaves alone *)

Variable gettimeofday : nat → Z * Z.

Lemma run_dpi_low h (d : dpi T) h' t' :
  result (run_dpi gettimeofday 0 h d) = Ok (h', t') → pmem h' = pmem h.
Proof.
  revert h. induction d as [t|a e v k IH|a v m e k IH|e k IH|p k IH]; intros h; cbn [run_dpi].
  - intros E. by simplify_eq/=.
  - rewrite result_bind. destruct (result (mem_read _ _ _ _ _ _)) as [[v' tm]|]; [|done].
    intros E%IH. done.
  - unfold mem_write. change (Z.b2z (0 =? 1)) with 0. rewrite Z.land_0_r.
    change (truthy 0) with false. cbv iota. rewrite io_bind_ret_l. intros E%IH. done.
  - intros E%IH. done.
  - unfold set_gpr_ptr. destruct p; rewrite ?result_bind; intros E%IH; done.
Qed.

(** The fields a clock edge cannot touch. *)
Definition loop_part s := (ref s, cpu_state s, wb_pc_now s, wb_num s, difftest_error s, is_skip_ref s).

Lemma eval_at_frame c s s' :
  result (eval_at gettimeofday c s) = Ok s' →
  clk s' = c ∧ rstn s' = rstn s ∧ main_time s' = main_time s ∧ loop_part s' = loop_part s ∧
  (c = 0 → pmem (hst s') = pmem (hst s)).
Proof.
  unfold eval_at. rewrite result_bind.
  destruct (result (run_dpi _ _ _ _)) as [[h t]|] eqn:E; [|done].
  intros E'. simplify_eq/=. repeat split. intros ->. by eapply run_dpi_low.
Qed.

Lemma single_cycle_split s s' :
  result (single_cycle gettimeofday s) = Ok s' →
  ∃ s1 s2, result (eval_at gettimeofday 0 s) = Ok s1 ∧
           result (eval_at gettimeofday 1 (tick_time s1)) = Ok s2 ∧ s' = tick_time s2.
Proof.
  unfold single_cycle. rewrite result_bind. destruct (result (eval_at _ 0 s)) as [s1|] eqn:E1; [|done].
  cbv zeta. rewrite result_bind. destruct (result (eval_at _ 1 _)) as [s2|] eqn:E2; [|done].
  intros. simplify_eq/=. eauto.
Qed.

Lemma single_cycle_frame s s' :
  result (single_cycle gettimeofday s) = Ok s' → loop_part s' = loop_part s.
Proof.
  intros (s1 & s2 & E1 & E2 & ->)%single_cycle_split.
  apply eval_at_frame in E1 as (_ & _ & _ & F1 & _). apply eval_at_frame in E2 as (_ & _ & _ & F2 & _).
  by rewrite <- F1.
Qed.
End cpu_facts.

(** ** Properties *)

Section cpu_props.
Context {T R : Type} `{!Dut T} `{!RefSim R}.
Variable gettimeofday : nat → Z * Z.
Implicit Types s : sim T R.

(** [k] rounds of the loop in which core and reference agree and the core does
    not stop. *)
Inductive lockstep : nat → sim T R → sim T R → Prop :=
| lockstep_nil s : lockstep 0 s s
| lockstep_round k s s1 s2 s' :
    agree s → result (exec_once s) = Ok s1 → is_ebreak (hst s1) ≠ 1 →
    result (single_cycle gettimeofday s1) = Ok s2 → lockstep k s2 s' → lockstep (S k) s s'.

(** How the loop ends in the round it meets at [s]: at [ebreak], whatever the
    comparison said, or at a comparison that failed, after the clock cycle. *)
Inductive ends_at s : sim T R → Prop :=
| ends_ebreak s1 :
    result (exec_once s) = Ok s1 → is_ebreak (hst s1) = 1 → ends_at s (set_cpu_state s1 NPC_END)
| ends_mismatch s1 s2 :
    ¬ agree s → result (exec_once s) = Ok s1 → is_ebreak (hst s1) ≠ 1 →
    result (single_cycle gettimeofday s1) = Ok s2 → ends_at s s2.

Lemma ends_running s s' : ends_at s s' → cpu_state s' = NPC_RUNNING → ¬ agree s.
Proof. by intros [s1 _ _|s1 s2 Ha _ _ _]. Qed.

Hypothesis dut_gpr_len : ∀ t : T, length (dut_gpr t) = 33%nat.
Hypothesis ref_regs_len : ∀ r : R, length (ref_get_regs r) = 33%nat.

Lemma cpu_loop_end i n fuel s : truthy (difftest_error s) = true → cpu_loop gettimeofday fuel i n s = mret s.
Proof. intros E. destruct fuel; cbn [cpu_loop]; rewrite E; by destruct (i <? n). Qed.

(** C2. Differential testing stops the loop at the first divergence.  When the
    loop of [cpu_exec], entered with [difftest_error] clear, returns, it has gone
    through rounds in which core and reference agreed and the core did not raise
    [ebreak]; then either the count was used up, and the state is the one those
    rounds leave, without an error; or the next round raised [ebreak] or found a
    difference, nothing was executed after it, and [difftest_error] and the ABORT
    state tell a difference from an agreement. *)
Theorem cpu_loop_first_divergence fuel i n s s' :
  difftest_error s = 0 →
  result (cpu_loop gettimeofday fuel i n s) = Ok s' →
  ∃ k sk, lockstep k s sk ∧
    (k = Z.to_nat (n - i) ∧ s' = sk ∧ difftest_error s' = 0 ∨
     i + Z.of_nat k < n ∧ ends_at sk s' ∧
       difftest_error s' = (if decide (agree sk) then 0 else 1) ∧
       (is_ebreak (hst sk) ≠ 1 → cpu_state s' = NPC_ABORT)).
Proof.
  revert i s. induction fuel as [|fuel IH]; intros i s He; cbn [cpu_loop];
    (destruct (Z.ltb_spec i n); [|intros; simplify_eq/=; exists 0%nat, s'; split; [constructor|left; split_and!; [lia|done..]]]);
    rewrite He; change (truthy 0) with false; cbv iota; rewrite result_bind;
    (destruct (result (exec_once s)) as [s1|] eqn:E1; [|done]);
    destruct (exec_once_ok dut_gpr_len ref_regs_len _ _ E1) as (_ & Hh & He1 & Hs1); rewrite He in He1;
    (case_if; bool_to_prop; [|rewrite result_bind; destruct (result (single_cycle gettimeofday s1)) as [s2|] eqn:E2;
      [|done]; rewrite result_bind; unfold as_int; destruct (in_int (i + 1)); cbn; [|done]]).
  1, 3: (intros; simplify_eq/=; exists 0%nat, s; split; [constructor|right; split_and!;
    [lia|by constructor|done|by rewrite <- Hh]]).
  - done.
  - pose proof (single_cycle_frame _ _ _ E2) as F. injection F as _ Fs _ _ F _. rewrite He1 in F. rewrite Hs1 in Fs.
    destruct (decide (agree s)) as [Ha|Ha].
    + intros (k & sk & Hl & Hk)%IH; [|done]. exists (S k), sk. split; [by eapply lockstep_round|].
      destruct Hk as [(-> & ? & ?)|(? & ?)]; [left|right]; (split; [lia|done]).
    + rewrite cpu_loop_end by (by rewrite F). intros. simplify_eq/=. exists 0%nat, s. split; [constructor|right].
      rewrite decide_False by done. split_and!; [lia|by eapply ends_mismatch|done|done].
Qed.

(** C8. One comparison of [exec_once], in full.  At a write-back that is not
    the first, the reference is stepped (or, when the previous instruction
    touched a device, overwritten with the core's registers), the interrupt
    is injected into it, and the 33 words are compared: a difference sets
    the error flag and the ABORT state and nothing else, a device access
    arms the resynchronisation of the next step, and the counter moves. *)
Theorem exec_once_check s :
  gpr_ptr (hst s) = true → checks s = true → in_int (wb_num s + 1) = true →
  result (exec_once s) =
    let o := dut_out (top s) in
    let r0 := if is_skip_ref s then ref_put_regs (ref s) (dut_gpr (top s)) else ref_exec (ref s) 1 in
    let r := if truthy (wb_intr o) then ref_raise_intr r0 (intr_num o) else r0 in
    let ok := bool_decide (ref_get_regs r = dut_gpr (top s)) in
    Ok (Sim (top s) (clk s) (rstn s) (hst s) r (main_time s)
          (if ok then cpu_state s else NPC_ABORT) (wb_pc o) (wb_num s + 1)
          (if ok then difftest_error s else 1) (truthy (wb_device o))).
Proof. intros Hp Hc Hn. by rewrite exec_once_check_result, Hn. Qed.

(** After a device access the reference cannot diverge: if copying the
    registers into the reference makes it hold them, the comparison made in
    the step after a device access succeeds whenever no interrupt is
    injected in it. *)
Theorem skip_resynchronises s s' :
  (∀ r g, length g = 33%nat → ref_get_regs (ref_put_regs r g) = g) →
  is_skip_ref s = true → checks s = true → truthy (wb_intr (dut_out (top s))) = false →
  result (exec_once s) = Ok s' →
  difftest_error s' = difftest_error s ∧ cpu_state s' = cpu_state s ∧
  ref_get_regs (ref s') = dut_gpr (top s').
Proof.
  intros Hput Hsk Hc Hi E. pose proof (exec_once_gpr _ _ Hc E) as Hp.
  rewrite exec_once_check_result in E by done. case_if; simplify_eq/=.
  unfold stepped. rewrite Hsk, Hi, Hput by done. by rewrite bool_decide_eq_true_2.
Qed.

(** Memory is written on the rising edge only: the evaluation with the
    clock low leaves the memory as it was, a whole cycle makes exactly two
    time steps, ends with the clock high and touches neither the reference
    nor the state of the loop. *)
Theorem single_cycle_edges s s' :
  result (single_cycle gettimeofday s) = Ok s' →
  ∃ s1, result (eval_at gettimeofday 0 s) = Ok s1 ∧ pmem (hst s1) = pmem (hst s) ∧
        result (eval_at gettimeofday 1 (tick_time s1)) =
          Ok (set_top s' 1 (rstn s') (hst s') (top s') (u64 (main_time s + 1))) ∧
        clk s' = 1 ∧ rstn s' = rstn s ∧ main_time s' = u64 (main_time s + 2) ∧
        loop_part s' = loop_part s.
Proof.
  intros (s1 & s2 & E1 & E2 & ->)%single_cycle_split. exists s1.
  destruct (eval_at_frame _ _ _ _ E1) as (_ & R1 & T1 & F1 & M1).
  destruct (eval_at_frame _ _ _ _ E2) as (C2 & R2 & T2 & F2 & _).
  split; [done|]. split; [by apply M1|].
  split; [|split; [done|split; [by etrans|split; [|by etrans]]]].
  - rewrite E2. unfold set_top, tick_time. cbn. destruct s2; cbn in *. congruence.
  - cbn in *. rewrite T2, T1. unfold u64. rewrite wrap_add_l. f_equal. lia.
Qed.

Lemma run_dpi_fuelled c h (d : dpi T) : fuelled (run_dpi gettimeofday c h d).
Proof.
  revert h. induction d as [t|a e v k IH|a v m e k IH|e k IH|p k IH]; intros h; cbn [run_dpi]; [done|..].
  - apply fuelled_bind; [apply mem_read_fuelled|]. intros [??] _. apply IH.
  - apply fuelled_bind; [apply mem_write_fuelled|]. intros ? _. apply IH.
  - apply IH.
  - apply fuelled_bind; [by destruct p|]. intros ? _. apply IH.
Qed.

Lemma single_cycle_fuelled s : fuelled (single_cycle gettimeofday s).
Proof.
  assert (∀ c s, fuelled (eval_at gettimeofday c s)) as He.
  { intros c s0. apply fuelled_bind; [apply run_dpi_fuelled|]. by intros [??] _. }
  apply fuelled_bind; [apply He|]. intros s1 _. cbv zeta. apply fuelled_bind; [apply He|done].
Qed.

Lemma gpr_at_fuelled g i : fuelled (gpr_at g i).
Proof. unfold gpr_at. by destruct (g !! i). Qed.
Lemma cpu_gpr_fuelled s : fuelled (cpu_gpr s).
Proof. unfold cpu_gpr. by case_if. Qed.

Lemma difftest_check_fuelled s : fuelled (difftest_check s).
Proof.
  apply fuelled_bind.
  - apply fuelled_bind; [apply cpu_gpr_fuelled|]. intros g _. generalize (seq 0 33).
    intros ix. induction ix as [|i ix IH]; cbn [compare_regs]; [done|].
    repeat (apply fuelled_bind; [apply gpr_at_fuelled|intros ? _]). by case_if.
  - intros ok _. destruct ok; [done|]. cbv zeta. apply fuelled_bind; [|done].
    apply fuelled_bind; [apply cpu_gpr_fuelled|]. intros g _. generalize (seq 0 33).
    intros ix. induction ix as [|i ix IH]; cbn [reg_lines]; [done|].
    apply fuelled_bind; [apply gpr_at_fuelled|intros ? _]. by apply fuelled_bind.
Qed.

Lemma exec_once_fuelled s : fuelled (exec_once s).
Proof.
  unfold exec_once. cbv zeta. case_if; [|done]. apply fuelled_bind.
  - case_if; [|done]. apply fuelled_bind.
    + unfold difftest_step. case_if; [|done]. apply fuelled_bind; [apply cpu_gpr_fuelled|done].
    + intros s1 _. apply fuelled_bind; [apply difftest_check_fuelled|done].
  - intros s1 _. apply fuelled_bind; [|done]. unfold as_int. by case_if.
Qed.

Lemma cpu_loop_fuelled fuel i n s :
  n - i <= Z.of_nat fuel → fuelled (cpu_loop gettimeofday fuel i n s).
Proof.
  revert i s. induction fuel as [|fuel IH]; intros i s Hf; cbn [cpu_loop];
    (destruct (i <? n) eqn:Hi; [|done]); (case_if; [done|]); bool_to_prop;
    (apply fuelled_bind; [apply exec_once_fuelled|intros s1 _]); (case_if; [done|]);
    (apply fuelled_bind; [apply single_cycle_fuelled|intros s2 _]);
    (apply fuelled_bind; [unfold as_int; by case_if|intros j Hj]);
    unfold as_int in Hj; case_if; simplify_eq/=.
  - lia.
  - apply IH. lia.
Qed.

(** [cpu_exec] returns (or stops with one of the faults of the code it
    runs) after at most as many iterations as its argument, an [unsigned
    int], allows: that much fuel never runs out. *)
Theorem cpu_exec_terminates n s : fuelled (cpu_exec gettimeofday (Z.to_nat (u32 n)) n s).
Proof.
  unfold cpu_exec. do 3 (case_if; [done|]). apply fuelled_bind.
  - apply cpu_loop_fuelled. pose proof (wrap_range 32 n ltac:(lia)). unfold u32. lia.
  - intros s1 _. case_if; [done|]. case_if; [|done].
    apply fuelled_bind; [apply cpu_gpr_fuelled|]. intros g _.
    by apply fuelled_bind; [apply gpr_at_fuelled|].
Qed.

Lemma cpu_loop_ebreak fuel n s s1 :
  0 < n → truthy (difftest_error s) = false → result (exec_once s) = Ok s1 →
  is_ebreak (hst s1) = 1 →
  result (cpu_loop gettimeofday fuel 0 n s) = Ok (set_cpu_state s1 NPC_END).
Proof.
  intros Hn He E1 Hb. destruct fuel; cbn [cpu_loop]; zif_true; rewrite He; cbv iota;
    by rewrite result_bind, E1, Hb.
Qed.

Lemma cpu_a0 s : gpr_ptr (hst s) = true →
  ∃ a0, dut_gpr (top s) !! 10%nat = Some a0 ∧
        ∀ B (k : Z → io B), (g ← cpu_gpr s; a0 ← gpr_at g 10; k a0) = k a0.
Proof.
  intros Hp. destruct (lookup_lt_is_Some_2 (dut_gpr (top s)) 10) as [a0 Ha0].
  { rewrite dut_gpr_len. lia. }
  exists a0. split; [done|]. intros B k. unfold cpu_gpr.
  by rewrite Hp, io_bind_ret_l, (gpr_at_Some _ _ _ Ha0), io_bind_ret_l.
Qed.

(** [cpu_exec] on a run whose loop ends at an [ebreak]. *)
Lemma cpu_exec_end fuel n s s1 :
  cpu_state s = NPC_RUNNING → gpr_ptr (hst s1) = true →
  result (cpu_loop gettimeofday fuel 0 (u32 n) (set_cpu_state s NPC_RUNNING)) =
    Ok (set_cpu_state s1 NPC_END) →
  result (cpu_exec gettimeofday fuel n s) = Ok (set_cpu_state s1 NPC_END).
Proof.
  intros Hst Hp E. unfold cpu_exec. rewrite Hst.
  cbn [Z.eqb NPC_RUNNING NPC_ABORT NPC_QUIT NPC_END]. rewrite result_bind, E.
  change (cpu_state (set_cpu_state s1 NPC_END)) with NPC_END.
  change (NPC_END =? NPC_ABORT) with false. change (NPC_END =? NPC_END) with true. cbv iota.
  destruct (cpu_a0 (set_cpu_state s1 NPC_END) Hp) as (a0 & _ & K). by rewrite K.
Qed.

Lemma exit_status_end s :
  cpu_state s = NPC_END → gpr_ptr (hst s) = true → dut_gpr (top s) !! 10%nat = Some 0 →
  result (is_exit_status_bad s) = Ok 0.
Proof.
  intros Hst Hp Hz. unfold is_exit_status_bad. rewrite Hst. change (NPC_END =? NPC_END) with true. cbv iota.
  destruct (cpu_a0 s Hp) as (a0 & Ha0 & K). rewrite Ha0 in Hz. simplify_eq. by rewrite K.
Qed.

(** A mismatch on the instruction before an [ebreak] is lost: when the
    registers differ at the write-back in which the core has raised
    [ebreak], the loop still ends in NPC_END with the error flag set, and
    the exit status is success whenever [a0] is 0, although the run
    diverged. *)
Theorem ebreak_masks_mismatch n s :
  0 < u32 n → gpr_ptr (hst s) = true → is_ebreak (hst s) = 1 → cpu_state s = NPC_RUNNING →
  difftest_error s = 0 → in_int (wb_num s + 1) = true → ¬ agree s →
  ∃ s', result (cpu_exec gettimeofday (Z.to_nat (u32 n)) n s) = Ok s' ∧
        cpu_state s' = NPC_END ∧ difftest_error s' = 1 ∧
        (dut_gpr (top s) !! 10%nat = Some 0 → result (is_exit_status_bad s') = Ok 0).
Proof.
  intros Hn Hp Hb Hst He Hw Ha. assert (checks s = true) as Hc.
  { destruct (checks s) eqn:Hc; [done|]. exfalso. apply Ha. by left. }
  set (s0 := set_cpu_state s NPC_RUNNING).
  set (s1 := set_wb (checked s0) (wb_pc (dut_out (top s))) (wb_num s + 1)).
  assert (result (exec_once s0) = Ok s1) as E1.
  { rewrite exec_once_check_result by done. cbn. by rewrite Hw. }
  exists (set_cpu_state s1 NPC_END). split; [|split; [done|split]].
  - apply cpu_exec_end; [done..|]. apply cpu_loop_ebreak; [done| |done..]. cbn. by rewrite He.
  - cbn. rewrite bool_decide_eq_false_2; [done|]. intros Hq. apply Ha. by right.
  - intros Hz. by apply exit_status_end.
Qed.
End cpu_props.

(** ** Witnesses *)

(** A core whose first register counts the rising edges and which stores it,
    and a reference that holds its registers in a list and counts too. *)
Module Toy.
Definition core : Type := Z * outs.
#[global] Instance core_dut : Dut core := {|
  dut_eval c _ t := if c =? 1 then DMemWrite 0x80000000 (t.1 + 1) 0xff 1 (DRet (t.1 + 1, t.2))
                    else DRet t;
  dut_out t := t.2;
  dut_gpr t := t.1 :: replicate 32 0
|}.

#[global] Instance list_ref : RefSim (list Z) := {|
  ref_memcpy r _ _ := r;
  ref_put_regs _ g := g;
  ref_get_regs r := take 33 (r ++ replicate 33 0);
  ref_exec r n := match r with [] => [n] | x :: r => (x + n) :: r end;
  ref_raise_intr r _ := r
|}.

Lemma core_len (t : core) : length (dut_gpr t) = 33%nat.
Proof. done. Qed.
Lemma list_len (r : list Z) : length (ref_get_regs r) = 33%nat.
Proof. cbn [ref_get_regs list_ref]. rewrite length_take, length_app, length_replicate. lia. Qed.
Lemma list_put (r g : list Z) : length g = 33%nat → ref_get_regs (ref_put_regs r g) = g.
Proof. intros Hg. cbn [ref_get_regs ref_put_regs list_ref]. by rewrite take_app_le, take_ge by lia. Qed.

(** A write-back of every instruction; register 0 of core and reference, the
    [ebreak] flag, whether a device was touched before. *)
Definition start (x y ebreak : Z) (skip : bool) : sim core (list Z) :=
  Sim (x, Outs 1 0x80000004 0x13 0 0 0) 0 1 (Host ∅ timer_init ebreak true) [y] 0
    NPC_RUNNING 0x80000000 1 0 skip.
Definition no_clock (_ : nat) : Z * Z := (0, 0).
End Toy.

(** A run that agrees to the end of its count, and one that diverges at once:
    the loop leaves the state behind one round. *)
Lemma cpu_loop_first_divergence_witness :
  (∃ s' sk, result (cpu_loop Toy.no_clock 5 0 5 (Toy.start 1 0 0 false)) = Ok s' ∧
         lockstep Toy.no_clock 5 (Toy.start 1 0 0 false) sk ∧ s' = sk) ∧
  (∃ s', result (cpu_loop Toy.no_clock 5 0 5 (Toy.start 2 0 0 false)) = Ok s' ∧
         ends_at Toy.no_clock (Toy.start 2 0 0 false) s' ∧ difftest_error s' = 1).
Proof.
  split.
  - assert (result (cpu_loop Toy.no_clock 5 0 5 (Toy.start 1 0 0 false)) = Ok _) as E by (vm_compute; reflexivity).
    destruct (cpu_loop_first_divergence Toy.no_clock Toy.core_len Toy.list_len 5 0 5 (Toy.start 1 0 0 false) _
      eq_refl E) as (k & sk & Hl & [(Hk & Es & _)|(_ & Hd & He & _)]).
    + eexists _, sk. split; [exact E|]. split; [rewrite Hk in Hl; exact Hl|exact Es].
    + exfalso. apply (ends_running Toy.no_clock sk _ Hd eq_refl). destruct (decide (agree sk)) as [Ha|_]; [exact Ha|].
      discriminate He.
  - assert (result (cpu_loop Toy.no_clock 5 0 5 (Toy.start 2 0 0 false)) = Ok _) as E by (vm_compute; reflexivity).
    destruct (cpu_loop_first_divergence Toy.no_clock Toy.core_len Toy.list_len 5 0 5 (Toy.start 2 0 0 false) _
      eq_refl E) as (k & sk & Hl & [(_ & _ & He)|(_ & Hd & _ & _)]); [discriminate He|].
    eexists. split; [exact E|]. split; [|reflexivity]. inversion Hl; subst; [exact Hd|].
    exfalso. match goal with H : agree _ |- _ => destruct H as [H|H]; vm_compute in H; discriminate H end.
Defined.

Lemma exec_once_check_witness :
  result (exec_once (Toy.start 1 0 0 false)) =
    Ok (Sim (1, Outs 1 0x80000004 0x13 0 0 0) 0 1 (Host ∅ timer_init 0 true) [1] 0
          NPC_RUNNING 0x80000004 2 0 false) ∧
  result (exec_once (Toy.start 7 0 0 false)) =
    Ok (Sim (7, Outs 1 0x80000004 0x13 0 0 0) 0 1 (Host ∅ timer_init 0 true) [1] 0
          NPC_ABORT 0x80000004 2 1 false).
Proof.
  split; (etrans; [apply (exec_once_check Toy.core_len Toy.list_len); reflexivity|]); reflexivity.
Defined.

Lemma skip_resynchronises_witness :
  ∃ s', result (exec_once (Toy.start 7 0 0 true)) = Ok s' ∧
    difftest_error s' = 0 ∧ cpu_state s' = NPC_RUNNING ∧ ref_get_regs (ref s') = dut_gpr (top s').
Proof.
  eexists; split; [vm_compute; reflexivity|].
  apply (skip_resynchronises Toy.core_len Toy.list_len (Toy.start 7 0 0 true));
    [apply Toy.list_put|reflexivity..].
Defined.

Lemma single_cycle_edges_witness :
  ∃ s' s1, result (single_cycle Toy.no_clock (Toy.start 1 0 0 false)) = Ok s' ∧
    result (eval_at Toy.no_clock 0 (Toy.start 1 0 0 false)) = Ok s1 ∧
    pmem (hst s1) = ∅ ∧ load (pmem (hst s')) 0 8 = 2 ∧ main_time s' = 2.
Proof.
  eexists.
  assert (result (single_cycle Toy.no_clock (Toy.start 1 0 0 false)) = Ok _) as E
    by (vm_compute; reflexivity).
  destruct (single_cycle_edges Toy.no_clock _ _ E) as (s1 & E1 & Em & _ & _ & _ & Et & _).
  exists s1. split; [exact E|]. split; [exact E1|]. split; [exact Em|].
  split; [vm_compute; reflexivity|exact Et].
Defined.

Lemma ebreak_masks_mismatch_witness :
  ∃ s', result (cpu_exec Toy.no_clock 1 1 (Toy.start 0 4 1 false)) = Ok s' ∧
        cpu_state s' = NPC_END ∧ difftest_error s' = 1 ∧ result (is_exit_status_bad s') = Ok 0.
Proof.
  destruct (ebreak_masks_mismatch Toy.no_clock Toy.core_len Toy.list_len 1 (Toy.start 0 4 1 false))
    as (s' & E1 & E2 & E3 & E4); [reflexivity..| |].
  - intros [E|E]; [discriminate E|]. vm_compute in E. discriminate E.
  - exists s'. repeat split; [exact E1|exact E2|exact E3|apply E4; reflexivity].
Defined.
