(* ===== verification/Axi4.v ===== *)
(** * AXI4 signals
    [axi4.hpp]: the bundle of 29 signals in its three forms (values, pointers
    to the model's ports, references), the connection check, the copies between
    bundles, and the response and burst codes. *)
From stdpp Require Import base numbers list option gmap sets fin_sets.
From S2P Require Import Prelude.

Local Open Scope Z_scope.

(** One field per signal, in declaration order: [signals Z] is [struct axi4],
    [signals (option nat)] is [struct axi4_ptr] (the address of a port or
    NULL) and [signals nat] is [struct axi4_ref]. *)
Record signals (A : Type) := Signals {
  awid : A; awaddr : A; awlen : A; awsize : A; awburst : A; awvalid : A; awready : A;
  wdata : A; wstrb : A; wlast : A; wvalid : A; wready : A;
  bid : A; bresp : A; bvalid : A; bready : A;
  arid : A; araddr : A; arlen : A; arsize : A; arburst : A; arvalid : A; arready : A;
  rid : A; rdata : A; rresp : A; rlast : A; rvalid : A; rready : A
}.
Arguments Signals {A}.
Arguments awid {A}. Arguments awaddr {A}. Arguments awlen {A}. Arguments awsize {A}.
Arguments awburst {A}. Arguments awvalid {A}. Arguments awready {A}. Arguments wdata {A}.
Arguments wstrb {A}. Arguments wlast {A}. Arguments wvalid {A}. Arguments wready {A}.
Arguments bid {A}. Arguments bresp {A}. Arguments bvalid {A}. Arguments bready {A}.
Arguments arid {A}. Arguments araddr {A}. Arguments arlen {A}. Arguments arsize {A}.
Arguments arburst {A}. Arguments arvalid {A}. Arguments arready {A}. Arguments rid {A}.
Arguments rdata {A}. Arguments rresp {A}. Arguments rlast {A}. Arguments rvalid {A}.
Arguments rready {A}.

Definition axi4 : Type := signals Z.
Definition axi4_ptr : Type := signals (option nat).
Definition axi4_ref : Type := signals nat.

(** The constructors: all signals zero, all pointers NULL. *)
Definition axi4_init : axi4 :=
  Signals 0 0 0 0 0 0 0 0 0 0 0 0 0 0 0 0 0 0 0 0 0 0 0 0 0 0 0 0 0.
Definition axi4_ptr_init : axi4_ptr :=
  Signals None None None None None None None None None None None None None None None None None None
    None None None None None None None None None None None.

Definition fields {A} (s : signals A) : list A :=
  [awid s; awaddr s; awlen s; awsize s; awburst s; awvalid s; awready s;
   wdata s; wstrb s; wlast s; wvalid s; wready s;
   bid s; bresp s; bvalid s; bready s;
   arid s; araddr s; arlen s; arsize s; arburst s; arvalid s; arready s;
   rid s; rdata s; rresp s; rlast s; rvalid s; rready s].

(** [axi4_ptr::check]: the set of the pointers has 29 members and not NULL. *)
Definition check (ptr : axi4_ptr) : bool :=
  let s : gset (option nat) := foldl (λ s p, {[p]} ∪ s) ∅ (fields ptr) in
  bool_decide (size s = 29%nat) && bool_decide (None ∉ s).

Definition sigs_map {A B} (f : A → B) (s : signals A) : signals B :=
  Signals (f (awid s)) (f (awaddr s)) (f (awlen s)) (f (awsize s)) (f (awburst s)) (f (awvalid s))
    (f (awready s)) (f (wdata s)) (f (wstrb s)) (f (wlast s)) (f (wvalid s)) (f (wready s))
    (f (bid s)) (f (bresp s)) (f (bvalid s)) (f (bready s)) (f (arid s)) (f (araddr s)) (f (arlen s))
    (f (arsize s)) (f (arburst s)) (f (arvalid s)) (f (arready s)) (f (rid s)) (f (rdata s))
    (f (rresp s)) (f (rlast s)) (f (rvalid s)) (f (rready s)).

(** The constructor of [axi4_ref] from pointers dereferences all of them. *)
Definition axi4_ref_of_ptr (ptr : axi4_ptr) : io axi4_ref :=
  if bool_decide (Forall is_Some (fields ptr)) then mret (sigs_map (default 0%nat) ptr)
  else fail NullDeref.

(** The ports behind the references. *)
Definition ports : Type := nat → Z.
Definition at_ref (v : ports) (r : axi4_ref) : axi4 := sigs_map v r.
Definition assign (v : ports) (kv : nat * Z) : ports :=
  λ i, if decide (i = kv.1) then kv.2 else v i.
Definition poke (v : ports) (kvs : list (nat * Z)) : ports := foldl assign v kvs.

(** [update_input]: the inputs of the bundle from the ports; [update_output]:
    the ports of the outputs from the bundle. *)
Definition update_input (s : axi4) (v : ports) (r : axi4_ref) : axi4 :=
  Signals (v (awid r)) (v (awaddr r)) (v (awlen r)) (v (awsize r)) (v (awburst r)) (v (awvalid r))
    (awready s) (v (wdata r)) (v (wstrb r)) (v (wlast r)) (v (wvalid r)) (wready s)
    (bid s) (bresp s) (bvalid s) (v (bready r)) (v (arid r)) (v (araddr r)) (v (arlen r))
    (v (arsize r)) (v (arburst r)) (v (arvalid r)) (arready s) (rid s) (rdata s)
    (rresp s) (rlast s) (rvalid s) (v (rready r)).
Definition outputs {A} (s : signals A) : list A :=
  [awready s; wready s; bid s; bresp s; bvalid s; arready s; rid s; rdata s; rresp s; rlast s;
   rvalid s].
Definition inputs {A} (s : signals A) : list A :=
  [awid s; awaddr s; awlen s; awsize s; awburst s; awvalid s; wdata s; wstrb s; wlast s; wvalid s;
   bready s; arid s; araddr s; arlen s; arsize s; arburst s; arvalid s; rready s].
Definition update_output (s : axi4) (v : ports) (r : axi4_ref) : ports :=
  poke v (zip (outputs r) (outputs s)).

Inductive axi_resp := RESP_OKEY | RESP_EXOKEY | RESP_SLVERR | RESP_DECERR.
Definition resp_code (r : axi_resp) : Z :=
  match r with RESP_OKEY => 0 | RESP_EXOKEY => 1 | RESP_SLVERR => 2 | RESP_DECERR => 3 end.
Definition resp_of (z : Z) : axi_resp :=
  match z with 0 => RESP_OKEY | 1 => RESP_EXOKEY | 2 => RESP_SLVERR | _ => RESP_DECERR end.
#[global] Instance axi_resp_eq_dec : EqDecision axi_resp.
Proof. solve_decision. Defined.

Inductive axi_burst_type := BURST_FIXED | BURST_INCR | BURST_WRAP | BURST_RESERVED.
Definition burst_of (z : Z) : axi_burst_type :=
  match z with 0 => BURST_FIXED | 1 => BURST_INCR | 2 => BURST_WRAP | _ => BURST_RESERVED end.
#[global] Instance axi_burst_type_eq_dec : EqDecision axi_burst_type.
Proof. solve_decision. Defined.

(** ** Lemmas *)

Lemma size_list_NoDup (l : list (option nat)) (s : gset (option nat)) :
  (size (foldl (λ s p, {[p]} ∪ s) s l) ≤ size s + length l)%nat ∧
  (size (foldl (λ s p, {[p]} ∪ s) s l) = (size s + length l)%nat ↔
   NoDup l ∧ ∀ x, x ∈ l → x ∉ s).
Proof.
  revert s. induction l as [|p l IH]; intros s; cbn [foldl length].
  - split; [lia|]. split; [|lia]. intros _. split; [constructor|]. by intros x ?%elem_of_nil.
  - destruct (IH ({[p]} ∪ s)) as [Hle Heq].
    destruct (decide (p ∈ s)) as [Hp|Hp].
    + assert (({[p]} ∪ s) = s) as E by set_solver. rewrite E in *. split; [lia|]. split; [lia|].
      intros [_ Hn]. exfalso. apply (Hn p); [left|done].
    + assert (size ({[p]} ∪ s) = S (size s)) as E.
      { rewrite size_union by set_solver. by rewrite size_singleton. }
      rewrite E in *. split; [lia|]. rewrite <- plus_n_Sm. cbn in Heq. rewrite Heq, NoDup_cons.
      setoid_rewrite elem_of_cons. split.
      * intros [Hd Hn]. split; [split; [|done]|set_solver]. intros Hin. apply (Hn p Hin). set_solver.
      * intros [[Hd1 Hd2] Hn]. split; [done|]. intros x Hx. assert (x ≠ p) by congruence. set_solver.
Qed.

Lemma elem_of_foldl_insert (l : list (option nat)) (s : gset (option nat)) x :
  x ∈ foldl (λ s p, {[p]} ∪ s) s l ↔ x ∈ s ∨ x ∈ l.
Proof.
  revert s. induction l as [|p l IH]; intros s; cbn [foldl]; [set_solver|].
  rewrite IH, elem_of_cons. set_solver.
Qed.

Lemma poke_notin v kvs k : k ∉ kvs.*1 → poke v kvs k = v k.
Proof.
  unfold poke. revert v. induction kvs as [|[i z] kvs IH]; intros v; cbn; [done|].
  rewrite not_elem_of_cons. intros [Hk Hn]. rewrite IH by done. unfold assign. by rewrite decide_False.
Qed.

Lemma poke_in v kvs k z : NoDup kvs.*1 → (k, z) ∈ kvs → poke v kvs k = z.
Proof.
  unfold poke. revert v. induction kvs as [|[i y] kvs IH]; intros v; cbn; [by rewrite elem_of_nil|].
  rewrite NoDup_cons, elem_of_cons. intros [Hn Hd] [E|Hin]; [|by apply IH].
  simplify_eq. rewrite (poke_notin _ kvs) by done. unfold assign. by rewrite decide_True.
Qed.

(** Positions of the inputs and the outputs in the bundle. *)
Definition input_ix : list nat := [0;1;2;3;4;5;7;8;9;10;15;16;17;18;19;20;21;28]%nat.
Definition output_ix : list nat := [6;11;12;13;14;22;23;24;25;26;27]%nat.

Lemma inputs_outputs_disjoint {A} (r : signals A) x :
  NoDup (fields r) → x ∈ inputs r → x ∉ outputs r.
Proof.
  intros Hd Hi Ho.
  change (inputs r) with (omap (fields r !!.) input_ix) in Hi.
  change (outputs r) with (omap (fields r !!.) output_ix) in Ho.
  apply list_elem_of_omap in Hi as (i & Hi & Ei). apply list_elem_of_omap in Ho as (j & Ho & Ej).
  assert (i = j) as <- by (by eapply NoDup_lookup).
  assert (Forall (λ i, i ∉ output_ix) input_ix) as Hall by decide_now.
  rewrite Forall_forall in Hall. by apply (Hall i).
Qed.

(** ** Properties *)

(** The connection check accepts a bundle of pointers exactly when no port is
    missing and no two signals are tied to the same port. *)
Theorem check_spec (ptr : axi4_ptr) :
  check ptr = true ↔ Forall is_Some (fields ptr) ∧ NoDup (fields ptr).
Proof.
  unfold check. rewrite andb_true_iff, !bool_decide_eq_true.
  pose proof (size_list_NoDup (fields ptr) ∅) as [_ Heq]. rewrite size_empty in Heq.
  change (0 + length (fields ptr))%nat with 29%nat in Heq. rewrite Heq, elem_of_foldl_insert.
  rewrite Forall_forall. split.
  - intros [[Hd _] Hn]. split; [|done]. intros [x|] Hx; [by eexists|]. exfalso. apply Hn. by right.
  - intros [Hs Hd]. split; [split; [done|set_solver]|]. intros [?|Hn]; [set_solver|].
    by destruct (Hs None Hn).
Qed.

Example check_accepts :
  check (sigs_map Some (Signals 0 1 2 3 4 5 6 7 8 9 10 11 12 13 14 15 16 17 18 19 20 21 22 23 24 25 26
                          27 28)%nat) = true ∧ check axi4_ptr_init = false.
Proof. split; [apply check_spec; decide_now|reflexivity]. Defined.

(** On a bundle whose references are all different, writing the outputs back
    and reading the bundle through the references gives the outputs of the
    bundle that was written and the inputs that were there before. *)
Theorem update_output_input (s s' : axi4) (v : ports) (r : axi4_ref) :
  NoDup (fields r) →
  let v' := update_output s v r in
  outputs (at_ref v' r) = outputs s ∧ inputs (at_ref v' r) = inputs (at_ref v r) ∧
  update_input s' v' r = update_input s' v r.
Proof.
  intros Hd. cbv zeta.
  assert (NoDup (outputs r)) as Ho.
  { eapply sublist_NoDup; [exact Hd|]. unfold fields, outputs. repeat constructor. }
  assert (∀ x, x ∈ inputs r → update_output s v r x = v x) as Hin.
  { intros x Hx. apply poke_notin. rewrite fst_zip by done. by apply inputs_outputs_disjoint. }
  assert (update_output s v r <$> outputs r = outputs s) as Hout.
  { apply list_eq. intros i. rewrite list_lookup_fmap. destruct (outputs r !! i) as [x|] eqn:Ex.
    - assert (is_Some (outputs s !! i)) as [z Ez].
      { apply lookup_lt_is_Some. by apply lookup_lt_Some in Ex. }
      rewrite Ez. cbn [fmap option_fmap option_map]. f_equal. apply poke_in; [by rewrite fst_zip|].
      apply list_elem_of_lookup. exists i. by apply lookup_zip_Some.
    - symmetry. apply lookup_ge_None. by apply lookup_ge_None in Ex. }
  split; [exact Hout|].
  split.
  - change (update_output s v r <$> inputs r = v <$> inputs r). apply list_fmap_ext.
    intros i x Hx. apply Hin. by eapply list_elem_of_lookup_2.
  - unfold update_input. f_equal; apply Hin; unfold inputs; rewrite !elem_of_cons; tauto.
Qed.

Lemma update_output_input_witness :
  let r := Signals 0 1 2 3 4 5 6 7 8 9 10 11 12 13 14 15 16 17 18 19 20 21 22 23 24 25 26 27 28 in
  outputs (at_ref (update_output axi4_init Z.of_nat (sigs_map Z.to_nat r)) (sigs_map Z.to_nat r)) =
    replicate 11 0.
Proof.
  intros r.
  apply (update_output_input axi4_init axi4_init Z.of_nat (sigs_map Z.to_nat r)). decide_now.
Defined.
