(* ===== verification/Devices.v ===== *)
(** * Memory-mapped devices
    [mmio_dev.hpp] (the interface), [mmio_mem.hpp] (a RAM), [uartlite.hpp]
    (the serial port) and the memory of [axi4_mem.hpp].

    A device reads into a buffer of the caller: [do_read] returns the bytes it
    leaves there, or [None] when it returns [false] and leaves the buffer
    alone.  [do_write] gets exactly the bytes it is asked to write.  Addresses
    and sizes are 64-bit: the sum the bounds checks compare wraps, and an
    access that passes a check because of that leaves the array. *)
From stdpp Require Import base numbers list option strings gmap.
From S2P Require Import Prelude Bytes Axi4.

Local Open Scope Z_scope.

Class mmio_dev (D : Type) := {
  dev_read : D → Z → Z → io (option (list Z) * D);
  dev_write : D → Z → list Z → io (bool * D)
}.

Definition zlen (l : list Z) : Z := Z.of_nat (length l).

(** [memcpy] out of and into an array of [n] bytes. *)
Definition in_array (n start size : Z) : bool := (0 <=? start) && (start + size <=? n).
Definition copy_out (m : bytes) (n start size : Z) : io (list Z) :=
  if in_array n start size then mret (load_bytes m start (Z.to_nat size)) else fail OutOfBounds.
Definition copy_in (m : bytes) (n start : Z) (buffer : list Z) : io bytes :=
  if in_array n start (zlen buffer) then mret (store_bytes m start buffer) else fail OutOfBounds.

(** ** mmio_mem *)

Record ram := Ram { mem : bytes; mem_size : Z }.

(** [new unsigned char[n]] leaves the contents undetermined: [m]. *)
Definition mmio_mem (m : bytes) (size_bytes : Z) : ram := Ram m size_bytes.
Definition mmio_mem_binary (m : bytes) (size_bytes : Z) (init_binary : list Z) : io ram :=
  if zlen init_binary <=? size_bytes then mret (Ram (store_bytes m 0 init_binary) size_bytes)
  else fail AssertFail.

(** The constructor from a file; the size of a file that could not be opened is
    -1 as an unsigned number, and nothing is read from it. *)
Definition ULONG_MAX : Z := 2 ^ 64 - 1.
Definition mmio_mem_file (m : bytes) (size_bytes : Z) (file : option (list Z)) : io ram :=
  let file_size := match file with Some l => zlen l | None => ULONG_MAX end in
  file_size ← (if size_bytes <? file_size then
                 emit ("mmio_mem size is not big enough for init file.");; mret size_bytes
               else mret file_size);
  let l := take (Z.to_nat file_size) (default [] file) in
  m ← copy_in m size_bytes 0 l;
  mret (Ram m size_bytes).

Definition mmio_mem_do_read (d : ram) (start_addr size : Z) : io (option (list Z) * ram) :=
  if u64 (start_addr + size) <=? mem_size d then
    buffer ← copy_out (mem d) (mem_size d) start_addr size; mret (Some buffer, d)
  else mret (None, d).
Definition mmio_mem_do_write (d : ram) (start_addr : Z) (buffer : list Z) : io (bool * ram) :=
  if u64 (start_addr + zlen buffer) <=? mem_size d then
    m ← copy_in (mem d) (mem_size d) start_addr buffer; mret (true, Ram m (mem_size d))
  else mret (false, d).

#[global] Instance ram_dev : mmio_dev ram := {|
  dev_read := mmio_mem_do_read;
  dev_write := mmio_mem_do_write
|}.

(** ** axi4_mem *)

(** The constructor rounds the size up to the 8 bytes of the bus. *)
Definition axi4_mem (m : bytes) (size_bytes : Z) : ram :=
  Ram m (if truthy (size_bytes mod 8) then u64 (size_bytes + (8 - size_bytes mod 8)) else size_bytes).
Definition axi4_mem_binary (m : bytes) (size_bytes : Z) (init_binary : list Z) : io ram :=
  let d := axi4_mem m size_bytes in
  if zlen init_binary <=? size_bytes then
    m ← copy_in (mem d) (mem_size d) 0 init_binary; mret (Ram m (mem_size d))
  else fail AssertFail.

(** The public accessors: [read] and [write] of an [off_t] (signed) offset. *)
Definition axi4_mem_read := mmio_mem_do_read.
Definition axi4_mem_write := mmio_mem_do_write.

Definition axi4_mem_do_read (d : ram) (start_addr size : Z) : io (axi_resp * option (list Z) * ram) :=
  if u64 (start_addr + size) <=? mem_size d then
    buffer ← copy_out (mem d) (mem_size d) start_addr size; mret (RESP_OKEY, Some buffer, d)
  else mret (RESP_DECERR, None, d).
Definition axi4_mem_do_write (d : ram) (start_addr : Z) (buffer : list Z) : io (axi_resp * ram) :=
  if u64 (start_addr + zlen buffer) <=? mem_size d then
    m ← copy_in (mem d) (mem_size d) start_addr buffer; mret (RESP_OKEY, Ram m (mem_size d))
  else mret (RESP_DECERR, d).

(** [load_binary]: a file that does not fit is read up to the size of the whole
    memory, wherever it starts. *)
Definition load_binary (d : ram) (init_file : option (list Z)) (start_addr : Z) : io ram :=
  let file_size := match init_file with Some l => zlen l | None => ULONG_MAX end in
  file_size ← (if (mem_size d <=? start_addr) || (mem_size d - start_addr <? file_size) then
                 emit ("memory size is not big enough for init file.");; mret (mem_size d)
               else mret file_size);
  m ← copy_in (mem d) (mem_size d) start_addr (take (Z.to_nat file_size) (default [] init_file));
  mret (Ram m (mem_size d)).

(** ** uartlite *)

Definition SR_TX_FIFO_EMPTY : Z := Z.shiftl 1 2.
Definition SR_RX_FIFO_VALID_DATA : Z := Z.shiftl 1 0.
Definition ULITE_CONTROL_RST_TX : Z := 1.
Definition ULITE_CONTROL_RST_RX : Z := 2.
Definition EOF : Z := -1.

(** [uartlite_regs]: four 32-bit registers, as the 16 bytes they occupy.  A
    [char] of the queues is its signed value. *)
Definition rx_fifo : Z := 0.
Definition tx_fifo : Z := 4.
Definition status : Z := 8.
Definition control : Z := 12.
Definition sizeof_regs : Z := 16.
Record uartlite := Uart { uregs : bytes; rx : list Z; tx : list Z; wait_ack : bool }.

Definition uartlite_init : uartlite := Uart (store ∅ status 4 SR_TX_FIFO_EMPTY) [] [] false.

Definition reg (u : uartlite) (r : Z) : Z := load (uregs u) r 4.

(** [start_addr <= offsetof(r) && offsetof(r) <= start_addr + size] *)
Definition touches (start_addr size r : Z) : bool :=
  (start_addr <=? r) && (r <=? u64 (start_addr + size)).

Definition uartlite_do_read (u : uartlite) (start_addr size : Z) :
    io (option (list Z) * uartlite) :=
  if sizeof_regs <? u64 (start_addr + size) then mret (None, u)
  else
    let regs := match rx u with
                | c :: _ =>
                    store (store (uregs u) status 4 (Z.lor (reg u status) SR_RX_FIFO_VALID_DATA))
                      rx_fifo 4 (u32 c)
                | [] => store (uregs u) status 4 (Z.land (reg u status) (Z.lnot SR_RX_FIFO_VALID_DATA))
                end in
    buffer ← copy_out regs sizeof_regs start_addr (Z.min size (u64 (sizeof_regs - start_addr)));
    mret (Some buffer,
          Uart regs (if touches start_addr size rx_fifo then tail (rx u) else rx u) (tx u) false).

Definition uartlite_do_write (u : uartlite) (start_addr : Z) (buffer : list Z) : io (bool * uartlite) :=
  let size := zlen buffer in
  if sizeof_regs <? u64 (start_addr + size) then mret (false, u)
  else
    regs ← copy_in (uregs u) sizeof_regs start_addr
             (take (Z.to_nat (Z.min size (u64 (sizeof_regs - start_addr)))) buffer);
    let u := Uart regs (rx u) (tx u) (wait_ack u) in
    let tx := if touches start_addr size tx_fifo then tx u ++ [swrap 8 (reg u tx_fifo)] else tx u in
    if touches start_addr size control then
      mret (true, Uart regs
                    (if truthy (Z.land (reg u control) ULITE_CONTROL_RST_RX) then [] else rx u)
                    (if truthy (Z.land (reg u control) ULITE_CONTROL_RST_TX) then [] else tx)
                    (wait_ack u))
    else mret (true, Uart regs (rx u) tx (wait_ack u)).

#[global] Instance uart_dev : mmio_dev uartlite := {|
  dev_read := uartlite_do_read;
  dev_write := uartlite_do_write
|}.

Definition putc (u : uartlite) (c : Z) : uartlite := Uart (uregs u) (rx u ++ [c]) (tx u) (wait_ack u).
Definition getc (u : uartlite) : Z * uartlite :=
  match tx u with
  | res :: t => (res, Uart (uregs u) (rx u) t (match t with [] => true | _ => wait_ack u end))
  | [] => (EOF, u)
  end.
Definition exist_tx (u : uartlite) : bool := match tx u with [] => false | _ => true end.
Definition irq (u : uartlite) : bool := match rx u with [] => wait_ack u | _ => true end.

(** A device that is one or the other. *)
#[global] Instance sum_dev {D E} `{mmio_dev D} `{mmio_dev E} : mmio_dev (D + E) := {|
  dev_read d a n :=
    match d with
    | inl d => '(r, d) ← dev_read d a n; mret (r, inl d)
    | inr e => '(r, e) ← dev_read e a n; mret (r, inr e)
    end;
  dev_write d a l :=
    match d with
    | inl d => '(r, d) ← dev_write d a l; mret (r, inl d)
    | inr e => '(r, e) ← dev_write e a l; mret (r, inr e)
    end
|}.

(** ** What a slave expects of the memory behind it *)

(** The virtual functions of [axi4_slave]. *)
Class axi_backend (B : Type) := {
  do_read : B → Z → Z → io (axi_resp * option (list Z) * B);
  do_write : B → Z → list Z → io (axi_resp * B)
}.

(** A backend that behaves as memory on the ranges it covers: a read returns
    the bytes there and changes nothing, a write changes those bytes and no
    other, and what else the backend is made of is kept, the ranges among it. *)
Class axi_memory (B : Type) `{axi_backend B} := {
  covers : B → Z → Z → Prop;
  byte_at : B → Z → Z;
  kept : relation B;
  #[global] kept_preorder :: PreOrder kept;
  kept_covers b b' k n : kept b b' → covers b' k n ↔ covers b k n;
  read_law b a n :
    0 < n → covers b a n →
    do_read b a n = mret (RESP_OKEY, Some (byte_at b <$> seqZ a n), b);
  write_law b a l :
    0 < zlen l → covers b a (zlen l) →
    ∃ b', do_write b a l = mret (RESP_OKEY, b') ∧
          (∀ k, byte_at b' k =
             if decide (a <= k < a + zlen l) then default 0 (l !! Z.to_nat (k - a)) else byte_at b k) ∧
          kept b b';
  covers_sub b a n a' n' : covers b a n → a <= a' → 0 < n' → a' + n' <= a + n → covers b a' n'
}.

#[global] Instance ram_backend : axi_backend ram := {|
  do_read := axi4_mem_do_read;
  do_write := axi4_mem_do_write
|}.

Lemma in_array_true n start size : 0 <= start → start + size <= n → in_array n start size = true.
Proof. intros. apply andb_true_iff. by rewrite !Z.leb_le. Qed.

Lemma bound_check n start size :
  0 <= start → 0 <= size → start + size <= n → n < 2 ^ 64 → (u64 (start + size) <=? n) = true.
Proof. intros. unfold u64. rewrite wrap_small by lia. apply Z.leb_le. lia. Qed.

Lemma load_bytes_seqZ m a n : 0 <= n → load_bytes m a (Z.to_nat n) = get m <$> seqZ a n.
Proof.
  intros Hn. apply list_eq. intros i. rewrite list_lookup_fmap.
  destruct (decide (i < Z.to_nat n)%nat).
  - rewrite load_bytes_lookup by done. rewrite lookup_seqZ_lt by lia. done.
  - rewrite !lookup_ge_None_2; [done| |rewrite length_load_bytes; lia].
    rewrite length_seqZ. lia.
Qed.

Definition ram_covers (d : ram) (a n : Z) : Prop :=
  0 <= a ∧ 0 <= n ∧ a + n <= mem_size d ∧ mem_size d < 2 ^ 64.

(** The size of a RAM never changes. *)
Definition same_size : relation ram := λ d d', mem_size d' = mem_size d.
#[global] Instance same_size_preorder : PreOrder same_size.
Proof. split; unfold same_size; congruence. Qed.

#[global] Program Instance ram_memory : axi_memory ram := {|
  covers := ram_covers;
  byte_at d := get (mem d);
  kept := same_size
|}.
Next Obligation. intros d d' k n H. unfold same_size in H. unfold ram_covers. by rewrite H. Qed.
Next Obligation.
  intros d a n Hn (Ha & _ & Hs & Hm). cbn. unfold axi4_mem_do_read, copy_out.
  rewrite bound_check, in_array_true, io_bind_ret_l by lia. by rewrite load_bytes_seqZ by lia.
Qed.
Next Obligation.
  intros d a l Hpos (Ha & Hl & Hs & Hm). cbn. unfold axi4_mem_do_write, copy_in.
  rewrite bound_check, in_array_true, io_bind_ret_l by (unfold zlen in *; lia).
  eexists. split; [done|]. split; [|done]. intros k. apply get_store_bytes.
Qed.
Next Obligation. unfold ram_covers. intros. lia. Qed.

(** ** The serial port as two queues *)

Inductive ureg := RxReg | TxReg | StatusReg | ControlReg.
Definition offset (r : ureg) : Z :=
  match r with RxReg => rx_fifo | TxReg => tx_fifo | StatusReg => status | ControlReg => control end.

(** The operations of the host ([putc], [getc], [exist_tx], [irq]) and the
    32-bit accesses of the core to the four registers. *)
Inductive uop :=
| Putc (c : Z) | Getc | ExistTx | Irq
| Read (r : ureg) | Write (r : ureg) (w : Z).

Definition read_reg (u : uartlite) (r : Z) : io (Z * uartlite) :=
  '(b, u) ← uartlite_do_read u r 4; mret (le_combine (default [] b), u).
Definition write_reg (u : uartlite) (r w : Z) : io (Z * uartlite) :=
  '(b, u) ← uartlite_do_write u r (le_split 4 w); mret (Z.b2z b, u).

Definition uart_step (u : uartlite) (o : uop) : io (Z * uartlite) :=
  match o with
  | Putc c => mret (0, putc u c)
  | Getc => mret (getc u)
  | ExistTx => mret (Z.b2z (exist_tx u), u)
  | Irq => mret (Z.b2z (irq u), u)
  | Read r => read_reg u (offset r)
  | Write r w => write_reg u (offset r) w
  end.

Fixpoint uart_run (u : uartlite) (os : list uop) : io (list Z * uartlite) :=
  match os with
  | [] => mret ([], u)
  | o :: os => '(z, u) ← uart_step u o; '(zs, u) ← uart_run u os; mret (z :: zs, u)
  end.

(** The specification: characters received and not yet read, characters sent
    and not yet fetched, the pending acknowledgement, and what each register
    holds. *)
Record queues := Queues { q_rx : list Z; q_tx : list Z; q_ack : bool; q_reg : ureg → Z }.
Definition queues_init : queues :=
  Queues [] [] false (λ r, match r with StatusReg => SR_TX_FIFO_EMPTY | _ => 0 end).

(** What the registers show: the first character waiting, and in the status
    whether there is one. *)
Definition shown (q : queues) (r : ureg) : Z :=
  match r, q_rx q with
  | RxReg, c :: _ => u32 c
  | StatusReg, _ :: _ => u32 (Z.lor (q_reg q StatusReg) SR_RX_FIFO_VALID_DATA)
  | StatusReg, [] => u32 (Z.land (q_reg q StatusReg) (Z.lnot SR_RX_FIFO_VALID_DATA))
  | r, _ => q_reg q r
  end.
Definition set_reg (f : ureg → Z) (r : ureg) (w : Z) : ureg → Z :=
  λ r', match r, r' with
        | RxReg, RxReg | TxReg, TxReg | StatusReg, StatusReg | ControlReg, ControlReg => u32 w
        | _, _ => f r'
        end.

(** A character is sent; the control register empties queues. *)
Definition send (w : Z) (q : queues) : queues := Queues (q_rx q) (q_tx q ++ [swrap 8 w]) (q_ack q) (q_reg q).
Definition clear_by (w : Z) (q : queues) : queues :=
  Queues (if Z.testbit w 1 then [] else q_rx q) (if Z.testbit w 0 then [] else q_tx q) (q_ack q) (q_reg q).

(** Writing the receive register also sends what the transmit register holds,
    and writing the status register also carries out the control register. *)
Definition spec_step (q : queues) (o : uop) : Z * queues :=
  let '(Queues r t a f) := q in
  match o with
  | Putc c => (0, Queues (r ++ [c]) t a f)
  | Getc => match t with
            | c :: t => (c, Queues r t (bool_decide (t = []) || a) f)
            | [] => (EOF, q)
            end
  | ExistTx => (Z.b2z (bool_decide (t ≠ [])), q)
  | Irq => (Z.b2z (bool_decide (r ≠ []) || a), q)
  | Read x => (shown q x, Queues (match x with RxReg => tail r | _ => r end) t false (shown q))
  | Write x w =>
      let q := Queues r t a (set_reg f x w) in
      (1, match x with
          | TxReg => send w q
          | RxReg => send (f TxReg) q
          | ControlReg => clear_by w q
          | StatusReg => clear_by (f ControlReg) q
          end)
  end.

Fixpoint spec_run (q : queues) (os : list uop) : list Z * queues :=
  match os with
  | [] => ([], q)
  | o :: os => let '(z, q) := spec_step q o in let '(zs, q) := spec_run q os in (z :: zs, q)
  end.

Record implements (u : uartlite) (q : queues) : Prop := {
  imp_rx : rx u = q_rx q;
  imp_tx : tx u = q_tx q;
  imp_ack : wait_ack u = q_ack q;
  imp_reg : ∀ r, reg u (offset r) = q_reg q r
}.

Lemma reg_store (m : bytes) r z : load (store m r 4 z) r 4 = z mod 2 ^ 32.
Proof. apply load_store. Qed.
Lemma reg_store_ne (m : bytes) r r' z : r' + 4 <= r ∨ r + 4 <= r' → load (store m r 4 z) r' 4 = load m r' 4.
Proof. intros. apply load_store_disjoint. lia. Qed.

(** Registers do not overlap. *)
Lemma load_set_reg (m : bytes) r w f :
  (∀ r, load m (offset r) 4 = f r) → ∀ r', load (store m (offset r) 4 w) (offset r') 4 = set_reg f r w r'.
Proof.
  intros H r'. destruct r, r'; cbn [set_reg]; rewrite <- ?H; first [apply reg_store|apply reg_store_ne];
    unfold offset, rx_fifo, tx_fifo, status, control; lia.
Qed.

(** The register file a read leaves. *)
Definition read_regs (u : uartlite) : bytes :=
  match rx u with
  | c :: _ => store (store (uregs u) status 4 (Z.lor (reg u status) SR_RX_FIFO_VALID_DATA)) rx_fifo 4 (u32 c)
  | [] => store (uregs u) status 4 (Z.land (reg u status) (Z.lnot SR_RX_FIFO_VALID_DATA))
  end.

Lemma read_regs_spec u q r : implements u q → load (read_regs u) (offset r) 4 = shown q r.
Proof.
  intros [Hr _ _ Hreg]. unfold read_regs, shown. change status with (offset StatusReg). rewrite <- Hr, !Hreg.
  destruct (rx u) as [|c l].
  - rewrite (load_set_reg _ _ _ _ Hreg). by destruct r.
  - change rx_fifo with (offset RxReg). rewrite (load_set_reg _ _ _ _ (load_set_reg _ _ _ _ Hreg)).
    destruct r; cbn [set_reg]; try done. apply wrap_wrap. lia.
Qed.

Lemma read_reg_spec u r :
  read_reg u (offset r) = mret (load (read_regs u) (offset r) 4,
    Uart (read_regs u) (match r with RxReg => tail (rx u) | _ => rx u end) (tx u) false).
Proof. by destruct r. Qed.

Lemma write_reg_eq u r w :
  write_reg u (offset r) w = mret (1,
    let regs := store (uregs u) (offset r) 4 w in
    let t := if touches (offset r) 4 tx_fifo then tx u ++ [swrap 8 (load regs tx_fifo 4)] else tx u in
    if touches (offset r) 4 control then
      Uart regs (if Z.testbit (load regs control 4) 1 then [] else rx u)
           (if Z.testbit (load regs control 4) 0 then [] else t) (wait_ack u)
    else Uart regs (rx u) t (wait_ack u)).
Proof.
  unfold write_reg, uartlite_do_write, zlen. rewrite length_le_split. cbv zeta. change (Z.of_nat 4) with 4.
  assert ((sizeof_regs <? u64 (offset r + 4)) = false) as -> by by destruct r.
  rewrite take_ge by (rewrite length_le_split; apply Nat.leb_le; by destruct r).
  unfold copy_in, zlen. rewrite length_le_split.
  assert (in_array sizeof_regs (offset r) (Z.of_nat 4) = true) as -> by by destruct r.
  rewrite io_bind_ret_l. unfold reg. cbn [uregs rx tx wait_ack].
  fold (store (uregs u) (offset r) 4 w).
  change ULITE_CONTROL_RST_RX with (2 ^ 1). change ULITE_CONTROL_RST_TX with (2 ^ 0).
  rewrite !truthy_land_bit by lia. by destruct (touches (offset r) 4 control); rewrite io_bind_ret_l.
Qed.

Lemma write_refines u q r w :
  implements u q →
  ∃ u', write_reg u (offset r) w = mret ((spec_step q (Write r w)).1, u') ∧ implements u' (spec_step q (Write r w)).2.
Proof.
  intros [Hr Ht Ha Hreg]. pose proof (load_set_reg _ r w _ Hreg) as Hset. rewrite write_reg_eq. cbv zeta.
  pose proof (Hset TxReg) as Htx. pose proof (Hset ControlReg) as Hctl. cbn [offset] in Htx, Hctl.
  rewrite Htx, Hctl. destruct q as [qr qt qa f]. cbn [q_rx q_tx q_ack q_reg] in *.
  assert (touches (offset r) 4 tx_fifo = match r with RxReg | TxReg => true | _ => false end) as -> by by destruct r.
  assert (touches (offset r) 4 control = match r with StatusReg | ControlReg => true | _ => false end) as -> by by destruct r.
  destruct r; cbv iota; (eexists; split; [reflexivity|]); split; try done;
    cbn [spec_step snd rx tx q_rx q_tx send clear_by set_reg]; rewrite ?Hr, ?Ht; unfold u32;
    by rewrite ?swrap_wrap_le, ?testbit_wrap by lia.
Qed.

Lemma uart_step_refines u q o :
  implements u q →
  ∃ u', uart_step u o = mret ((spec_step q o).1, u') ∧ implements u' (spec_step q o).2.
Proof.
  intros Hi. destruct o as [c| | | |r|r w]; cbn [uart_step]; [| | | | |by apply write_refines].
  1-4: destruct Hi as [Hr Ht Ha Hreg], q as [qr qt qa f]; cbn [q_rx q_tx q_ack q_reg] in *; cbn [spec_step fst snd].
  - eexists. split; [done|]. split; try done. cbn. by rewrite Hr.
  - unfold getc. rewrite Ht. destruct qt as [|c [|c' t]]; cbn [bool_decide]; eexists; (split; [done|]); by split.
  - unfold exist_tx. rewrite Ht. exists u. split; [by destruct qt|by split].
  - unfold irq. rewrite Hr, Ha. exists u. split; [by destruct qr|by split].
  - rewrite read_reg_spec. pose proof (λ r, read_regs_spec u q r Hi) as Hs.
    destruct Hi as [Hr Ht Ha Hreg], q as [qr qt qa f]. cbn [spec_step fst snd q_rx q_tx] in *.
    rewrite Hs. eexists. split; [done|]. split; try done. cbn. by rewrite Hr.
Qed.

(** ** Properties *)

(** C12. The serial port refines two character queues and four registers: for
    every sequence of operations of the host and of 32-bit reads and writes of
    any of the four registers from the initial state, every value returned, the
    final queues and the final registers are those of the specification.  In
    particular characters leave each direction in the order they entered it, and
    the status register shows whether one waits.  The specification says what the
    code does: a write of the receive register also sends what the transmit
    register holds, and a write of the status register also carries out the
    control register. *)
Theorem uartlite_refines_queues os :
  ∃ u, uart_run uartlite_init os = mret ((spec_run queues_init os).1, u) ∧
       implements u (spec_run queues_init os).2.
Proof.
  assert (implements uartlite_init queues_init) as Hi by (split; try done; by intros []).
  revert Hi. generalize uartlite_init, queues_init.
  induction os as [|o os IH]; intros u q Hi; cbn [uart_run spec_run]; [by exists u|].
  destruct (uart_step_refines u q o Hi) as (u1 & -> & H1). rewrite io_bind_ret_l.
  destruct (spec_step q o) as [z q1]. destruct (IH u1 q1 H1) as (u2 & -> & H2).
  rewrite io_bind_ret_l. destruct (spec_run q1 os) as [zs q2]. by exists u2.
Qed.

(** The windows of the side effects are one byte too long: a 32-bit write to
    the receive register also transmits the stale character of the transmit
    register, and one to the status register acts on the control register. *)
Theorem uartlite_write_spills c w :
  let u := Uart (store (store (uregs uartlite_init) tx_fifo 4 c) control 4 ULITE_CONTROL_RST_RX) [65] [] false in
  (∃ u', write_reg u rx_fifo w = mret (1, u') ∧ tx u' = [swrap 8 c]) ∧
  (∃ u', write_reg u status w = mret (1, u') ∧ rx u' = []).
Proof.
  intros u. split; (eexists; split; [first [exact (write_reg_eq u RxReg w)|exact (write_reg_eq u StatusReg w)]|]);
    cbv zeta; cbn [offset].
  - change (touches rx_fifo 4 tx_fifo) with true. change (touches rx_fifo 4 control) with false.
    cbv iota. cbn [tx uregs app u]. rewrite !reg_store_ne, reg_store by (unfold rx_fifo, tx_fifo, control; lia).
    fold (wrap 32 c). by rewrite swrap_wrap_le by lia.
  - change (touches status 4 control) with true. cbv iota. cbn [rx uregs u].
    by rewrite reg_store_ne, reg_store by (unfold status, control; lia).
Qed.

(** [load_binary] with a start address: a file longer than the space left is
    read up to the size of the whole memory and so runs past its end, whatever
    the (positive) start address; one that fits is copied in place. *)
Theorem load_binary_overrun d file start_addr :
  0 < start_addr < mem_size d → mem_size d < 2 ^ 64 →
  if mem_size d - start_addr <? zlen file
  then result (load_binary d (Some file) start_addr) = Fault OutOfBounds
  else load_binary d (Some file) start_addr = mret (Ram (store_bytes (mem d) start_addr file) (mem_size d)).
Proof.
  intros Hs Hm. unfold load_binary. cbn zeta. assert ((mem_size d <=? start_addr) = false) as -> by lia.
  cbn [orb default]. unfold id. case_if; bool_to_prop.
  - rewrite result_bind. cbn [result snd mbind io_bind emit mret io_ret].
    rewrite result_bind. unfold copy_in, in_array, zlen in *. rewrite length_take.
    destruct (start_addr + _ <=? mem_size d) eqn:El; [|by rewrite andb_false_r].
    apply Z.leb_le in El. lia.
  - rewrite io_bind_ret_l. unfold zlen in *. rewrite take_ge by lia. unfold copy_in, zlen.
    by rewrite in_array_true, io_bind_ret_l by lia.
Qed.

Lemma load_binary_overrun_witness :
  result (load_binary (Ram ∅ 4) (Some [1; 2; 3; 4]) 1) = Fault OutOfBounds ∧
  load_binary (Ram ∅ 4) (Some [1; 2; 3]) 1 = mret (Ram (store_bytes ∅ 1 [1; 2; 3]) 4).
Proof.
  split; [apply (load_binary_overrun (Ram ∅ 4) [1; 2; 3; 4] 1)|apply (load_binary_overrun (Ram ∅ 4) [1; 2; 3] 1)];
    cbn; lia.
Defined.
