(* ===== verification/Xbar.v ===== *)
(** * The address decoder
    [axi4_xbar.hpp]: a map from address ranges to devices, kept free of
    overlaps by [add_dev], and the dispatch of a read or write to the device
    whose range holds it.  The map stores pointers: the devices are in a heap,
    and one device may be mapped twice. *)
From stdpp Require Import base numbers list option sorting sets.
From S2P Require Import Prelude Axi4 Devices.

Local Open Scope Z_scope.

Notation range := (Z * Z)%type (only parsing).
Notation entry := (Z * Z * nat)%type (only parsing).

(** [std::map] over [std::pair]: sorted by the lexicographic order, one value
    per key. *)
Definition range_ltb (a b : range) : bool := (a.1 <? b.1) || ((a.1 =? b.1) && (a.2 <? b.2)).

(** [upper_bound] as a cut: the entries up to the key and those after it. *)
Fixpoint upper_bound (k : range) (l : list entry) : list entry * list entry :=
  match l with
  | [] => ([], [])
  | e :: l' =>
      if range_ltb k e.1 then ([], l)
      else let '(before, after) := upper_bound k l' in (e :: before, after)
  end.

(** [devices[k] = v] *)
Fixpoint map_assign (k : range) (v : nat) (l : list entry) : list entry :=
  match l with
  | [] => [(k, v)]
  | e :: l' =>
      if decide (k = e.1) then (k, v) :: l'
      else if range_ltb k e.1 then (k, v) :: l
      else e :: map_assign k v l'
  end.

Definition overlap (a b : range) : bool := Z.max a.1 b.1 <? Z.min a.2 b.2.

Record xbar (D : Type) := Xbar { devices : list entry; heap : list D }.
Arguments Xbar {D}.
Arguments devices {D}.
Arguments heap {D}.

Section xbar.
Context {D : Type} `{mmio_dev D}.

Definition add_dev (x : xbar D) (start_addr len : Z) (dev : nat) : io (bool * xbar D) :=
  let addr_range := (start_addr, u64 (start_addr + len)) in
  if len =? 0 then fail DivOverflow
  else if truthy (start_addr mod len) then mret (false, x)
  else
    let '(before, after) := upper_bound addr_range (devices x) in
    if match after with e :: _ => overlap e.1 addr_range | [] => false end then mret (false, x)
    else if match last before with Some e => overlap e.1 addr_range | None => false end
    then mret (false, x)
    else mret (true, Xbar (map_assign addr_range dev (devices x)) (heap x)).

(** The entry an access selects, and whether it holds the access. *)
Definition select (x : xbar D) (start_addr : Z) : option entry :=
  last (upper_bound (start_addr, ULONG_MAX) (devices x)).1.

Definition deref_dev (x : xbar D) (p : nat) : io D :=
  match heap x !! p with Some d => mret d | None => fail NullDeref end.

Definition xbar_do_read (x : xbar D) (start_addr size : Z) :
    io (axi_resp * option (list Z) * xbar D) :=
  match select x start_addr with
  | None => mret (RESP_DECERR, None, x)
  | Some ((lo, hi), p) =>
      let end_addr := u64 (start_addr + size) in
      if (lo <=? start_addr) && (end_addr <=? hi) then
        let dev_size := u64 (hi - lo) in
        if dev_size =? 0 then fail DivOverflow
        else
          d ← deref_dev x p;
          '(r, d) ← dev_read d (start_addr mod dev_size) size;
          mret (match r with Some _ => RESP_OKEY | None => RESP_SLVERR end, r,
                Xbar (devices x) (<[p := d]> (heap x)))
      else mret (RESP_DECERR, None, x)
  end.

Definition xbar_do_write (x : xbar D) (start_addr : Z) (buffer : list Z) : io (axi_resp * xbar D) :=
  match select x start_addr with
  | None => mret (RESP_DECERR, x)
  | Some ((lo, hi), p) =>
      let end_addr := u64 (start_addr + zlen buffer) in
      if (lo <=? start_addr) && (end_addr <=? hi) then
        let dev_size := u64 (hi - lo) in
        if dev_size =? 0 then fail DivOverflow
        else
          d ← deref_dev x p;
          '(r, d) ← dev_write d (start_addr mod dev_size) buffer;
          mret (if r : bool then RESP_OKEY else RESP_SLVERR, Xbar (devices x) (<[p := d]> (heap x)))
      else mret (RESP_DECERR, x)
  end.

#[global] Instance xbar_backend : axi_backend (xbar D) := {|
  do_read := xbar_do_read;
  do_write := xbar_do_write
|}.

(** ** The invariant *)

Definition before_range (a b : entry) : Prop := a.1.2 <= b.1.1.

(** A range that [add_dev] accepts and a pointer to a device. *)
Definition entry_ok (x : xbar D) (e : entry) : Prop :=
  0 <= e.1.1 < e.1.2 ∧ e.1.2 < 2 ^ 64 ∧ e.1.1 mod (e.1.2 - e.1.1) = 0 ∧ (e.2 < length (heap x))%nat.

Record xbar_ok (x : xbar D) : Prop := {
  xbar_sorted : StronglySorted before_range (devices x);
  xbar_entries : Forall (entry_ok x) (devices x)
}.

Lemma upper_bound_spec k l :
  let '(b, a) := upper_bound k l in
  l = b ++ a ∧ Forall (λ e, range_ltb k e.1 = false) b ∧
  match a with e :: _ => range_ltb k e.1 = true | [] => True end.
Proof.
  induction l as [|e l IH]; cbn [upper_bound]; [done|].
  destruct (range_ltb k e.1) eqn:E; [done|].
  destruct (upper_bound k l) as [b a]. destruct IH as (-> & Hb & Ha). split; [done|]. by split; [constructor|].
Qed.

Lemma map_assign_app k v b a :
  Forall (λ e, range_ltb k e.1 = false ∧ k ≠ e.1) b →
  match a with e :: _ => range_ltb k e.1 = true | [] => True end →
  map_assign k v (b ++ a) = b ++ (k, v) :: a.
Proof.
  intros Hb Ha. induction Hb as [|e b [He Hne] _ IH]; cbn [map_assign app].
  - destruct a as [|e a]; cbn; [done|]. rewrite Ha. rewrite decide_False; [done|].
    intros ->. unfold range_ltb in Ha. rewrite !Z.ltb_irrefl, andb_false_r in Ha. done.
  - by rewrite decide_False, He, IH by done.
Qed.

Lemma range_ltb_false k r : range_ltb k r = false → r.1 <= k.1.
Proof. unfold range_ltb. intros. bool_to_prop. lia. Qed.
Lemma range_ltb_true k r : range_ltb k r = true → k.1 <= r.1.
Proof. unfold range_ltb. rewrite orb_true_iff. intros [E|E]; bool_to_prop; lia. Qed.

(** In a sorted map, a range can only overlap the entries next to its place. *)
Definition hits (r : range) (o : option entry) : bool :=
  match o with Some e => overlap e.1 r | None => false end.

Lemma overlap_neighbours l r b a :
  StronglySorted before_range l → Forall (λ e : entry, e.1.1 < e.1.2) l → r.1 < r.2 →
  upper_bound r l = (b, a) → hits r (head a) = false → hits r (last b) = false →
  (∀ e, e ∈ b → e.1.2 <= r.1) ∧ (∀ e, e ∈ a → r.2 <= e.1.1).
Proof.
  intros Hs Hp Hr E Ha Hb. pose proof (upper_bound_spec r l) as Hu. rewrite E in Hu.
  destruct Hu as (-> & Fb & Fa). rewrite Forall_app, !Forall_forall in Hp. rewrite Forall_forall in Fb.
  destruct Hp as [Pb Pa]. apply StronglySorted_app in Hs as (Hba & Sb & Sa). split.
  - destruct (last b) as [x|] eqn:Ex; [|apply last_None in Ex as ->; by intros e ?%elem_of_nil].
    apply last_Some in Ex as [b' ->]. apply StronglySorted_app in Sb as (Hbx & _ & _).
    assert (x.1.2 <= r.1) as Hx.
    { assert (x ∈ b' ++ [x]) as Hin by set_solver. pose proof (Pb x Hin). specialize (Fb x Hin).
      apply range_ltb_false in Fb. cbn in Hb. unfold overlap in Hb. bool_to_prop. lia. }
    intros e [He|He]%elem_of_app; [|set_solver]. specialize (Hbx e x He ltac:(set_solver)).
    unfold before_range in Hbx. pose proof (Pb x ltac:(set_solver)). lia.
  - destruct a as [|x a]; [by intros e ?%elem_of_nil|]. apply range_ltb_true in Fa.
    assert (r.2 <= x.1.1) as Hx.
    { pose proof (Pa x ltac:(left)). cbn in Ha. unfold overlap in Ha. bool_to_prop. lia. }
    apply StronglySorted_inv in Sa as [_ Sx]. rewrite Forall_forall in Sx.
    intros e [->|He]%elem_of_cons; [done|]. specialize (Sx e He). unfold before_range in Sx.
    pose proof (Pa x ltac:(left)). lia.
Qed.

(** [add_dev] decides whether the range is free. *)
Definition free_range (x : xbar D) (r : range) : Prop := ∀ e, e ∈ devices x → overlap e.1 r = false.

Lemma free_range_hits x r b a :
  free_range x r → upper_bound r (devices x) = (b, a) → hits r (head a) = false ∧ hits r (last b) = false.
Proof.
  intros Hf E. pose proof (upper_bound_spec r (devices x)) as Hu. rewrite E in Hu.
  destruct Hu as (Hl & _ & _). unfold free_range in Hf. rewrite Hl in Hf. split.
  - destruct a as [|e a]; [done|]. apply Hf. set_solver.
  - destruct (last b) as [e|] eqn:Ee; [|done]. apply last_Some in Ee as [b' ->]. apply Hf. set_solver.
Qed.

Lemma add_dev_branches x start_addr len dev b a :
  len ≠ 0 → start_addr mod len = 0 →
  upper_bound (start_addr, u64 (start_addr + len)) (devices x) = (b, a) →
  let r := (start_addr, u64 (start_addr + len)) in
  add_dev x start_addr len dev =
    mret (if hits r (head a) || hits r (last b) then (false, x)
          else (true, Xbar (map_assign r dev (devices x)) (heap x))).
Proof.
  intros Hl Hal E r. unfold add_dev. fold r in E |- *. assert ((len =? 0) = false) as -> by lia.
  rewrite Hal, E. change (truthy 0) with false. cbv iota. unfold hits.
  destruct a as [|e a]; cbn [head]; [|destruct (overlap e.1 r); [done|]]; cbn [orb];
    (destruct (last b) as [e'|]; [destruct (overlap e'.1 r)|]); done.
Qed.

Lemma entry_pos x l : Forall (entry_ok x) l → Forall (λ e : entry, e.1.1 < e.1.2) l.
Proof. intros Hl. eapply Forall_impl; [exact Hl|]. unfold entry_ok. intros. cbn. lia. Qed.

Lemma map_assign_place l r dev b a :
  upper_bound r l = (b, a) → r.1 < r.2 → (∀ e, e ∈ b → e.1.2 <= r.1) →
  Forall (λ e : entry, e.1.1 < e.1.2) l →
  map_assign r dev l = b ++ (r, dev) :: a.
Proof.
  intros E Hr Hb Hp. pose proof (upper_bound_spec r l) as Hu. rewrite E in Hu.
  destruct Hu as (-> & Fb & Fa). apply map_assign_app; [|done].
  rewrite Forall_app, !Forall_forall in Hp. rewrite Forall_forall in Fb |- *. intros e He.
  split; [by apply Fb|]. intros ->. pose proof (Hb e He). destruct Hp as [Hp _]. pose proof (Hp e He). lia.
Qed.
End xbar.

(** ** Properties *)

Section xbar_props.
Context {D : Type} `{mmio_dev D}.
Implicit Types x : xbar D.

(** C7. [add_dev] keeps the map sorted and free of overlaps: an aligned range that
    overlaps no mapped one is added, any other is refused and changes
    nothing, although only the two neighbours of its place are looked at. *)
Theorem add_dev_spec x start_addr len dev :
  xbar_ok x → 0 <= start_addr → 0 < len → start_addr + len < 2 ^ 64 → (dev < length (heap x))%nat →
  let r := (start_addr, start_addr + len) in
  ∃ ok x', add_dev x start_addr len dev = mret (ok, x') ∧ xbar_ok x' ∧ heap x' = heap x ∧
    (ok = true ↔ start_addr mod len = 0 ∧ free_range x r) ∧
    devices x' ≡ₚ (if ok then (r, dev) :: devices x else devices x).
Proof.
  intros [Hs He] Ha Hl Hw Hd r. assert (u64 (start_addr + len) = start_addr + len) as Eu
    by (apply wrap_small; lia).
  destruct (decide (start_addr mod len = 0)) as [Hal|Hal].
  2:{ exists false, x. unfold add_dev. assert ((len =? 0) = false) as -> by lia.
      assert (truthy (start_addr mod len) = true) as -> by (unfold truthy; lia).
      repeat split; try done. by intros [??]. }
  destruct (upper_bound r (devices x)) as [b a] eqn:E.
  rewrite (add_dev_branches x start_addr len dev b a) by (lia || done || by rewrite Eu).
  rewrite Eu. fold r. destruct (hits r (head a) || hits r (last b)) eqn:Eh.
  { exists false, x. repeat split; try done. intros [_ Hf].
    destruct (free_range_hits x r b a Hf E) as [H1 H2]. by rewrite H1, H2 in Eh. }
  bool_to_prop. pose proof (entry_pos _ _ He) as Hp.
  destruct (overlap_neighbours (devices x) r b a) as [Fb Fa]; [done|done|cbn; lia|done..|].
  rewrite (map_assign_place _ r dev b a) by (done || cbn; lia).
  pose proof (upper_bound_spec r (devices x)) as Hu. rewrite E in Hu. destruct Hu as (Hlist & _ & _).
  eexists true, _. split; [done|]. rewrite Hlist in Hs, He |- *. split; [|split; [done|split]].
  - apply StronglySorted_app in Hs as (Hba & Sb & Sa). apply Forall_app in He as [Eb Ea]. split; cbn.
    + apply StronglySorted_app. split; [|split; [done|]].
      * intros e1 e2 Q1 [->|Q2]%elem_of_cons; [by apply Fb|by apply Hba].
      * constructor; [done|]. apply Forall_forall. intros e2 Q2. by apply Fa.
    + apply Forall_app. split; [done|]. constructor; [|done]. unfold entry_ok. cbn.
      replace (start_addr + len - start_addr) with len by lia. repeat split; done || lia.
  - split; [|done]. intros _. split; [done|]. intros e. rewrite Hlist, elem_of_app. unfold overlap.
    rewrite Z.ltb_ge. cbn. intros [Hin|Hin]; [pose proof (Fb e Hin)|pose proof (Fa e Hin)]; cbn in *; lia.
  - cbn. by rewrite <- Permutation_middle.
Qed.

Lemma select_spec x s e :
  xbar_ok x → e ∈ devices x → e.1.1 <= s < e.1.2 → select x s = Some e.
Proof.
  intros [Hs He] Hin Hr. unfold select.
  pose proof (upper_bound_spec (s, ULONG_MAX) (devices x)) as Hu.
  destruct (upper_bound (s, ULONG_MAX) (devices x)) as [b a]. destruct Hu as (Hl & Fb & Fa). cbn.
  rewrite Forall_forall in He. assert (∀ e, e ∈ devices x → range_ltb (s, ULONG_MAX) e.1 = true → s < e.1.1) as Hlt.
  { intros e' He'. pose proof (He e' He') as Hok. unfold entry_ok in Hok. unfold range_ltb, ULONG_MAX. cbn.
    rewrite orb_true_iff. intros [?|?]; bool_to_prop; lia. }
  rewrite Hl in Hs, Hin, Hlt. apply StronglySorted_app in Hs as (Hba & Sb & Sa).
  apply elem_of_app in Hin as [Hin|Hin].
  - destruct (last b) as [e'|] eqn:Ee; [|apply last_None in Ee as ->; by apply elem_of_nil in Hin].
    apply last_Some in Ee as [b' ->]. apply elem_of_app in Hin as [Hin|Hin]; [|set_solver].
    apply StronglySorted_app in Sb as (Hbx & _ & _). specialize (Hbx e e' Hin ltac:(set_solver)).
    rewrite Forall_forall in Fb. pose proof (range_ltb_false _ _ (Fb e' ltac:(set_solver))) as H1. cbn in H1.
    unfold before_range in Hbx. lia.
  - destruct a as [|a0 a]; [by apply elem_of_nil in Hin|]. pose proof (Hlt a0 ltac:(set_solver) Fa).
    apply elem_of_cons in Hin as [->|Hin]; [lia|]. apply StronglySorted_inv in Sa as [_ Sx].
    rewrite Forall_forall in Sx. specialize (Sx e Hin). unfold before_range in Sx.
    pose proof (He a0 ltac:(rewrite Hl; set_solver)) as Hok. unfold entry_ok in Hok. lia.
Qed.

Lemma select_sound x s e : select x s = Some e → e ∈ devices x.
Proof.
  unfold select. pose proof (upper_bound_spec (s, ULONG_MAX) (devices x)) as Hu.
  destruct (upper_bound _ _) as [b a]. destruct Hu as (-> & _ & _). cbn. intros [b' ->]%last_Some. set_solver.
Qed.

Lemma dev_offset lo hi s : lo mod (hi - lo) = 0 → lo <= s < hi → s mod (hi - lo) = s - lo.
Proof.
  intros Hm Hs. replace s with (lo + (s - lo)) at 1 by lia.
  rewrite <- Zplus_mod_idemp_l, Hm, Z.add_0_l, Z.mod_small; lia.
Qed.

(** What an access to [size] bytes at [s] finds. *)
Definition holds_access (e : entry) (s size : Z) : Prop := e.1.1 <= s ∧ s + size <= e.1.2.

Lemma select_holds x s size e :
  xbar_ok x → 0 < size → e ∈ devices x → holds_access e s size →
  select x s = Some e ∧ (∃ d, heap x !! e.2 = Some d) ∧
  (e.1.1 <=? s) && (u64 (s + size) <=? e.1.2) = true ∧
  u64 (e.1.2 - e.1.1) = e.1.2 - e.1.1 ∧ (e.1.2 - e.1.1 =? 0) = false ∧
  s mod (e.1.2 - e.1.1) = s - e.1.1.
Proof.
  intros Hx Hsz Hin [Hlo Hhi]. split; [apply select_spec; [done..|lia]|].
  destruct Hx as [_ He]. rewrite Forall_forall in He. destruct (He e Hin) as (Hp & Hw & Hm & Hd).
  split; [by apply lookup_lt_is_Some|]. unfold u64. rewrite !wrap_small by lia.
  split; [apply andb_true_iff; by rewrite !Z.leb_le|]. split; [done|].
  split; [lia|]. apply dev_offset; [done|lia].
Qed.

Lemma select_misses x s size e :
  xbar_ok x → 0 <= s → s + size < 2 ^ 64 → 0 < size →
  select x s = Some e → ¬ holds_access e s size →
  (e.1.1 <=? s) && (u64 (s + size) <=? e.1.2) = false.
Proof.
  intros Hx Hs Hw Hsz He Hn. unfold u64. rewrite wrap_small by lia. apply not_true_iff_false.
  rewrite andb_true_iff, !Z.leb_le. done.
Qed.

(** C25. A read reaches the device whose range holds it, at its offset in the range;
    the response tells whether the device accepted it.  A read that no range
    holds is answered by a decode error and changes nothing. *)
Theorem xbar_read_routes x s size :
  xbar_ok x → 0 <= s → 0 < size → s + size < 2 ^ 64 →
  (∀ lo hi p, ((lo, hi), p) ∈ devices x → lo <= s → s + size <= hi →
     ∃ d, heap x !! p = Some d ∧
       do_read x s size =
         ('(r, d') ← dev_read d (s - lo) size;
          mret (match r with Some _ => RESP_OKEY | None => RESP_SLVERR end, r,
                Xbar (devices x) (<[p := d']> (heap x))))) ∧
  ((∀ e, e ∈ devices x → ¬ holds_access e s size) →
     do_read x s size = mret (RESP_DECERR, None, x)).
Proof.
  intros Hx Hs Hsz Hw. split.
  - intros lo hi p Hin Hlo Hhi.
    destruct (select_holds x s size (lo, hi, p) Hx Hsz Hin) as (Es & (d & Hd) & Eb & Eu & Ez & Em); [done|].
    exists d. split; [done|]. cbn in *. unfold xbar_do_read. rewrite Es. cbv zeta.
    rewrite Eb, Eu, Ez, Em. unfold deref_dev. by rewrite Hd, io_bind_ret_l.
  - intros Hn. cbn. unfold xbar_do_read. destruct (select x s) as [[[lo hi] p]|] eqn:E; [|done].
    pose proof (select_misses x s size (lo, hi, p) Hx Hs Hw Hsz E) as Hm. cbn in Hm. cbv zeta.
    rewrite Hm; [done|]. apply Hn. by eapply select_sound.
Qed.

(** The same for writes. *)
Theorem xbar_write_routes x s buffer :
  xbar_ok x → 0 <= s → 0 < zlen buffer → s + zlen buffer < 2 ^ 64 →
  (∀ lo hi p, ((lo, hi), p) ∈ devices x → lo <= s → s + zlen buffer <= hi →
     ∃ d, heap x !! p = Some d ∧
       do_write x s buffer =
         ('(r, d') ← dev_write d (s - lo) buffer;
          mret (if r : bool then RESP_OKEY else RESP_SLVERR, Xbar (devices x) (<[p := d']> (heap x))))) ∧
  ((∀ e, e ∈ devices x → ¬ holds_access e s (zlen buffer)) →
     do_write x s buffer = mret (RESP_DECERR, x)).
Proof.
  intros Hx Hs Hsz Hw. split.
  - intros lo hi p Hin Hlo Hhi.
    destruct (select_holds x s (zlen buffer) (lo, hi, p) Hx Hsz Hin) as (Es & (d & Hd) & Eb & Eu & Ez & Em); [done|].
    exists d. split; [done|]. cbn in *. unfold xbar_do_write. rewrite Es. cbv zeta.
    rewrite Eb, Eu, Ez, Em. unfold deref_dev. by rewrite Hd, io_bind_ret_l.
  - intros Hn. cbn. unfold xbar_do_write. destruct (select x s) as [[[lo hi] p]|] eqn:E; [|done].
    pose proof (select_misses x s (zlen buffer) (lo, hi, p) Hx Hs Hw Hsz E) as Hm. cbn in Hm. cbv zeta.
    rewrite Hm; [done|]. apply Hn. by eapply select_sound.
Qed.
End xbar_props.

(** ** Witnesses *)

(** A RAM at 0x80000000 and a serial port at 0xa0000000. *)
Definition soc : xbar (ram + uartlite) :=
  Xbar [((0x80000000, 0x80001000), 0%nat); ((0xa0000000, 0xa0000010), 1%nat)]
       [inl (mmio_mem ∅ 4096); inr uartlite_init].

Lemma soc_ok : xbar_ok soc.
Proof.
  split; cbn.
  - repeat constructor. unfold before_range. cbn. lia.
  - repeat constructor; cbn; lia.
Qed.

Lemma add_dev_spec_witness :
  ∃ ok x', add_dev soc 0x90000000 0x1000 0 = mret (ok, x') ∧ xbar_ok x'.
Proof.
  destruct (add_dev_spec soc 0x90000000 0x1000 0 soc_ok) as (ok & x' & E & Hx & _); [lia..|cbn; lia|].
  exists ok, x'. split; [exact E|exact Hx].
Defined.

Lemma xbar_read_routes_witness :
  do_read soc 0x90000000 4 = mret (RESP_DECERR, None, soc) ∧
  ∃ d, heap soc !! 1%nat = Some d ∧
    do_read soc 0xa0000008 4 =
      ('(r, d') ← dev_read d (0xa0000008 - 0xa0000000) 4;
       mret (match r with Some _ => RESP_OKEY | None => RESP_SLVERR end, r,
             Xbar (devices soc) (<[1%nat := d']> (heap soc)))).
Proof.
  split.
  - apply (xbar_read_routes soc 0x90000000 4 soc_ok); [lia..|].
    unfold holds_access. intros e. cbn. rewrite !elem_of_cons, elem_of_nil.
    intros [->|[->|[]]]; cbn; lia.
  - apply (xbar_read_routes soc 0xa0000008 4 soc_ok) with (hi := 0xa0000010); [lia..| |lia|lia].
    cbn. right. left.
Defined.

Lemma xbar_write_routes_witness :
  ∃ d, heap soc !! 1%nat = Some d ∧
    do_write soc 0xa0000004 [65; 0; 0; 0] =
      ('(r, d') ← dev_write d (0xa0000004 - 0xa0000000) [65; 0; 0; 0];
       mret (if r : bool then RESP_OKEY else RESP_SLVERR, Xbar (devices soc) (<[1%nat := d']> (heap soc)))).
Proof.
  apply (xbar_write_routes soc 0xa0000004 [65; 0; 0; 0] soc_ok) with (hi := 0xa0000010);
    [unfold zlen; cbn; lia..| |lia|unfold zlen; cbn; lia].
  cbn. right. left.
Defined.
