(* ===== verification/AxiSlave.v ===== *)
(** * The AXI4 slave
    [axi4_slave.hpp], with its default parameters (64-bit addresses and data,
    4-bit identifiers): the read and the write channel as state machines that
    [beat] advances once per cycle over the signals of [Axi4].  The virtual
    functions [do_read] and [do_write] are those of class [axi_backend]; the
    theorems on bursts need of them only the laws of [axi_memory]. *)
From stdpp Require Import base numbers list option gmap.
From S2P Require Import Prelude Bytes Axi4 Devices.

Local Open Scope Z_scope.

Definition D_bytes : Z := 8.

(** ** State *)

Record rstate := RState {
  read_busy : bool;
  read_last : bool;
  read_wait : bool;
  r_start_addr : Z;
  r_current_addr : Z;
  r_arid : Z;
  r_burst_type : axi_burst_type;
  r_each_len : Z;
  r_nr_trans : Z;
  r_cur_trans : Z;
  r_tot_len : Z;
  r_early_err : bool;
  r_resp : axi_resp;
  r_data : bytes
}.

Record wstate := WState {
  write_busy : bool;
  b_busy : bool;
  w_start_addr : Z;
  w_current_addr : Z;
  w_awid : Z;
  w_burst_type : axi_burst_type;
  w_each_len : Z;
  w_nr_trans : Z;
  w_cur_trans : Z;
  w_tot_len : Z;
  w_early_err : bool;
  w_resp : axi_resp
}.

(** Setters of the parts that change together. *)
Definition set_phase (r : rstate) (busy last wait : bool) : rstate :=
  RState busy last wait (r_start_addr r) (r_current_addr r) (r_arid r) (r_burst_type r) (r_each_len r)
    (r_nr_trans r) (r_cur_trans r) (r_tot_len r) (r_early_err r) (r_resp r) (r_data r).
Definition set_cur (r : rstate) (cur : Z) (addr : Z) : rstate :=
  RState (read_busy r) (read_last r) (read_wait r) (r_start_addr r) addr (r_arid r) (r_burst_type r)
    (r_each_len r) (r_nr_trans r) cur (r_tot_len r) (r_early_err r) (r_resp r) (r_data r).
Definition set_data (r : rstate) (resp : axi_resp) (data : bytes) : rstate :=
  RState (read_busy r) (read_last r) (read_wait r) (r_start_addr r) (r_current_addr r) (r_arid r)
    (r_burst_type r) (r_each_len r) (r_nr_trans r) (r_cur_trans r) (r_tot_len r) (r_early_err r) resp data.

Definition set_r (p : axi4) (id data resp last valid : Z) : axi4 :=
  Signals (awid p) (awaddr p) (awlen p) (awsize p) (awburst p) (awvalid p) (awready p)
    (wdata p) (wstrb p) (wlast p) (wvalid p) (wready p) (bid p) (bresp p) (bvalid p) (bready p)
    (arid p) (araddr p) (arlen p) (arsize p) (arburst p) (arvalid p) (arready p)
    id data resp last valid (rready p).
Definition set_arready (p : axi4) (v : Z) : axi4 :=
  Signals (awid p) (awaddr p) (awlen p) (awsize p) (awburst p) (awvalid p) (awready p)
    (wdata p) (wstrb p) (wlast p) (wvalid p) (wready p) (bid p) (bresp p) (bvalid p) (bready p)
    (arid p) (araddr p) (arlen p) (arsize p) (arburst p) (arvalid p) v
    (rid p) (rdata p) (rresp p) (rlast p) (rvalid p) (rready p).
Definition set_b (p : axi4) (id resp : Z) : axi4 :=
  Signals (awid p) (awaddr p) (awlen p) (awsize p) (awburst p) (awvalid p) (awready p)
    (wdata p) (wstrb p) (wlast p) (wvalid p) (wready p) id resp (bvalid p) (bready p)
    (arid p) (araddr p) (arlen p) (arsize p) (arburst p) (arvalid p) (arready p)
    (rid p) (rdata p) (rresp p) (rlast p) (rvalid p) (rready p).
Definition set_wready (p : axi4) (bv awr wr : Z) : axi4 :=
  Signals (awid p) (awaddr p) (awlen p) (awsize p) (awburst p) (awvalid p) awr
    (wdata p) (wstrb p) (wlast p) (wvalid p) wr (bid p) (bresp p) bv (bready p)
    (arid p) (araddr p) (arlen p) (arsize p) (arburst p) (arvalid p) (arready p)
    (rid p) (rdata p) (rresp p) (rlast p) (rvalid p) (rready p).

(** ** Address checks *)

(** [n != 2 || n != 4 || n != 8 || n != 16] *)
Definition bad_wrap_len (n : Z) : bool :=
  negb (n =? 2) || negb (n =? 4) || negb (n =? 8) || negb (n =? 16).

Definition read_check (r : rstate) : bool :=
  if bool_decide (r_burst_type r = BURST_RESERVED) then false
  else if bool_decide (r_burst_type r = BURST_WRAP) && truthy (r_current_addr r mod r_each_len r) then false
  else if bool_decide (r_burst_type r = BURST_WRAP) && bad_wrap_len (r_nr_trans r) then false
  else
    let rem_addr := 4096 - r_start_addr r mod 4096 in
    if rem_addr <? r_tot_len r then false
    else if D_bytes <? r_each_len r then false
    else true.

Definition write_check (w : wstate) : bool :=
  if bool_decide (w_burst_type w = BURST_RESERVED) || bool_decide (w_burst_type w = BURST_FIXED) then false
  else if bool_decide (w_burst_type w = BURST_WRAP) && truthy (w_current_addr w mod w_each_len w) then false
  else if bool_decide (w_burst_type w = BURST_WRAP) && bad_wrap_len (w_nr_trans w) then false
  else
    let rem_addr := 4096 - w_start_addr w mod 4096 in
    if rem_addr <? w_tot_len w then false
    else if D_bytes <? w_each_len w then false
    else true.

(** [strb_to_range]: the inner loop that ends a run of strobes at [r], and the
    outer loop; both advance towards [ed_pos], which bounds the fuel. *)
Definition strobe (wstrb i : Z) : bool := truthy (Z.land (Z.shiftr wstrb i) 1).

Fixpoint run_end (fuel : nat) (wstrb r ed_pos : Z) : Z :=
  match fuel with
  | O => r
  | S fuel => if strobe wstrb r && (r <? ed_pos) then run_end fuel wstrb (r + 1) ed_pos else r
  end.

Fixpoint strb_loop (fuel : nat) (wstrb l ed_pos : Z) : list (Z * Z) :=
  match fuel with
  | O => []
  | S fuel =>
      if l <? ed_pos then
        if strobe wstrb l then
          let r := run_end (Z.to_nat (ed_pos - l)) wstrb l ed_pos in
          (l, r - l) :: strb_loop fuel wstrb (r + 1) ed_pos
        else strb_loop fuel wstrb (l + 1) ed_pos
      else []
  end.

Definition strb_to_range (wstrb st_pos ed_pos : Z) : list (Z * Z) :=
  strb_loop (Z.to_nat (ed_pos - st_pos)) wstrb st_pos ed_pos.

Section slave.
Context {B : Type} `{axi_backend B}.

Record slave := Slave { rs : rstate; ws : wstate; dev : B }.

(** ** The read channel *)

(** [do_read(start, tot_len, &r_data[start % 4096])] *)
Definition fetch (r : rstate) (d : B) : io (axi_resp * bytes * B) :=
  '(resp, buffer, d) ← do_read d (r_start_addr r) (r_tot_len r);
  match buffer with
  | Some l => data ← copy_in (r_data r) 4096 (r_start_addr r mod 4096) l; mret (resp, data, d)
  | None => mret (resp, r_data r, d)
  end.

(** The 64-bit word at an index of [r_data]. *)
Definition word_at (data : bytes) (i : Z) : io Z :=
  if in_array 4096 i D_bytes then mret (load data i 8) else fail OutOfBounds.

Definition read_beat (r : rstate) (d : B) (p : axi4) : io (rstate * B * axi4) :=
  let update := truthy (rready p) || (r_cur_trans r =? 0) in
  let r := if update then
             let cur := u32 (r_cur_trans r + 1) in
             let r := set_cur r cur (r_current_addr r) in
             if cur =? r_nr_trans r then set_phase r false true (read_wait r) else r
           else r in
  let p := set_r p (r_arid r) (rdata p) (rresp p) (Z.b2z (read_last r)) 1 in
  if update then
    if r_early_err r then
      mret (r, d, set_r p (rid p) 0 (resp_code RESP_DECERR) (rlast p) (rvalid p))
    else if bool_decide (r_burst_type r = BURST_FIXED) then
      '(resp, data, d) ← fetch r d;
      let r := set_data r (r_resp r) data in
      w ← word_at data (r_start_addr r mod 4096 - r_start_addr r mod D_bytes);
      mret (r, d, set_r p (rid p) w (resp_code resp) (rlast p) (rvalid p))
    else
      w ← word_at (r_data r) (r_current_addr r - r_current_addr r mod D_bytes);
      let p := set_r p (rid p) w (resp_code (r_resp r)) (rlast p) (rvalid p) in
      let addr := u64 (r_current_addr r + (r_each_len r - r_current_addr r mod r_each_len r)) in
      let addr := if bool_decide (r_burst_type r = BURST_WRAP) &&
                     (addr =? r_start_addr r mod 4096 + u32 (r_each_len r * r_nr_trans r))
                  then r_start_addr r mod 4096 else addr in
      mret (set_cur r (r_cur_trans r) addr, d, p)
  else mret (r, d, p).

(** [memset(&r_data[a - a % D_bytes], 0, D_bytes)] for an unaligned [a]. *)
Definition clear_word (data : bytes) (a : Z) : bytes :=
  if truthy (a mod D_bytes) then
    let clear_addr := a mod 4096 in
    store_bytes data (clear_addr - clear_addr mod D_bytes) (replicate 8 0)
  else data.

(** The fields [read_init] computes from the address channel. *)
Definition read_latch (r : rstate) (p : axi4) : rstate :=
  let burst := burst_of (arburst p) in
  let each := u32 (Z.shiftl 1 (arsize p)) in
  let nr := u32 (arlen p + 1) in
  let wrapping : bool := bool_decide (burst = BURST_WRAP) in
  let cur := if wrapping then araddr p mod 4096 else u64 (araddr p mod 4096 - araddr p mod each) in
  let start := if wrapping then araddr p - araddr p mod u32 (each * nr) else araddr p in
  let tot := u32 ((if bool_decide (burst = BURST_FIXED) then each else u32 (each * nr)) - start mod each) in
  RState (read_busy r) (read_last r) (read_wait r) start cur (arid p) burst each nr 0 tot
    (r_early_err r) (r_resp r) (r_data r).

Definition read_init (r : rstate) (d : B) (p : axi4) : io (rstate * B) :=
  let r := read_latch r p in
  if read_check r then
    let data := clear_word (clear_word (r_data r) (r_start_addr r)) (u64 (r_start_addr r + r_tot_len r)) in
    let r := RState (read_busy r) (read_last r) (read_wait r) (r_start_addr r) (r_current_addr r)
               (r_arid r) (r_burst_type r) (r_each_len r) (r_nr_trans r) (r_cur_trans r) (r_tot_len r)
               false (r_resp r) data in
    if bool_decide (r_burst_type r = BURST_FIXED) then mret (r, d)
    else '(resp, data, d) ← fetch r d; mret (set_data r resp data, d)
  else fail AssertFail.

Definition read_channel (r : rstate) (d : B) (p : axi4) : io (rstate * B * axi4) :=
  let '(r, p) :=
    if read_last r && truthy (rvalid p) then
      (if read_wait r then set_phase r true false false else set_phase r (read_busy r) false (read_wait r),
       set_r p (rid p) (rdata p) (rresp p) 0 0)
    else (r, p) in
  '(r, d) ← (if truthy (arready p) && truthy (arvalid p) then
               '(r, d) ← read_init r d p;
               mret (if read_last r then set_phase r (read_busy r) (read_last r) true
                     else set_phase r true (read_last r) (read_wait r), d)
             else mret (r, d));
  '(r, d, p) ← (if read_busy r then read_beat r d p else mret (r, d, p));
  mret (r, d, set_arready p (Z.b2z (negb (read_busy r) && negb (read_wait r)))).

(** ** The write channel *)

Definition write_latch (w : wstate) (p : axi4) : wstate :=
  let burst := burst_of (awburst p) in
  let each := u32 (Z.shiftl 1 (awsize p)) in
  let nr := awlen p + 1 in
  let wrapping : bool := bool_decide (burst = BURST_WRAP) in
  let cur := if wrapping then awaddr p else awaddr p - awaddr p mod each in
  let start := if wrapping then awaddr p - awaddr p mod u32 (each * nr) else awaddr p in
  let tot := u32 (u32 (each * nr) - start mod each) in
  WState (write_busy w) (b_busy w) start cur (awid p) burst each nr 0 tot (w_early_err w) (w_resp w).

Definition write_init (w : wstate) (p : axi4) : io wstate :=
  let w := write_latch w p in
  if write_check w then
    mret (WState (write_busy w) (b_busy w) (w_start_addr w) (w_current_addr w) (w_awid w) (w_burst_type w)
            (w_each_len w) (w_nr_trans w) (w_cur_trans w) (w_tot_len w) false RESP_OKEY)
  else fail AssertFail.

(** The loop over the runs of strobes; [w_buffer] holds the bytes of [wdata]. *)
Fixpoint write_ranges (d : B) (resp : axi_resp) (addr_base in_data_pos wdata : Z) (range : list (Z * Z)) :
    io (axi_resp * B) :=
  match range with
  | [] => mret (resp, d)
  | (addr, len) :: range =>
      if in_array 8 in_data_pos len then
        let buffer := take (Z.to_nat len) (drop (Z.to_nat in_data_pos) (le_split 8 wdata)) in
        '(resp', d) ← do_write d (u64 (addr_base + addr)) buffer;
        write_ranges d (resp_of (Z.lor (resp_code resp) (resp_code resp'))) addr_base in_data_pos wdata range
      else fail OutOfBounds
  end.

Definition write_beat (w : wstate) (d : B) (p : axi4) : io (wstate * B) :=
  if truthy (wvalid p) && truthy (wready p) then
    cur ← as_int (w_cur_trans w + 1);
    let last := cur =? w_nr_trans w in
    if last && negb (truthy (wlast p)) then fail AssertFail
    else
      let busy := if last then false else write_busy w in
      let bb := if last then true else b_busy w in
      if w_early_err w then
        mret (WState busy bb (w_start_addr w) (w_current_addr w) (w_awid w) (w_burst_type w) (w_each_len w)
                (w_nr_trans w) cur (w_tot_len w) (w_early_err w) (w_resp w), d)
      else
        let addr_base := w_current_addr w in
        let next := u64 (addr_base + (w_each_len w - addr_base mod w_each_len w)) in
        let cur := if next =? u64 (w_start_addr w + u32 (w_each_len w * w_nr_trans w))
                   then s32 (w_start_addr w) else cur in
        let in_data_pos := addr_base mod D_bytes in
        let addr_base := addr_base - addr_base mod D_bytes in
        let rem_data_pos := w_each_len w - in_data_pos mod w_each_len w in
        let range := strb_to_range (wstrb p) in_data_pos (in_data_pos + rem_data_pos) in
        '(resp, d) ← write_ranges d (w_resp w) addr_base in_data_pos (wdata p) range;
        mret (WState busy bb (w_start_addr w) next (w_awid w) (w_burst_type w) (w_each_len w)
                (w_nr_trans w) cur (w_tot_len w) (w_early_err w) resp, d)
  else mret (w, d).

Definition b_beat (w : wstate) (p : axi4) : wstate * axi4 :=
  (if truthy (bvalid p) && truthy (bready p) then
     WState (write_busy w) false (w_start_addr w) (w_current_addr w) (w_awid w) (w_burst_type w)
       (w_each_len w) (w_nr_trans w) (w_cur_trans w) (w_tot_len w) (w_early_err w) (w_resp w)
   else w,
   set_b p (w_awid w) (resp_code (if w_early_err w then RESP_DECERR else w_resp w))).

Definition write_channel (w : wstate) (d : B) (p : axi4) : io (wstate * B * axi4) :=
  w ← (if truthy (awready p) && truthy (awvalid p) then
         w ← write_init w p;
         mret (WState true (b_busy w) (w_start_addr w) (w_current_addr w) (w_awid w) (w_burst_type w)
                 (w_each_len w) (w_nr_trans w) (w_cur_trans w) (w_tot_len w) (w_early_err w) (w_resp w))
       else mret w);
  '(w, d) ← (if write_busy w then write_beat w d p else mret (w, d));
  let '(w, p) := if b_busy w then b_beat w p else (w, p) in
  mret (w, d, set_wready p (Z.b2z (b_busy w)) (Z.b2z (negb (write_busy w) && negb (b_busy w)))
                (Z.b2z (negb (b_busy w)))).

Definition beat (s : slave) (p : axi4) : io (slave * axi4) :=
  '(r, d, p) ← read_channel (rs s) (dev s) p;
  '(w, d, p) ← write_channel (ws s) d p;
  mret (Slave r w d, p).

(** The member initialisers ([read_busy] and the like; the rest is read only
    after a transaction has set it). *)
Definition rstate_init : rstate := RState false false false 0 0 0 BURST_FIXED 0 0 0 0 false RESP_OKEY ∅.
Definition wstate_init : wstate := WState false false 0 0 0 BURST_FIXED 0 0 0 0 false RESP_OKEY.
End slave.
Arguments slave : clear implicits.
Arguments Slave {B}.

(** ** Strobes *)

Lemma strobe_testbit wstrb i : 0 <= i → strobe wstrb i = Z.testbit wstrb i.
Proof.
  intros Hi. unfold strobe. change 1 with (2 ^ 0) at 1. rewrite truthy_land_bit, Z.shiftr_spec by lia.
  done.
Qed.

Lemma run_end_spec fuel wstrb r ed :
  r <= ed → ed - r <= Z.of_nat fuel →
  let r' := run_end fuel wstrb r ed in
  r <= r' <= ed ∧ (∀ i, r <= i < r' → strobe wstrb i = true) ∧ (r' = ed ∨ strobe wstrb r' = false).
Proof.
  revert r. induction fuel as [|fuel IH]; intros r Hr Hf; cbn [run_end]; cbv zeta.
  { split; [lia|]. split; [lia|]. left. lia. }
  destruct (strobe wstrb r) eqn:Es; cbn [andb].
  2:{ split; [lia|]. split; [lia|]. by right. }
  case_if; bool_to_prop.
  - destruct (IH (r + 1)) as (Hb & Hall & He); [lia..|]. split; [lia|]. split; [|done].
    intros i Hi. destruct (decide (i = r)) as [->|]; [done|]. apply Hall. lia.
  - split; [lia|]. split; [lia|]. left. lia.
Qed.

(** Positions a list of runs holds. *)
Definition in_runs (l : list (Z * Z)) (i : Z) : Prop := ∃ s n, (s, n) ∈ l ∧ s <= i < s + n.

Lemma in_runs_cons s n l i : in_runs ((s, n) :: l) i ↔ s <= i < s + n ∨ in_runs l i.
Proof.
  unfold in_runs. split.
  - intros (s' & n' & Hin & Hi). apply elem_of_cons in Hin as [E|Hin]; [left; by simplify_eq|right; eauto].
  - intros [Hi|(s' & n' & Hin & Hi)]; [exists s, n; split; [left|done]|exists s', n'; split; [by right|done]].
Qed.

(** Runs from [l] on that are not empty, apart from each other and end by [ed]. *)
Fixpoint apart (l : Z) (rs : list (Z * Z)) (ed : Z) : Prop :=
  match rs with
  | [] => True
  | (s, n) :: rs => l <= s ∧ 0 < n ∧ s + n <= ed ∧ apart (s + n + 1) rs ed
  end.

Lemma apart_weaken l l' rs ed : l <= l' → apart l' rs ed → apart l rs ed.
Proof. destruct rs as [|[s n] rs]; cbn; [done|]. intros ? (?&?&?&?). repeat split; done || lia. Qed.

Lemma apart_low l rs ed i : apart l rs ed → in_runs rs i → l <= i.
Proof.
  revert l. induction rs as [|[s n] rs IH]; intros l; cbn [apart].
  - intros _ (s & n & Hin & _). by apply elem_of_nil in Hin.
  - intros (Hs & Hn & He & Ha). rewrite in_runs_cons. intros [Hi|Hi]; [lia|].
    pose proof (IH _ Ha Hi). lia.
Qed.

Lemma strb_loop_spec fuel wstrb l ed :
  ed - l <= Z.of_nat fuel →
  apart l (strb_loop fuel wstrb l ed) ed ∧
  ∀ i, in_runs (strb_loop fuel wstrb l ed) i ↔ l <= i < ed ∧ strobe wstrb i = true.
Proof.
  revert l. induction fuel as [|fuel IH]; intros l Hf; cbn [strb_loop].
  { split; [done|]. intros i. split; [|lia]. intros (s & n & Hin & _). by apply elem_of_nil in Hin. }
  case_if; bool_to_prop.
  2:{ split; [done|]. intros i. split; [|lia]. intros (s & n & Hin & _). by apply elem_of_nil in Hin. }
  destruct (strobe wstrb l) eqn:Es.
  - destruct (run_end_spec (Z.to_nat (ed - l)) wstrb l ed) as (Hb & Hall & He); [lia..|].
    set (r := run_end (Z.to_nat (ed - l)) wstrb l ed) in *. cbv zeta.
    assert (l < r) as Hlr. { destruct He as [->|He]; [lia|]. destruct (decide (r = l)); [congruence|lia]. }
    destruct (IH (r + 1)) as [Ha Hi]; [lia|]. split.
    + cbn. repeat split; try lia. replace (l + (r - l) + 1) with (r + 1) by lia. done.
    + intros i. rewrite in_runs_cons, Hi. split.
      * intros [?|[? ?]]; [split; [lia|apply Hall; lia]|split; [lia|done]].
      * intros [Hr Hs]. destruct (decide (i < r)); [left; lia|right]. split; [|done].
        destruct He as [->|He]; [lia|]. destruct (decide (i = r)); [congruence|lia].
  - destruct (IH (l + 1)) as [Ha Hi]; [lia|]. split; [by eapply apart_weaken; [|exact Ha]; lia|].
    intros i. rewrite Hi. split; [intros [? ?]; split; [lia|done]|]. intros [Hr Hs]. split; [|done].
    destruct (decide (i = l)); [congruence|lia].
Qed.

(** [strb_to_range] splits the strobes between two positions into maximal runs:
    the runs are not empty, in ascending order with a gap between them, inside
    the bounds, and together hold exactly the strobes that are set. *)
Theorem strb_to_range_exact wstrb st_pos ed_pos :
  0 <= st_pos →
  let l := strb_to_range wstrb st_pos ed_pos in
  apart st_pos l ed_pos ∧
  ∀ i, in_runs l i ↔ st_pos <= i < ed_pos ∧ Z.testbit wstrb i = true.
Proof.
  intros Hst. destruct (strb_loop_spec (Z.to_nat (ed_pos - st_pos)) wstrb st_pos ed_pos) as [Ha Hi]; [lia|].
  split; [done|]. intros i. unfold strb_to_range. rewrite Hi.
  split; intros [? Hs]; (split; [done|]); by rewrite strobe_testbit in * by lia.
Qed.

Lemma strb_to_range_exact_witness :
  apart 0 [(0, 2); (4, 1)] 8 ∧ (in_runs [(0, 2); (4, 1)] 4 ↔ 0 <= 4 < 8 ∧ Z.testbit 0x13 4 = true).
Proof.
  change [(0, 2); (4, 1)] with (strb_to_range 0x13 0 8).
  destruct (strb_to_range_exact 0x13 0 8) as [Ha Hi]; [lia|]. split; [exact Ha|apply Hi].
Defined.

(** All strobes of a window set: one run. *)
Lemma strb_to_range_full wstrb st len :
  0 <= st → 0 < len → (∀ i, st <= i < st + len → Z.testbit wstrb i = true) →
  strb_to_range wstrb st (st + len) = [(st, len)].
Proof.
  intros Hst Hl Hall. unfold strb_to_range. replace (st + len - st) with len by lia.
  destruct (Z.to_nat len) as [|fuel] eqn:Ef; [lia|]. cbn [strb_loop].
  zif_true. rewrite strobe_testbit, Hall by lia. cbv zeta.
  destruct (run_end_spec (Z.to_nat (st + len - st)) wstrb st (st + len)) as (Hb & _ & He); [lia..|].
  set (r := run_end _ _ _ _) in *. assert (r = st + len) as ->.
  { destruct He as [?|He]; [done|]. destruct (decide (r = st + len)); [done|].
    rewrite strobe_testbit, Hall in He by lia. done. }
  replace (st + len - st) with len by lia. f_equal. destruct fuel; cbn [strb_loop]; [done|]. by zif_false.
Qed.
