(* ===== verification/AxiBurst.v ===== *)
(** * Bursts
    The slave of [AxiSlave] under a master that drives one incrementing burst
    and accepts every beat: what each beat of a read burst carries, what a
    write burst leaves in the memory, and that reading back what was written
    returns it.  Proved for every backend with the laws of [axi_memory]. *)
From stdpp Require Import base numbers list option gmap.
From S2P Require Import Prelude Bytes Axi4 Devices AxiSlave.

Local Open Scope Z_scope.

(** ** The master's side *)

(** An address request: identifier, address, [axlen] and [axsize]. *)
Record request := Request { q_id : Z; q_addr : Z; q_len : Z; q_size : Z }.

(** Drive the read channels: a request or none, always ready for data. *)
Definition drive_ar (q : option request) (p : axi4) : axi4 :=
  let '(id, addr, len, size, valid) :=
    match q with Some q => (q_id q, q_addr q, q_len q, q_size q, 1) | None => (0, 0, 0, 0, 0) end in
  Signals (awid p) (awaddr p) (awlen p) (awsize p) (awburst p) (awvalid p) (awready p)
    (wdata p) (wstrb p) (wlast p) (wvalid p) (wready p) (bid p) (bresp p) (bvalid p) (bready p)
    id addr len size 1 valid (arready p)
    (rid p) (rdata p) (rresp p) (rlast p) (rvalid p) 1.

(** Drive the write channels: a request or none, a data beat ([wdata],
    [wstrb], [wlast]) or none. *)
Definition drive_w (q : option request) (b : option (Z * Z * Z)) (p : axi4) : axi4 :=
  let '(id, addr, len, size, valid) :=
    match q with Some q => (q_id q, q_addr q, q_len q, q_size q, 1) | None => (0, 0, 0, 0, 0) end in
  let '(data, strb, last, wv) := match b with Some (x, y, z) => (x, y, z, 1) | None => (0, 0, 0, 0) end in
  Signals id addr len size 1 valid (awready p)
    data strb last wv (wready p) (bid p) (bresp p) (bvalid p) (bready p)
    (arid p) (araddr p) (arlen p) (arsize p) (arburst p) (arvalid p) (arready p)
    (rid p) (rdata p) (rresp p) (rlast p) (rvalid p) (rready p).

Definition q_each (q : request) : Z := 2 ^ q_size q.
Definition q_nr (q : request) : Z := q_len q + 1.
Definition q_base (q : request) : Z := q_addr q - q_addr q mod q_each q.
Definition q_tot (q : request) : Z := q_each q * q_nr q - q_addr q mod q_each q.

(** A legal request: beats no wider than the bus, at most 256, inside a 4 KB
    page. *)
Record legal (q : request) : Prop := Legal {
  legal_size : 0 <= q_size q <= 3;
  legal_len : 0 <= q_len q <= 255;
  legal_addr : 0 <= q_addr q ∧ q_addr q + q_tot q < 2 ^ 64;
  legal_page : q_addr q mod 4096 + q_tot q <= 4096
}.

Section bursts.
Context {B : Type} {BK : axi_backend B} {MEM : axi_memory B}.

Fixpoint read_beats (n : nat) (r : rstate) (d : B) (p : axi4) : io (list axi4 * rstate * B * axi4) :=
  match n with
  | O => mret ([], r, d, p)
  | S n =>
      '(r, d, p) ← read_channel r d (drive_ar None p);
      '(ps, r, d, p') ← read_beats n r d p;
      mret (p :: ps, r, d, p')
  end.

(** The cycle of the request and those of the beats that are left. *)
Definition read_burst (q : request) (r : rstate) (d : B) (p : axi4) :
    io (list axi4 * rstate * B * axi4) :=
  '(r, d, p) ← read_channel r d (drive_ar (Some q) p);
  '(ps, r, d, p') ← read_beats (Z.to_nat (q_len q)) r d p;
  mret (p :: ps, r, d, p').

(** ** Read bursts *)

(** The page offset of the first beat, and the state before beat [k]. *)
Definition q_cur (q : request) : Z := q_addr q mod 4096 - q_addr q mod q_each q.
Definition burst_r (q : request) (data : bytes) (k : Z) : rstate :=
  RState (k <? q_nr q) (k =? q_nr q) false (q_addr q) (q_cur q + k * q_each q) (q_id q) BURST_INCR
    (q_each q) (q_nr q) k (q_tot q) false RESP_OKEY data.

Definition burst_data (q : request) (d : B) (data : bytes) : bytes :=
  store_bytes data (q_addr q mod 4096) (byte_at d <$> seqZ (q_addr q) (q_tot q)).

(** Widths 1, 2, 4 and 8, one at a time. *)
Lemma legal_each q : legal q → q_each q = 1 ∨ q_each q = 2 ∨ q_each q = 4 ∨ q_each q = 8.
Proof.
  intros [Hs _ _ _]. unfold q_each.
  assert (q_size q = 0 ∨ q_size q = 1 ∨ q_size q = 2 ∨ q_size q = 3) as Hc by lia.
  destruct Hc as [-> | [-> | [-> | ->]]]; cbn; lia.
Qed.

Lemma legal_bounds q : legal q →
  q_cur q mod q_each q = 0 ∧ 0 <= q_cur q ∧ q_cur q + q_each q * q_nr q <= 4096 ∧ 1 <= q_nr q <= 256 ∧
  0 < q_tot q <= 4096 ∧ q_addr q mod 4096 - q_cur q = q_addr q mod q_each q ∧
  q_base q - q_cur q = q_addr q - q_addr q mod 4096.
Proof.
  intros Hq. pose proof (legal_each q Hq) as He. destruct Hq as [_ Hl Ha Hp]. revert Hp.
  unfold q_tot, q_cur, q_nr, q_base. set (e := q_each q) in *. intros Hp.
  destruct_or! He; rewrite He in *; repeat split; dlia.
Qed.

Lemma legal_fields q : legal q →
  u32 (Z.shiftl 1 (q_size q)) = q_each q ∧ u32 (q_len q + 1) = q_nr q ∧
  u32 (q_each q * q_nr q) = q_each q * q_nr q ∧
  u32 (q_each q * q_nr q - q_addr q mod q_each q) = q_tot q.
Proof.
  intros Hq. pose proof (legal_bounds q Hq) as (_ & _ & _ & Hn & Ht & _ & _).
  pose proof (legal_each q Hq) as He. destruct Hq as [Hs Hl _ _].
  rewrite Z.shiftl_1_l. unfold u32. fold (q_each q). fold (q_tot q). fold (q_nr q).
  repeat split; apply wrap_small; destruct_or! He; rewrite ?He; lia.
Qed.

Lemma read_latch_incr r p q : legal q →
  read_latch r (drive_ar (Some q) p) =
    RState (read_busy r) (read_last r) (read_wait r) (q_addr q) (q_cur q) (q_id q) BURST_INCR (q_each q)
      (q_nr q) 0 (q_tot q) (r_early_err r) (r_resp r) (r_data r).
Proof.
  intros Hq. pose proof (legal_fields q Hq) as (E1 & E2 & E3 & E4).
  pose proof (legal_bounds q Hq) as (_ & Hc & Hc' & _).
  unfold read_latch. cbn [arburst arsize arlen araddr arid drive_ar burst_of].
  rewrite E1, E2. change (bool_decide (BURST_INCR = BURST_WRAP)) with false.
  change (bool_decide (BURST_INCR = BURST_FIXED)) with false. cbv iota.
  rewrite E3, E4. fold (q_cur q). f_equal. apply wrap_small.
  pose proof (legal_each q Hq). unfold q_cur in *. dlia.
Qed.

Lemma legal_read_check q busy last wait resp err data :
  legal q →
  read_check (RState busy last wait (q_addr q) (q_cur q) (q_id q) BURST_INCR (q_each q) (q_nr q) 0 (q_tot q)
                err resp data) = true.
Proof.
  intros Hq. pose proof (legal_each q Hq) as He. unfold read_check, D_bytes. cbn -[Z.modulo].
  destruct Hq as [_ _ _ Hp]. zif_false. by zif_false.
Qed.

Lemma read_init_incr r d p q :
  legal q → covers d (q_addr q) (q_tot q) →
  ∃ data, read_init r d (drive_ar (Some q) p) =
    mret (RState (read_busy r) (read_last r) (read_wait r) (q_addr q) (q_cur q) (q_id q) BURST_INCR (q_each q)
            (q_nr q) 0 (q_tot q) false RESP_OKEY (burst_data q d data), d).
Proof.
  intros Hq Hd. pose proof (legal_bounds q Hq) as (_ & _ & _ & _ & Ht & _).
  eexists. unfold read_init. rewrite read_latch_incr, legal_read_check by done. cbv zeta.
  cbn [r_burst_type]. change (bool_decide (BURST_INCR = BURST_FIXED)) with false. cbv iota.
  unfold fetch. cbn [r_start_addr r_tot_len r_data]. rewrite read_law, !io_bind_ret_l by (lia || done).
  unfold copy_in. unfold zlen. rewrite length_fmap, length_seqZ.
  rewrite in_array_true, !io_bind_ret_l; [reflexivity|dlia|]. destruct Hq as [_ _ _ Hp]. lia.
Qed.

(** The word of beat [k]. *)
Definition beat_word (q : request) (data : bytes) (k : Z) : Z :=
  let cur := q_cur q + k * q_each q in load data (cur - cur mod 8) 8.

Lemma beat_bounds q k : legal q → 0 <= k < q_nr q →
  let cur := q_cur q + k * q_each q in
  0 <= cur ∧ cur + q_each q <= 4096 ∧ cur mod q_each q = 0 ∧ cur - cur mod 8 + 8 <= 4096 ∧
  0 <= cur - cur mod 8.
Proof.
  intros Hq Hk. pose proof (legal_bounds q Hq) as (Hm & H0 & H1 & _).
  pose proof (legal_each q Hq) as He. destruct_or! He; rewrite He in *; repeat split; dlia.
Qed.

Lemma read_beat_incr q data k d p :
  legal q → 0 <= k < q_nr q → rready p = 1 →
  read_beat (burst_r q data k) d p =
    mret (burst_r q data (k + 1), d,
          set_r p (q_id q) (beat_word q data k) 0 (Z.b2z (k + 1 =? q_nr q)) 1).
Proof.
  intros Hq Hk Hr. pose proof (beat_bounds q k Hq Hk) as (B0 & B1 & B2 & B3 & B4).
  pose proof (legal_bounds q Hq) as (_ & _ & _ & Hn & _). pose proof (legal_each q Hq) as He.
  assert ((k <? q_nr q) = true) as E1 by lia. assert ((k =? q_nr q) = false) as E2 by lia.
  assert ((k + 1 <? q_nr q) = negb (k + 1 =? q_nr q)) as E3 by lia.
  assert (u32 (k + 1) = k + 1) as E4 by (apply wrap_small; lia).
  assert (u64 (q_cur q + k * q_each q + (q_each q - 0)) = q_cur q + (k + 1) * q_each q) as E5
    by (unfold u64; rewrite wrap_small; lia).
  unfold read_beat, burst_r. rewrite E1, E2, E3, Hr.
  cbn [r_cur_trans r_nr_trans set_cur r_current_addr r_each_len truthy orb Z.eqb negb].
  rewrite E4. unfold word_at, D_bytes. destruct (k + 1 =? q_nr q);
    cbn -[load Z.modulo Z.mul u64 in_array bool_decide];
    change (bool_decide (BURST_INCR = BURST_FIXED)) with false;
    change (bool_decide (BURST_INCR = BURST_WRAP)) with false; cbn -[load Z.modulo Z.mul u64 in_array];
    rewrite in_array_true, io_bind_ret_l by done;
    cbn -[load Z.modulo Z.mul u64]; by rewrite B2, E5.
Qed.

(** The cycles of a burst. *)
Lemma read_channel_next q data k d p :
  legal q → 0 < k < q_nr q →
  read_channel (burst_r q data k) d (drive_ar None p) =
    mret (burst_r q data (k + 1), d,
          set_arready (set_r (drive_ar None p) (q_id q) (beat_word q data k) 0 (Z.b2z (k + 1 =? q_nr q)) 1)
            (Z.b2z (k + 1 =? q_nr q))).
Proof.
  intros Hq Hk. assert ((k =? q_nr q) = false) as E2 by lia. assert ((k <? q_nr q) = true) as E1 by lia.
  unfold read_channel. cbn [read_last burst_r]. rewrite E2. cbn [andb]. cbv iota.
  change (truthy (arvalid (drive_ar None p))) with false. rewrite andb_false_r, io_bind_ret_l.
  cbn [read_busy burst_r]. rewrite E1, read_beat_incr, io_bind_ret_l by (done || lia).
  cbn [read_busy read_wait burst_r]. rewrite andb_true_r.
  by assert (negb (k + 1 <? q_nr q) = (k + 1 =? q_nr q)) as -> by lia.
Qed.

Lemma read_channel_first q r d p :
  legal q → covers d (q_addr q) (q_tot q) →
  read_busy r = false → read_last r = false → read_wait r = false → arready p = 1 →
  ∃ data, read_channel r d (drive_ar (Some q) p) =
    mret (burst_r q (burst_data q d data) 1, d,
          set_arready (set_r (drive_ar (Some q) p) (q_id q) (beat_word q (burst_data q d data) 0) 0
                         (Z.b2z (1 =? q_nr q)) 1) (Z.b2z (1 =? q_nr q))).
Proof.
  intros Hq Hd Hb Hl Hw Ha. pose proof (legal_bounds q Hq) as (_ & _ & _ & Hn & _).
  destruct (read_init_incr r d p q Hq Hd) as [data E]. exists data.
  unfold read_channel. rewrite Hl. cbn [andb]. cbv iota.
  change (arready (drive_ar (Some q) p)) with (arready p). rewrite Ha.
  change (truthy 1 && truthy (arvalid (drive_ar (Some q) p))) with true. cbv iota.
  rewrite E, !io_bind_ret_l. cbn [read_last]. rewrite Hl. cbv iota.
  replace (set_phase _ true _ _) with (burst_r q (burst_data q d data) 0).
  2:{ unfold burst_r, set_phase. cbn -[Z.mul burst_data Z.eqb Z.ltb]. rewrite Hw. f_equal; lia. }
  cbn [read_busy burst_r]. assert ((0 <? q_nr q) = true) as -> by lia.
  fold (burst_r q (burst_data q d data) 0).
  rewrite read_beat_incr, io_bind_ret_l by (done || lia). cbn [read_busy read_wait burst_r].
  rewrite andb_true_r. by assert (negb (0 + 1 <? q_nr q) = (1 =? q_nr q)) as -> by lia.
Qed.

Lemma read_beats_incr q data n k d p :
  legal q → 0 < k → k + Z.of_nat n = q_nr q →
  ∃ ps p', read_beats n (burst_r q data k) d p = mret (ps, burst_r q data (q_nr q), d, p') ∧
    length ps = n ∧ (p' = p ∨ arready p' = 1) ∧ (n ≠ O → arready p' = 1) ∧
    ∀ i p, ps !! i = Some p →
      rid p = q_id q ∧ rdata p = beat_word q data (k + Z.of_nat i) ∧ rresp p = 0 ∧ rvalid p = 1 ∧
      rlast p = Z.b2z (k + Z.of_nat i + 1 =? q_nr q).
Proof.
  intros Hq. revert k p. induction n as [|n IH]; intros k p Hk Hn; cbn [read_beats].
  { exists [], p. assert (k = q_nr q) as -> by lia. split; [done|]. repeat split; auto; done. }
  rewrite read_channel_next, io_bind_ret_l by (done || lia).
  match goal with |- context [read_beats n _ d ?x] => set (p1 := x) end.
  destruct (IH (k + 1) p1) as (ps & p' & -> & Hl & Hp & Hp' & Hall); [lia..|].
  rewrite io_bind_ret_l. exists (p1 :: ps), p'. split; [done|]. split; [cbn; lia|].
  assert (arready p' = 1) as Ha.
  { destruct n; [|by apply Hp']. destruct Hp as [->|]; [|done].
    unfold p1. cbn. by assert ((k + 1 =? q_nr q) = true) as -> by lia. }
  split; [by right|]. split; [done|]. intros [|i] p0 Hi.
  - cbn in Hi. simplify_eq. rewrite Z.add_0_r. done.
  - apply (Hall i) in Hi. replace (k + Z.of_nat (S i)) with (k + 1 + Z.of_nat i) by lia. done.
Qed.

(** Byte [a] of the page is at lane [a mod 8] of the word that holds beat [k]. *)
Lemma beat_index q k a : legal q → 0 <= k < q_nr q →
  q_base q + k * q_each q <= a < q_base q + (k + 1) * q_each q →
  let cur := q_cur q + k * q_each q in
  cur - cur mod 8 + a mod 8 = a - (q_addr q - q_addr q mod 4096) ∧ a < q_addr q + q_tot q.
Proof.
  intros Hq Hk Ha. pose proof (legal_bounds q Hq) as (_ & _ & _ & _ & _ & _ & Hb).
  pose proof (beat_bounds q k Hq Hk) as (_ & _ & Hm & _ & _). cbv zeta in *.
  pose proof (legal_each q Hq) as He. split.
  - assert ((q_addr q - q_addr q mod 4096) mod 8 = 0) as H8 by dlia.
    set (P := q_addr q - q_addr q mod 4096) in *. set (cur := q_cur q + k * q_each q) in *.
    assert (cur <= a - P < cur + q_each q) as Hr by lia. clearbody P cur.
    destruct_or! He; rewrite He in *; clear - H8 Hr Hm; dlia.
  - assert ((k + 1) * q_each q <= q_nr q * q_each q) by (destruct_or! He; rewrite He; lia).
    unfold q_tot, q_base in *. lia.
Qed.

Lemma beat_word_bytes q d data k :
  legal q → 0 <= k < q_nr q →
  ∃ l, length l = 8%nat ∧ beat_word q (burst_data q d data) k = le_combine l ∧
    ∀ a, Z.max (q_addr q) (q_base q + k * q_each q) <= a < q_base q + (k + 1) * q_each q →
      l !! Z.to_nat (a mod 8) = Some (byte_at d a).
Proof.
  intros Hq Hk. set (cur := q_cur q + k * q_each q).
  exists (load_bytes (burst_data q d data) (cur - cur mod 8) 8).
  split; [apply length_load_bytes|]. split; [done|]. intros a Ha.
  destruct (beat_index q k a Hq Hk) as [Ei Et]; [lia|]. fold cur in Ei.
  pose proof (Z.mod_pos_bound a 8 ltac:(lia)). rewrite load_bytes_lookup by lia. f_equal.
  rewrite Z2Nat.id, Ei by lia. unfold burst_data. rewrite get_store_bytes, length_fmap, length_seqZ.
  rewrite decide_True by lia. rewrite list_lookup_fmap.
  replace (a - _ - _) with (a - q_addr q) by lia. rewrite lookup_seqZ_lt by lia. cbn. f_equal. lia.
Qed.

(** What beat [k] of a read burst carries. *)
Definition beat_ok (q : request) (d : B) (k : Z) (p : axi4) : Prop :=
  rvalid p = 1 ∧ rid p = q_id q ∧ rresp p = resp_code RESP_OKEY ∧ rlast p = Z.b2z (k + 1 =? q_nr q) ∧
  ∃ l, length l = 8%nat ∧ rdata p = le_combine l ∧
    ∀ a, Z.max (q_addr q) (q_base q + k * q_each q) <= a < q_base q + (k + 1) * q_each q →
      l !! Z.to_nat (a mod 8) = Some (byte_at d a).

Lemma beat_ok_intro q d data k p :
  legal q → 0 <= k < q_nr q → rid p = q_id q → rdata p = beat_word q (burst_data q d data) k → rresp p = 0 →
  rvalid p = 1 → rlast p = Z.b2z (k + 1 =? q_nr q) → beat_ok q d k p.
Proof.
  intros Hq Hk H1 H2 H3 H4 H5. destruct (beat_word_bytes q d data k Hq Hk) as (l & Hl8 & El & Hby).
  repeat split; try done. exists l. split; [done|]. split; [congruence|done].
Qed.

Lemma read_burst_run q r d p :
  legal q → covers d (q_addr q) (q_tot q) →
  read_busy r = false → read_last r = false → read_wait r = false → arready p = 1 →
  ∃ ps r' p', read_burst q r d p = mret (ps, r', d, p') ∧ length ps = Z.to_nat (q_nr q) ∧
    read_busy r' = false ∧ read_last r' = true ∧ read_wait r' = false ∧ arready p' = 1 ∧
    ∀ i p, ps !! i = Some p → beat_ok q d (Z.of_nat i) p.
Proof.
  intros Hq Hd Hb Hl Hw Ha. pose proof (legal_bounds q Hq) as (_ & _ & _ & Hn & _).
  destruct (read_channel_first q r d p Hq Hd Hb Hl Hw Ha) as [data E].
  unfold read_burst. rewrite E, io_bind_ret_l.
  match goal with |- context [read_beats _ _ d ?x] => set (p1 := x) end.
  destruct (read_beats_incr q (burst_data q d data) (Z.to_nat (q_len q)) 1 d p1 Hq)
    as (ps & p' & -> & Hlen & Hp & Hp' & Hall); [lia|unfold q_nr in *; lia|].
  rewrite io_bind_ret_l. exists (p1 :: ps), (burst_r q (burst_data q d data) (q_nr q)), p'.
  split; [done|]. split; [cbn; rewrite Hlen; unfold q_nr in *; lia|]. cbn [read_busy read_last read_wait burst_r].
  rewrite Z.ltb_irrefl, Z.eqb_refl. split; [done|]. split; [done|]. split; [done|]. split.
  { destruct Hp as [->|]; [|done]. destruct (decide (q_len q = 0)) as [E0|]; [|apply Hp'; unfold q_nr in *; lia].
    unfold p1. cbn -[Z.eqb]. assert ((1 =? q_nr q) = true) as -> by (unfold q_nr; lia). done. }
  intros [|i] p0 Hi.
  - cbn in Hi. simplify_eq. apply (beat_ok_intro _ _ data); done || lia.
  - pose proof (lookup_lt_Some _ _ _ Hi) as Hlt. cbn in Hlt. apply (Hall i) in Hi as (H1 & H2 & H3 & H4 & H5).
    replace (Z.of_nat (S i)) with (1 + Z.of_nat i) by lia. apply (beat_ok_intro _ _ data); try done. unfold q_nr in *. lia.
Qed.

(** ** Write bursts *)

(** The data beats: data and strobes of each. *)
Fixpoint write_beats (bs : list (Z * Z)) (w : wstate) (d : B) (p : axi4) : io (wstate * B * axi4) :=
  match bs with
  | [] => mret (w, d, p)
  | (x, strb) :: bs =>
      '(w, d, p) ← write_channel w d (drive_w None (Some (x, strb, Z.b2z (bool_decide (bs = [])))) p);
      write_beats bs w d p
  end.

Definition write_burst (q : request) (bs : list (Z * Z)) (w : wstate) (d : B) (p : axi4) :
    io (wstate * B * axi4) :=
  '(w, d, p) ← write_channel w d (drive_w (Some q) None p);
  write_beats bs w d p.

(** The state before beat [k]; [cur] is the beat counter. *)
Definition burst_w (q : request) (k cur : Z) : wstate :=
  WState (k <? q_nr q) (k =? q_nr q) (q_addr q) (q_addr q + k * q_each q) (q_id q) BURST_INCR
    (q_each q) (q_nr q) cur (q_tot q) false RESP_OKEY.

(** All byte lanes of a beat at [a] are enabled. *)
Definition lanes_on (a each strb : Z) : Prop :=
  ∀ i, a mod 8 <= i < a mod 8 + each → Z.testbit strb i = true.

(** The byte that beat [x] puts at address [a]. *)
Definition lane (x a : Z) : Z := default 0 (le_split 8 x !! Z.to_nat (a mod 8)).

Lemma write_ranges_full d a each x :
  covers d a each → 0 <= a → a + each < 2 ^ 64 →
  each = 1 ∨ each = 2 ∨ each = 4 ∨ each = 8 → a mod each = 0 →
  ∃ d', write_ranges d RESP_OKEY (a - a mod 8) (a mod 8) x [(a mod 8, each)] = mret (RESP_OKEY, d') ∧
    (∀ k, byte_at d' k = if decide (a <= k < a + each) then lane x k else byte_at d k) ∧
    kept d d'.
Proof.
  intros Hd Ha Hw He Hm. cbn [write_ranges].
  assert (0 <= a mod 8 ∧ a mod 8 + each <= 8) as [B0 B1] by (destruct_or! He; subst; dlia).
  rewrite in_array_true by done. cbv zeta.
  set (buffer := take (Z.to_nat each) (drop (Z.to_nat (a mod 8)) (le_split 8 x))).
  assert (zlen buffer = each) as Hlen.
  { unfold zlen, buffer. rewrite length_take, length_drop, length_le_split. lia. }
  assert (u64 (a - a mod 8 + a mod 8) = a) as -> by (unfold u64; rewrite wrap_small; lia).
  destruct (write_law d a buffer) as (d' & -> & Hby & Hc); [rewrite Hlen; lia|by rewrite Hlen|].
  rewrite io_bind_ret_l. exists d'. split; [done|]. split; [|done]. intros k. rewrite Hby, Hlen.
  case_decide as Hk; [|done]. unfold lane, buffer. f_equal.
  rewrite lookup_take_lt, lookup_drop by lia. f_equal.
  destruct_or! He; subst; dlia.
Qed.

Definition set_w_resp (w : wstate) (resp : axi_resp) : wstate :=
  WState (write_busy w) (b_busy w) (w_start_addr w) (w_current_addr w) (w_awid w) (w_burst_type w)
    (w_each_len w) (w_nr_trans w) (w_cur_trans w) (w_tot_len w) (w_early_err w) resp.

Lemma beat_addr q k : legal q → q_addr q mod q_each q = 0 → 0 <= k < q_nr q →
  let a := q_addr q + k * q_each q in
  a mod q_each q = 0 ∧ q_addr q <= a ∧ a + q_each q <= q_addr q + q_tot q ∧ (a mod 8) mod q_each q = 0 ∧
  (k + 1 < q_nr q → a + q_each q < q_addr q + q_each q * q_nr q).
Proof.
  intros Hq Hal Hk a. pose proof (legal_each q Hq) as He. unfold a, q_tot. rewrite Hal.
  destruct_or! He; rewrite He in *; repeat split; dlia.
Qed.

(** A data beat hands the runs of its strobes to the backend. *)
Lemma write_beat_eq q k x strb last d p :
  legal q → q_addr q mod q_each q = 0 → 0 <= k < q_nr q →
  last = Z.b2z (k + 1 =? q_nr q) → wready p = 1 →
  let a := q_addr q + k * q_each q in
  ∃ cur, (k + 1 < q_nr q → cur = k + 1) ∧
    write_beat (burst_w q k k) d (drive_w None (Some (x, strb, last)) p) =
      '(resp, d') ← write_ranges d RESP_OKEY (a - a mod 8) (a mod 8) x
                      (strb_to_range strb (a mod 8) (a mod 8 + q_each q));
      mret (set_w_resp (burst_w q (k + 1) cur) resp, d').
Proof.
  intros Hq Hal Hk Hlast Hr a. pose proof (legal_each q Hq) as He.
  pose proof (legal_bounds q Hq) as (_ & _ & _ & Hn & Ht & _). pose proof (legal_addr q Hq) as Hw.
  pose proof (legal_fields q Hq) as (_ & _ & Ef & _).
  destruct (beat_addr q k Hq Hal Hk) as (Am & A0 & A1 & A2 & A3). fold a in Am, A0, A1, A2, A3.
  assert (u64 (a + (q_each q - 0)) = a + q_each q) as E1 by (unfold u64; rewrite wrap_small; lia).
  assert (u64 (q_addr q + q_each q * q_nr q) = q_addr q + q_each q * q_nr q) as E2
    by (unfold u64; rewrite wrap_small; unfold q_tot in *; rewrite Hal in *; lia).
  eexists. split; [|unfold write_beat; cbn [wvalid wready wlast wstrb wdata drive_w]; rewrite Hr;
    change (truthy 1 && truthy 1) with true; cbv iota; cbn [w_cur_trans burst_w w_nr_trans];
    unfold as_int; assert (in_int (k + 1) = true) as ->
      by (unfold in_int, INT_MIN, INT_MAX; apply andb_true_iff; rewrite !Z.leb_le; lia);
    rewrite io_bind_ret_l, Hlast; cbv zeta;
    assert ((k + 1 =? q_nr q) && negb (truthy (Z.b2z (k + 1 =? q_nr q))) = false) as ->
      by (by destruct (k + 1 =? q_nr q));
    cbn [w_early_err burst_w w_current_addr w_each_len w_start_addr w_resp write_busy b_busy w_awid
         w_burst_type w_tot_len];
    fold a; unfold D_bytes; rewrite Am, Ef, A2, E1, E2;
    replace (a mod 8 + (q_each q - 0)) with (a mod 8 + q_each q) by lia;
    unfold set_w_resp, burst_w; cbn [w_early_err w_current_addr w_each_len w_start_addr w_resp write_busy
      b_busy w_awid w_burst_type w_tot_len w_nr_trans w_cur_trans];
    assert ((if k + 1 =? q_nr q then false else k <? q_nr q) = (k + 1 <? q_nr q)) as -> by (case_if; lia);
    assert ((if k + 1 =? q_nr q then true else k =? q_nr q) = (k + 1 =? q_nr q)) as -> by (case_if; lia);
    replace (q_addr q + (k + 1) * q_each q) with (a + q_each q) by (unfold a; lia); reflexivity].
  intros Hlt. specialize (A3 Hlt). by zif_false.
Qed.

Lemma write_beat_incr q k x strb last d p :
  legal q → q_addr q mod q_each q = 0 → 0 <= k < q_nr q →
  covers d (q_addr q) (q_tot q) → lanes_on (q_addr q + k * q_each q) (q_each q) strb →
  last = Z.b2z (k + 1 =? q_nr q) → wready p = 1 →
  ∃ cur d', write_beat (burst_w q k k) d (drive_w None (Some (x, strb, last)) p) =
      mret (burst_w q (k + 1) cur, d') ∧ (k + 1 < q_nr q → cur = k + 1) ∧
    (∀ a, byte_at d' a = if decide (q_addr q + k * q_each q <= a < q_addr q + (k + 1) * q_each q)
                         then lane x a else byte_at d a) ∧
    kept d d'.
Proof.
  intros Hq Hal Hk Hd Hst Hlast Hr. pose proof (legal_each q Hq) as He.
  pose proof (legal_addr q Hq) as Hw. destruct (beat_addr q k Hq Hal Hk) as (Am & A0 & A1 & _ & _).
  destruct (write_beat_eq q k x strb last d p Hq Hal Hk Hlast Hr) as (cur & Hcur & ->).
  set (a := q_addr q + k * q_each q) in *.
  destruct (write_ranges_full d a (q_each q) x) as (d' & Ewr & Hby & Hc); [|lia|lia|done|done|].
  { eapply covers_sub; [exact Hd|lia..]. }
  rewrite strb_to_range_full; [|dlia|lia|done]. rewrite Ewr, io_bind_ret_l.
  exists cur, d'. split_and!; [done|done| |done].
  intros a'. rewrite Hby. replace (q_addr q + (k + 1) * q_each q) with (a + q_each q) by (unfold a; lia). done.
Qed.

(** The cycle of the request. *)
Lemma write_channel_first q w d p :
  legal q → write_busy w = false → b_busy w = false → awready p = 1 →
  ∃ p', write_channel w d (drive_w (Some q) None p) =
          mret (WState true false (q_addr q) (q_base q) (q_id q) BURST_INCR (q_each q) (q_nr q) 0 (q_tot q)
                  false RESP_OKEY, d, p') ∧ wready p' = 1 ∧ bvalid p' = 0.
Proof.
  intros Hq Hb Hbb Ha. pose proof (legal_fields q Hq) as (E1 & _ & E3 & E4).
  pose proof (legal_each q Hq) as He. unfold write_channel.
  change (awready (drive_w (Some q) None p)) with (awready p). rewrite Ha.
  change (truthy 1 && truthy (awvalid (drive_w (Some q) None p))) with true. cbv iota.
  unfold write_init. assert (write_latch w (drive_w (Some q) None p) =
    WState false false (q_addr q) (q_base q) (q_id q) BURST_INCR (q_each q) (q_nr q) 0 (q_tot q)
      (w_early_err w) (w_resp w)) as ->.
  { unfold write_latch. cbn [awburst awsize awlen awaddr awid drive_w burst_of]. rewrite E1.
    change (bool_decide (BURST_INCR = BURST_WRAP)) with false. cbv iota.
    fold (q_nr q) (q_base q). by rewrite E3, E4, Hb, Hbb. }
  assert (∀ s1 s2 e r, write_check (WState s1 s2 (q_addr q) (q_base q) (q_id q) BURST_INCR (q_each q) (q_nr q) 0
    (q_tot q) e r) = true) as Hck.
  { intros. unfold write_check, D_bytes. destruct Hq as [_ _ _ Hp]. cbn -[Z.modulo]. zif_false. by zif_false. }
  cbv zeta. rewrite Hck, !io_bind_ret_l. cbn [write_busy b_busy]. unfold write_beat.
  change (wvalid (drive_w (Some q) None p)) with 0. change (truthy 0) with false. cbn [andb]. cbv iota.
  rewrite io_bind_ret_l. eexists. split; [reflexivity|done].
Qed.

Lemma write_channel_next q k x strb last d p :
  legal q → q_addr q mod q_each q = 0 → 0 <= k < q_nr q →
  covers d (q_addr q) (q_tot q) → lanes_on (q_addr q + k * q_each q) (q_each q) strb →
  last = Z.b2z (k + 1 =? q_nr q) → wready p = 1 → bvalid p = 0 →
  ∃ cur d' p', write_channel (burst_w q k k) d (drive_w None (Some (x, strb, last)) p) =
      mret (burst_w q (k + 1) cur, d', p') ∧ (k + 1 < q_nr q → cur = k + 1) ∧
    (k + 1 < q_nr q → wready p' = 1 ∧ bvalid p' = 0) ∧
    (k + 1 = q_nr q → bvalid p' = 1 ∧ bresp p' = 0 ∧ bid p' = q_id q) ∧
    (∀ a, byte_at d' a = if decide (q_addr q + k * q_each q <= a < q_addr q + (k + 1) * q_each q)
                         then lane x a else byte_at d a) ∧
    kept d d'.
Proof.
  intros Hq Hal Hk Hd Hst Hlast Hr Hbv.
  destruct (write_beat_incr q k x strb last d p Hq Hal Hk Hd Hst Hlast Hr) as (cur & d' & E & Hcur & Hby & Hc).
  unfold write_channel. change (truthy (awvalid _)) with false. rewrite andb_false_r, io_bind_ret_l.
  change (write_busy (burst_w q k k)) with (k <? q_nr q). assert ((k <? q_nr q) = true) as -> by lia.
  rewrite E, io_bind_ret_l. cbn [b_busy burst_w]. unfold b_beat.
  change (bvalid (drive_w None (Some (x, strb, last)) p)) with (bvalid p). rewrite Hbv.
  change (truthy 0) with false. cbn [andb]. cbv iota. exists cur, d'.
  destruct (k + 1 =? q_nr q) eqn:El; bool_to_prop; fold (burst_w q (k + 1) cur);
    (eexists; split; [reflexivity|]; split; [done|]; split; [|split; [|done]]); try lia; intros _;
    cbn -[Z.eqb Z.ltb]; [by zif_true|].
  assert ((k + 1 =? q_nr q) = false) as -> by lia. done.
Qed.

(** What [bs] beats from address [a0] on leave at address [a]. *)
Definition written (each a0 : Z) (bs : list (Z * Z)) (d : B) (a : Z) : Z :=
  if decide (a0 <= a < a0 + each * Z.of_nat (length bs))
  then lane (default (0, 0) (bs !! Z.to_nat ((a - a0) / each))).1 a else byte_at d a.

Definition all_lanes_on (each a0 : Z) (bs : list (Z * Z)) : Prop :=
  ∀ i x strb, bs !! i = Some (x, strb) → lanes_on (a0 + Z.of_nat i * each) each strb.

Lemma written_cons each a0 x strb bs d d1 a :
  0 < each →
  (∀ a, byte_at d1 a = if decide (a0 <= a < a0 + each) then lane x a else byte_at d a) →
  written each (a0 + each) bs d1 a = written each a0 ((x, strb) :: bs) d a.
Proof.
  intros He Hby. unfold written. cbn [length].
  destruct (decide (a0 + each <= a < a0 + each + each * Z.of_nat (length bs))) as [Hin|Hin].
  - rewrite decide_True by lia. replace (a - a0) with (a - (a0 + each) + 1 * each) by lia.
    rewrite Z.div_add by lia. pose proof (Z.div_pos (a - (a0 + each)) each ltac:(lia) He).
    by replace (Z.to_nat ((a - (a0 + each)) / each + 1)) with (S (Z.to_nat ((a - (a0 + each)) / each))) by lia.
  - rewrite Hby. destruct (decide (a0 <= a < a0 + each)) as [H1|H1].
    + rewrite decide_True by nia. by rewrite Z.div_small by lia.
    + rewrite decide_False by nia. done.
Qed.

Lemma write_beats_incr q bs k d p :
  legal q → q_addr q mod q_each q = 0 → 0 <= k → k + Z.of_nat (length bs) = q_nr q → bs ≠ [] →
  covers d (q_addr q) (q_tot q) → all_lanes_on (q_each q) (q_addr q + k * q_each q) bs →
  wready p = 1 → bvalid p = 0 →
  ∃ cur d' p', write_beats bs (burst_w q k k) d p = mret (burst_w q (q_nr q) cur, d', p') ∧
    bvalid p' = 1 ∧ bresp p' = 0 ∧ bid p' = q_id q ∧
    (∀ a, byte_at d' a = written (q_each q) (q_addr q + k * q_each q) bs d a) ∧
    kept d d'.
Proof.
  intros Hq Hal. pose proof (legal_each q Hq) as He. assert (0 < q_each q) as Hpos by lia.
  revert k d p. induction bs as [|[x strb] bs IH]; intros k d p Hk Hlen Hne Hd Hst Hr Hbv; [done|].
  cbn [write_beats length] in *.
  destruct (write_channel_next q k x strb (Z.b2z (bool_decide (bs = []))) d p)
    as (cur & d1 & p1 & -> & Hcur & Hmid & Hend & Hby & Hc); [done|done|lia|done| | |done|done|].
  { specialize (Hst 0%nat x strb eq_refl). by rewrite Z.mul_0_l, Z.add_0_r in Hst. }
  { f_equal. case_bool_decide as Hnil; [subst; cbn in *; lia|]. destruct bs; [done|]. cbn in *. lia. }
  rewrite io_bind_ret_l.
  assert (∀ a, written (q_each q) (q_addr q + (k + 1) * q_each q) bs d1 a =
               written (q_each q) (q_addr q + k * q_each q) ((x, strb) :: bs) d a) as Hwr.
  { intros a. replace (q_addr q + (k + 1) * q_each q) with (q_addr q + k * q_each q + q_each q) in * by lia.
    by apply written_cons. }
  destruct (decide (bs = [])) as [->|Hbs].
  - cbn [write_beats length] in *. destruct Hend as (H1 & H2 & H3); [lia|].
    exists cur, d1, p1. replace (k + 1) with (q_nr q) in * by lia. split_and!; try done.
    intros a. rewrite <- Hwr. unfold written. rewrite decide_False by (cbn; lia). done.
  - assert (length bs ≠ 0%nat) as Hl0 by (by destruct bs).
    destruct Hmid as [M1 M2]; [lia|]. rewrite Hcur by lia.
    destruct (IH (k + 1) d1 p1) as (cur' & d' & p' & -> & H1 & H2 & H3 & H4 & H5); [lia|lia|done| | |done|done|].
    + by apply (kept_covers d d1).
    + intros i y st Hi. specialize (Hst (S i) y st Hi).
      by replace (q_addr q + (k + 1) * q_each q + Z.of_nat i * q_each q)
        with (q_addr q + k * q_each q + Z.of_nat (S i) * q_each q) by lia.
    + exists cur', d', p'. split_and!; try done; [intros a; by rewrite H4, Hwr|]. by etrans.
Qed.

Lemma write_burst_run q bs w d p :
  legal q → q_addr q mod q_each q = 0 → Z.of_nat (length bs) = q_nr q →
  covers d (q_addr q) (q_tot q) → all_lanes_on (q_each q) (q_addr q) bs →
  write_busy w = false → b_busy w = false → awready p = 1 →
  ∃ w' d' p', write_burst q bs w d p = mret (w', d', p') ∧
    write_busy w' = false ∧ b_busy w' = true ∧
    bvalid p' = 1 ∧ bresp p' = resp_code RESP_OKEY ∧ bid p' = q_id q ∧
    (∀ a, byte_at d' a = written (q_each q) (q_addr q) bs d a) ∧
    kept d d'.
Proof.
  intros Hq Hal Hlen Hd Hst Hb Hbb Ha. pose proof (legal_bounds q Hq) as (_ & _ & _ & Hn & _).
  destruct (write_channel_first q w d p Hq Hb Hbb Ha) as (p1 & E & Hr & Hbv).
  unfold write_burst. rewrite E, io_bind_ret_l.
  replace (WState _ _ _ _ _ _ _ _ _ _ _ _) with (burst_w q 0 0).
  2:{ unfold burst_w, q_base. rewrite Hal. assert ((0 <? q_nr q) = true) as -> by lia.
      assert ((0 =? q_nr q) = false) as -> by lia. f_equal. }
  destruct (write_beats_incr q bs 0 d p1) as (cur & d' & p' & -> & H1 & H2 & H3 & H4 & H5);
    [done|done|lia|lia|intros ->; cbn in Hlen; lia|done| |done|done|].
  { by rewrite Z.mul_0_l, Z.add_0_r. }
  exists (burst_w q (q_nr q) cur), d', p'. cbn [write_busy b_busy burst_w].
  rewrite Z.ltb_irrefl, Z.eqb_refl. split_and!; try done.
  intros a. by rewrite H4, Z.mul_0_l, Z.add_0_r.
Qed.

(** ** Properties *)

(** C4. A legal incrementing read burst on an idle read channel, with the master
    always ready, takes one cycle per beat: every beat is valid, carries the
    identifier and an OKAY response, the last one and no other is marked, and
    its byte lanes hold the bytes of the memory that the beat addresses
    (aligned or not, full width or narrower).  The memory does not change and
    the channel is ready for the next address. *)
Theorem read_burst_correct q r d p :
  legal q → covers d (q_addr q) (q_tot q) →
  read_busy r = false → read_last r = false → read_wait r = false → arready p = 1 →
  ∃ ps r' p', read_burst q r d p = mret (ps, r', d, p') ∧ length ps = Z.to_nat (q_nr q) ∧
    read_busy r' = false ∧ read_wait r' = false ∧ arready p' = 1 ∧
    ∀ i p, ps !! i = Some p → beat_ok q d (Z.of_nat i) p.
Proof.
  intros Hq Hd Hb Hl Hw Ha.
  destruct (read_burst_run q r d p Hq Hd Hb Hl Hw Ha) as (ps & r' & p' & H1 & H2 & H3 & _ & H4 & H5 & H6).
  by exists ps, r', p'.
Qed.

(** C5. A legal incrementing write burst at an address aligned to its beats, whose
    strobes enable all lanes of every beat, ends in an OKAY response with its
    identifier and leaves in the memory exactly the bytes of its beats: every
    other byte is as it was. *)
Theorem write_burst_correct q bs w d p :
  legal q → q_addr q mod q_each q = 0 → Z.of_nat (length bs) = q_nr q →
  covers d (q_addr q) (q_tot q) → all_lanes_on (q_each q) (q_addr q) bs →
  write_busy w = false → b_busy w = false → awready p = 1 →
  ∃ w' d' p', write_burst q bs w d p = mret (w', d', p') ∧
    bvalid p' = 1 ∧ bresp p' = resp_code RESP_OKEY ∧ bid p' = q_id q ∧
    ∀ a, byte_at d' a = written (q_each q) (q_addr q) bs d a.
Proof.
  intros Hq Hal Hlen Hd Hst Hb Hbb Ha.
  destruct (write_burst_run q bs w d p Hq Hal Hlen Hd Hst Hb Hbb Ha)
    as (w' & d' & p' & H1 & _ & _ & H2 & H3 & H4 & H5 & _).
  by exists w', d', p'.
Qed.

Lemma written_word q bs d k x strb :
  q_each q = 8 → bs !! k = Some (x, strb) → 
  ∀ a, q_addr q + 8 * Z.of_nat k <= a < q_addr q + 8 * (Z.of_nat k + 1) →
    written 8 (q_addr q) bs d a = lane x a.
Proof.
  intros He Hk a Ha. unfold written. pose proof (lookup_lt_Some _ _ _ Hk).
  rewrite decide_True by lia. by replace (Z.to_nat ((a - q_addr q) / 8)) with k by dlia; rewrite Hk.
Qed.

(** Writing a burst of aligned words and reading it back, with everything the
    write leaves. *)
Lemma roundtrip_run q bs w r d p p0 :
  legal q → q_size q = 3 → q_addr q mod 8 = 0 → Z.of_nat (length bs) = q_nr q →
  covers d (q_addr q) (q_tot q) → all_lanes_on 8 (q_addr q) bs →
  write_busy w = false → b_busy w = false → awready p = 1 →
  read_busy r = false → read_last r = false → read_wait r = false → arready p0 = 1 →
  ∃ w' d' p' ps r' p'', write_burst q bs w d p = mret (w', d', p') ∧
    bvalid p' = 1 ∧ bresp p' = resp_code RESP_OKEY ∧
    (∀ a, byte_at d' a = written 8 (q_addr q) bs d a) ∧ kept d d' ∧
    read_burst q r d' p0 = mret (ps, r', d', p'') ∧ length ps = length bs ∧
    ∀ i x strb pi, bs !! i = Some (x, strb) → ps !! i = Some pi → rdata pi = u64 x.
Proof.
  intros Hq Hsz Hal Hlen Hd Hst Hb Hbb Ha Rb Rl Rw Ra.
  assert (q_each q = 8) as He by (unfold q_each; by rewrite Hsz).
  destruct (write_burst_run q bs w d p) as (w' & d' & p' & Ew & _ & _ & Hbv & Hbr & _ & Hby & Hc);
    [done|by rewrite He|done|done|by rewrite He|done..|].
  destruct (read_burst_run q r d' p0) as (ps & r' & p'' & Er & Hps & _ & _ & _ & _ & Hall);
    [done|by apply (kept_covers d d')|done..|].
  exists w', d', p', ps, r', p''. split_and!; [done|done|done|by rewrite <- He|done|done|lia|].
  intros i x strb pi Hx Hpi. destruct (Hall i pi Hpi) as (_ & _ & _ & _ & l & Hl & -> & Hbytes).
  assert (l = le_split 8 x) as ->; [|by rewrite le_combine_split].
  apply list_eq. intros j. destruct (decide (j < 8)%nat) as [Hj|Hj];
    [|by rewrite !lookup_ge_None_2 by (rewrite ?length_le_split; lia)].
  set (a := q_addr q + 8 * Z.of_nat i + Z.of_nat j). rewrite He in *. unfold q_base in *. rewrite He, Hal in *.
  replace j with (Z.to_nat (a mod 8)) by (unfold a; dlia). rewrite Hbytes by (unfold a; lia).
  rewrite Hby, (written_word q bs d i x strb) by (done || (unfold a; lia)). unfold lane.
  destruct (le_split 8 x !! Z.to_nat (a mod 8)) as [y|] eqn:Ey; [done|].
  apply lookup_ge_None in Ey. rewrite length_le_split in Ey. exfalso. unfold a in Ey. dlia.
Qed.

(** Reading back a burst of aligned 64-bit words that was written returns the
    words. *)
Theorem burst_roundtrip q bs w r d p p0 :
  legal q → q_size q = 3 → q_addr q mod 8 = 0 → Z.of_nat (length bs) = q_nr q →
  covers d (q_addr q) (q_tot q) → all_lanes_on 8 (q_addr q) bs →
  write_busy w = false → b_busy w = false → awready p = 1 →
  read_busy r = false → read_last r = false → read_wait r = false → arready p0 = 1 →
  ∃ w' d' p' ps r' p'', write_burst q bs w d p = mret (w', d', p') ∧
    read_burst q r d' p0 = mret (ps, r', d', p'') ∧ length ps = length bs ∧
    ∀ i x strb pi, bs !! i = Some (x, strb) → ps !! i = Some pi → rdata pi = u64 x.
Proof.
  intros Hq Hsz Hal Hlen Hd Hst Hb Hbb Ha Rb Rl Rw Ra.
  destruct (roundtrip_run q bs w r d p p0) as (w' & d' & p' & ps & r' & p'' & Ew & _ & _ & _ & _ & Er & Hl & Hall);
    [done..|].
  by exists w', d', p', ps, r', p''.
Qed.

(** Strobes that leave out the first lanes of a beat: the bytes written come
    from the first lanes of the data all the same.  A 64-bit beat with strobes
    0xf0 puts the bytes of lanes 0 to 3 at the addresses of lanes 4 to 7. *)
Theorem sparse_strobe_shifts q x d p :
  legal q → q_size q = 3 → q_addr q mod 8 = 0 → q_len q = 0 →
  covers d (q_addr q) (q_tot q) → wready p = 1 →
  ∃ w' d', write_beat (burst_w q 0 0) d (drive_w None (Some (x, 0xf0, 1)) p) = mret (w', d') ∧
    ∀ a, byte_at d' a =
      if decide (q_addr q + 4 <= a < q_addr q + 8) then lane x (a - 4) else byte_at d a.
Proof.
  intros Hq Hsz Hal Hlen Hd Hr. assert (q_each q = 8) as He by (unfold q_each; by rewrite Hsz).
  assert (q_nr q = 1) as Hn by (unfold q_nr; lia).
  destruct (write_beat_eq q 0 x 0xf0 1 d p) as (cur & _ & ->); [done|by rewrite He|lia|by rewrite Hn|done|].
  pose proof (legal_addr q Hq) as [H0 Hw]. unfold q_tot in *. rewrite He, Hn, Z.mul_0_l, Z.add_0_r, Hal in *.
  change (strb_to_range 240 0 (0 + 8)) with [(4, 4)]. cbn [write_ranges].
  change (in_array 8 0 4) with true. cbv iota zeta.
  assert (u64 (q_addr q - 0 + 4) = q_addr q + 4) as -> by (unfold u64; rewrite wrap_small; lia).
  destruct (write_law d (q_addr q + 4) (take 4 (le_split 8 x))) as (d' & E & Hby & _).
  { unfold zlen; cbn; lia. }
  { eapply covers_sub; [exact Hd|unfold zlen; cbn; lia..]. }
  change (take (Z.to_nat 4) (drop (Z.to_nat 0) (le_split 8 x))) with (take 4 (le_split 8 x)).
  rewrite E, !io_bind_ret_l. eexists _, d'. split; [done|]. intros a. rewrite Hby.
  change (zlen (take 4 (le_split 8 x))) with 4. replace (q_addr q + 4 + 4) with (q_addr q + 8) by lia.
  case_decide as Ha; [|done]. unfold lane. f_equal. rewrite lookup_take_lt by lia. f_equal. dlia.
Qed.

(** No wrapping burst is ever accepted: the test of its length always fails,
    and the assertion after it stops the run, for reads and for writes. *)
Theorem wrap_bursts_rejected r w d p :
  arburst p = 2 → awburst p = 2 →
  result (read_init r d p) = Fault AssertFail ∧ result (write_init w p) = Fault AssertFail.
Proof.
  intros Hr Hw. assert (∀ n, bad_wrap_len n = true) as Hbad.
  { intros n. unfold bad_wrap_len. destruct (Z.eqb_spec n 2) as [->|]; done. }
  split.
  - unfold read_init. assert (read_check (read_latch r p) = false) as ->; [|done].
    unfold read_check. assert (r_burst_type (read_latch r p) = BURST_WRAP) as ->
      by (unfold read_latch; cbn; by rewrite Hr).
    change (bool_decide (BURST_WRAP = BURST_RESERVED)) with false.
    change (bool_decide (BURST_WRAP = BURST_WRAP)) with true. rewrite Hbad. by destruct (truthy _).
  - unfold write_init. assert (write_check (write_latch w p) = false) as ->; [|done].
    unfold write_check. assert (w_burst_type (write_latch w p) = BURST_WRAP) as ->
      by (unfold write_latch; cbn; by rewrite Hw).
    change (bool_decide (BURST_WRAP = BURST_RESERVED)) with false.
    change (bool_decide (BURST_WRAP = BURST_FIXED)) with false.
    change (bool_decide (BURST_WRAP = BURST_WRAP)) with true. rewrite Hbad. by destruct (truthy _).
Qed.

(** The last beat of a read burst is withdrawn after one cycle even if the
    master was not ready for it. *)
Theorem last_beat_not_held r d p :
  read_busy r = false → read_last r = true → read_wait r = false →
  rvalid p = 1 → rready p = 0 → arvalid p = 0 →
  ∃ r' p', read_channel r d p = mret (r', d, p') ∧ rvalid p' = 0 ∧ read_last r' = false ∧ read_busy r' = false.
Proof.
  intros Hb Hl Hw Hv Hr Ha. unfold read_channel. rewrite Hl, Hv. change (truthy 1) with true. cbn [andb]. rewrite Hw.
  assert (∀ p, arvalid p = 0 → truthy (arready p) && truthy (arvalid p) = false) as Hn
    by (intros ? ->; apply andb_false_r).
  rewrite Hn by done. rewrite io_bind_ret_l. cbn [read_busy set_phase]. rewrite Hb, io_bind_ret_l.
  eexists _, _. split; [reflexivity|]. done.
Qed.
End bursts.

(** ** Witnesses *)

(** Two beats on a memory of 8 KB: 64-bit words at 0x1000, and an unaligned
    request for 32-bit words at 0x1002. *)
Definition mem8k : ram := axi4_mem ∅ 0x2000.
Definition req64 : request := Request 3 0x1000 1 3.
Definition req32 : request := Request 3 0x1002 1 2.
Definition req1 : request := Request 3 0x1000 0 3.
Definition words : list (Z * Z) := [(0x1122334455667788, 0xff); (0x99aabbccddeeff00, 0xff)].
Definition idle_pins : axi4 := set_wready (set_arready axi4_init 1) 0 1 1.

Lemma req64_legal : legal req64.
Proof. split; vm_compute; repeat split; congruence. Qed.
Lemma req32_legal : legal req32.
Proof. split; vm_compute; repeat split; congruence. Qed.
Lemma req1_legal : legal req1.
Proof. split; vm_compute; repeat split; congruence. Qed.
Lemma mem8k_covers a n : 0 <= a → 0 <= n → a + n <= 0x2000 → covers mem8k a n.
Proof. intros. change (ram_covers mem8k a n). unfold ram_covers. change (mem_size mem8k) with 0x2000. lia. Qed.
Lemma words_on : all_lanes_on 8 0x1000 words.
Proof.
  intros i x strb Hi. unfold lanes_on. intros j Hj.
  assert (strb = 0xff) as -> by (destruct i as [|[|i]]; by simplify_eq/=).
  assert (0 <= j < 8) as Hj8 by dlia.
  by assert (j = 0 ∨ j = 1 ∨ j = 2 ∨ j = 3 ∨ j = 4 ∨ j = 5 ∨ j = 6 ∨ j = 7)
    as [->|[->|[->|[->|[->|[->|[->| ->]]]]]]] by lia.
Qed.

Lemma read_burst_correct_witness :
  ∃ ps r' p', read_burst req32 rstate_init mem8k idle_pins = mret (ps, r', mem8k, p') ∧
    ∀ i p, ps !! i = Some p → beat_ok req32 mem8k (Z.of_nat i) p.
Proof.
  destruct (read_burst_correct req32 rstate_init mem8k idle_pins req32_legal)
    as (ps & r' & p' & E & _ & _ & _ & _ & Hall); [apply mem8k_covers; vm_compute; congruence|reflexivity..|].
  exists ps, r', p'. split; [exact E|exact Hall].
Defined.

Lemma write_burst_correct_witness :
  ∃ w' d' p', write_burst req64 words wstate_init mem8k idle_pins = mret (w', d', p') ∧
    ∀ a, byte_at d' a = written 8 0x1000 words mem8k a.
Proof.
  destruct (write_burst_correct req64 words wstate_init mem8k idle_pins req64_legal)
    as (w' & d' & p' & E & _ & _ & _ & Hall);
    [reflexivity|reflexivity|apply mem8k_covers; vm_compute; congruence|exact words_on|reflexivity..|].
  exists w', d', p'. split; [exact E|exact Hall].
Defined.

Lemma burst_roundtrip_witness :
  ∃ w' d' p' ps r' p'', write_burst req64 words wstate_init mem8k idle_pins = mret (w', d', p') ∧
    read_burst req64 rstate_init d' idle_pins = mret (ps, r', d', p'') ∧
    ∀ i x strb pi, words !! i = Some (x, strb) → ps !! i = Some pi → rdata pi = u64 x.
Proof.
  destruct (burst_roundtrip req64 words wstate_init rstate_init mem8k idle_pins idle_pins req64_legal)
    as (w' & d' & p' & ps & r' & p'' & E1 & E2 & _ & Hall);
    [reflexivity|reflexivity|reflexivity|apply mem8k_covers; vm_compute; congruence|exact words_on|reflexivity..|].
  exists w', d', p', ps, r', p''. split; [exact E1|]. split; [exact E2|exact Hall].
Defined.

Lemma sparse_strobe_shifts_witness :
  ∃ w' d', write_beat (burst_w req1 0 0) mem8k (drive_w None (Some (0x1122334455667788, 0xf0, 1)) idle_pins) =
      mret (w', d') ∧ byte_at d' 0x1004 = 0x88.
Proof.
  destruct (sparse_strobe_shifts req1 0x1122334455667788 mem8k idle_pins req1_legal)
    as (w' & d' & E & Hby); [reflexivity..|apply mem8k_covers; vm_compute; congruence|reflexivity|].
  exists w', d'. split; [exact E|]. rewrite Hby. reflexivity.
Defined.

Lemma wrap_bursts_rejected_witness :
  let p := Signals 0 0 1 3 2 1 1 0 0 0 0 1 0 0 0 0 0 0 1 3 2 1 1 0 0 0 0 0 1 in
  result (read_init rstate_init mem8k p) = Fault AssertFail ∧ result (write_init wstate_init p) = Fault AssertFail.
Proof. intros p. apply (wrap_bursts_rejected rstate_init wstate_init mem8k p); reflexivity. Defined.

Lemma last_beat_not_held_witness :
  let r := set_phase rstate_init false true false in
  let p := set_r axi4_init 0 0 0 1 1 in
  ∃ r' p', read_channel r mem8k p = mret (r', mem8k, p') ∧ rvalid p' = 0 ∧ read_last r' = false ∧ read_busy r' = false.
Proof. intros r p. apply (last_beat_not_held r mem8k p); reflexivity. Defined.
