(* ===== verification/Soc.v ===== *)
(** * The bus put together
    The AXI4 slave in front of the crossbar in front of memories and serial
    ports: [axi4_xbar] is itself an [axi4_slave], so the burst theorems of
    [AxiBurst] hold of it as soon as the crossbar keeps the laws of
    [axi_memory].  It does, on ranges of devices that behave as memory
    ([dev_memory]) and are mapped once. *)
From stdpp Require Import base numbers list option.
From S2P Require Import Prelude Bytes Axi4 Devices Xbar AxiSlave AxiBurst.

Local Open Scope Z_scope.

(** ** Devices that behave as memory *)

Class dev_memory (D : Type) `{mmio_dev D} := {
  dev_holds : D → Z → Z → Prop;
  dev_byte : D → Z → Z;
  dev_kept : relation D;
  #[global] dev_kept_preorder :: PreOrder dev_kept;
  dev_kept_holds d d' a n : dev_kept d d' → dev_holds d' a n ↔ dev_holds d a n;
  dev_read_law d a n :
    0 < n → dev_holds d a n → dev_read d a n = mret (Some (dev_byte d <$> seqZ a n), d);
  dev_write_law d a l :
    0 < zlen l → dev_holds d a (zlen l) →
    ∃ d', dev_write d a l = mret (true, d') ∧
          (∀ k, dev_byte d' k =
             if decide (a <= k < a + zlen l) then default 0 (l !! Z.to_nat (k - a)) else dev_byte d k) ∧
          dev_kept d d';
  dev_holds_sub d a n a' n' : dev_holds d a n → a <= a' → 0 < n' → a' + n' <= a + n → dev_holds d a' n'
}.

#[global] Program Instance ram_dev_memory : dev_memory ram := {|
  dev_holds := ram_covers;
  dev_byte d := get (mem d);
  dev_kept := same_size
|}.
Next Obligation. intros d d' a n H. unfold same_size in H. unfold ram_covers. by rewrite H. Qed.
Next Obligation.
  intros d a n Hn (Ha & _ & Hs & Hm). cbn. unfold mmio_mem_do_read, copy_out.
  rewrite bound_check, in_array_true, io_bind_ret_l by lia. by rewrite load_bytes_seqZ by lia.
Qed.
Next Obligation.
  intros d a l Hpos (Ha & Hl & Hs & Hm). cbn. unfold mmio_mem_do_write, copy_in.
  rewrite bound_check, in_array_true, io_bind_ret_l by (unfold zlen in *; lia).
  eexists. split; [done|]. split; [|done]. intros k. apply get_store_bytes.
Qed.
Next Obligation. unfold ram_covers. intros. lia. Qed.

(** A serial port is no memory: nothing in it can be covered, and nothing in it
    may change. *)
#[global] Program Instance uart_dev_memory : dev_memory uartlite := {|
  dev_holds _ _ _ := False;
  dev_byte _ _ := 0;
  dev_kept := eq
|}.
Solve All Obligations with done.

Section sum.
Context {D E : Type} `{!mmio_dev D, !mmio_dev E, !dev_memory D, !dev_memory E}.

Definition sum_kept : relation (D + E) := λ x y,
  match x, y with inl d, inl d' => dev_kept d d' | inr e, inr e' => dev_kept e e' | _, _ => False end.
#[global] Instance sum_kept_preorder : PreOrder sum_kept.
Proof.
  split.
  - intros []; cbn; reflexivity.
  - intros [] [] []; cbn; try done; apply transitivity.
Qed.

#[global] Program Instance sum_dev_memory : dev_memory (D + E) := {|
  dev_holds x := match x with inl d => dev_holds d | inr e => dev_holds e end;
  dev_byte x := match x with inl d => dev_byte d | inr e => dev_byte e end;
  dev_kept := sum_kept
|}.
Next Obligation. intros [] []; cbn; try done; by apply dev_kept_holds. Qed.
Next Obligation. intros [d|e] a n Hn Hd; cbn; by rewrite dev_read_law by done. Qed.
Next Obligation.
  intros [d|e] a l Hl Hd; cbn; destruct (dev_write_law _ a l Hl Hd) as (d' & -> & Hby & Hk);
    [exists (inl d')|exists (inr d')]; done.
Qed.
Next Obligation. intros [d|e]; apply dev_holds_sub. Qed.
End sum.

(** ** The crossbar as memory *)

Section xbar.
Context {D : Type} `{!mmio_dev D, !dev_memory D}.
Implicit Types x : xbar D.

(** One range maps the device of [e]. *)
Definition mapped_once x (e : entry) : Prop := ∀ e', e' ∈ devices x → e'.2 = e.2 → e' = e.

Definition xbar_covers x (a n : Z) : Prop :=
  xbar_ok x ∧ 0 < n ∧ ∃ e d, e ∈ devices x ∧ heap x !! e.2 = Some d ∧ mapped_once x e ∧
    holds_access e a n ∧ dev_holds d (a - e.1.1) n.

(** The byte of the bus at an address: that of the device whose range has it. *)
Definition xbar_byte x (k : Z) : Z :=
  match select x k with
  | Some e =>
      if (e.1.1 <=? k) && (k <? e.1.2)
      then match heap x !! e.2 with Some d => dev_byte d (k - e.1.1) | None => 0 end else 0
  | None => 0
  end.

(** The map and every device, up to what a memory keeps. *)
Definition xbar_kept : relation (xbar D) := λ x x',
  devices x' = devices x ∧ Forall2 dev_kept (heap x) (heap x').
#[global] Instance xbar_kept_preorder : PreOrder xbar_kept.
Proof.
  split.
  - intros x. split; [done|]. apply Forall2_same_length_lookup_2; [done|].
    intros i d d' E1 E2. by simplify_eq.
  - intros x y z [E1 H1] [E2 H2]. split; [congruence|]. by etrans.
Qed.

Lemma xbar_kept_ok x x' : xbar_kept x x' → xbar_ok x → xbar_ok x'.
Proof.
  intros [E H] [Hs He]. split; [by rewrite E|]. rewrite E. rewrite Forall_forall in He |- *.
  intros e Hin. destruct (He e Hin) as (H1 & H2 & H3 & H4). unfold entry_ok.
  assert (length (heap x) = length (heap x')) as <- by (by eapply Forall2_length). done.
Qed.

Lemma xbar_kept_back x x' : xbar_kept x x' → xbar_ok x' → xbar_ok x.
Proof.
  intros [E H] [Hs He]. rewrite E in Hs, He. split; [done|]. rewrite Forall_forall in He |- *.
  intros e Hin. destruct (He e Hin) as (H1 & H2 & H3 & H4). unfold entry_ok.
  assert (length (heap x) = length (heap x')) as -> by (by eapply Forall2_length). done.
Qed.

Lemma xbar_kept_covers x x' k n : xbar_kept x x' → xbar_covers x' k n ↔ xbar_covers x k n.
Proof.
  intros Hk. pose proof Hk as [E H]. unfold xbar_covers, mapped_once. rewrite E.
  assert (∀ (e : entry) (P Q : D → Prop), (∀ d d', dev_kept d d' → P d' ↔ Q d) →
    (∃ d, heap x' !! e.2 = Some d ∧ P d) ↔ ∃ d, heap x !! e.2 = Some d ∧ Q d) as Hdev.
  { intros e P Q HPQ. split; intros (d & Hd & HP).
    - destruct (Forall2_lookup_r _ _ _ _ _ H Hd) as (d0 & Hd0 & K). exists d0. split; [done|]. by apply (HPQ d0 d).
    - destruct (Forall2_lookup_l _ _ _ _ _ H Hd) as (d0 & Hd0 & K). exists d0. split; [done|]. by apply (HPQ d d0). }
  split; intros (Hok & Hn & e & d & Hin & Hd & Ho & Ha & Hh); (split; [|split; [done|]]).
  - by eapply xbar_kept_back.
  - destruct (proj1 (Hdev e (λ d, dev_holds d (k - e.1.1) n) (λ d, dev_holds d (k - e.1.1) n)
      ltac:(intros; by apply dev_kept_holds))) as (d0 & Hd0 & Hh0); [by exists d|]. by exists e, d0.
  - by eapply xbar_kept_ok.
  - destruct (proj2 (Hdev e (λ d, dev_holds d (k - e.1.1) n) (λ d, dev_holds d (k - e.1.1) n)
      ltac:(intros; by apply dev_kept_holds))) as (d0 & Hd0 & Hh0); [by exists d|]. by exists e, d0.
Qed.

(** A byte in the range of an entry is a byte of its device. *)
Lemma xbar_byte_in x (e : entry) d k :
  xbar_ok x → e ∈ devices x → heap x !! e.2 = Some d → e.1.1 <= k < e.1.2 →
  xbar_byte x k = dev_byte d (k - e.1.1).
Proof.
  intros Hx He Hd Hk. unfold xbar_byte. rewrite (select_spec x k e) by done.
  rewrite (proj2 (Z.leb_le _ _)), (proj2 (Z.ltb_lt _ _)) by lia. cbn [andb]. by rewrite Hd.
Qed.

Lemma seqZ_shift (f : Z → Z) a n c : f <$> seqZ (a - c) n = (λ k, f (k - c)) <$> seqZ a n.
Proof.
  replace a with (c + (a - c)) at 2 by lia. rewrite <- (fmap_add_seqZ c (a - c) n), <- list_fmap_compose.
  apply list_fmap_ext. intros _ k _. cbn. f_equal. lia.
Qed.

Lemma xbar_read_law x a n :
  0 < n → xbar_covers x a n →
  xbar_do_read x a n = mret (RESP_OKEY, Some (xbar_byte x <$> seqZ a n), x).
Proof.
  intros Hn (Hx & _ & e & d & He & Hd & Ho & Ha & Hh).
  destruct (select_holds x a n e Hx Hn He Ha) as (Es & _ & Eb & Eu & Ez & Em). destruct e as [[lo hi] i].
  cbn [fst snd] in *. unfold xbar_do_read. rewrite Es. cbv zeta. rewrite Eb, Eu, Ez, Em. unfold deref_dev.
  rewrite Hd, io_bind_ret_l, dev_read_law, io_bind_ret_l by done. f_equal. f_equal.
  - do 2 f_equal. rewrite seqZ_shift. apply list_fmap_ext. intros j k Hk.
    apply lookup_seqZ in Hk as [-> Hj]. unfold holds_access in Ha. cbn [fst snd] in Ha.
    rewrite (xbar_byte_in x ((lo, hi), i) d) by (done || (cbn; lia)). done.
  - destruct x as [ds h]. cbn in *. f_equal. by apply list_insert_id.
Qed.

Lemma xbar_write_law x a l :
  0 < zlen l → xbar_covers x a (zlen l) →
  ∃ x', xbar_do_write x a l = mret (RESP_OKEY, x') ∧
    (∀ k, xbar_byte x' k =
       if decide (a <= k < a + zlen l) then default 0 (l !! Z.to_nat (k - a)) else xbar_byte x k) ∧
    xbar_kept x x'.
Proof.
  intros Hn (Hx & _ & e & d & He & Hd & Ho & Ha & Hh).
  destruct (select_holds x a (zlen l) e Hx Hn He Ha) as (Es & _ & Eb & Eu & Ez & Em).
  destruct (dev_write_law d (a - e.1.1) l Hn Hh) as (d' & Ew & Hby & Hk).
  set (x' := Xbar (devices x) (<[e.2 := d']> (heap x))).
  assert (xbar_kept x x') as Hkept.
  { split; [done|]. apply Forall2_same_length_lookup_2; [unfold x'; cbn; by rewrite length_insert|]. unfold x'. cbn.
    intros j d1 d2 H1 H2. destruct (decide (j = e.2)) as [->|Hj].
    - rewrite list_lookup_insert_eq in H2 by (by eapply lookup_lt_Some). by simplify_eq.
    - rewrite list_lookup_insert_ne in H2 by done. by simplify_eq. }
  exists x'. split; [|split; [|done]].
  - unfold xbar_do_write. rewrite Es. destruct e as [[lo hi] i]. cbn [fst snd] in *. cbv zeta.
    rewrite Eb, Eu, Ez, Em. unfold deref_dev. by rewrite Hd, io_bind_ret_l, Ew, io_bind_ret_l.
  - pose proof (xbar_kept_ok _ _ Hkept Hx) as Hx'. intros k. unfold holds_access in Ha.
    destruct (decide (e.1.1 <= k < e.1.2)) as [Hin|Hout].
    + rewrite (xbar_byte_in x' e d'), (xbar_byte_in x e d), Hby; try done.
      * replace (k - e.1.1 - (a - e.1.1)) with (k - a) by lia.
        destruct (decide (a <= k < a + zlen l)); [by rewrite decide_True by lia|by rewrite decide_False by lia].
      * cbn. apply list_lookup_insert_eq. by eapply lookup_lt_Some.
    + rewrite decide_False by lia. unfold xbar_byte. change (select x' k) with (select x k).
      destruct (select x k) as [e'|] eqn:Es'; [|done]. apply select_sound in Es'.
      destruct ((e'.1.1 <=? k) && (k <? e'.1.2)) eqn:Er; [|done]. cbn.
      rewrite list_lookup_insert_ne; [done|]. intros Hp. apply Hout. assert (e' = e) as ->.
      { by apply Ho. } bool_to_prop. lia.
Qed.

#[global] Program Instance xbar_memory : axi_memory (xbar D) := {|
  covers := xbar_covers;
  byte_at := xbar_byte;
  kept := xbar_kept
|}.
Next Obligation. intros. by apply xbar_kept_covers. Qed.
Next Obligation. intros. by apply xbar_read_law. Qed.
Next Obligation. intros. by apply xbar_write_law. Qed.
Next Obligation.
  intros x a n a' n' (Hx & _ & e & d & He & Hd & Ho & Ha & Hh) H1 H2 H3. split; [done|]. split; [done|].
  exists e, d. unfold holds_access in *. split_and!; [done|done|done|lia|lia|].
  eapply dev_holds_sub; [exact Hh|lia..].
Qed.
End xbar.

(** ** Properties *)

(** The system of the simulation top: RAMs and serial ports. *)
Notation soc_bus := (xbar (ram + uartlite)).

Lemma soc_covers (x : soc_bus) lo hi i m a n :
  xbar_ok x → ((lo, hi), i) ∈ devices x → mapped_once x ((lo, hi), i) → heap x !! i = Some (inl m) →
  hi - lo <= mem_size m < 2 ^ 64 → 0 < n → lo <= a → a + n <= hi → covers x a n.
Proof.
  intros Hx Hin Ho Hd Hm Hn Hlo Hhi. split; [done|]. split; [done|]. exists ((lo, hi), i), (inl m).
  split_and!; [done|done|done|done|]. cbn. unfold ram_covers. lia.
Qed.

(** C10. A burst through the whole bus.  On a crossbar of RAMs and serial ports, a
    legal burst of aligned words inside the range of a RAM that is mapped once
    is written with an OKAY response into that RAM, at its offset in the range,
    and a burst that reads it back returns the words; no other byte of the bus
    changes, no serial port notices, and the map is as it was. *)
Theorem soc_bursts q bs w r (x : soc_bus) p p0 lo hi i m :
  xbar_ok x → ((lo, hi), i) ∈ devices x → mapped_once x ((lo, hi), i) → heap x !! i = Some (inl m) →
  hi - lo <= mem_size m < 2 ^ 64 → lo <= q_addr q → q_addr q + q_tot q <= hi →
  legal q → q_size q = 3 → q_addr q mod 8 = 0 → Z.of_nat (length bs) = q_nr q → all_lanes_on 8 (q_addr q) bs →
  write_busy w = false → b_busy w = false → awready p = 1 →
  read_busy r = false → read_last r = false → read_wait r = false → arready p0 = 1 →
  ∃ w' (x' : soc_bus) p' ps r' p'' m', write_burst q bs w x p = mret (w', x', p') ∧ bresp p' = resp_code RESP_OKEY ∧
    read_burst q r x' p0 = mret (ps, r', x', p'') ∧ length ps = length bs ∧
    (∀ j y strb pj, bs !! j = Some (y, strb) → ps !! j = Some pj → rdata pj = u64 y) ∧
    devices x' = devices x ∧ heap x' !! i = Some (inl m') ∧
    (∀ k, lo <= k < hi → get (mem m') (k - lo) = written 8 (q_addr q) bs x k) ∧
    (∀ k, ¬ (q_addr q <= k < q_addr q + 8 * Z.of_nat (length bs)) → xbar_byte x' k = xbar_byte x k) ∧
    (∀ j u, heap x !! j = Some (inr u) → heap x' !! j = Some (inr u)).
Proof.
  intros Hx Hin Ho Hd Hm Hlo Hhi Hq Hsz Hal Hlen Hst Hb Hbb Ha Rb Rl Rw Ra.
  assert (q_each q = 8) as He by (unfold q_each; by rewrite Hsz).
  assert (q_tot q = 8 * q_nr q) as Ht by (unfold q_tot; rewrite He, Hal; lia).
  pose proof (legal_len q Hq) as Hql. unfold q_nr in *.
  destruct (roundtrip_run q bs w r x p p0) as (w' & x' & p' & ps & r' & p'' & Ew & _ & Hr & Hby & Hk & Er & Hl & Hall);
    [done|done|done|done|eapply soc_covers; eauto; lia|done..|].
  pose proof Hk as [Hdev Hheap]. destruct (Forall2_lookup_l _ _ _ _ _ Hheap Hd) as (d' & Hd' & K).
  destruct d' as [m'|]; [|done]. exists w', x', p', ps, r', p'', m'. split_and!; try done.
  - intros k Hkr. rewrite <- Hby. change (byte_at x' k) with (xbar_byte x' k).
    rewrite (xbar_byte_in x' ((lo, hi), i) (inl m') k); [done| |by rewrite Hdev|done|done].
    by apply (xbar_kept_ok x).
  - intros k Hout. change (xbar_byte x' k) with (byte_at x' k). rewrite Hby. unfold written.
    by rewrite decide_False.
  - intros j u Hu. destruct (Forall2_lookup_l _ _ _ _ _ Hheap Hu) as ([|u'] & -> & Ku); [done|]. by rewrite <- Ku.
Qed.

(** ** Witness *)

(** Two words at offset 0x40 of the RAM of [Xbar.soc]. *)
Definition soc_req : request := Request 5 0x80000040 1 3.

Lemma soc_bursts_witness :
  ∃ w' x' p' ps r' p'', write_burst soc_req words wstate_init soc idle_pins = mret (w', x', p') ∧
    read_burst soc_req rstate_init x' idle_pins = mret (ps, r', x', p'') ∧ length ps = 2%nat ∧
    heap x' !! 1%nat = Some (inr uartlite_init).
Proof.
  destruct (soc_bursts soc_req words wstate_init rstate_init soc idle_pins idle_pins 0x80000000 0x80001000 0
    (mmio_mem ∅ 4096)) as (w' & x' & p' & ps & r' & p'' & m' & Ew & _ & Er & Hl & _ & _ & _ & _ & _ & Hu).
  - exact soc_ok.
  - left.
  - intros e' He'. cbn in He'. rewrite !elem_of_cons, elem_of_nil in He'.
    destruct He' as [->|[->|[]]]; [reflexivity|discriminate].
  - reflexivity.
  - cbn. lia.
  - cbn. lia.
  - vm_compute. discriminate.
  - split; vm_compute; repeat split; congruence.
  - reflexivity.
  - reflexivity.
  - reflexivity.
  - intros j x strb Hj k Hk. replace ((q_addr soc_req + Z.of_nat j * 8) mod 8) with ((0x1000 + Z.of_nat j * 8) mod 8) in Hk
      by (rewrite !Z.mod_add by lia; reflexivity).
    exact (words_on j x strb Hj k Hk).
  - reflexivity.
  - reflexivity.
  - reflexivity.
  - reflexivity.
  - reflexivity.
  - reflexivity.
  - reflexivity.
  - exists w', x', p', ps, r', p''. split; [exact Ew|]. split; [exact Er|]. split; [exact Hl|].
    apply Hu. reflexivity.
Defined.
