(* ===== verification/Duplex.v ===== *)
(** * Reads and writes at the same time
    [AxiBurst] looks at one channel at a time; the slave's [beat] runs the read
    channel and then the write channel in every cycle.  The two share nothing
    but the memory, and a read burst looks at the memory in the cycle of its
    request only.  So a read burst that arrives while a write burst is under
    way returns what the beats accepted so far have left, whatever is written
    under it later. *)
From stdpp Require Import base numbers list option gmap.
From S2P Require Import Prelude Bytes Axi4 Devices AxiSlave AxiBurst.

Local Open Scope Z_scope.

(** ** The channels share no signals *)

(** The read channels of [pr] with the write channels of [pw]. *)
Definition merge (pr pw : axi4) : axi4 :=
  Signals (awid pw) (awaddr pw) (awlen pw) (awsize pw) (awburst pw) (awvalid pw) (awready pw)
    (wdata pw) (wstrb pw) (wlast pw) (wvalid pw) (wready pw) (bid pw) (bresp pw) (bvalid pw) (bready pw)
    (arid pr) (araddr pr) (arlen pr) (arsize pr) (arburst pr) (arvalid pr) (arready pr)
    (rid pr) (rdata pr) (rresp pr) (rlast pr) (rvalid pr) (rready pr).

Lemma merge_same p : merge p p = p.
Proof. by destruct p. Qed.

(** What the master drives in a cycle. *)
Definition drive (a : option request) (c : option request * option (Z * Z * Z)) (p : axi4) : axi4 :=
  drive_ar a (drive_w c.1 c.2 p).

Lemma drive_merge a c pr pw : drive a c (merge pr pw) = merge (drive_ar a pr) (drive_w c.1 c.2 pw).
Proof. by destruct a, c as [[q|] [[[x y] z]|]]. Qed.

Section duplex.
Context {B : Type} {BK : axi_backend B}.

Lemma read_beat_merge r d pr pw :
  read_beat r d (merge pr pw) = '(r, d, p) ← read_beat r d pr; mret (r, d, merge p pw).
Proof.
  unfold read_beat. change (rready (merge pr pw)) with (rready pr).
  destruct (truthy (rready pr) || (r_cur_trans r =? 0)); [|done]. cbv zeta.
  set (r1 := if _ =? _ then _ else _). destruct (r_early_err r1); [done|].
  destruct (bool_decide (r_burst_type r1 = BURST_FIXED)); rewrite io_bind_assoc; apply io_bind_ext.
  - intros [[resp data] d1] _. rewrite io_bind_assoc. by apply io_bind_ext.
  - by intros w _.
Qed.

Lemma read_channel_merge r d pr pw :
  read_channel r d (merge pr pw) = '(r, d, p) ← read_channel r d pr; mret (r, d, merge p pw).
Proof.
  unfold read_channel. change (rvalid (merge pr pw)) with (rvalid pr).
  destruct (read_last r && truthy (rvalid pr)); [destruct (read_wait r)|];
    rewrite io_bind_assoc; (apply io_bind_ext; intros [r1 d1] _); rewrite io_bind_assoc;
    (destruct (read_busy r1); [|by rewrite !io_bind_ret_l]);
    [change (set_r (merge pr pw) _ _ _ _ _) with (merge (set_r pr (rid pr) (rdata pr) (rresp pr) 0 0) pw)..|];
    rewrite read_beat_merge, io_bind_assoc; apply io_bind_ext; by intros [[r2 d2] p2] _.
Qed.

Lemma write_channel_merge w d pr pw :
  write_channel w d (merge pr pw) = '(w, d, p) ← write_channel w d pw; mret (w, d, merge pr p).
Proof.
  unfold write_channel. rewrite io_bind_assoc. apply io_bind_ext. intros w1 _.
  rewrite io_bind_assoc. apply io_bind_ext. intros [w2 d2] _.
  change (b_beat w2 (merge pr pw)) with ((b_beat w2 pw).1, merge pr (b_beat w2 pw).2).
  destruct (b_busy w2); [|done]. by destruct (b_beat w2 pw).
Qed.

Lemma beat_merge r w d pr pw :
  beat (Slave r w d) (merge pr pw)
  = '(r, d, pr) ← read_channel r d pr; '(w, d, pw) ← write_channel w d pw; mret (Slave r w d, merge pr pw).
Proof.
  unfold beat. cbn [rs ws dev]. rewrite read_channel_merge, io_bind_assoc. apply io_bind_ext. intros [[r1 d1] p1] _.
  rewrite io_bind_ret_l, write_channel_merge, io_bind_assoc. apply io_bind_ext. by intros [[w1 d2] p2] _.
Qed.

(** ** Runs *)

(** The signals after each cycle, and the end. *)
Fixpoint run_slave (script : list (option request * (option request * option (Z * Z * Z))))
    (s : slave B) (p : axi4) : io (list axi4 * slave B) :=
  match script with
  | [] => mret ([], s)
  | (a, c) :: script =>
      '(s, p) ← beat s (drive a c p);
      '(ps, s) ← run_slave script s p;
      mret (p :: ps, s)
  end.

(** A run of the read channel over the memories [ds], one for each cycle, none
    of which it changes. *)
Fixpoint reads_over (r : rstate) (p : axi4) (tl : list (option request * B)) (ps : list axi4) : Prop :=
  match tl, ps with
  | [], [] => True
  | (a, d) :: tl, p' :: ps =>
      ∃ r', read_channel r d (drive_ar a p) = mret (r', d, p') ∧ reads_over r' p' tl ps
  | _, _ => False
  end.

(** A run of the write channel: [ds] are the memories before its cycles. *)
Fixpoint writes_over (w : wstate) (d : B) (p : axi4) (cs : list (option request * option (Z * Z * Z)))
    (ds : list B) (ps : list axi4) (d' : B) : Prop :=
  match cs, ds, ps with
  | [], [], [] => d' = d
  | c :: cs, d0 :: ds, p' :: ps =>
      d0 = d ∧ ∃ w' d1, write_channel w d (drive_w c.1 c.2 p) = mret (w', d1, p') ∧
        writes_over w' d1 p' cs ds ps d'
  | _, _, _ => False
  end.

(** The slave is the two channels side by side. *)
Lemma run_slave_split w d pr pw r d' cs ds pws tl prs :
  writes_over w d pw cs ds pws d' → reads_over r pr tl prs → tl.*2 = ds →
  ∃ s', run_slave (zip tl.*1 cs) (Slave r w d) (merge pr pw) = mret (zip_with merge prs pws, s') ∧ dev s' = d'.
Proof.
  revert w d pr pw r ds pws tl prs.
  induction cs as [|c cs IH]; intros w d pr pw r [|d0 ds] [|p' pws] [|[a d1] tl] [|p1 prs] Hw Hr [=]; cbn in Hw, Hr;
    try done.
  { subst. by eexists. }
  destruct Hw as (-> & w' & d2 & Ew & Hw), Hr as (r' & Er & Hr). simplify_eq.
  destruct (IH w' d2 p1 p' r' _ pws tl prs Hw Hr eq_refl) as (s' & E & Hs). exists s'. split; [|done].
  cbn [fmap list_fmap zip zip_with fst run_slave]. rewrite drive_merge, beat_merge, Er, !io_bind_ret_l, Ew, io_bind_ret_l.
  cbv iota. rewrite io_bind_ret_l. fold (zip tl.*1 cs). by rewrite E, io_bind_ret_l.
Qed.

(** *** Idle cycles *)

Definition quiet (ds : list B) : list (option request * B) := pair None <$> ds.

Lemma read_channel_quiet r d p :
  read_busy r = false → read_wait r = false →
  ∃ r' p', read_channel r d (drive_ar None p) = mret (r', d, p') ∧ read_busy r' = false ∧ read_wait r' = false ∧
    (read_last r = false → r' = r) ∧ arready p' = 1.
Proof.
  intros Hb Hw. unfold read_channel. rewrite Hw.
  destruct (read_last r && truthy (rvalid (drive_ar None p))) eqn:E;
    change (truthy (arvalid _)) with false; rewrite andb_false_r, io_bind_ret_l; cbn [read_busy set_phase]; rewrite Hb;
    rewrite io_bind_ret_l; cbn [read_busy read_wait set_phase]; rewrite ?Hb, ?Hw; eexists _, _;
    (split; [reflexivity|]); cbn [read_busy read_wait set_phase]; split_and!; try done.
  intros Hl. by rewrite Hl in E.
Qed.

Lemma reads_quiet ds r p :
  read_busy r = false → read_wait r = false →
  ∃ r' p' ps, length ps = length ds ∧ (read_last r = false → r' = r) ∧ (arready p = 1 → arready p' = 1) ∧
    ∀ tl qs, reads_over r' p' tl qs → reads_over r p (quiet ds ++ tl) (ps ++ qs).
Proof.
  revert r p. induction ds as [|d ds IH]; intros r p Hb Hw; [by exists r, p, []|].
  destruct (read_channel_quiet r d p Hb Hw) as (r1 & p1 & E & Hb1 & Hw1 & Hr1 & Ha1).
  destruct (IH r1 p1 Hb1 Hw1) as (r' & p' & ps & Hl & Hr & Ha & Hrun).
  exists r', p', (p1 :: ps). split_and!; [cbn; lia| |auto|].
  - intros H. rewrite Hr; [auto|]. by rewrite Hr1.
  - intros tl qs H. cbn. exists r1. split; [done|]. by apply Hrun.
Qed.

Lemma writes_idle n w d p :
  write_busy w = false →
  ∃ ps, length ps = n ∧ writes_over w d p (replicate n (None, None)) (replicate n d) ps d.
Proof.
  revert w p. induction n as [|n IH]; intros w p Hb; [by exists []|].
  assert (∃ w' p', write_channel w d (drive_w None None p) = mret (w', d, p') ∧ write_busy w' = false)
    as (w' & p' & E & Hb').
  { unfold write_channel. change (truthy (awvalid _)) with false. rewrite andb_false_r, io_bind_ret_l, Hb, io_bind_ret_l.
    destruct (b_busy w); [|by eexists _, _]. unfold b_beat. by destruct (_ && _); eexists _, _. }
  destruct (IH w' p' Hb') as (ps & Hl & H). exists (p' :: ps). split; [cbn; lia|].
  cbn. split; [done|]. by exists w', d.
Qed.
End duplex.

(** ** Two bursts *)

(** The data beats as [AxiBurst.write_beats] drives them. *)
Fixpoint beats_of (bs : list (Z * Z)) : list (option request * option (Z * Z * Z)) :=
  match bs with
  | [] => []
  | (x, strb) :: bs => (None, Some (x, strb, Z.b2z (bool_decide (bs = [])))) :: beats_of bs
  end.

(** The write burst starts at once, the read request comes in cycle [j]; there
    are enough cycles for both to end. *)
Definition write_script (j : nat) (q1 q2 : request) (bs : list (Z * Z)) : list (option request * option (Z * Z * Z)) :=
  (Some q2, None) :: beats_of bs ++ replicate (j + Z.to_nat (q_nr q1)) (None, None).
Definition read_script (j : nat) (q1 : request) (bs : list (Z * Z)) : list (option request) :=
  replicate j None ++ Some q1 :: replicate (length bs + Z.to_nat (q_nr q1)) None.
Definition overlapped (j : nat) (q1 q2 : request) (bs : list (Z * Z)) :
    list (option request * (option request * option (Z * Z * Z))) :=
  zip (read_script j q1 bs) (write_script j q1 q2 bs).

Section bursts.
Context {B : Type} {BK : axi_backend B} {MEM : axi_memory B}.

(** The beats of a read burst that are left, over any memories. *)
Lemma reads_beats q data ds k p :
  legal q → 0 < k → k + Z.of_nat (length ds) = q_nr q →
  ∃ p' ps, length ps = length ds ∧
    (∀ i p, ps !! i = Some p →
      rid p = q_id q ∧ rdata p = beat_word q data (k + Z.of_nat i) ∧ rresp p = 0 ∧ rvalid p = 1 ∧
      rlast p = Z.b2z (k + Z.of_nat i + 1 =? q_nr q)) ∧
    ∀ tl qs, reads_over (burst_r q data (q_nr q)) p' tl qs →
      reads_over (burst_r q data k) p (quiet ds ++ tl) (ps ++ qs).
Proof.
  intros Hq. revert k p. induction ds as [|d ds IH]; intros k p Hk Hn; cbn [length] in Hn.
  { exists p, []. assert (k = q_nr q) as -> by lia. by split_and!. }
  pose proof (read_channel_next q data k d p Hq ltac:(lia)) as E.
  match type of E with _ = mret (_, _, ?x) => set (p1 := x) in * end.
  destruct (IH (k + 1) p1) as (p' & ps & Hl & Hall & Hrun); [lia..|].
  exists p', (p1 :: ps). split_and!; [cbn; lia| |].
  - intros [|i] p0 Hi.
    + cbn in Hi. simplify_eq. rewrite Z.add_0_r. done.
    + apply Hall in Hi. by replace (k + Z.of_nat (S i)) with (k + 1 + Z.of_nat i) by lia.
  - intros tl qs H. cbn. eexists. split; [exact E|]. by apply Hrun.
Qed.

(** A read burst whose request meets the memory [d]; the others do not matter. *)
Lemma reads_burst q r d ds p :
  legal q → covers d (q_addr q) (q_tot q) → Z.of_nat (length ds) = q_len q →
  read_busy r = false → read_last r = false → read_wait r = false → arready p = 1 →
  ∃ r' p' ps, length ps = S (length ds) ∧ read_busy r' = false ∧ read_wait r' = false ∧
    (∀ i p, ps !! i = Some p → beat_ok q d (Z.of_nat i) p) ∧
    ∀ tl qs, reads_over r' p' tl qs → reads_over r p ((Some q, d) :: quiet ds ++ tl) (ps ++ qs).
Proof.
  intros Hq Hd Hlen Hb Hl Hw Ha. pose proof (legal_bounds q Hq) as (_ & _ & _ & Hn & _).
  destruct (read_channel_first q r d p Hq Hd Hb Hl Hw Ha) as [data E].
  match type of E with _ = mret (_, _, ?x) => set (p1 := x) in * end.
  destruct (reads_beats q (burst_data q d data) ds 1 p1 Hq) as (p' & ps & Hps & Hall & Hrun); [lia|unfold q_nr in *; lia|].
  exists (burst_r q (burst_data q d data) (q_nr q)), p', (p1 :: ps). cbn [read_busy read_wait burst_r].
  rewrite Z.ltb_irrefl. split_and!; [cbn; lia|done|done| |].
  - intros [|i] p0 Hi.
    + cbn in Hi. simplify_eq. apply (beat_ok_intro _ _ data); done || lia.
    + pose proof (lookup_lt_Some _ _ _ Hi) as Hlt. cbn in Hlt. apply (Hall i) in Hi as (H1 & H2 & H3 & H4 & H5).
      replace (Z.of_nat (S i)) with (1 + Z.of_nat i) by lia. apply (beat_ok_intro _ _ data); try done. unfold q_nr. lia.
  - intros tl qs H. cbn. eexists. split; [exact E|]. by apply Hrun.
Qed.

(** What the master sees at the end of a write burst. *)
Definition write_done (q : request) (p : axi4) : Prop :=
  bvalid p = 1 ∧ bresp p = resp_code RESP_OKEY ∧ bid p = q_id q.

Lemma written_nil each a0 d a : written each a0 [] d a = byte_at d a.
Proof. unfold written. by rewrite decide_False by (cbn; lia). Qed.

(** The data beats of a write burst: the memory before beat [i] holds the beats
    before it. *)
Lemma writes_beats q bs k d p :
  legal q → q_addr q mod q_each q = 0 → 0 <= k → k + Z.of_nat (length bs) = q_nr q → bs ≠ [] →
  covers d (q_addr q) (q_tot q) → all_lanes_on (q_each q) (q_addr q + k * q_each q) bs →
  wready p = 1 → bvalid p = 0 →
  ∃ w' d' p' ds ps, length ds = length bs ∧ length ps = length bs ∧ write_busy w' = false ∧
    (∃ pl, ps !! (length bs - 1)%nat = Some pl ∧ write_done q pl) ∧
    (∀ i di, (ds ++ [d']) !! i = Some di → kept d di ∧
      ∀ a, byte_at di a = written (q_each q) (q_addr q + k * q_each q) (take i bs) d a) ∧
    ∀ cs2 ds2 ps2 d2, writes_over w' d' p' cs2 ds2 ps2 d2 →
      writes_over (burst_w q k k) d p (beats_of bs ++ cs2) (ds ++ ds2) (ps ++ ps2) d2.
Proof.
  intros Hq Hal. pose proof (legal_each q Hq) as He. assert (0 < q_each q) as Hpos by lia.
  revert k d p. induction bs as [|[x strb] bs IH]; intros k d p Hk Hlen Hne Hd Hst Hr Hbv; [done|].
  cbn [length] in *.
  destruct (write_channel_next q k x strb (Z.b2z (bool_decide (bs = []))) d p)
    as (cur & d1 & p1 & E & Hcur & Hmid & Hend & Hby & Hc); [done|done|lia|done| | |done|done|].
  { specialize (Hst 0%nat x strb eq_refl). by rewrite Z.mul_0_l, Z.add_0_r in Hst. }
  { f_equal. case_bool_decide as Hnil; [subst; cbn in *; lia|]. destruct bs; [done|]. cbn in *. lia. }
  set (a0 := q_addr q + k * q_each q) in *.
  assert (∀ l a, written (q_each q) (q_addr q + (k + 1) * q_each q) l d1 a =
               written (q_each q) a0 ((x, strb) :: l) d a) as Hwr.
  { intros l a. replace (q_addr q + (k + 1) * q_each q) with (a0 + q_each q) in * by (unfold a0; lia).
    by apply written_cons. }
  destruct (decide (bs = [])) as [->|Hbs].
  - destruct Hend as (H1 & H2 & H3); [cbn in Hlen; lia|].
    exists (burst_w q (k + 1) cur), d1, p1, [d], [p1]. cbn [length] in *. split_and!; [done|done| |by exists p1| |].
    + cbn [write_busy burst_w]. lia.
    + intros [|[|i]] di Hi; cbn in Hi; simplify_eq; (split; [done|]); intros a; cbn [take].
      * by rewrite written_nil.
      * by rewrite <- (Hwr [] a), written_nil.
    + intros cs2 ds2 ps2 d2 H. cbn. split; [done|]. by exists (burst_w q (k + 1) cur), d1.
  - assert (length bs ≠ 0%nat) as Hl0 by (by destruct bs).
    destruct Hmid as [M1 M2]; [lia|]. rewrite Hcur in E by lia.
    destruct (IH (k + 1) d1 p1) as (w' & d' & p' & ds & ps & L1 & L2 & Hbw & (pl & Hpl & Hdone) & Hds & Hrun);
      [lia|lia|done| | |done|done|].
    + by apply (kept_covers d d1).
    + intros i y st Hi. specialize (Hst (S i) y st Hi). unfold a0 in Hst.
      by replace (q_addr q + (k + 1) * q_each q + Z.of_nat i * q_each q)
        with (q_addr q + k * q_each q + Z.of_nat (S i) * q_each q) by lia.
    + exists w', d', p', (d :: ds), (p1 :: ps). cbn [length]. split_and!; [lia|lia|done| | |].
      * exists pl. split; [|done]. by replace (S (length bs) - 1)%nat with (S (length bs - 1)) by lia.
      * intros [|i] di Hi; cbn in Hi; [simplify_eq; split; [done|intros a; by rewrite written_nil]|].
        apply Hds in Hi as [Hk1 Hb1]. split; [by etrans|]. intros a. rewrite Hb1. cbn [take]. apply Hwr.
      * intros cs2 ds2 ps2 d2 H. cbn. split; [done|]. eexists _, d1. split; [exact E|]. by apply Hrun.
Qed.

(** The whole write burst and idle cycles behind it. *)
Lemma writes_burst q bs w d p n :
  legal q → q_addr q mod q_each q = 0 → Z.of_nat (length bs) = q_nr q →
  covers d (q_addr q) (q_tot q) → all_lanes_on (q_each q) (q_addr q) bs →
  write_busy w = false → b_busy w = false → awready p = 1 →
  ∃ d' ds ps, length ds = S (length bs + n) ∧ length ps = length ds ∧
    (∃ pl, ps !! length bs = Some pl ∧ write_done q pl) ∧
    (∀ i di, ds !! i = Some di → kept d di ∧
      ∀ a, byte_at di a = written (q_each q) (q_addr q) (take (i - 1) bs) d a) ∧
    (∀ a, byte_at d' a = written (q_each q) (q_addr q) bs d a) ∧
    writes_over w d p ((Some q, None) :: beats_of bs ++ replicate n (None, None)) ds ps d'.
Proof.
  intros Hq Hal Hlen Hd Hst Hb Hbb Ha. pose proof (legal_bounds q Hq) as (_ & _ & _ & Hn & _).
  destruct (write_channel_first q w d p Hq Hb Hbb Ha) as (p1 & E & Hr & Hbv).
  replace (WState _ _ _ _ _ _ _ _ _ _ _ _) with (burst_w q 0 0) in E.
  2:{ unfold burst_w, q_base. rewrite Hal. assert ((0 <? q_nr q) = true) as -> by lia.
      assert ((0 =? q_nr q) = false) as -> by lia. f_equal. }
  assert (bs ≠ []) as Hne by (intros ->; cbn in Hlen; lia).
  destruct (writes_beats q bs 0 d p1) as (w' & d' & p' & ds & ps & L1 & L2 & Hbw & (pl & Hpl & Hdone) & Hds & Hrun);
    [done|done|lia|lia|done|done| |done|done|].
  { by rewrite Z.mul_0_l, Z.add_0_r. }
  destruct (writes_idle n w' d' p' Hbw) as (qs & Lq & Hidle). rewrite Z.mul_0_l, Z.add_0_r in Hds.
  assert (length bs ≠ 0%nat) as Hb0 by (by destruct bs).
  exists d', (d :: ds ++ replicate n d'), (p1 :: ps ++ qs). cbn [length]. rewrite !length_app, length_replicate.
  assert (kept d d' ∧ ∀ a, byte_at d' a = written (q_each q) (q_addr q) bs d a) as [Kd' Wd'].
  { destruct (Hds (length bs) d') as [H1 H2]; [by rewrite lookup_app_r, L1, Nat.sub_diag by lia|].
    split; [done|]. intros a. by rewrite H2, take_ge by lia. }
  split_and!; [lia|lia| | |done|].
  - exists pl. split; [|done]. destruct (length bs) as [|m] eqn:Em; [done|]. cbn [Nat.sub] in Hpl. rewrite Nat.sub_0_r in Hpl.
    change ((ps ++ qs) !! m = Some pl). by rewrite lookup_app_l by lia.
  - intros [|i] di Hi; cbn in Hi.
    + simplify_eq. split; [done|]. intros a. cbn. by rewrite written_nil.
    + change ((ds ++ replicate n d') !! i = Some di) in Hi. cbn [Nat.sub]. rewrite Nat.sub_0_r. destruct (decide (i < length ds)%nat).
      * rewrite lookup_app_l in Hi by lia. apply Hds. by rewrite lookup_app_l by lia.
      * rewrite lookup_app_r in Hi by lia. apply lookup_replicate in Hi as [-> _]. split; [done|].
        intros a. by rewrite Wd', take_ge by lia.
  - cbn. split; [done|]. exists (burst_w q 0 0), d. split; [done|]. by apply Hrun.
Qed.

(** The whole read burst among idle cycles. *)
Lemma reads_among q r p ds1 d ds2 :
  legal q → covers d (q_addr q) (q_tot q) → q_len q <= Z.of_nat (length ds2) →
  read_busy r = false → read_last r = false → read_wait r = false → arready p = 1 →
  ∃ ps, length ps = length (ds1 ++ d :: ds2) ∧
    (∀ i pi, (i < Z.to_nat (q_nr q))%nat → ps !! (length ds1 + i)%nat = Some pi → beat_ok q d (Z.of_nat i) pi) ∧
    reads_over r p (quiet ds1 ++ (Some q, d) :: quiet ds2) ps.
Proof.
  intros Hq Hd Hlen Hb Hl Hw Ha. pose proof (legal_bounds q Hq) as (_ & _ & _ & Hn & _).
  destruct (reads_quiet ds1 r p Hb Hw) as (r1 & p1 & ps1 & L1 & Hr1 & Ha1 & Run1). rewrite Hr1 in Run1 by done.
  set (m := Z.to_nat (q_len q)). assert (ds2 = take m ds2 ++ drop m ds2) as E2 by (by rewrite take_drop).
  assert (length (take m ds2) = m) as Lm by (rewrite length_take; lia).
  destruct (reads_burst q r d (take m ds2) p1) as (r2 & p2 & ps2 & L2 & Hb2 & Hw2 & Hok & Run2); [done|done| |auto..|].
  { rewrite Lm. unfold m. unfold q_nr in *. lia. }
  destruct (reads_quiet (drop m ds2) r2 p2 Hb2 Hw2) as (r3 & p3 & ps3 & L3 & _ & _ & Run3).
  exists (ps1 ++ ps2 ++ ps3). split_and!.
  - rewrite !length_app. cbn [length]. rewrite L1, L2, L3, Lm, length_drop. lia.
  - intros i pi Hi Hpi. apply Hok. rewrite lookup_app_r, L1 in Hpi by lia.
    replace (length ds1 + i - length ds1)%nat with i in Hpi by lia.
    rewrite lookup_app_l in Hpi; [done|]. rewrite L2, Lm. unfold m, q_nr in *. lia.
  - apply Run1. rewrite E2 at 1. unfold quiet at 1. rewrite fmap_app. fold (quiet (take m ds2)) (quiet (drop m ds2)).
    apply Run2. specialize (Run3 [] []). rewrite !app_nil_r in Run3. by apply Run3.
Qed.

Lemma quiet_fst (ds : list B) : (quiet ds).*1 = replicate (length ds) None.
Proof. unfold quiet. induction ds as [|d ds IH]; [done|]. cbn. f_equal. apply IH. Qed.
Lemma quiet_snd (ds : list B) : (quiet ds).*2 = ds.
Proof. unfold quiet. induction ds as [|d ds IH]; [done|]. cbn. f_equal. apply IH. Qed.

(** C11. A read burst whose request comes in cycle [j] of a write burst: every beat
    of the read carries the bytes the first [j - 1] data beats have left in the
    memory, also those the later beats overwrite while it is running; the write
    burst is not disturbed, is acknowledged in the cycle of its last beat, and
    leaves all its data in the memory. *)
Theorem overlapping_bursts j q1 q2 bs r w d p :
  legal q1 → legal q2 → q_addr q2 mod q_each q2 = 0 → Z.of_nat (length bs) = q_nr q2 →
  covers d (q_addr q1) (q_tot q1) → covers d (q_addr q2) (q_tot q2) → all_lanes_on (q_each q2) (q_addr q2) bs →
  read_busy r = false → read_last r = false → read_wait r = false → arready p = 1 →
  write_busy w = false → b_busy w = false → awready p = 1 →
  ∃ trace s', run_slave (overlapped j q1 q2 bs) (Slave r w d) p = mret (trace, s') ∧
    (∃ dj, (∀ a, byte_at dj a = written (q_each q2) (q_addr q2) (take (j - 1) bs) d a) ∧
       ∀ i, (i < Z.to_nat (q_nr q1))%nat → ∃ pi, trace !! (j + i)%nat = Some pi ∧ beat_ok q1 dj (Z.of_nat i) pi) ∧
    (∃ pb, trace !! length bs = Some pb ∧ write_done q2 pb) ∧
    ∀ a, byte_at (dev s') a = written (q_each q2) (q_addr q2) bs d a.
Proof.
  intros Hq1 Hq2 Hal Hlen Hd1 Hd2 Hst Hrb Hrl Hrw Hra Hwb Hbb Hwa.
  pose proof (legal_bounds q1 Hq1) as (_ & _ & _ & Hn & _).
  set (n := (j + Z.to_nat (q_nr q1))%nat).
  destruct (writes_burst q2 bs w d p n) as (d' & ds & pws & L1 & L2 & (pb & Hpb & Hdone) & Hds & Hd' & Hrun); [done..|].
  destruct (lookup_lt_is_Some_2 ds j) as [dj Hj]; [lia|]. destruct (Hds _ _ Hj) as [Kj Wj].
  pose proof (take_drop_middle ds j dj Hj) as E. set (ds1 := take j ds) in *. set (ds2 := drop (S j) ds) in *.
  assert (length ds1 = j) as M1 by (unfold ds1; rewrite length_take; lia).
  assert (length ds2 = length bs + Z.to_nat (q_nr q1))%nat as M2 by (unfold ds2; rewrite length_drop; lia).
  destruct (reads_among q1 r p ds1 dj ds2) as (prs & L3 & Hok & Hreads); [done| | |done..|].
  { by apply (kept_covers d dj). }
  { unfold q_nr in *. lia. }
  rewrite E in L3.
  destruct (run_slave_split w d p p r d' _ ds pws _ prs Hrun Hreads) as (s' & Erun & Es).
  { rewrite fmap_app, quiet_snd. cbn. by rewrite quiet_snd. }
  rewrite fmap_app, quiet_fst, M1 in Erun. cbn [fmap list_fmap fst] in Erun. fold (quiet ds2).*1 in Erun.
  rewrite quiet_fst, M2, merge_same in Erun.
  exists (zip_with merge prs pws), s'. split_and!; [exact Erun| | |intros a; by rewrite Es].
  - exists dj. split; [done|]. intros i Hi.
    destruct (lookup_lt_is_Some_2 prs (j + i)%nat) as [pr Hpr]; [lia|].
    destruct (lookup_lt_is_Some_2 pws (j + i)%nat) as [pw Hpw]; [lia|].
    exists (merge pr pw). rewrite lookup_zip_with, Hpr, Hpw. split; [done|].
    rewrite <- M1 in Hpr. by apply (Hok i pr Hi).
  - destruct (lookup_lt_is_Some_2 prs (length bs)) as [pr Hpr]; [lia|].
    exists (merge pr pb). by rewrite lookup_zip_with, Hpr, Hpb.
Qed.
End bursts.

(** *** At work *)

(** The words of [req64] are written while they are read: the request comes when
    one of them is in. *)
Lemma overlapping_bursts_witness :
  ∃ trace s', run_slave (overlapped 2 req64 req64 words) (Slave rstate_init wstate_init mem8k) idle_pins
      = mret (trace, s') ∧
    (∃ dj, (∀ a, byte_at dj a = written 8 0x1000 (take 1 words) mem8k a) ∧
       ∀ i, (i < 2)%nat → ∃ pi, trace !! (2 + i)%nat = Some pi ∧ beat_ok req64 dj (Z.of_nat i) pi) ∧
    (∃ pb, trace !! 2%nat = Some pb ∧ write_done req64 pb) ∧
    ∀ a, byte_at (dev s') a = written 8 0x1000 words mem8k a.
Proof.
  apply (overlapping_bursts 2 req64 req64 words rstate_init wstate_init mem8k idle_pins req64_legal req64_legal);
    [reflexivity|reflexivity|apply mem8k_covers; vm_compute; congruence|apply mem8k_covers; vm_compute; congruence
    |exact words_on|reflexivity..].
Defined.
