(* ===== verification/Env.v ===== *)
(** * Environment variables and report text
    What the observers share: [getenv], the address parser of
    [dependency_observer.cpp] and [perf_observer.cpp], its variant in
    [cache_observer.cpp], and the pieces of the JSON reports. *)
From Stdlib Require Import Ascii.
From stdpp Require Import base numbers list option strings.
From S2P Require Import Prelude CText.

Local Open Scope Z_scope.

Definition env : Type := string → option string.

(** [!text || !*text] *)
Definition empty_text (t : option string) : bool :=
  match t with Some (String _ _) => false | _ => true end.

(** [parse_u64_env]: the value it stores, if it stores one, and its result.
    The pointer [end] is compared as the text it points to. *)
Definition parse_u64_env (e : env) (name : string) : option Z * bool :=
  match e name with
  | Some (String c t) =>
      let text := String c t in
      let '(v, end_) := strtoull 0 text in
      (Some v, negb (String.eqb end_ text) && String.eqb end_ "")
  | _ => (None, false)
  end.

(** The variant of [cache_observer.cpp] leaves out [end != text]. *)
Definition parse_u64_env_cache (e : env) (name : string) : option Z * bool :=
  match e name with
  | Some (String c t) =>
      let '(v, end_) := strtoull 0 (String c t) in (Some v, String.eqb end_ "")
  | _ => (None, false)
  end.

Definition quoted (s : string) : string := dq +:+ s +:+ dq.
Definition bool_text (b : bool) : string := if b then "true" else "false".
(** One line of an object: ["  "name": value,"]. *)
Definition json_line (name value : string) : string :=
  "  " +:+ quoted name +:+ ": " +:+ value +:+ "," +:+ nl.

Lemma fmt_u_nonempty n : 0 <= n → ∃ c t, fmt_u n = String c t.
Proof.
  intros Hn. pose proof (strto_fmt_u n Hn) as E. destruct (fmt_u n) as [|c t]; [done|eauto].
Qed.

(** Both parsers read back an address printed in decimal, and one printed as
    the reports print it. *)
Lemma parse_printed_u e name n :
  0 <= n < 2 ^ 64 → e name = Some (fmt_u n) →
  parse_u64_env e name = (Some n, true) ∧ parse_u64_env_cache e name = (Some n, true).
Proof.
  intros Hn He. destruct (fmt_u_nonempty n ltac:(lia)) as (c & t & Ef).
  unfold parse_u64_env, parse_u64_env_cache. rewrite He, Ef, <- Ef, strtoull_fmt_u by done.
  by rewrite Ef.
Qed.

Lemma parse_printed_0x e name w n :
  0 <= n < 2 ^ 64 → e name = Some ("0x" +:+ fmt_0x w n) →
  parse_u64_env e name = (Some n, true) ∧ parse_u64_env_cache e name = (Some n, true).
Proof.
  intros Hn He. pose proof (strtoull_fmt_0x w n Hn) as E. 
  unfold parse_u64_env, parse_u64_env_cache. rewrite He. cbn [String.append] in *. by rewrite E.
Qed.

(** The two parsers are the same function: on a text that is not empty, an
    [end] that points to the terminator cannot be the start of the text. *)
Theorem parse_u64_env_variants e name : parse_u64_env_cache e name = parse_u64_env e name.
Proof.
  unfold parse_u64_env, parse_u64_env_cache. destruct (e name) as [[|c t]|]; [done| |done].
  destruct (strtoull 0 (String c t)) as [v [|c' end_]]; [done|]. cbn. by rewrite andb_false_r.
Qed.
