(* ===== verification/DepObs.v ===== *)
(** * The dependency observer
    [dependency_observer.cpp]: classification of the stalls of the core by the
    instruction that caused them, in episodes, inside a region of interest
    (ROI) delimited by two program counters; the report [finalize] writes. *)
From Stdlib Require Import Ascii.
From stdpp Require Import base numbers list option strings.
From S2P Require Import Prelude CText Env.

Local Open Scope Z_scope.

(** ** Data *)

Inductive ProducerClass := kLoad | kMultiply | kOther.
Inductive Source := kRs1 | kRs2 | kBoth | kFalse.
Inductive LoadOutcome := kNotLoad | kPending | kHit | kMiss.
#[global] Instance ProducerClass_eq_dec : EqDecision ProducerClass.
Proof. solve_decision. Defined.
#[global] Instance Source_eq_dec : EqDecision Source.
Proof. solve_decision. Defined.
#[global] Instance LoadOutcome_eq_dec : EqDecision LoadOutcome.
Proof. solve_decision. Defined.

Record Episode := mkEpisode {
  first_cycle : Z;
  cycles : Z;
  consumer_pc : Z;
  consumer_inst : Z;
  producer_pc : Z;
  producer_inst : Z;
  producer_rd : Z;
  producer_address : Z;
  producer_class : ProducerClass;
  source : Source;
  load_outcome : LoadOutcome
}.

Record DependencyObserverSample := mkSample {
  dependency_stall : bool;
  dcache_total_stall : bool;
  divider_stall : bool;
  branch_recovery : bool;
  dcache_load_access : bool;
  dcache_hit : bool;
  dcache_miss : bool;
  dcache_address : Z;
  s_consumer_pc : Z;
  s_consumer_inst : Z;
  s_producer_pc : Z;
  s_producer_inst : Z;
  s_producer_rd : Z;
  s_producer_address : Z
}.

Record observer := Observer {
  output_path : option string;
  workload : string;
  enabled : bool;
  roi_requested : bool;
  roi_active : bool;
  roi_started : bool;
  roi_ended : bool;
  roi_start_pc : Z;
  roi_end_pc : Z;
  roi_cycles : Z;
  previous_exclusive_dependency : bool;
  episodes : list Episode
}.

(** Storage duration is static: everything starts as zero. *)
Definition observer_zero : observer := Observer None "" false false false false false 0 0 0 false [].

(** Setters: the profile, and the phase of the ROI. *)
Definition set_profile (o : observer) (cyc : Z) (prev : bool) (es : list Episode) : observer :=
  Observer (output_path o) (workload o) (enabled o) (roi_requested o) (roi_active o) (roi_started o)
    (roi_ended o) (roi_start_pc o) (roi_end_pc o) cyc prev es.
Definition set_roi (o : observer) (active started ended : bool) : observer :=
  Observer (output_path o) (workload o) (enabled o) (roi_requested o) active started
    ended (roi_start_pc o) (roi_end_pc o) (roi_cycles o) (previous_exclusive_dependency o) (episodes o).

(** ** Decoding *)

Definition opcode (inst : Z) : Z := Z.land inst 0x7f.
Definition funct3 (inst : Z) : Z := Z.land (Z.shiftr inst 12) 7.
Definition funct7 (inst : Z) : Z := Z.shiftr inst 25.

Definition is_load (inst : Z) : bool := opcode inst =? 0x03.
Definition is_multiply (inst : Z) : bool :=
  ((opcode inst =? 0x33) || (opcode inst =? 0x3b)) && (funct7 inst =? 1) && (funct3 inst <=? 3).

(** [*use_rs1] and [*use_rs2]. *)
Definition operand_use (inst : Z) : bool * bool :=
  let op := opcode inst in
  if (op =? 0x33) || (op =? 0x3b) || (op =? 0x23) || (op =? 0x63) then (true, true)
  else if (op =? 0x03) || (op =? 0x13) || (op =? 0x1b) || (op =? 0x67) then (true, false)
  else if op =? 0x73 then
    ((funct3 inst =? 1) || (funct3 inst =? 2) || (funct3 inst =? 3), false)
  else (false, false).

Definition classify_source (inst rd : Z) : Source :=
  let '(use_rs1, use_rs2) := operand_use inst in
  let rs1 := Z.land (Z.shiftr inst 15) 31 in
  let rs2 := Z.land (Z.shiftr inst 20) 31 in
  let rs1_match := negb (rd =? 0) && use_rs1 && (rs1 =? rd) in
  let rs2_match := negb (rd =? 0) && use_rs2 && (rs2 =? rd) in
  if rs1_match && rs2_match then kBoth
  else if rs1_match then kRs1
  else if rs2_match then kRs2
  else kFalse.

Definition producer_name (v : ProducerClass) : string :=
  match v with kLoad => "LOAD" | kMultiply => "MUL" | kOther => "OTHER" end.
Definition source_name (v : Source) : string :=
  match v with kRs1 => "RS1" | kRs2 => "RS2" | kBoth => "BOTH" | kFalse => "FALSE" end.
Definition outcome_name (v : LoadOutcome) : string :=
  match v with kPending => "PENDING" | kHit => "HIT" | kMiss => "MISS" | kNotLoad => "NOT_LOAD" end.

(** ** Operations *)

Definition reset_profile (o : observer) : observer := set_profile o 0 false [].

Definition dependency_observer_init (o : observer) (path name : option string) : observer :=
  let en := negb (empty_text path) in
  reset_profile
    (Observer path (if empty_text name then "unspecified" else default "" name) en false en en false
       (roi_start_pc o) (roi_end_pc o) (roi_cycles o) (previous_exclusive_dependency o) (episodes o)).

Definition dependency_observer_begin_roi (o : observer) : observer :=
  if negb (enabled o) then o else set_roi (reset_profile o) true true false.

Definition dependency_observer_end_roi (o : observer) : observer :=
  if negb (enabled o) then o
  else let o := set_roi o false (roi_started o) true in set_profile o (roi_cycles o) false (episodes o).

Definition dependency_observer_init_from_env (e : env) (o : observer) : io observer :=
  let o := dependency_observer_init o (e "DEPENDENCY_PROFILE_OUT") (e "PERF_WORKLOAD") in
  if negb (enabled o) then mret o
  else
    let '(start, has_start) := parse_u64_env e "PERF_ROI_START_PC" in
    let '(stop, has_end) := parse_u64_env e "PERF_ROI_END_PC" in
    let start_pc := default (roi_start_pc o) start in
    let end_pc := default (roi_end_pc o) stop in
    let requested := has_start || has_end in
    if xorb has_start has_end || (has_start && (start_pc =? end_pc)) then
      emit ("dependency observer: invalid ROI marker environment" +:+ nl);;
      mret (Observer (output_path o) (workload o) false requested (roi_active o) (roi_started o)
              (roi_ended o) start_pc end_pc (roi_cycles o) (previous_exclusive_dependency o) (episodes o))
    else
      mret (Observer (output_path o) (workload o) (enabled o) requested (negb requested) (negb requested)
              (roi_ended o) start_pc end_pc (roi_cycles o) (previous_exclusive_dependency o) (episodes o)).

Definition dependency_observer_update_roi (o : observer) (wb_sign : bool) (wb_pc : Z) : observer :=
  if negb (enabled o) || negb (roi_requested o) || negb wb_sign then o
  else if negb (roi_started o) && (wb_pc =? roi_start_pc o) then dependency_observer_begin_roi o
  else if roi_active o && (wb_pc =? roi_end_pc o) then dependency_observer_end_roi o
  else o.

Definition dependency_observer_cycle (o : observer) : observer :=
  if enabled o && roi_active o
  then set_profile o (u64 (roi_cycles o + 1)) (previous_exclusive_dependency o) (episodes o) else o.

Definition stall_exclusive (s : DependencyObserverSample) : bool :=
  dependency_stall s && negb (dcache_total_stall s) && negb (divider_stall s) && negb (branch_recovery s).

Definition new_episode (cyc : Z) (s : DependencyObserverSample) : Episode :=
  let cls := if is_load (s_producer_inst s) then kLoad
             else if is_multiply (s_producer_inst s) then kMultiply else kOther in
  let src := classify_source (s_consumer_inst s) (s_producer_rd s) in
  mkEpisode cyc 0 (s_consumer_pc s) (s_consumer_inst s) (s_producer_pc s) (s_producer_inst s)
    (s_producer_rd s) (s_producer_address s) cls src
    (if bool_decide (cls = kLoad) && negb (bool_decide (src = kFalse)) then kPending else kNotLoad).

(** [++episodes.back().cycles] *)
Definition bump (e : Episode) : Episode :=
  mkEpisode (first_cycle e) (u64 (cycles e + 1)) (consumer_pc e) (consumer_inst e) (producer_pc e)
    (producer_inst e) (producer_rd e) (producer_address e) (producer_class e) (source e) (load_outcome e).
Fixpoint bump_last (es : list Episode) : list Episode :=
  match es with
  | [] => []
  | [e] => [bump e]
  | e :: es => e :: bump_last es
  end.

Definition set_outcome (e : Episode) (v : LoadOutcome) : Episode :=
  mkEpisode (first_cycle e) (cycles e) (consumer_pc e) (consumer_inst e) (producer_pc e)
    (producer_inst e) (producer_rd e) (producer_address e) (producer_class e) (source e) v.

(** The loop over the episodes when a load reaches the cache: the first
    pending episode of that double word gets the outcome. *)
Definition waits_for (e : Episode) (addr : Z) : bool :=
  bool_decide (load_outcome e = kPending) &&
  (Z.land (u32 (producer_address e)) (u32 (Z.lnot 7)) =? addr).
Fixpoint resolve (es : list Episode) (addr : Z) (hit : bool) : list Episode :=
  match es with
  | [] => []
  | e :: es =>
      if waits_for e addr then set_outcome e (if hit then kHit else kMiss) :: es
      else e :: resolve es addr hit
  end.

Definition dependency_observer_sample (o : observer) (s : DependencyObserverSample) : observer :=
  if negb (enabled o) then o
  else
    let exclusive := roi_active o && stall_exclusive s in
    let es := if exclusive && negb (previous_exclusive_dependency o)
              then episodes o ++ [new_episode (roi_cycles o) s] else episodes o in
    let es := if exclusive then bump_last es else es in
    let es := if dcache_load_access s then resolve es (dcache_address s) (dcache_hit s) else es in
    set_profile o (roi_cycles o) exclusive es.

(** ** The report *)

Record totals := Totals {
  t_dependency_cycles : Z; t_load_cycles : Z; t_load_episodes : Z; t_hit_cycles : Z; t_hit_episodes : Z;
  t_miss_cycles : Z; t_miss_episodes : Z; t_mul_cycles : Z; t_other_cycles : Z; t_unresolved : Z
}.

Definition true_dependency (e : Episode) : bool := negb (bool_decide (source e = kFalse)).

Definition add_episode (t : totals) (e : Episode) : totals :=
  let '(Totals dep load loads hit hits miss misses mul other unres) := t in
  let c := cycles e in
  let dep := u64 (dep + c) in
  if bool_decide (producer_class e = kLoad) && true_dependency e then
    let load := u64 (load + c) in
    let loads := u64 (loads + 1) in
    match load_outcome e with
    | kHit => Totals dep load loads (u64 (hit + c)) (u64 (hits + 1)) miss misses mul other unres
    | kMiss => Totals dep load loads hit hits (u64 (miss + c)) (u64 (misses + 1)) mul other unres
    | _ => Totals dep load loads hit hits miss misses mul other (u64 (unres + 1))
    end
  else if bool_decide (producer_class e = kMultiply) && true_dependency e then
    Totals dep load loads hit hits miss misses (u64 (mul + c)) other unres
  else Totals dep load loads hit hits miss misses mul (u64 (other + c)) unres.

Definition totals_of (es : list Episode) : totals :=
  foldl add_episode (Totals 0 0 0 0 0 0 0 0 0 0) es.

Definition roi_valid (o : observer) : bool := negb (roi_requested o) || (roi_started o && roi_ended o).

Definition episode_line (e : Episode) (last : bool) : string :=
  "    {" +:+ quoted "first_cycle" +:+ ": " +:+ fmt_u (first_cycle e) +:+ ", "
  +:+ quoted "cycles" +:+ ": " +:+ fmt_u (cycles e) +:+ ", "
  +:+ quoted "consumer_pc" +:+ ": " +:+ quoted ("0x" +:+ fmt_0x 16 (consumer_pc e)) +:+ ", "
  +:+ quoted "consumer_inst" +:+ ": " +:+ quoted ("0x" +:+ fmt_0x 8 (consumer_inst e)) +:+ ", "
  +:+ quoted "producer_pc" +:+ ": " +:+ quoted ("0x" +:+ fmt_0x 16 (producer_pc e)) +:+ ", "
  +:+ quoted "producer_inst" +:+ ": " +:+ quoted ("0x" +:+ fmt_0x 8 (producer_inst e)) +:+ ", "
  +:+ quoted "producer_rd" +:+ ": " +:+ fmt_u (producer_rd e) +:+ ", "
  +:+ quoted "producer_class" +:+ ": " +:+ quoted (producer_name (producer_class e)) +:+ ", "
  +:+ quoted "source" +:+ ": " +:+ quoted (source_name (source e)) +:+ ", "
  +:+ quoted "producer_address" +:+ ": " +:+ quoted ("0x" +:+ fmt_0x 16 (producer_address e)) +:+ ", "
  +:+ quoted "load_outcome" +:+ ": " +:+ quoted (outcome_name (load_outcome e)) +:+ "}"
  +:+ (if last then "" else ",") +:+ nl.

Fixpoint episode_lines (es : list Episode) : list string :=
  match es with
  | [] => []
  | e :: es => episode_line e (bool_decide (es = [])) :: episode_lines es
  end.

(** The lines written to the file, and the status. *)
Definition report (o : observer) (t : totals) (exit_status : Z) : list string :=
  ["{" +:+ nl +:+ json_line "schema_version" (quoted "a2-loaduse-phase8r-v1");
   json_line "workload" (quoted (workload o));
   json_line "roi_valid" (bool_text (roi_valid o));
   json_line "roi_cycles" (fmt_u (roi_cycles o));
   json_line "exclusive_dependency_cycles" (fmt_u (t_dependency_cycles t));
   json_line "dependency_episodes" (fmt_u (Z.of_nat (length (episodes o))));
   json_line "load_use_stall_cycles" (fmt_u (t_load_cycles t))
     +:+ json_line "load_use_episodes" (fmt_u (t_load_episodes t));
   json_line "load_hit_use_stall_cycles" (fmt_u (t_hit_cycles t))
     +:+ json_line "load_hit_use_episodes" (fmt_u (t_hit_episodes t));
   json_line "load_miss_related_dependency_cycles" (fmt_u (t_miss_cycles t))
     +:+ json_line "load_miss_related_dependency_episodes" (fmt_u (t_miss_episodes t));
   json_line "alu_raw_stall_cycles" "0" +:+ json_line "csr_dependency_stall_cycles" "0";
   json_line "mul_dependency_stall_cycles" (fmt_u (t_mul_cycles t))
     +:+ json_line "div_dependency_stall_cycles" "0";
   json_line "other_dependency_stall_cycles" (fmt_u (t_other_cycles t));
   json_line "unresolved_load_outcomes" (fmt_u (t_unresolved t));
   json_line "exit_status" (fmt_d exit_status) +:+ "  " +:+ quoted "episodes" +:+ ": [" +:+ nl]
  ++ episode_lines (episodes o) ++ ["  ]" +:+ nl +:+ "}" +:+ nl].

(** [fopens]: whether [fopen(output_path, "w")] succeeds.  The result is the
    status and, when a file was written, its lines. *)
Definition dependency_observer_finalize (fopens : bool) (exit_status : Z) (o : observer) :
    Z * option (list string) :=
  if negb (enabled o) then (0, None)
  else
    let t := totals_of (episodes o) in
    if negb fopens then (1, None)
    else (if roi_valid o && (t_unresolved t =? 0) then 0 else 1, Some (report o t exit_status)).

(** ** Totals *)

Definition sum_cycles (es : list Episode) : Z := sum_list_Z (cycles <$> es).
Definition count_if (p : Episode → bool) (es : list Episode) : Z := Z.of_nat (length (filter p es)).
Definition cycles_if (p : Episode → bool) (es : list Episode) : Z := sum_cycles (filter p es).

(** The classes of the report: what an episode waited for.  A false dependency
    is no load and no multiply. *)
Inductive kind := LoadHit | LoadMiss | LoadOpen | Mul | Other.
#[global] Instance kind_eq_dec : EqDecision kind.
Proof. solve_decision. Defined.
Definition kind_of (e : Episode) : kind :=
  match source e, producer_class e, load_outcome e with
  | kFalse, _, _ | _, kOther, _ => Other
  | _, kMultiply, _ => Mul
  | _, kLoad, kHit => LoadHit
  | _, kLoad, kMiss => LoadMiss
  | _, kLoad, _ => LoadOpen
  end.

(** The episodes of a class: how many there are, and their cycles. *)
Definition n_kind (k : kind) : list Episode → Z := count_if (λ e, bool_decide (kind_of e = k)).
Definition cycles_kind (k : kind) : list Episode → Z := cycles_if (λ e, bool_decide (kind_of e = k)).

Definition totals_spec (es : list Episode) : totals :=
  Totals (u64 (sum_cycles es)) (u64 (cycles_kind LoadHit es + cycles_kind LoadMiss es + cycles_kind LoadOpen es))
    (u64 (n_kind LoadHit es + n_kind LoadMiss es + n_kind LoadOpen es))
    (u64 (cycles_kind LoadHit es)) (u64 (n_kind LoadHit es))
    (u64 (cycles_kind LoadMiss es)) (u64 (n_kind LoadMiss es))
    (u64 (cycles_kind Mul es)) (u64 (cycles_kind Other es)) (u64 (n_kind LoadOpen es)).

Lemma sum_cycles_app l k : sum_cycles (l ++ k) = sum_cycles l + sum_cycles k.
Proof. unfold sum_cycles. by rewrite fmap_app, sum_list_Z_app. Qed.

Lemma cycles_if_snoc (p : Episode → bool) es e :
  cycles_if p (es ++ [e]) = cycles_if p es + (if p e then cycles e else 0).
Proof.
  unfold cycles_if. rewrite filter_app, sum_cycles_app. f_equal. cbn.
  destruct (p e) eqn:E; cbn; [rewrite ?decide_True by done|rewrite ?decide_False by (by intros [])];
    unfold sum_cycles, sum_list_Z; cbn; lia.
Qed.

Lemma count_if_snoc (p : Episode → bool) es e : count_if p (es ++ [e]) = count_if p es + (if p e then 1 else 0).
Proof.
  unfold count_if. rewrite filter_app, length_app. cbn.
  destruct (p e) eqn:E; cbn; [rewrite ?decide_True by done|rewrite ?decide_False by (by intros [])];
    cbn; lia.
Qed.

Lemma totals_of_spec es : totals_of es = totals_spec es.
Proof.
  unfold totals_of. induction es as [|e es IH] using rev_ind; [done|].
  rewrite foldl_app, IH. cbn [foldl]. unfold totals_spec, add_episode, n_kind, cycles_kind.
  rewrite !cycles_if_snoc, !count_if_snoc, sum_cycles_app.
  replace (sum_cycles [e]) with (cycles e) by (unfold sum_cycles, sum_list_Z; cbn; lia).
  unfold true_dependency, kind_of.
  destruct (source e), (producer_class e), (load_outcome e);
    repeat match goal with |- context [bool_decide (?a = ?b)] =>
      change (bool_decide (a = b)) with false || change (bool_decide (a = b)) with true end;
    cbn [negb andb]; cbv iota; unfold u64; rewrite ?wrap_add_l; f_equal; f_equal; lia.
Qed.

Lemma sum_cycles_nil : sum_cycles [] = 0.
Proof. done. Qed.

(** Every episode is in one class. *)
Lemma classes_partition es :
  sum_cycles es = cycles_kind LoadHit es + cycles_kind LoadMiss es + cycles_kind LoadOpen es
                  + cycles_kind Mul es + cycles_kind Other es ∧
  Z.of_nat (length es) = n_kind LoadHit es + n_kind LoadMiss es + n_kind LoadOpen es + n_kind Mul es + n_kind Other es.
Proof.
  unfold n_kind, cycles_kind. induction es as [|e es [I1 I2]] using rev_ind; [done|].
  rewrite !cycles_if_snoc, !count_if_snoc, sum_cycles_app, length_app.
  replace (sum_cycles [e]) with (cycles e) by (unfold sum_cycles, sum_list_Z; cbn; lia).
  cbn [length]. destruct (kind_of e);
    repeat match goal with |- context [bool_decide (?a = ?b)] =>
      change (bool_decide (a = b)) with false || change (bool_decide (a = b)) with true end; cbv iota; lia.
Qed.

Lemma n_kind_none k es : n_kind k es = 0 ↔ Forall (λ e, kind_of e ≠ k) es.
Proof.
  unfold n_kind, count_if. induction es as [|e es IH]; [done|]. rewrite Forall_cons, <- IH.
  destruct (decide (kind_of e = k)) as [E|E].
  - rewrite filter_cons_True by by apply bool_decide_pack. cbn. split; [lia|by intros [? _]].
  - rewrite filter_cons_False by (rewrite bool_decide_eq_false_2; naive_solver). naive_solver.
Qed.

(** ** Steps of the simulation loop *)

(** One iteration of the loop of [sim_main.cpp] as the observer sees it: the
    write-back that [exec_once] reports, then the two halves of
    [single_cycle]. *)
Record tick := Tick { wb_sign : bool; wb_pc : Z; smp : DependencyObserverSample }.
Definition step (o : observer) (t : tick) : observer :=
  dependency_observer_sample (dependency_observer_cycle (dependency_observer_update_roi o (wb_sign t) (wb_pc t)))
    (smp t).

Lemma length_bump_last es : length (bump_last es) = length es.
Proof. induction es as [|e [|e' es] IH]; cbn in *; [done|done|]. by rewrite IH. Qed.

Lemma sum_bump_last es : es ≠ [] → u64 (sum_cycles (bump_last es)) = u64 (sum_cycles es + 1).
Proof.
  intros Hne. destruct (exists_last Hne) as (es' & e & ->). clear Hne.
  assert (bump_last (es' ++ [e]) = es' ++ [bump e]) as ->.
  { induction es' as [|x es' IH]; [done|]. cbn. destruct (es' ++ [e]) eqn:E; [by destruct es'|]. by rewrite IH. }
  rewrite !sum_cycles_app. unfold sum_cycles at 2 4, sum_list_Z, u64. cbn.
  rewrite Z.add_0_r. unfold u64. rewrite wrap_add_r. f_equal. lia.
Qed.

Lemma resolve_frame es addr hit :
  length (resolve es addr hit) = length es ∧ sum_cycles (resolve es addr hit) = sum_cycles es.
Proof.
  induction es as [|e es [IH1 IH2]]; cbn [resolve]; [done|]. destruct (waits_for e addr); [done|].
  cbn. split; [by rewrite IH1|]. unfold sum_cycles, sum_list_Z in *. cbn. by rewrite IH2.
Qed.

Lemma bump_last_nil es : bump_last es = [] → es = [].
Proof. intros E. apply (f_equal length) in E. rewrite length_bump_last in E. by destruct es. Qed.
Lemma resolve_nil es addr hit : resolve es addr hit = [] → es = [].
Proof. intros E. apply (f_equal length) in E. rewrite (proj1 (resolve_frame _ _ _)) in E. by destruct es. Qed.

(** What the observer measures, and what it does not change. *)
Definition measured (o : observer) : Z * Z * nat :=
  (roi_cycles o, u64 (sum_cycles (episodes o)), length (episodes o)).
Definition settings (o : observer) := (enabled o, roi_requested o, roi_start_pc o, roi_end_pc o).

Definition marker (pc : Z) (t : tick) : bool := wb_sign t && (wb_pc t =? pc).

(** The two halves of [single_cycle]. *)
Definition observe (o : observer) (t : tick) : observer :=
  dependency_observer_sample (dependency_observer_cycle o) (smp t).

(** Outside the ROI the measures stand still. *)
Lemma observe_outside o t :
  roi_active o = false →
  measured (observe o t) = measured o ∧ settings (observe o t) = settings o ∧
  roi_active (observe o t) = false ∧
  roi_started (observe o t) = roi_started o ∧ roi_ended (observe o t) = roi_ended o.
Proof.
  intros Ha. unfold observe, dependency_observer_sample, dependency_observer_cycle.
  rewrite Ha, andb_false_r, Ha. cbn [andb]. case_if; [done|]. unfold measured, settings.
  cbn [roi_cycles episodes set_profile enabled roi_requested roi_start_pc roi_end_pc roi_active roi_started roi_ended].
  destruct (dcache_load_access (smp t)); [|done].
  destruct (resolve_frame (episodes o) (dcache_address (smp t)) (dcache_hit (smp t))) as [-> ->]. done.
Qed.

Lemma step_outside o t :
  roi_active o = false → (roi_started o = false → marker (roi_start_pc o) t = false) →
  step o t = observe o t.
Proof.
  intros Ha Hm. unfold step, observe, dependency_observer_update_roi. do 2 f_equal. case_if; [done|].
  bool_to_prop. rewrite Ha. cbn [andb]. destruct (roi_started o); [done|].
  specialize (Hm eq_refl). unfold marker in Hm. cbn. replace (wb_sign t) with true in Hm. cbn in Hm. by rewrite Hm.
Qed.

(** Inside the ROI every cycle counts, every exclusive stall adds a cycle to
    the last episode, and a stall that follows none opens one. *)
Lemma sample_inside o s :
  enabled o = true → roi_active o = true →
  (previous_exclusive_dependency o = true → episodes o ≠ []) →
  let o' := dependency_observer_sample o s in
  measured o' = (roi_cycles o, u64 (sum_cycles (episodes o) + Z.b2z (stall_exclusive s)),
                 (length (episodes o) + rising (previous_exclusive_dependency o) (stall_exclusive s))%nat) ∧
  previous_exclusive_dependency o' = stall_exclusive s ∧ (stall_exclusive s = true → episodes o' ≠ []) ∧
  settings o' = settings o ∧ roi_active o' = true ∧ roi_started o' = roi_started o ∧ roi_ended o' = roi_ended o.
Proof.
  intros He Ha Hp. unfold dependency_observer_sample. rewrite He, Ha. cbn [negb andb]. cbv zeta.
  set (es := if stall_exclusive s && negb (previous_exclusive_dependency o)
             then episodes o ++ [new_episode (roi_cycles o) s] else episodes o).
  set (es1 := if stall_exclusive s then bump_last es else es).
  set (es2 := if dcache_load_access s then resolve es1 (dcache_address s) (dcache_hit s) else es1).
  assert (sum_cycles es = sum_cycles (episodes o) ∧
          length es = (length (episodes o) + rising (previous_exclusive_dependency o) (stall_exclusive s))%nat ∧
          (stall_exclusive s = true → es ≠ [])) as (S0 & L0 & N0).
  { unfold es, rising. destruct (stall_exclusive s && negb (previous_exclusive_dependency o)) eqn:E.
    - rewrite sum_cycles_app, length_app. change (sum_cycles [new_episode (roi_cycles o) s]) with 0.
      split_and!; [lia|done|].
      intros _ En. by apply app_nil in En as [_ ?].
    - split_and!; [done|lia|]. intros Hx. apply Hp. rewrite Hx in E. by apply negb_false_iff in E. }
  assert (u64 (sum_cycles es1) = u64 (sum_cycles (episodes o) + Z.b2z (stall_exclusive s)) ∧
          length es1 = length es ∧ (stall_exclusive s = true → es1 ≠ [])) as (S1 & L1 & N1).
  { unfold es1. destruct (stall_exclusive s); cbn [Z.b2z].
    - rewrite sum_bump_last, length_bump_last, S0 by auto. split_and!; [done|done|].
      intros _ En%bump_last_nil. by apply N0.
    - rewrite Z.add_0_r, S0. done. }
  assert (sum_cycles es2 = sum_cycles es1 ∧ length es2 = length es1 ∧ (es2 = [] → es1 = [])) as (S2 & L2 & N2).
  { unfold es2. destruct (dcache_load_access s); [|done].
    destruct (resolve_frame es1 (dcache_address s) (dcache_hit s)) as [-> ->].
    split_and!; [done..|apply resolve_nil]. }
  clearbody es es1 es2. unfold measured, settings.
  cbn [roi_cycles episodes set_profile enabled roi_requested roi_start_pc roi_end_pc roi_active roi_started
       roi_ended previous_exclusive_dependency]. rewrite S2, S1, L2, L1, L0. split_and!; try done.
  intros Hx En. apply (N1 Hx). by apply N2.
Qed.

(** The stalls of a list of ticks: how many, and how many runs of them. *)
Definition stalls (ts : list tick) : list bool := (λ t, stall_exclusive (smp t)) <$> ts.

(** The observer is inside the ROI, with [c] cycles and [m], [n] measured. *)
Record inside (o : observer) (a b c m : Z) (n : nat) (prev : bool) : Prop := {
  in_enabled : settings o = (true, true, a, b);
  in_phase : roi_active o = true ∧ roi_started o = true;
  in_measured : measured o = (c, m, n);
  in_prev : previous_exclusive_dependency o = prev;
  in_nonempty : prev = true → episodes o ≠ []
}.

Lemma observe_inside o a b c m n prev t :
  inside o a b c m n prev →
  let x := stall_exclusive (smp t) in
  inside (observe o t) a b (u64 (c + 1)) (u64 (m + Z.b2z x)) (n + rising prev x) x.
Proof.
  intros [Hs [Ha Hst] Hm Hp Hn] x. unfold settings in Hs. unfold measured in Hm. simplify_eq.
  unfold observe. assert (dependency_observer_cycle o =
    set_profile o (u64 (roi_cycles o + 1)) (previous_exclusive_dependency o) (episodes o)) as ->.
  { unfold dependency_observer_cycle. by rewrite Ha; replace (enabled o) with true. }
  destruct (sample_inside (set_profile o (u64 (roi_cycles o + 1)) (previous_exclusive_dependency o) (episodes o))
    (smp t)) as (M & P & N & S & A & St & _); [done..|].
  split; [|split|..]; try done.
  - rewrite S. unfold settings. cbn. congruence.
  - by rewrite St.
  - rewrite M. cbn [roi_cycles episodes set_profile previous_exclusive_dependency].
    do 2 f_equal. unfold u64. by rewrite wrap_add_l.
Qed.

Lemma run_inside ts o a b c m n prev :
  inside o a b c m n prev → 0 <= c < 2 ^ 64 → 0 <= m < 2 ^ 64 →
  Forall (λ t, marker b t = false) ts →
  ∃ prev', inside (run step o ts) a b (u64 (c + Z.of_nat (length ts))) (u64 (m + n_true (stalls ts)))
             (n + runs prev (stalls ts)) prev'.
Proof.
  intros Hi Hc Hm Hts. revert o c m n prev Hi Hc Hm.
  induction Hts as [|t ts Ht Hts IH]; intros o c m n prev Hi Hc Hm; cbn [run].
  { exists prev. cbn. unfold u64. rewrite !Z.add_0_r, !wrap_small, Nat.add_0_r by done. done. }
  assert (step o t = observe o t) as ->.
  { unfold step, observe, dependency_observer_update_roi. destruct Hi as [Hs [Ha Hst] _ _ _].
    unfold settings in Hs. unfold marker in Ht. simplify_eq. rewrite Ha, Hst.
    destruct (wb_sign t); cbn [negb andb orb] in *; [|by rewrite !orb_true_r].
    rewrite Ht. by case_if. }
  apply (observe_inside _ _ _ _ _ _ _ t) in Hi. cbv zeta in Hi.
  destruct (IH _ _ _ _ _ Hi) as [prev' Hr]; [apply wrap_range; lia..|]. exists prev'.
  unfold u64 in *. rewrite !wrap_add_l in Hr. cbn [stalls fmap list_fmap runs length].
  replace (c + Z.of_nat (S (length ts))) with (c + 1 + Z.of_nat (length ts)) by lia.
  unfold n_true in *. cbn [fmap list_fmap sum_list_Z foldr] in *. fold (stalls ts).
  rewrite Z.add_assoc. rewrite <- Nat.add_assoc in Hr. exact Hr.
Qed.

Lemma run_outside ts o :
  roi_active o = false → (roi_started o = false → Forall (λ t, marker (roi_start_pc o) t = false) ts) →
  let o' := run step o ts in
  measured o' = measured o ∧ settings o' = settings o ∧ roi_active o' = false ∧
  roi_started o' = roi_started o ∧ roi_ended o' = roi_ended o.
Proof.
  revert o. induction ts as [|t ts IH]; intros o Ha Hm; cbn [run]; [done|].
  rewrite step_outside by (done || (intros Hs; specialize (Hm Hs); by inversion Hm)).
  destruct (observe_outside o t Ha) as (M & S & A & St & E).
  assert (roi_start_pc (observe o t) = roi_start_pc o) as Epc by (unfold settings in S; congruence).
  destruct (IH (observe o t) A) as (M' & S'' & A' & St' & E').
  { rewrite St, Epc. intros Hs. specialize (Hm Hs). by inversion Hm. }
  cbv zeta. rewrite M', S'', A', St', E'. done.
Qed.

(** The ticks at which the ROI begins and ends. *)
Lemma step_begin o t a b :
  settings o = (true, true, a, b) → roi_started o = false → marker a t = true →
  let x := stall_exclusive (smp t) in
  inside (step o t) a b (u64 1) (u64 (Z.b2z x)) (rising false x) x.
Proof.
  intros Hs Hst Ht. unfold settings in Hs. simplify_eq. unfold marker in Ht. bool_to_prop.
  assert (step o t = observe (dependency_observer_begin_roi o) t) as ->.
  { unfold step, dependency_observer_update_roi. rewrite Hst.
    replace (enabled o) with true. replace (roi_requested o) with true. replace (wb_sign t) with true.
    cbn [negb orb andb]. by zif_true. }
  refine (observe_inside (dependency_observer_begin_roi o) _ _ 0 0 0 false t _).
  unfold dependency_observer_begin_roi. replace (enabled o) with true. split; try done.
  unfold settings; cbn; congruence.
Qed.

Lemma step_end o t a b :
  settings o = (true, true, a, b) → roi_active o = true → roi_started o = true → marker b t = true →
  measured (step o t) = measured o ∧ roi_active (step o t) = false ∧ roi_started (step o t) = true ∧
  roi_ended (step o t) = true.
Proof.
  intros Hs Ha Hst Ht. unfold settings in Hs. simplify_eq. unfold marker in Ht. bool_to_prop.
  assert (step o t = observe (dependency_observer_end_roi o) t) as ->.
  { unfold step, dependency_observer_update_roi. rewrite Hst, Ha.
    replace (enabled o) with true. replace (roi_requested o) with true. replace (wb_sign t) with true.
    cbn [negb orb andb]. by zif_true. }
  unfold dependency_observer_end_roi. replace (enabled o) with true. cbv zeta.
  match goal with |- context [observe ?x t] => destruct (observe_outside x t) as (-> & _ & -> & -> & ->) end;
    done.
Qed.

(** *** Outcomes *)

Lemma resolve_keeps es addr hit i e :
  es !! i = Some e → load_outcome e ≠ kPending → resolve es addr hit !! i = Some e.
Proof.
  revert i. induction es as [|x es IH]; intros i Hi Hp; [done|]. cbn [resolve].
  destruct (waits_for x addr) eqn:Ew; destruct i as [|i]; cbn in *; simplify_eq; try done; [|by apply IH].
  unfold waits_for in Ew. bool_to_prop. done.
Qed.

Lemma bump_last_keeps es i e :
  es !! i = Some e → ∃ e', bump_last es !! i = Some e' ∧ load_outcome e' = load_outcome e.
Proof.
  revert i. induction es as [|x [|y es] IH]; intros i Hi; [done| |].
  - destruct i; cbn in *; simplify_eq. by eexists.
  - destruct i as [|i]; [cbn in *; simplify_eq; by eexists|]. apply (IH i Hi).
Qed.

Lemma update_roi_started o t :
  roi_started o = true →
  roi_started (dependency_observer_update_roi o (wb_sign t) (wb_pc t)) = true ∧
  episodes (dependency_observer_update_roi o (wb_sign t) (wb_pc t)) = episodes o.
Proof.
  intros Hst. unfold dependency_observer_update_roi. rewrite Hst. cbn [negb andb]. repeat case_if; try done.
  unfold dependency_observer_end_roi. by case_if.
Qed.

Lemma step_keeps_outcome o t i e :
  roi_started o = true → episodes o !! i = Some e → load_outcome e = kHit ∨ load_outcome e = kMiss →
  roi_started (step o t) = true ∧
  ∃ e', episodes (step o t) !! i = Some e' ∧ load_outcome e' = load_outcome e.
Proof.
  intros Hst Hi Ho. destruct (update_roi_started o t Hst) as [Hst1 He1]. unfold step.
  set (o1 := dependency_observer_update_roi _ _ _) in *. clearbody o1. rewrite <- He1 in Hi.
  assert (roi_started (dependency_observer_cycle o1) = true ∧ episodes (dependency_observer_cycle o1) = episodes o1)
    as [Hst2 He2] by (unfold dependency_observer_cycle; by case_if).
  set (o2 := dependency_observer_cycle o1) in *. clearbody o2. rewrite <- He2 in Hi.
  unfold dependency_observer_sample. case_if; [by eauto|]. cbv zeta. cbn [roi_started set_profile episodes].
  split; [done|]. set (x := roi_active o2 && stall_exclusive (smp t)).
  set (es := if x && _ then _ else _). assert (es !! i = Some e) as Hes.
  { unfold es. case_if; [|done]. by apply lookup_app_l_Some. }
  assert (∃ e', (if x then bump_last es else es) !! i = Some e' ∧ load_outcome e' = load_outcome e) as (e' & H1 & E1)
    by (destruct x; [by apply bump_last_keeps|by eauto]).
  exists e'. split; [|done]. destruct (dcache_load_access (smp t)); [|done].
  apply resolve_keeps; [done|]. rewrite E1. by destruct Ho as [-> | ->].
Qed.

(** ** Properties *)

(** C32. The report classifies what it counts.  Every episode, and with it its
    cycles, is in exactly one class: a load that hit, one that missed, one whose
    outcome is open, a multiply, or anything else, false dependencies included;
    each total of the report is that of its classes (64-bit sums), and the
    profile is accepted exactly when the region of interest is complete and no
    load is left open. *)
Theorem report_partition o fopens exit_status :
  let es := episodes o in
  let t := totals_of es in
  (t_dependency_cycles t = u64 (sum_cycles es) ∧
   t_load_cycles t = u64 (cycles_kind LoadHit es + cycles_kind LoadMiss es + cycles_kind LoadOpen es) ∧
   t_load_episodes t = u64 (n_kind LoadHit es + n_kind LoadMiss es + n_kind LoadOpen es) ∧
   t_hit_cycles t = u64 (cycles_kind LoadHit es) ∧ t_hit_episodes t = u64 (n_kind LoadHit es) ∧
   t_miss_cycles t = u64 (cycles_kind LoadMiss es) ∧ t_miss_episodes t = u64 (n_kind LoadMiss es) ∧
   t_mul_cycles t = u64 (cycles_kind Mul es) ∧ t_other_cycles t = u64 (cycles_kind Other es) ∧
   t_unresolved t = u64 (n_kind LoadOpen es)) ∧
  sum_cycles es = cycles_kind LoadHit es + cycles_kind LoadMiss es + cycles_kind LoadOpen es
                  + cycles_kind Mul es + cycles_kind Other es ∧
  Z.of_nat (length es) = n_kind LoadHit es + n_kind LoadMiss es + n_kind LoadOpen es + n_kind Mul es + n_kind Other es ∧
  (enabled o = true → Z.of_nat (length es) < 2 ^ 64 →
   (dependency_observer_finalize fopens exit_status o).1 = 0 ↔
   fopens = true ∧ roi_valid o = true ∧ Forall (λ e, kind_of e ≠ LoadOpen) es).
Proof.
  cbv zeta. destruct (classes_partition (episodes o)) as [P1 P2].
  rewrite totals_of_spec. split; [by split_and!|]. split; [done|]. split; [done|]. intros He Hlen.
  unfold dependency_observer_finalize. rewrite He, totals_of_spec. cbv zeta. cbn [negb t_unresolved totals_spec].
  assert (∀ k, 0 <= n_kind k (episodes o)) as Hpos by (intros k; unfold n_kind, count_if; lia).
  pose proof (Hpos LoadHit). pose proof (Hpos LoadMiss). pose proof (Hpos LoadOpen). pose proof (Hpos Mul).
  pose proof (Hpos Other). rewrite <- n_kind_none. unfold u64. rewrite wrap_small by lia.
  destruct fopens, (roi_valid o), (Z.eqb_spec (n_kind LoadOpen (episodes o)) 0); cbn; naive_solver.
Qed.

(** A load that hit after three cycles, a multiply, and a load in flight. *)
Lemma report_partition_witness :
  let es := [mkEpisode 0 3 0 0 0 0 1 0 kLoad kRs1 kHit; mkEpisode 9 4 0 0 0 0 1 0 kMultiply kRs2 kNotLoad;
             mkEpisode 20 1 0 0 0 0 1 0 kLoad kRs1 kPending] in
  let o := Observer (Some "out") "w" true true false true true 0 4 30 false es in
  (dependency_observer_finalize true 0 o).1 ≠ 0 ∧ t_unresolved (totals_of es) = 1 ∧ t_hit_cycles (totals_of es) = 3 ∧
  t_mul_cycles (totals_of es) = 4.
Proof.
  intros es o. destruct (report_partition o true 0) as ((_ & _ & _ & Eh & _ & _ & _ & Em & _ & Eu) & _ & _ & Hf).
  specialize (Hf eq_refl eq_refl). split_and!; [|exact Eu|exact Eh|exact Em].
  intros H. apply Hf in H as (_ & _ & H). rewrite Forall_forall in H. apply (H (mkEpisode 20 1 0 0 0 0 1 0 kLoad kRs1 kPending)).
  - repeat first [left|right].
  - reflexivity.
Defined.

(** The measures of a run with one region. *)
Lemma roi_window_run o pre st body en post a b :
  settings o = (true, true, a, b) → roi_active o = false → roi_started o = false →
  Forall (λ t, marker a t = false) pre → marker a st = true →
  Forall (λ t, marker b t = false) body → marker b en = true →
  let ts := st :: body in
  let o' := run step o (pre ++ ts ++ en :: post) in
  roi_cycles o' = u64 (Z.of_nat (length ts)) ∧
  t_dependency_cycles (totals_of (episodes o')) = u64 (n_true (stalls ts)) ∧
  length (episodes o') = runs false (stalls ts) ∧
  roi_valid o' = true.
Proof.
  intros Hs Ha Hst Hpre Hstart Hbody Hend ts o'. unfold o', ts. clear ts o'.
  rewrite run_app. cbn [run app]. rewrite run_app. cbn [run].
  destruct (run_outside pre o Ha) as (_ & S1 & A1 & St1 & _); [by unfold settings in Hs; simplify_eq|].
  set (o1 := run step o pre) in *. clearbody o1.
  rewrite Hs in S1. pose proof (step_begin o1 st a b S1 ltac:(congruence) Hstart) as Hi. cbv zeta in Hi.
  destruct (run_inside body _ _ _ _ _ _ _ Hi) as (prev & Hi2); [apply wrap_range; lia..|done|].
  set (o2 := run step (step o1 st) body) in *. clearbody o2. clear Hi.
  destruct Hi2 as [S2 [A2 St2] M2 _ _].
  destruct (step_end o2 en a b S2 A2 St2 Hend) as (M3 & A3 & St3 & E3).
  set (o3 := step o2 en) in *. clearbody o3.
  destruct (run_outside post o3 A3) as (M4 & S4 & _ & St4 & E4); [congruence|].
  set (o4 := run step o3 post) in *. clearbody o4.
  rewrite M3, M2 in M4. unfold measured in M4. injection M4 as C4 T4 L4.
  rewrite totals_of_spec. cbn [t_dependency_cycles totals_spec]. rewrite C4, T4, L4.
  unfold roi_valid. rewrite St4, St3, E4, E3, orb_true_r. cbn [stalls fmap list_fmap runs length].
  split_and!; try done.
  - unfold u64. rewrite wrap_add_l. f_equal. lia.
  - unfold u64. rewrite wrap_add_l. done.
Qed.

(** C14. What is measured is the region of interest.  From a state with markers
    [a] and [b] set and the ROI not begun, a run in which [a] is first written
    back at tick [st] and [b] first after it at tick [en] counts exactly the
    cycles from [st] to before [en], charges one cycle to an episode for each
    exclusive dependency stall among them, opens one episode per maximal run
    of such stalls, and is reported as valid, whatever follows. *)
Theorem roi_window o pre st body en post a b :
  settings o = (true, true, a, b) → roi_active o = false → roi_started o = false →
  Forall (λ t, marker a t = false) pre → marker a st = true →
  Forall (λ t, marker b t = false) body → marker b en = true →
  let ts := st :: body in
  let o' := run step o (pre ++ ts ++ en :: post) in
  roi_cycles o' = u64 (Z.of_nat (length ts)) ∧
  t_dependency_cycles (totals_of (episodes o')) = u64 (n_true (stalls ts)) ∧
  length (episodes o') = runs false (stalls ts) ∧
  roi_valid o' = true.
Proof. intros Hs Ha Hst Hpre Hx Hbody Hy. exact (roi_window_run o pre st body en post a b Hs Ha Hst Hpre Hx Hbody Hy). Qed.

(** A write-back of [pc] with or without a stall that only the dependency
    explains. *)
Definition demo_tick (sign : bool) (pc : Z) (stall : bool) : tick :=
  Tick sign pc (mkSample stall false false false false false false 0 0 0x00a50513 0 0x00053503 10 0x80000100).
Definition demo_observer : observer :=
  Observer (Some "out.json") "demo" true true false false false 0x100 0x200 0 false [].

Lemma roi_window_witness :
  let ts := [demo_tick true 0x100 true; demo_tick false 0 true; demo_tick true 0x104 false;
             demo_tick false 0 true] in
  let o' := run step demo_observer ([demo_tick true 0x50 true] ++ ts ++ demo_tick true 0x200 true :: [demo_tick true 0x100 true]) in
  roi_cycles o' = 4 ∧ t_dependency_cycles (totals_of (episodes o')) = 3 ∧ length (episodes o') = 2%nat ∧
  roi_valid o' = true.
Proof.
  intros ts o'.
  apply (roi_window demo_observer [demo_tick true 0x50 true] (demo_tick true 0x100 true)
           [demo_tick false 0 true; demo_tick true 0x104 false; demo_tick false 0 true]
           (demo_tick true 0x200 true) [demo_tick true 0x100 true] 0x100 0x200);
    try reflexivity; repeat constructor.
Defined.

(** Once the cache has answered for a load, the outcome of its episode stands:
    no later step of the loop changes it. *)
Theorem outcome_stands ts o i e :
  roi_started o = true → episodes o !! i = Some e →
  load_outcome e = kHit ∨ load_outcome e = kMiss →
  ∃ e', episodes (run step o ts) !! i = Some e' ∧ load_outcome e' = load_outcome e.
Proof.
  intros Hst Hi Ho. revert o e Hst Hi Ho. induction ts as [|t ts IH]; intros o e Hst Hi Ho; cbn [run]; [by eauto|].
  destruct (step_keeps_outcome o t i e Hst Hi Ho) as (Hst' & e' & Hi' & Eo).
  destruct (IH (step o t) e' Hst' Hi') as (e2 & H2 & E2); [by rewrite Eo|].
  exists e2. split; [done|congruence].
Qed.

Lemma outcome_stands_witness :
  let e := mkEpisode 0 3 0 0 0 0 1 0x80000100 kLoad kRs1 kHit in
  let o := Observer (Some "out.json") "demo" true true true true false 0x100 0x200 9 true [e] in
  ∃ e', episodes (run step o [demo_tick true 0x104 true; demo_tick true 0x200 false]) !! 0%nat = Some e' ∧
        load_outcome e' = kHit.
Proof.
  intros e o. apply (outcome_stands [demo_tick true 0x104 true; demo_tick true 0x200 false] o 0 e);
    [reflexivity|reflexivity|left; reflexivity].
Defined.

(** Addresses given in the environment the way the reports print them reach the
    observer: different ones arm the ROI with nothing measured yet, equal ones
    are refused with a message and disable the observer. *)
Theorem init_from_env_roi (e : env) (o : observer) path a b :
  e "DEPENDENCY_PROFILE_OUT" = Some path → path ≠ "" →
  0 <= a < 2 ^ 64 → 0 <= b < 2 ^ 64 →
  e "PERF_ROI_START_PC" = Some ("0x" +:+ fmt_0x 16 a) → e "PERF_ROI_END_PC" = Some ("0x" +:+ fmt_0x 16 b) →
  ∃ out o', dependency_observer_init_from_env e o = (out, Ok o') ∧
    settings o' = (negb (a =? b), true, a, b) ∧
    (a ≠ b → out = [] ∧ roi_active o' = false ∧ roi_started o' = false ∧ measured o' = (0, 0, 0%nat)) ∧
    (a = b → out ≠ []).
Proof.
  intros Hp Hne Ha Hb Hsa Hsb. unfold dependency_observer_init_from_env.
  destruct (parse_printed_0x e _ 16 a Ha Hsa) as [-> _]. destruct (parse_printed_0x e _ 16 b Hb Hsb) as [-> _].
  rewrite Hp. destruct path as [|c path]; [done|]. cbn.
  destruct (Z.eqb_spec a b) as [->|Hab]; eexists _, _; (split; [reflexivity|]); by split_and!.
Qed.

Lemma init_from_env_roi_witness :
  let e : env := λ n, if String.eqb n "DEPENDENCY_PROFILE_OUT" then Some "out.json"
                      else if String.eqb n "PERF_ROI_START_PC" then Some ("0x" +:+ fmt_0x 16 0x80000010)
                      else if String.eqb n "PERF_ROI_END_PC" then Some ("0x" +:+ fmt_0x 16 0x80000020) else None in
  ∃ out o', dependency_observer_init_from_env e observer_zero = (out, Ok o') ∧
    settings o' = (true, true, 0x80000010, 0x80000020).
Proof.
  intros e.
  destruct (init_from_env_roi e observer_zero "out.json" 0x80000010 0x80000020)
    as (out & o' & E & Hs & _); [reflexivity|discriminate|lia|lia|reflexivity|reflexivity|].
  exists out, o'. split; [exact E|exact Hs].
Defined.
