(* ===== verification/CacheObs.v ===== *)
(** * The cache observer
    [cache_observer.cpp]: counters of cache events and an exclusive attribution
    of every cycle inside the region of interest, the trace of data-cache
    accesses, and the report with its consistency check. *)
From Stdlib Require Import Ascii.
From stdpp Require Import base numbers list option strings.
From S2P Require Import Prelude CText Env.

Local Open Scope Z_scope.

(** ** Data *)

Record Counts := mkCounts {
  cycles : Z;
  writeback_observations : Z;
  icache_accesses : Z;
  icache_hits : Z;
  icache_misses : Z;
  icache_refill_starts : Z;
  icache_refill_completions : Z;
  icache_miss_stall_cycles : Z;
  icache_total_stall_cycles : Z;
  dcache_accesses : Z;
  dcache_load_accesses : Z;
  dcache_store_accesses : Z;
  dcache_hits : Z;
  dcache_misses : Z;
  dcache_load_hits : Z;
  dcache_load_misses : Z;
  dcache_store_hits : Z;
  dcache_store_misses : Z;
  dcache_refill_starts : Z;
  dcache_refill_completions : Z;
  dcache_dirty_evictions : Z;
  dcache_writeback_starts : Z;
  dcache_writeback_completions : Z;
  dcache_miss_stall_cycles : Z;
  dcache_writeback_stall_cycles : Z;
  dcache_total_stall_cycles : Z;
  exclusive_dcache_cycles : Z;
  exclusive_divider_cycles : Z;
  exclusive_branch_cycles : Z;
  exclusive_dependency_cycles : Z;
  exclusive_icache_cycles : Z;
  exclusive_other_cycles : Z
}.
Definition counts_zero : Counts :=
  mkCounts 0 0 0 0 0 0 0 0 0 0 0 0 0 0 0 0 0 0 0 0 0 0 0 0 0 0 0 0 0 0 0 0.

Record CacheObserverSample := mkSample {
  icache_access : Z;
  icache_hit : Z;
  icache_miss : Z;
  icache_refill_start : Z;
  icache_refill_complete : Z;
  icache_miss_stall : Z;
  icache_total_stall : Z;
  dcache_access : Z;
  dcache_load_access : Z;
  dcache_store_access : Z;
  dcache_hit : Z;
  dcache_miss : Z;
  dcache_refill_start : Z;
  dcache_refill_complete : Z;
  dcache_dirty_eviction : Z;
  dcache_writeback_start : Z;
  dcache_writeback_complete : Z;
  dcache_miss_stall : Z;
  dcache_writeback_stall : Z;
  dcache_total_stall : Z;
  dcache_address : Z;
  dcache_wmask : Z;
  branch_recovery : Z;
  dependency : Z;
  divider : Z
}.

(** The trace file: closed, or open with the lines written to it. *)
Record observer := Observer {
  output_path : option string;
  trace_file : option (list string);
  trace_open_failed : bool;
  trace_sequence : Z;
  trace_cycle : Z;
  roi_requested : bool;
  roi_active : bool;
  roi_started : bool;
  roi_ended : bool;
  roi_start_pc : Z;
  roi_end_pc : Z;
  counts : Counts
}.

Definition set_counts (o : observer) (c : Counts) : observer :=
  Observer (output_path o) (trace_file o) (trace_open_failed o) (trace_sequence o) (trace_cycle o)
    (roi_requested o) (roi_active o) (roi_started o) (roi_ended o) (roi_start_pc o) (roi_end_pc o) c.
Definition set_roi (o : observer) (active started ended : bool) : observer :=
  Observer (output_path o) (trace_file o) (trace_open_failed o) (trace_sequence o) (trace_cycle o)
    (roi_requested o) active started ended (roi_start_pc o) (roi_end_pc o) (counts o).
Definition set_trace (o : observer) (f : option (list string)) (seq cyc : Z) : observer :=
  Observer (output_path o) f (trace_open_failed o) seq cyc
    (roi_requested o) (roi_active o) (roi_started o) (roi_ended o) (roi_start_pc o) (roi_end_pc o) (counts o).

(** ** Operations *)

Definition collecting (o : observer) : bool :=
  match output_path o with Some _ => negb (roi_requested o) || roi_active o | None => false end.

Definition trace_header : string :=
  "sequence_number,simulation_cycle,phase,address,operation,wmask,rtl_hit,rtl_miss,rtl_dirty_eviction" +:+ nl.

(** [trace_opens]: whether the trace file can be opened.  [o] is the state
    before the call, whose markers stay when the environment has none. *)
Definition cache_observer_init (e : env) (trace_opens : bool) (o : observer) : io observer :=
  let path := e "CACHE_PROFILE_OUT" in
  let '(start, has_start) := parse_u64_env_cache e "PERF_ROI_START_PC" in
  let '(stop, has_end) := parse_u64_env_cache e "PERF_ROI_END_PC" in
  let start_pc := default (roi_start_pc o) start in
  let end_pc := default (roi_end_pc o) stop in
  let requested := has_start || has_end in
  path ← (if match path with Some _ => true | None => false end &&
             (xorb has_start has_end || (requested && (start_pc =? end_pc))) then
            emit ("cache observer: invalid PERF_ROI_START_PC/PERF_ROI_END_PC" +:+ nl);; mret None
          else mret path);
  let mk f failed := Observer path f failed 0 0 requested (negb requested) (negb requested) false start_pc
                       end_pc counts_zero in
  match e "DCACHE_TRACE_OUT" with
  | None => mret (mk None false)
  | Some trace_path =>
      if trace_opens then mret (mk (Some [trace_header]) false)
      else emit ("cache observer: cannot open DCACHE_TRACE_OUT=" +:+ trace_path +:+ nl);; mret (mk None true)
  end.

Definition cache_observer_update_roi (o : observer) (wb_sign : bool) (wb_pc : Z) : observer :=
  if match output_path o with Some _ => false | None => true end || negb (roi_requested o) || negb wb_sign then o
  else if negb (roi_started o) && (wb_pc =? roi_start_pc o) then
    set_roi (set_counts o counts_zero) true true (roi_ended o)
  else if roi_active o && (wb_pc =? roi_end_pc o) then set_roi o false (roi_started o) true
  else o.

Definition incr (x n : Z) : Z := u64 (x + n).
Definition land_b (x y : Z) : Z := Z.b2z (truthy x && truthy y).

Definition bump_cycles (c : Counts) : Counts :=
  mkCounts (incr (cycles c) 1) (writeback_observations c) (icache_accesses c) (icache_hits c)
      (icache_misses c) (icache_refill_starts c) (icache_refill_completions c)
      (icache_miss_stall_cycles c) (icache_total_stall_cycles c) (dcache_accesses c)
      (dcache_load_accesses c) (dcache_store_accesses c) (dcache_hits c) (dcache_misses c)
      (dcache_load_hits c) (dcache_load_misses c) (dcache_store_hits c) (dcache_store_misses c)
      (dcache_refill_starts c) (dcache_refill_completions c) (dcache_dirty_evictions c)
      (dcache_writeback_starts c) (dcache_writeback_completions c) (dcache_miss_stall_cycles c)
      (dcache_writeback_stall_cycles c) (dcache_total_stall_cycles c) (exclusive_dcache_cycles c)
      (exclusive_divider_cycles c) (exclusive_branch_cycles c) (exclusive_dependency_cycles c)
      (exclusive_icache_cycles c) (exclusive_other_cycles c).
Definition bump_writebacks (c : Counts) : Counts :=
  mkCounts (cycles c) (incr (writeback_observations c) 1) (icache_accesses c) (icache_hits c)
      (icache_misses c) (icache_refill_starts c) (icache_refill_completions c)
      (icache_miss_stall_cycles c) (icache_total_stall_cycles c) (dcache_accesses c)
      (dcache_load_accesses c) (dcache_store_accesses c) (dcache_hits c) (dcache_misses c)
      (dcache_load_hits c) (dcache_load_misses c) (dcache_store_hits c) (dcache_store_misses c)
      (dcache_refill_starts c) (dcache_refill_completions c) (dcache_dirty_evictions c)
      (dcache_writeback_starts c) (dcache_writeback_completions c) (dcache_miss_stall_cycles c)
      (dcache_writeback_stall_cycles c) (dcache_total_stall_cycles c) (exclusive_dcache_cycles c)
      (exclusive_divider_cycles c) (exclusive_branch_cycles c) (exclusive_dependency_cycles c)
      (exclusive_icache_cycles c) (exclusive_other_cycles c).

Definition cache_observer_cycle (o : observer) : observer :=
  let o := match trace_file o with
           | Some _ => if roi_ended o then o else set_trace o (trace_file o) (trace_sequence o) (incr (trace_cycle o) 1)
           | None => o
           end in
  if collecting o then set_counts o (bump_cycles (counts o)) else o.

(** The line of one data-cache access. *)
Definition trace_line (o : observer) (s : CacheObserverSample) : string :=
  fmt_u (trace_sequence o) +:+ "," +:+ fmt_u (trace_cycle o) +:+ ","
  +:+ (if roi_active o then "ROI" else "PRE_ROI") +:+ ",0x" +:+ fmt_0x 8 (dcache_address s) +:+ ","
  +:+ (if truthy (dcache_store_access s) then "STORE" else "LOAD") +:+ ",0x" +:+ fmt_0x 2 (dcache_wmask s) +:+ ","
  +:+ fmt_u (dcache_hit s) +:+ "," +:+ fmt_u (dcache_miss s) +:+ "," +:+ fmt_u (dcache_dirty_eviction s) +:+ nl.

(** The event counters, and the one exclusive counter of the cycle. *)
Definition add_events (c : Counts) (s : CacheObserverSample) : Counts :=
  mkCounts
    (cycles c)
    (writeback_observations c)
    (incr (icache_accesses c) (icache_access s))
    (incr (icache_hits c) (icache_hit s))
    (incr (icache_misses c) (icache_miss s))
    (incr (icache_refill_starts c) (icache_refill_start s))
    (incr (icache_refill_completions c) (icache_refill_complete s))
    (incr (icache_miss_stall_cycles c) (icache_miss_stall s))
    (incr (icache_total_stall_cycles c) (icache_total_stall s))
    (incr (dcache_accesses c) (dcache_access s))
    (incr (dcache_load_accesses c) (dcache_load_access s))
    (incr (dcache_store_accesses c) (dcache_store_access s))
    (incr (dcache_hits c) (dcache_hit s))
    (incr (dcache_misses c) (dcache_miss s))
    (incr (dcache_load_hits c) (land_b (dcache_hit s) (dcache_load_access s)))
    (incr (dcache_load_misses c) (land_b (dcache_miss s) (dcache_load_access s)))
    (incr (dcache_store_hits c) (land_b (dcache_hit s) (dcache_store_access s)))
    (incr (dcache_store_misses c) (land_b (dcache_miss s) (dcache_store_access s)))
    (incr (dcache_refill_starts c) (dcache_refill_start s))
    (incr (dcache_refill_completions c) (dcache_refill_complete s))
    (incr (dcache_dirty_evictions c) (dcache_dirty_eviction s))
    (incr (dcache_writeback_starts c) (dcache_writeback_start s))
    (incr (dcache_writeback_completions c) (dcache_writeback_complete s))
    (incr (dcache_miss_stall_cycles c) (dcache_miss_stall s))
    (incr (dcache_writeback_stall_cycles c) (dcache_writeback_stall s))
    (incr (dcache_total_stall_cycles c) (dcache_total_stall s))
    (exclusive_dcache_cycles c)
    (exclusive_divider_cycles c)
    (exclusive_branch_cycles c)
    (exclusive_dependency_cycles c)
    (exclusive_icache_cycles c)
    (exclusive_other_cycles c).

Inductive cycle_class := XDcache | XDivider | XBranch | XDependency | XIcache | XOther.
Definition classify (s : CacheObserverSample) : cycle_class :=
  if truthy (dcache_total_stall s) then XDcache
  else if truthy (divider s) then XDivider
  else if truthy (branch_recovery s) then XBranch
  else if truthy (dependency s) then XDependency
  else if truthy (icache_total_stall s) then XIcache
  else XOther.
Definition add_class (c : Counts) (x : cycle_class) : Counts :=
  match x with
  | XDcache => mkCounts (cycles c) (writeback_observations c) (icache_accesses c) (icache_hits c)
      (icache_misses c) (icache_refill_starts c) (icache_refill_completions c)
      (icache_miss_stall_cycles c) (icache_total_stall_cycles c) (dcache_accesses c)
      (dcache_load_accesses c) (dcache_store_accesses c) (dcache_hits c) (dcache_misses c)
      (dcache_load_hits c) (dcache_load_misses c) (dcache_store_hits c) (dcache_store_misses c)
      (dcache_refill_starts c) (dcache_refill_completions c) (dcache_dirty_evictions c)
      (dcache_writeback_starts c) (dcache_writeback_completions c) (dcache_miss_stall_cycles c)
      (dcache_writeback_stall_cycles c) (dcache_total_stall_cycles c)
      (incr (exclusive_dcache_cycles c) 1) (exclusive_divider_cycles c) (exclusive_branch_cycles c)
      (exclusive_dependency_cycles c) (exclusive_icache_cycles c) (exclusive_other_cycles c)
  | XDivider => mkCounts (cycles c) (writeback_observations c) (icache_accesses c) (icache_hits c)
      (icache_misses c) (icache_refill_starts c) (icache_refill_completions c)
      (icache_miss_stall_cycles c) (icache_total_stall_cycles c) (dcache_accesses c)
      (dcache_load_accesses c) (dcache_store_accesses c) (dcache_hits c) (dcache_misses c)
      (dcache_load_hits c) (dcache_load_misses c) (dcache_store_hits c) (dcache_store_misses c)
      (dcache_refill_starts c) (dcache_refill_completions c) (dcache_dirty_evictions c)
      (dcache_writeback_starts c) (dcache_writeback_completions c) (dcache_miss_stall_cycles c)
      (dcache_writeback_stall_cycles c) (dcache_total_stall_cycles c) (exclusive_dcache_cycles c)
      (incr (exclusive_divider_cycles c) 1) (exclusive_branch_cycles c) (exclusive_dependency_cycles c)
      (exclusive_icache_cycles c) (exclusive_other_cycles c)
  | XBranch => mkCounts (cycles c) (writeback_observations c) (icache_accesses c) (icache_hits c)
      (icache_misses c) (icache_refill_starts c) (icache_refill_completions c)
      (icache_miss_stall_cycles c) (icache_total_stall_cycles c) (dcache_accesses c)
      (dcache_load_accesses c) (dcache_store_accesses c) (dcache_hits c) (dcache_misses c)
      (dcache_load_hits c) (dcache_load_misses c) (dcache_store_hits c) (dcache_store_misses c)
      (dcache_refill_starts c) (dcache_refill_completions c) (dcache_dirty_evictions c)
      (dcache_writeback_starts c) (dcache_writeback_completions c) (dcache_miss_stall_cycles c)
      (dcache_writeback_stall_cycles c) (dcache_total_stall_cycles c) (exclusive_dcache_cycles c)
      (exclusive_divider_cycles c) (incr (exclusive_branch_cycles c) 1) (exclusive_dependency_cycles c)
      (exclusive_icache_cycles c) (exclusive_other_cycles c)
  | XDependency => mkCounts (cycles c) (writeback_observations c) (icache_accesses c) (icache_hits c)
      (icache_misses c) (icache_refill_starts c) (icache_refill_completions c)
      (icache_miss_stall_cycles c) (icache_total_stall_cycles c) (dcache_accesses c)
      (dcache_load_accesses c) (dcache_store_accesses c) (dcache_hits c) (dcache_misses c)
      (dcache_load_hits c) (dcache_load_misses c) (dcache_store_hits c) (dcache_store_misses c)
      (dcache_refill_starts c) (dcache_refill_completions c) (dcache_dirty_evictions c)
      (dcache_writeback_starts c) (dcache_writeback_completions c) (dcache_miss_stall_cycles c)
      (dcache_writeback_stall_cycles c) (dcache_total_stall_cycles c) (exclusive_dcache_cycles c)
      (exclusive_divider_cycles c) (exclusive_branch_cycles c) (incr (exclusive_dependency_cycles c) 1)
      (exclusive_icache_cycles c) (exclusive_other_cycles c)
  | XIcache => mkCounts (cycles c) (writeback_observations c) (icache_accesses c) (icache_hits c)
      (icache_misses c) (icache_refill_starts c) (icache_refill_completions c)
      (icache_miss_stall_cycles c) (icache_total_stall_cycles c) (dcache_accesses c)
      (dcache_load_accesses c) (dcache_store_accesses c) (dcache_hits c) (dcache_misses c)
      (dcache_load_hits c) (dcache_load_misses c) (dcache_store_hits c) (dcache_store_misses c)
      (dcache_refill_starts c) (dcache_refill_completions c) (dcache_dirty_evictions c)
      (dcache_writeback_starts c) (dcache_writeback_completions c) (dcache_miss_stall_cycles c)
      (dcache_writeback_stall_cycles c) (dcache_total_stall_cycles c) (exclusive_dcache_cycles c)
      (exclusive_divider_cycles c) (exclusive_branch_cycles c) (exclusive_dependency_cycles c)
      (incr (exclusive_icache_cycles c) 1) (exclusive_other_cycles c)
  | XOther => mkCounts (cycles c) (writeback_observations c) (icache_accesses c) (icache_hits c)
      (icache_misses c) (icache_refill_starts c) (icache_refill_completions c)
      (icache_miss_stall_cycles c) (icache_total_stall_cycles c) (dcache_accesses c)
      (dcache_load_accesses c) (dcache_store_accesses c) (dcache_hits c) (dcache_misses c)
      (dcache_load_hits c) (dcache_load_misses c) (dcache_store_hits c) (dcache_store_misses c)
      (dcache_refill_starts c) (dcache_refill_completions c) (dcache_dirty_evictions c)
      (dcache_writeback_starts c) (dcache_writeback_completions c) (dcache_miss_stall_cycles c)
      (dcache_writeback_stall_cycles c) (dcache_total_stall_cycles c) (exclusive_dcache_cycles c)
      (exclusive_divider_cycles c) (exclusive_branch_cycles c) (exclusive_dependency_cycles c)
      (exclusive_icache_cycles c) (incr (exclusive_other_cycles c) 1)
  end.

Definition cache_observer_sample (o : observer) (s : CacheObserverSample) : observer :=
  let o := match trace_file o with
           | Some lines =>
               if negb (roi_ended o) && truthy (dcache_access s)
               then set_trace o (Some (lines ++ [trace_line o s])) (incr (trace_sequence o) 1) (trace_cycle o)
               else o
           | None => o
           end in
  if collecting o then set_counts o (add_class (add_events (counts o) s) (classify s)) else o.

Definition cache_observer_sample_writeback (o : observer) (wb_sign : bool) (wb_pc : Z) : observer :=
  if negb (collecting o) || negb wb_sign then o
  else if roi_requested o && ((wb_pc =? roi_start_pc o) || (wb_pc =? roi_end_pc o)) then o
  else set_counts o (bump_writebacks (counts o)).

(** ** The report *)

Definition exclusive_sum (c : Counts) : Z :=
  u64 (exclusive_dcache_cycles c + exclusive_divider_cycles c + exclusive_branch_cycles c
       + exclusive_dependency_cycles c + exclusive_icache_cycles c + exclusive_other_cycles c).

Definition roi_valid (o : observer) : bool := negb (roi_requested o) || (roi_started o && roi_ended o).

Definition invariant_ok (c : Counts) : bool :=
  (icache_accesses c =? u64 (icache_hits c + icache_misses c)) &&
  (dcache_accesses c =? u64 (dcache_load_accesses c + dcache_store_accesses c)) &&
  (dcache_accesses c =? u64 (dcache_hits c + dcache_misses c)) &&
  (dcache_load_accesses c =? u64 (dcache_load_hits c + dcache_load_misses c)) &&
  (dcache_store_accesses c =? u64 (dcache_store_hits c + dcache_store_misses c)) &&
  (exclusive_sum c =? cycles c).

Definition emit_u64 (name : string) (value : Z) : string := json_line name (fmt_u value).

Definition report (o : observer) (exit_status : Z) : list string :=
  let c := counts o in
  ["{" +:+ nl +:+ json_line "schema_version" (quoted "a2-cache-c0-v1");
   json_line "roi_valid" (bool_text (roi_valid o));
   json_line "retirement_status" (quoted "NOT_QUALIFIED_PARTIAL_WB_EVENT");
   emit_u64 "roi_cycles" (cycles c);
   emit_u64 "writeback_observations" (writeback_observations c);
   emit_u64 "icache_accesses" (icache_accesses c);
   emit_u64 "icache_hits" (icache_hits c);
   emit_u64 "icache_misses" (icache_misses c);
   emit_u64 "icache_miss_allocated_in_roi" (icache_misses c);
   emit_u64 "icache_refill_started_in_roi" (icache_refill_starts c);
   emit_u64 "icache_refill_completed_in_roi" (icache_refill_completions c);
   emit_u64 "icache_miss_stall_cycles" (icache_miss_stall_cycles c);
   emit_u64 "icache_total_stall_cycles" (icache_total_stall_cycles c);
   emit_u64 "dcache_accesses" (dcache_accesses c);
   emit_u64 "dcache_load_accesses" (dcache_load_accesses c);
   emit_u64 "dcache_store_accesses" (dcache_store_accesses c);
   emit_u64 "dcache_hits" (dcache_hits c);
   emit_u64 "dcache_misses" (dcache_misses c);
   emit_u64 "dcache_load_hits" (dcache_load_hits c);
   emit_u64 "dcache_load_misses" (dcache_load_misses c);
   emit_u64 "dcache_store_hits" (dcache_store_hits c);
   emit_u64 "dcache_store_misses" (dcache_store_misses c);
   emit_u64 "dcache_miss_allocated_in_roi" (dcache_misses c);
   emit_u64 "dcache_refill_started_in_roi" (dcache_refill_starts c);
   emit_u64 "dcache_refill_completed_in_roi" (dcache_refill_completions c);
   emit_u64 "dcache_dirty_evictions" (dcache_dirty_evictions c);
   emit_u64 "dcache_writeback_started_in_roi" (dcache_writeback_starts c);
   emit_u64 "dcache_writeback_completed_in_roi" (dcache_writeback_completions c);
   emit_u64 "dcache_miss_stall_cycles" (dcache_miss_stall_cycles c);
   emit_u64 "dcache_writeback_stall_cycles" (dcache_writeback_stall_cycles c);
   emit_u64 "dcache_total_stall_cycles" (dcache_total_stall_cycles c);
   emit_u64 "exclusive_dcache_cycles" (exclusive_dcache_cycles c);
   emit_u64 "exclusive_divider_cycles" (exclusive_divider_cycles c);
   emit_u64 "exclusive_branch_cycles" (exclusive_branch_cycles c);
   emit_u64 "exclusive_dependency_cycles" (exclusive_dependency_cycles c);
   emit_u64 "exclusive_icache_cycles" (exclusive_icache_cycles c);
   emit_u64 "exclusive_other_cycles" (exclusive_other_cycles c);
   emit_u64 "exclusive_cycle_sum" (exclusive_sum c);
   json_line "counter_invariants_pass" (bool_text (invariant_ok c));
   "  " +:+ quoted "exit_status" +:+ ": " +:+ fmt_d exit_status +:+ nl +:+ "}" +:+ nl].

(** [fopens]: whether the report can be opened.  The status, the lines of the
    report, and the state with the trace closed. *)
Definition cache_observer_finalize (fopens : bool) (exit_status : Z) (o : observer) :
    Z * option (list string) * observer :=
  let o := set_trace o None (trace_sequence o) (trace_cycle o) in
  match output_path o with
  | None => (Z.b2z (trace_open_failed o), None, o)
  | Some _ =>
      if negb fopens then (1, None, o)
      else (if roi_valid o && invariant_ok (counts o) && negb (trace_open_failed o) then 0 else 1,
            Some (report o exit_status), o)
  end.

(** ** Consistency of the counters *)

(** What the core promises about one cycle: the event lines are single bits, a
    cache access either hits or misses, and a data access is a load or a
    store. *)
Record sample_ok (s : CacheObserverSample) : Prop := {
  ok_bits : Forall (λ x, x = 0 ∨ x = 1)
    [icache_hit s; icache_miss s; dcache_hit s; dcache_miss s; dcache_load_access s; dcache_store_access s];
  ok_icache : icache_access s = icache_hit s + icache_miss s;
  ok_dcache : dcache_access s = dcache_hit s + dcache_miss s;
  ok_kind : dcache_access s = dcache_load_access s + dcache_store_access s;
  ok_single : dcache_access s <= 1
}.

(** One iteration of a simulation loop that uses the observer. *)
Record tick := Tick { wb_sign : bool; wb_pc : Z; smp : CacheObserverSample }.
Definition step (o : observer) (t : tick) : observer :=
  let o := cache_observer_update_roi o (wb_sign t) (wb_pc t) in
  let o := cache_observer_sample (cache_observer_cycle o) (smp t) in
  cache_observer_sample_writeback o (wb_sign t) (wb_pc t).

(** A counter that is the sum of two others stays so when both sides grow by
    the same amount. *)
Lemma incr_sum a h m x y n :
  a = u64 (h + m) → n = x + y → incr a n = u64 (incr h x + incr m y).
Proof.
  intros -> ->. unfold incr, u64. rewrite wrap_add, wrap_add_l. f_equal. lia.
Qed.

Lemma land_b_split s :
  sample_ok s →
  dcache_load_access s =
    land_b (dcache_hit s) (dcache_load_access s) + land_b (dcache_miss s) (dcache_load_access s) ∧
  dcache_store_access s =
    land_b (dcache_hit s) (dcache_store_access s) + land_b (dcache_miss s) (dcache_store_access s).
Proof.
  intros [Hb _ H1 H2 H3]. rewrite !Forall_cons in Hb.
  destruct Hb as (_ & _ & B1 & B2 & B3 & B4 & _).
  destruct B1 as [E1|E1], B2 as [E2|E2], B3 as [E3|E3], B4 as [E4|E4]; rewrite E1, E2, E3, E4 in *; cbn; lia.
Qed.

(** The sum of the exclusive counters grows by one with every class. *)
Lemma exclusive_sum_class c x : exclusive_sum (add_class c x) = incr (exclusive_sum c) 1.
Proof.
  unfold exclusive_sum, incr, u64. rewrite wrap_add_l.
  set (S := exclusive_dcache_cycles c + _ + _ + _ + _ + _).
  destruct x; cbn; unfold incr, u64;
    match goal with |- wrap 64 ?l = _ =>
      match l with context [wrap 64 (?y + 1)] =>
        replace l with (wrap 64 (y + 1) + (S - y)) by (unfold S; lia) end end;
    rewrite wrap_add_l; f_equal; lia.
Qed.

(** The counters are consistent. *)
Definition consistent (c : Counts) : Prop := invariant_ok c = true.

Lemma consistent_iff c :
  consistent c ↔
    icache_accesses c = u64 (icache_hits c + icache_misses c) ∧
    dcache_accesses c = u64 (dcache_load_accesses c + dcache_store_accesses c) ∧
    dcache_accesses c = u64 (dcache_hits c + dcache_misses c) ∧
    dcache_load_accesses c = u64 (dcache_load_hits c + dcache_load_misses c) ∧
    dcache_store_accesses c = u64 (dcache_store_hits c + dcache_store_misses c) ∧
    exclusive_sum c = cycles c.
Proof. unfold consistent, invariant_ok. rewrite !andb_true_iff, !Z.eqb_eq. tauto. Qed.

(** One cycle: [cycles] and one class move together, and the events keep their
    relations. *)
Lemma cycle_consistent c s :
  sample_ok s → consistent c → consistent (add_class (add_events (bump_cycles c) s) (classify s)).
Proof.
  intros Hs. pose proof (land_b_split s Hs) as [Hl Hst]. destruct Hs as [_ H1 H2 H3 _].
  rewrite !consistent_iff. intros (C1 & C2 & C3 & C4 & C5 & C6). rewrite exclusive_sum_class.
  assert (∀ c x, (icache_accesses (add_class c x), icache_hits (add_class c x), icache_misses (add_class c x),
      dcache_accesses (add_class c x), dcache_load_accesses (add_class c x), dcache_store_accesses (add_class c x),
      dcache_hits (add_class c x), dcache_misses (add_class c x), dcache_load_hits (add_class c x),
      dcache_load_misses (add_class c x), dcache_store_hits (add_class c x), dcache_store_misses (add_class c x),
      cycles (add_class c x)) =
     (icache_accesses c, icache_hits c, icache_misses c, dcache_accesses c, dcache_load_accesses c,
      dcache_store_accesses c, dcache_hits c, dcache_misses c, dcache_load_hits c, dcache_load_misses c,
      dcache_store_hits c, dcache_store_misses c, cycles c)) as F by (by intros ? []).
  specialize (F (add_events (bump_cycles c) s) (classify s)). injection F as -> -> -> -> -> -> -> -> -> -> -> -> ->.
  cbn -[u64 incr exclusive_sum]. split_and!; try by apply incr_sum.
  change (exclusive_sum (add_events (bump_cycles c) s)) with (exclusive_sum c). by rewrite C6.
Qed.

Lemma counts_zero_consistent : consistent counts_zero.
Proof. reflexivity. Qed.

Lemma bump_writebacks_consistent c : consistent (bump_writebacks c) ↔ consistent c.
Proof. done. Qed.

Lemma observe_counts o s :
  let o' := cache_observer_sample (cache_observer_cycle o) s in
  counts o' = (if collecting o then add_class (add_events (bump_cycles (counts o)) s) (classify s) else counts o) ∧
  output_path o' = output_path o ∧ trace_open_failed o' = trace_open_failed o.
Proof.
  unfold cache_observer_sample, cache_observer_cycle, collecting. cbv zeta.
  destruct o as [p f tof sq cy rq ra rs re sp ep c]. cbn [trace_file roi_ended output_path].
  destruct f as [ls|], p as [p|], re, rq, ra; cbn -[add_events add_class bump_cycles classify];
    repeat case_if; done.
Qed.

(** What a step does to the counters and to the part that decides the status. *)
Lemma step_consistent o t :
  sample_ok (smp t) → consistent (counts o) →
  consistent (counts (step o t)) ∧ output_path (step o t) = output_path o ∧
  trace_open_failed (step o t) = trace_open_failed o.
Proof.
  intros Hs Hc. unfold step. cbv zeta. set (o1 := cache_observer_update_roi _ _ _).
  assert (consistent (counts o1) ∧ output_path o1 = output_path o ∧ trace_open_failed o1 = trace_open_failed o)
    as (C1 & P1 & F1).
  { unfold o1, cache_observer_update_roi. repeat case_if; by split_and!. }
  clearbody o1. set (o2 := cache_observer_sample _ _).
  assert (consistent (counts o2) ∧ output_path o2 = output_path o ∧ trace_open_failed o2 = trace_open_failed o)
    as (C2 & P2 & F2).
  { destruct (observe_counts o1 (smp t)) as (E1 & E2 & E3). unfold o2. rewrite E1, E2, E3.
    split_and!; [|done..]. destruct (collecting o1); [by apply cycle_consistent|done]. }
  clearbody o2. unfold cache_observer_sample_writeback. repeat case_if; by split_and!.
Qed.

(** ** Properties *)

(** C26. The consistency check of the report always passes on what a correct core
    shows: from initialisation, whatever the write-backs, after any number of
    cycles whose event lines are consistent, [finalize] reports success exactly
    when the region of interest was completed (or none was requested) and the
    trace could be opened. *)
Theorem counters_pass (e : env) trace_opens o0 o ts exit_status :
  result (cache_observer_init e trace_opens o0) = Ok o → output_path o ≠ None →
  Forall (λ t, sample_ok (smp t)) ts →
  let o' := run step o ts in
  invariant_ok (counts o') = true ∧
  (cache_observer_finalize true exit_status o').1.1 = (if roi_valid o' && negb (trace_open_failed o) then 0 else 1).
Proof.
  intros Hi Hp Hts o'.
  assert (consistent (counts o)) as Hc.
  { revert Hi. unfold cache_observer_init. destruct (parse_u64_env_cache _ _), (parse_u64_env_cache _ _).
    rewrite result_bind. destruct (result _) as [path|]; [|done]. cbv zeta.
    destruct (e "DCACHE_TRACE_OUT"); [destruct trace_opens|]; intros E; by simplify_eq/=. }
  assert (consistent (counts o') ∧ output_path o' = output_path o ∧ trace_open_failed o' = trace_open_failed o)
    as (C & P & F).
  { apply (run_inv_Forall step (λ x, consistent (counts x) ∧ output_path x = output_path o ∧
      trace_open_failed x = trace_open_failed o) (λ t, sample_ok (smp t))); [|done|done].
    intros x t (C & P & F) Ht. destruct (step_consistent x t Ht C) as (C' & P' & F').
    split; [done|]. split; congruence. }
  split; [done|]. unfold cache_observer_finalize. cbn [output_path set_trace]. rewrite P.
  destruct (output_path o); [|done]. cbn -[invariant_ok]. by rewrite C, F, andb_true_r.
Qed.

(** A cycle in which nothing happens but a load that hits. *)
Definition demo_sample : CacheObserverSample :=
  mkSample 1 1 0 0 0 0 0 1 1 0 1 0 0 0 0 0 0 0 0 0 0x80000100 0 0 0 0.
Definition demo_env : env := λ n, if String.eqb n "CACHE_PROFILE_OUT" then Some "out.json" else None.
Definition observer_zero : observer :=
  Observer None None false 0 0 false false false false 0 0 counts_zero.

Lemma demo_sample_ok : sample_ok demo_sample.
Proof. split; [repeat constructor; cbn; lia|reflexivity..|cbn; lia]. Qed.

Lemma counters_pass_witness :
  ∃ o, result (cache_observer_init demo_env true observer_zero) = Ok o ∧
    (cache_observer_finalize true 0 (run step o [Tick true 0x80000000 demo_sample; Tick false 0 demo_sample])).1.1 = 0.
Proof.
  assert (∃ o, result (cache_observer_init demo_env true observer_zero) = Ok o) as [o E]
    by (eexists; reflexivity).
  exists o. split; [exact E|].
  destruct (counters_pass demo_env true observer_zero o
    [Tick true 0x80000000 demo_sample; Tick false 0 demo_sample] 0 E) as [_ F].
  - vm_compute in E. injection E as <-. discriminate.
  - repeat constructor; apply demo_sample_ok.
  - rewrite F. vm_compute in E. injection E as <-. reflexivity.
Defined.
