(* ===== verification/PerfObs.v ===== *)
(** * The performance observer
    [models/attribution/monitor/perf_observer.cpp] and its header: counters of
    the core's event lines, episode counters, the exclusive attribution of
    every cycle, and logs of write-backs, branches and predictor events,
    collected over the whole run or over a region of interest and written as
    a JSON file.  The file's static variables are the record [observer]; those
    that [reset_counts] clears are its field [prof]. *)
From Stdlib Require Import Ascii.
From stdpp Require Import base numbers list option strings.
From S2P Require Import Prelude CText Env.

Local Open Scope Z_scope.

(** ** Data *)

(** The event lines that are counted one by one, in the order of the arguments
    of [perf_observer_sample_raw]: as levels of one cycle and as counters. *)
Record lines (A : Type) := Lines {
  branch_resolved : A; branch_direction_error : A; jalr_target_error : A; icache_miss : A;
  dcache_miss : A; icache_wait : A; dcache_memory_wait : A; load_use_stall : A;
  divider_wait : A; flush_event : A; flush_branch : A; flush_interrupt : A; dependency_stall : A
}.
Arguments Lines {A} _ _ _ _ _ _ _ _ _ _ _ _ _.
Arguments branch_resolved {A} _.
Arguments branch_direction_error {A} _.
Arguments jalr_target_error {A} _.
Arguments icache_miss {A} _.
Arguments dcache_miss {A} _.
Arguments icache_wait {A} _.
Arguments dcache_memory_wait {A} _.
Arguments load_use_stall {A} _.
Arguments divider_wait {A} _.
Arguments flush_event {A} _.
Arguments flush_branch {A} _.
Arguments flush_interrupt {A} _.
Arguments dependency_stall {A} _.

(** The lines whose episodes are counted, with their previous levels. *)
Record watched (A : Type) := Watched {
  w_load_use : A; w_flush_branch : A; w_conditional : A; w_jalr : A; w_other : A
}.
Arguments Watched {A} _ _ _ _ _.
Arguments w_load_use {A} _.
Arguments w_flush_branch {A} _.
Arguments w_conditional {A} _.
Arguments w_jalr {A} _.
Arguments w_other {A} _.

(** The arguments of [perf_observer_sample_raw]. *)
Record raw := Raw {
  ev : lines bool;
  conditional_direction_recovery : bool;
  jalr_target_recovery : bool;
  other_recovery : bool;
  conditional_branch_resolved : bool;
  conditional_branch_pc : Z;
  conditional_branch_actual_taken : bool;
  conditional_branch_predicted_taken : bool;
  predictor_lookup_event : bool;
  predictor_lookup_pc : Z;
  predictor_lookup_id : Z;
  predictor_lookup_valid : bool;
  predictor_lookup_counter : Z;
  predictor_fetch_event : bool;
  predictor_fetch_pc : Z;
  predictor_fetch_conditional : bool;
  predictor_fetch_fallback_sign : bool;
  predictor_fetch_predicted_taken : bool;
  predictor_fetch_id : Z;
  predictor_update_event : bool;
  predictor_update_pc : Z;
  predictor_update_actual_taken : bool;
  predictor_update_id : Z
}.

Record PerfObservation := mkObservation {
  ob_cycle : Z; ob_pc : Z; ob_inst : Z; ob_intr : bool; ob_device : bool
}.
Record ConditionalBranchObservation := mkBranch {
  cb_cycle : Z; cb_pc : Z; cb_actual_taken : bool; cb_predicted_taken : bool
}.
Record PredictorTimelineObservation := mkTimeline {
  tl_cycle : Z; tl_event_id : Z; tl_kind : string; tl_pc : Z; tl_index : Z; tl_valid : bool;
  tl_counter : Z; tl_fallback_sign : bool; tl_predicted_taken : bool; tl_actual_taken : bool
}.
Record PredictorWarmupUpdateObservation := mkWarmup {
  wu_sequence : Z; wu_cycle : Z; wu_pc : Z; wu_actual_taken : bool
}.

(** The exclusive counters. *)
Record exclusive := Exclusive {
  exclusive_dcache_memory_wait_cycles : Z;
  exclusive_divider_block_cycles : Z;
  exclusive_branch_recovery_cycles : Z;
  exclusive_dependency_load_use_cycles : Z;
  exclusive_icache_wait_cycles : Z;
  exclusive_other_unclassified_cycles : Z
}.

Record profile := Profile {
  cycle_count : Z;
  wb_intr_count : Z;
  wb_device_count : Z;
  observations : list PerfObservation;
  conditional_branch_observations : list ConditionalBranchObservation;
  predictor_timeline_observations : list PredictorTimelineObservation;
  events : lines Z;
  excl : exclusive;
  episodes : watched Z;
  previous : watched bool
}.

(** [reset_counts] *)
Definition reset_counts : profile :=
  Profile 0 0 0 [] [] [] (Lines 0 0 0 0 0 0 0 0 0 0 0 0 0) (Exclusive 0 0 0 0 0 0)
    (Watched 0 0 0 0 0) (Watched false false false false false).

Record observer := Observer {
  output_path : option string;
  workload : option string;
  git_commit : option string;
  roi_requested : bool;
  roi_active : bool;
  roi_started : bool;
  roi_ended : bool;
  roi_start_pc : Z;
  roi_end_pc : Z;
  prof : profile;
  predictor_warmup_updates : list PredictorWarmupUpdateObservation;
  predictor_warmup_update_sequence : Z
}.

(** The static variables at program start. *)
Definition observer_zero : observer :=
  Observer None None None false false false false 0 0 reset_counts [] 0.

Definition set_prof (o : observer) (p : profile) : observer :=
  Observer (output_path o) (workload o) (git_commit o) (roi_requested o) (roi_active o) (roi_started o)
    (roi_ended o) (roi_start_pc o) (roi_end_pc o) p (predictor_warmup_updates o)
    (predictor_warmup_update_sequence o).
Definition set_roi (o : observer) (active started ended : bool) : observer :=
  Observer (output_path o) (workload o) (git_commit o) (roi_requested o) active started ended
    (roi_start_pc o) (roi_end_pc o) (prof o) (predictor_warmup_updates o)
    (predictor_warmup_update_sequence o).
Definition set_warmups (o : observer) (l : list PredictorWarmupUpdateObservation) (n : Z) : observer :=
  Observer (output_path o) (workload o) (git_commit o) (roi_requested o) (roi_active o) (roi_started o)
    (roi_ended o) (roi_start_pc o) (roi_end_pc o) (prof o) l n.

(** ** Set-up *)

Definition env_or (e : env) (name fallback : string) : string :=
  match e name with Some (String c t) => String c t | _ => fallback end.

(** This [parse_u64_env] stores the value only when it returns true. *)
Definition parse_u64_env (e : env) (name : string) : option Z :=
  match e name with
  | Some (String c t) =>
      let text := String c t in
      let '(parsed, end_) := strtoull 0 text in
      if String.eqb end_ text || negb (String.eqb end_ "") then None else Some parsed
  | _ => None
  end.

Definition perf_observer_init (e : env) (o : observer) : io observer :=
  let path := e "PERF_RAW_OUT" in
  let o := Observer path (workload o) (git_commit o) (roi_requested o) (roi_active o) (roi_started o)
             (roi_ended o) (roi_start_pc o) (roi_end_pc o) (prof o) (predictor_warmup_updates o)
             (predictor_warmup_update_sequence o) in
  if empty_text path then mret o
  else
    let start := parse_u64_env e "PERF_ROI_START_PC" in
    let end_ := parse_u64_env e "PERF_ROI_END_PC" in
    let has_start := bool_decide (is_Some start) in
    let has_end := bool_decide (is_Some end_) in
    let start_pc := default (roi_start_pc o) start in
    let end_pc := default (roi_end_pc o) end_ in
    let requested := has_start || has_end in
    let make path active started ended p ws n :=
      Observer path (Some (env_or e "PERF_WORKLOAD" "unspecified"))
        (Some (env_or e "PERF_GIT_COMMIT" "unspecified")) requested active started ended
        start_pc end_pc p ws n in
    if negb (Bool.eqb has_start has_end) || (requested && (start_pc =? end_pc)) then
      emit ("performance observer: PERF_ROI_START_PC and PERF_ROI_END_PC must be distinct valid addresses"
            +:+ nl);;
      mret (make None (roi_active o) (roi_started o) (roi_ended o) (prof o)
              (predictor_warmup_updates o) (predictor_warmup_update_sequence o))
    else mret (make path (negb requested) (negb requested) false reset_counts [] 0).

(** ** Per-cycle operations *)

Definition has_path (o : observer) : bool := bool_decide (is_Some (output_path o)).
Definition collecting (o : observer) : bool := has_path o && (negb (roi_requested o) || roi_active o).

Definition perf_observer_update_roi (o : observer) (wb_sign : bool) (wb_pc : Z) : observer :=
  if negb (has_path o) || negb (roi_requested o) || negb wb_sign then o
  else if negb (roi_started o) && (wb_pc =? roi_start_pc o) then
    set_roi (set_prof o reset_counts) true true (roi_ended o)
  else if roi_active o && (wb_pc =? roi_end_pc o) then set_roi o false (roi_started o) true
  else o.

(** [counter += line] and [++counter] on [uint64_t]. *)
Definition incr (x n : Z) : Z := u64 (x + n).
Definition count (c : Z) (b : bool) : Z := incr c (Z.b2z b).
Definition bump_if (b : bool) (c : Z) : Z := if b then incr c 1 else c.

Definition add_lines (c : lines Z) (e : lines bool) : lines Z :=
  Lines (count (branch_resolved c) (branch_resolved e))
    (count (branch_direction_error c) (branch_direction_error e))
    (count (jalr_target_error c) (jalr_target_error e))
    (count (icache_miss c) (icache_miss e))
    (count (dcache_miss c) (dcache_miss e))
    (count (icache_wait c) (icache_wait e))
    (count (dcache_memory_wait c) (dcache_memory_wait e))
    (count (load_use_stall c) (load_use_stall e))
    (count (divider_wait c) (divider_wait e))
    (count (flush_event c) (flush_event e))
    (count (flush_branch c) (flush_branch e))
    (count (flush_interrupt c) (flush_interrupt e))
    (count (dependency_stall c) (dependency_stall e)).

Definition levels (r : raw) : watched bool :=
  Watched (load_use_stall (ev r)) (flush_branch (ev r)) (conditional_direction_recovery r)
    (jalr_target_recovery r) (other_recovery r).
(** [if (line && !previous_line) ++counter] for each of the five. *)
Definition add_episodes (c : watched Z) (p l : watched bool) : watched Z :=
  Watched (bump_if (w_load_use l && negb (w_load_use p)) (w_load_use c))
    (bump_if (w_flush_branch l && negb (w_flush_branch p)) (w_flush_branch c))
    (bump_if (w_conditional l && negb (w_conditional p)) (w_conditional c))
    (bump_if (w_jalr l && negb (w_jalr p)) (w_jalr c))
    (bump_if (w_other l && negb (w_other p)) (w_other c)).

Definition table_index (pc : Z) : Z := u16 (Z.land (Z.shiftr pc 2) 0x3ff).

(** What one cycle appends to the logs. *)
Definition branch_entry (cyc : Z) (r : raw) : list ConditionalBranchObservation :=
  if conditional_branch_resolved r then
    [mkBranch cyc (conditional_branch_pc r) (conditional_branch_actual_taken r)
       (conditional_branch_predicted_taken r)]
  else [].
Definition timeline_entries (cyc : Z) (r : raw) : list PredictorTimelineObservation :=
  (if predictor_lookup_event r then
     [mkTimeline cyc (predictor_lookup_id r) "lookup" (predictor_lookup_pc r)
        (table_index (predictor_lookup_pc r)) (predictor_lookup_valid r) (predictor_lookup_counter r)
        false false false]
   else []) ++
  (if predictor_fetch_event r && predictor_fetch_conditional r then
     [mkTimeline cyc (predictor_fetch_id r) "prediction" (predictor_fetch_pc r)
        (table_index (predictor_fetch_pc r)) false 0 (predictor_fetch_fallback_sign r)
        (predictor_fetch_predicted_taken r) false]
   else []) ++
  (if predictor_update_event r then
     [mkTimeline cyc (predictor_update_id r) "update" (predictor_update_pc r)
        (table_index (predictor_update_pc r)) false 0 false false (predictor_update_actual_taken r)]
   else []).

(** The class a cycle is charged to, and the charge. *)
Inductive cause := XDcache | XDivider | XBranch | XLoadUse | XIcache | XOther.
#[global] Instance cause_eq_dec : EqDecision cause.
Proof. solve_decision. Defined.
Definition classify (e : lines bool) : cause :=
  if dcache_memory_wait e then XDcache
  else if divider_wait e then XDivider
  else if flush_branch e then XBranch
  else if load_use_stall e then XLoadUse
  else if icache_wait e then XIcache
  else XOther.
Definition charge (x : exclusive) (c : cause) : exclusive :=
  let add k n := bump_if (bool_decide (c = k)) n in
  Exclusive (add XDcache (exclusive_dcache_memory_wait_cycles x))
    (add XDivider (exclusive_divider_block_cycles x))
    (add XBranch (exclusive_branch_recovery_cycles x))
    (add XLoadUse (exclusive_dependency_load_use_cycles x))
    (add XIcache (exclusive_icache_wait_cycles x))
    (add XOther (exclusive_other_unclassified_cycles x)).

(** The body of [perf_observer_sample_raw] behind its guard. *)
Definition prof_raw (p : profile) (r : raw) : profile :=
  let cyc := cycle_count p in
  Profile cyc (wb_intr_count p) (wb_device_count p) (observations p)
    (conditional_branch_observations p ++ branch_entry cyc r)
    (predictor_timeline_observations p ++ timeline_entries cyc r)
    (add_lines (events p) (ev r)) (charge (excl p) (classify (ev r)))
    (add_episodes (episodes p) (previous p) (levels r)) (levels r).

Definition perf_observer_sample_raw (o : observer) (r : raw) : observer :=
  let o := if has_path o && roi_requested o && negb (roi_started o) && predictor_update_event r then
             set_warmups o
               (predictor_warmup_updates o ++
                [mkWarmup (predictor_warmup_update_sequence o) (cycle_count (prof o))
                   (predictor_update_pc r) (predictor_update_actual_taken r)])
               (u64 (predictor_warmup_update_sequence o + 1))
           else o in
  if collecting o then set_prof o (prof_raw (prof o) r) else o.

Definition prof_cycle (p : profile) : profile :=
  Profile (u64 (cycle_count p + 1)) (wb_intr_count p) (wb_device_count p) (observations p)
    (conditional_branch_observations p) (predictor_timeline_observations p) (events p) (excl p)
    (episodes p) (previous p).
Definition perf_observer_cycle (o : observer) : observer :=
  if collecting o then set_prof o (prof_cycle (prof o)) else o.

Definition prof_observe (p : profile) (pc inst : Z) (intr device : bool) : profile :=
  Profile (cycle_count p) (count (wb_intr_count p) intr) (count (wb_device_count p) device)
    (observations p ++ [mkObservation (cycle_count p) pc inst intr device])
    (conditional_branch_observations p) (predictor_timeline_observations p) (events p) (excl p)
    (episodes p) (previous p).
Definition perf_observer_sample (o : observer) (wb_sign : bool) (wb_pc wb_inst : Z)
    (wb_intr wb_device : bool) : observer :=
  if negb (collecting o) || negb wb_sign then o
  else if roi_requested o && ((wb_pc =? roi_start_pc o) || (wb_pc =? roi_end_pc o)) then o
  else set_prof o (prof_observe (prof o) wb_pc wb_inst wb_intr wb_device).

(** ** Report *)

(** [write_json_string]: quotation marks and backslashes get a backslash. *)
Definition backslash : ascii := "\".
Definition escaped (c : ascii) : bool := Ascii.eqb c "034" || Ascii.eqb c backslash.
Fixpoint escape (s : string) : string :=
  match s with
  | EmptyString => EmptyString
  | String c s => if escaped c then String backslash (String c (escape s)) else String c (escape s)
  end.
Definition write_json_string (value : string) : string := dq +:+ escape value +:+ dq.

Definition schema_version : string := "a2-raw-v4".
Definition a2_base_commit : string := "df956d23cc420b761104f359792cfbd5bb5e4747".

Definition exclusive_cycle_sum (x : exclusive) : Z :=
  u64 (exclusive_dcache_memory_wait_cycles x + exclusive_divider_block_cycles x +
       exclusive_branch_recovery_cycles x + exclusive_dependency_load_use_cycles x +
       exclusive_icache_wait_cycles x + exclusive_other_unclassified_cycles x).
Definition sum_matches (p : profile) : bool := exclusive_cycle_sum (excl p) =? cycle_count p.

Definition key (k : string) : string := quoted k +:+ ": ".
Definition hex16 (n : Z) : string := quoted ("0x" +:+ fmt_0x 16 n).
Definition count_line (k : string) (n : Z) : string := json_line k (fmt_u n).

Definition warmup_text (w : PredictorWarmupUpdateObservation) : string :=
  "    {" +:+ key "sequence" +:+ fmt_u (wu_sequence w) +:+ ", " +:+ key "cycle" +:+ fmt_u (wu_cycle w)
  +:+ ", " +:+ key "pc" +:+ hex16 (wu_pc w) +:+ ", " +:+ key "actual_taken"
  +:+ bool_text (wu_actual_taken w) +:+ "}".
Definition timeline_text (t : PredictorTimelineObservation) : string :=
  "    {" +:+ key "cycle" +:+ fmt_u (tl_cycle t) +:+ ", " +:+ key "kind" +:+ quoted (tl_kind t)
  +:+ ", " +:+ key "pc" +:+ hex16 (tl_pc t) +:+ ", " +:+ key "event_id" +:+ fmt_u (tl_event_id t)
  +:+ ", " +:+ key "index" +:+ fmt_u (tl_index t) +:+ ", " +:+ key "valid" +:+ bool_text (tl_valid t)
  +:+ ", " +:+ key "counter" +:+ fmt_u (tl_counter t) +:+ ", " +:+ key "fallback_sign"
  +:+ bool_text (tl_fallback_sign t) +:+ ", " +:+ key "predicted_taken"
  +:+ bool_text (tl_predicted_taken t) +:+ ", " +:+ key "actual_taken"
  +:+ bool_text (tl_actual_taken t) +:+ "}".
Definition branch_text (c : ConditionalBranchObservation) : string :=
  "    {" +:+ key "cycle" +:+ fmt_u (cb_cycle c) +:+ ", " +:+ key "pc" +:+ hex16 (cb_pc c)
  +:+ ", " +:+ key "actual_taken" +:+ bool_text (cb_actual_taken c) +:+ ", " +:+ key "predicted_taken"
  +:+ bool_text (cb_predicted_taken c) +:+ "}".
Definition observation_text (b : PerfObservation) : string :=
  "    {" +:+ key "cycle" +:+ fmt_u (ob_cycle b) +:+ ", " +:+ key "wb_pc" +:+ hex16 (ob_pc b)
  +:+ ", " +:+ key "wb_inst" +:+ quoted ("0x" +:+ fmt_0x 8 (ob_inst b)) +:+ ", " +:+ key "wb_intr"
  +:+ bool_text (ob_intr b) +:+ ", " +:+ key "wb_device" +:+ bool_text (ob_device b) +:+ "}".

(** The elements of an array, with a comma behind all but the last. *)
Fixpoint elements {A} (f : A → string) (l : list A) : list string :=
  match l with
  | [] => []
  | [x] => [f x +:+ nl]
  | x :: l => (f x +:+ "," +:+ nl) :: elements f l
  end.

Definition header_part (o : observer) : list string :=
  [ "{" +:+ nl +:+ "  " +:+ key "schema_version"; write_json_string schema_version;
    "," +:+ nl +:+ "  " +:+ key "git_commit"; write_json_string (default "" (git_commit o));
    "," +:+ nl +:+ "  " +:+ key "a2_base_commit"; write_json_string a2_base_commit;
    "," +:+ nl +:+ "  " +:+ key "workload"; write_json_string (default "" (workload o));
    "," +:+ nl +:+ "  " +:+ key "measurement_scope" +:+ dq;
    (if roi_requested o then "pc_marker_roi" else "full_run");
    dq +:+ "," +:+ nl +:+ "  " +:+ key "roi_valid"
      +:+ bool_text (roi_requested o && roi_started o && roi_ended o) +:+ "," +:+ nl ] ++
  (if roi_requested o then
     [json_line "roi_start_pc" (hex16 (roi_start_pc o)); json_line "roi_end_pc" (hex16 (roi_end_pc o))]
   else []).

Definition counter_part (p : profile) : list string :=
  let c := events p in let x := excl p in let w := episodes p in
  [ count_line "simulator_cycle_count" (cycle_count p);
    count_line "wb_observation_count" (Z.of_nat (length (observations p)));
    count_line "wb_intr_count" (wb_intr_count p);
    count_line "wb_device_count" (wb_device_count p);
    count_line "branch_resolved_observation_count" (branch_resolved c);
    count_line "branch_direction_error_count" (branch_direction_error c);
    count_line "jalr_target_error_count" (jalr_target_error c);
    count_line "icache_miss_observation_count" (icache_miss c);
    count_line "dcache_miss_observation_count" (dcache_miss c);
    count_line "icache_wait_cycles" (icache_wait c);
    count_line "dcache_memory_wait_cycles" (dcache_memory_wait c);
    count_line "load_use_stall_cycles" (load_use_stall c);
    count_line "divider_wait_cycles" (divider_wait c);
    count_line "flush_observation_count" (flush_event c);
    count_line "flush_branch_count" (flush_branch c);
    count_line "flush_interrupt_count" (flush_interrupt c);
    count_line "dependency_stall_cycles" (dependency_stall c);
    count_line "exclusive_dcache_memory_wait_cycles" (exclusive_dcache_memory_wait_cycles x);
    count_line "exclusive_divider_block_cycles" (exclusive_divider_block_cycles x);
    count_line "exclusive_branch_recovery_cycles" (exclusive_branch_recovery_cycles x);
    count_line "exclusive_dependency_load_use_cycles" (exclusive_dependency_load_use_cycles x);
    count_line "exclusive_icache_wait_cycles" (exclusive_icache_wait_cycles x);
    count_line "exclusive_other_unclassified_cycles" (exclusive_other_unclassified_cycles x);
    count_line "exclusive_cycle_sum" (exclusive_cycle_sum x);
    json_line "exclusive_cycle_sum_matches_roi" (bool_text (sum_matches p));
    count_line "dependency_load_use_episode_count" (w_load_use w);
    count_line "branch_recovery_episode_count" (w_flush_branch w);
    count_line "conditional_direction_recovery_episode_count" (w_conditional w);
    count_line "jalr_target_recovery_episode_count" (w_jalr w);
    count_line "other_recovery_episode_count" (w_other w) ].

Definition array {A} (k : string) (f : A → string) (l : list A) : list string :=
  ["  " +:+ key k +:+ "[" +:+ nl] ++ elements f l.

Definition report (o : observer) (brn_num bflush_num exit_status : Z) : list string :=
  let p := prof o in
  header_part o ++ counter_part p ++
  array "predictor_warmup_updates" warmup_text (predictor_warmup_updates o) ++
  ["  ]," +:+ nl] ++
  array "predictor_timeline_observations" timeline_text (predictor_timeline_observations p) ++
  ["  ]," +:+ nl] ++
  array "conditional_branch_observations" branch_text (conditional_branch_observations p) ++
  ["  ]," +:+ nl; count_line "brn_num" brn_num; count_line "bflush_num" bflush_num] ++
  array "observations" observation_text (observations p) ++
  ["  ]," +:+ nl +:+ "  " +:+ key "exit_status" +:+ fmt_d exit_status +:+ nl +:+ "}" +:+ nl].

(** The result and, when the file opens, its contents.  A NULL [workload] or
    [git_commit] (the path was set but empty) is dereferenced. *)
Definition perf_observer_finalize (fopens : bool) (brn_num bflush_num exit_status : Z) (o : observer) :
    io (Z * option (list string)) :=
  match output_path o with
  | None => mret (0, None)
  | Some path =>
      let p := prof o in
      exit_status ←
        (if roi_requested o && roi_started o && roi_ended o && negb (sum_matches p) then
           emit ("performance observer: exclusive cycle sum mismatch: "
                 +:+ fmt_u (exclusive_cycle_sum (excl p)) +:+ " != " +:+ fmt_u (cycle_count p) +:+ nl);;
           mret 1
         else mret exit_status);
      if negb fopens then
        emit ("performance observer: cannot open " +:+ path +:+ nl);; mret (1, None)
      else if bool_decide (is_Some (git_commit o)) && bool_decide (is_Some (workload o)) then
        emit ("PERF_RAW: wrote " +:+ path +:+ " cycles=" +:+ fmt_u (cycle_count p) +:+ " wb_observations="
              +:+ fmt_u (Z.of_nat (length (observations p))) +:+ " brn=" +:+ fmt_u brn_num
              +:+ " bflush=" +:+ fmt_u bflush_num +:+ nl);;
        mret (if sum_matches p then 0 else 1, Some (report o brn_num bflush_num exit_status))
      else fail NullDeref
  end.

(** ** What a region of interest should contain *)

(** One iteration of a simulation loop that uses the observer. *)
Record tick := Tick {
  t_sign : bool; t_pc : Z; t_inst : Z; t_intr : bool; t_device : bool; t_raw : raw
}.
Definition step (o : observer) (t : tick) : observer :=
  let o := perf_observer_update_roi o (t_sign t) (t_pc t) in
  let o := perf_observer_sample_raw (perf_observer_cycle o) (t_raw t) in
  perf_observer_sample o (t_sign t) (t_pc t) (t_inst t) (t_intr t) (t_device t).

(** Cycles in which a line is high, and its episodes. *)
Definition count_of (f : tick → bool) (ts : list tick) : Z := u64 (n_true (f <$> ts)).
Definition episodes_of (f : watched bool → bool) (ts : list tick) : Z :=
  u64 (Z.of_nat (runs false ((λ t, f (levels (t_raw t))) <$> ts))).
(** Log entries, in order, each with the number of its cycle. *)
Definition logged {A} (g : Z → tick → list A) (ts : list tick) : list A :=
  concat (imap (λ i t, g (u64 (Z.of_nat (S i))) t) ts).

(** Write-backs that are observed: the markers themselves are not. *)
Definition seen (a b : Z) (t : tick) : bool := t_sign t && negb ((t_pc t =? a) || (t_pc t =? b)).
Definition seen_entry (a b cyc : Z) (t : tick) : list PerfObservation :=
  if seen a b t then [mkObservation cyc (t_pc t) (t_inst t) (t_intr t) (t_device t)] else [].

Definition lines_spec (ts : list tick) : lines Z :=
  let c f := count_of (λ t, f (ev (t_raw t))) ts in
  Lines (c branch_resolved) (c branch_direction_error) (c jalr_target_error) (c icache_miss)
    (c dcache_miss) (c icache_wait) (c dcache_memory_wait) (c load_use_stall) (c divider_wait)
    (c flush_event) (c flush_branch) (c flush_interrupt) (c dependency_stall).
Definition excl_spec (ts : list tick) : exclusive :=
  let c k := count_of (λ t, bool_decide (classify (ev (t_raw t)) = k)) ts in
  Exclusive (c XDcache) (c XDivider) (c XBranch) (c XLoadUse) (c XIcache) (c XOther).
Definition episodes_spec (ts : list tick) : watched Z :=
  Watched (episodes_of w_load_use ts) (episodes_of w_flush_branch ts) (episodes_of w_conditional ts)
    (episodes_of w_jalr ts) (episodes_of w_other ts).
Definition low : watched bool := Watched false false false false false.

Definition profile_spec (a b : Z) (ts : list tick) : profile :=
  Profile (u64 (Z.of_nat (length ts)))
    (count_of (λ t, seen a b t && t_intr t) ts) (count_of (λ t, seen a b t && t_device t) ts)
    (logged (seen_entry a b) ts) (logged (λ c t, branch_entry c (t_raw t)) ts)
    (logged (λ c t, timeline_entries c (t_raw t)) ts)
    (lines_spec ts) (excl_spec ts) (episodes_spec ts)
    (default low ((λ t, levels (t_raw t)) <$> last ts)).

(** The predictor updates before the region, numbered. *)
Definition warmups_spec (cyc : Z) (ts : list tick) : list PredictorWarmupUpdateObservation :=
  imap (λ i t, mkWarmup (u64 (Z.of_nat i)) cyc (predictor_update_pc (t_raw t))
                 (predictor_update_actual_taken (t_raw t)))
    (filter (λ t, predictor_update_event (t_raw t)) ts).

(** *** One more cycle *)

Definition add_tick (a b : Z) (p : profile) (t : tick) : profile :=
  let p := prof_raw (prof_cycle p) (t_raw t) in
  if seen a b t then prof_observe p (t_pc t) (t_inst t) (t_intr t) (t_device t) else p.

Lemma count_of_snoc f ts t : count_of f (ts ++ [t]) = count (count_of f ts) (f t).
Proof.
  unfold count_of, count, incr, u64. rewrite fmap_app. change (f <$> [t]) with [f t].
  by rewrite n_true_snoc, wrap_add_l.
Qed.

Lemma count_of_bump f ts t : count_of f (ts ++ [t]) = bump_if (f t) (count_of f ts).
Proof.
  rewrite count_of_snoc. unfold count, bump_if, incr, count_of, u64. destruct (f t); [done|].
  by rewrite Z.add_0_r, wrap_wrap by lia.
Qed.

Lemma episodes_of_snoc f ts t :
  f low = false →
  episodes_of f (ts ++ [t]) =
    bump_if (f (levels (t_raw t)) &&
             negb (f (default low ((λ t, levels (t_raw t)) <$> last ts)))) (episodes_of f ts).
Proof.
  intros Hl. unfold episodes_of. rewrite fmap_app.
  change ((λ t, f (levels (t_raw t))) <$> [t]) with [f (levels (t_raw t))]. rewrite runs_snoc.
  assert (default false (last ((λ t, f (levels (t_raw t))) <$> ts)) =
          f (default low ((λ t, levels (t_raw t)) <$> last ts))) as ->.
  { rewrite fmap_last. destruct (last ts); [done|]. by cbn; rewrite Hl. }
  unfold rising, bump_if, incr, u64. rewrite Nat2Z.inj_add. case_if.
  - by rewrite wrap_add_l.
  - by rewrite Z.add_0_r.
Qed.

Lemma logged_snoc {A} (g : Z → tick → list A) ts t :
  logged g (ts ++ [t]) = logged g ts ++ g (u64 (Z.of_nat (S (length ts)))) t.
Proof.
  unfold logged. rewrite imap_app, concat_app. cbn. by rewrite app_nil_r, Nat.add_0_r.
Qed.

Lemma lines_spec_snoc ts t : lines_spec (ts ++ [t]) = add_lines (lines_spec ts) (ev (t_raw t)).
Proof. unfold lines_spec, add_lines. cbn. by rewrite !count_of_snoc. Qed.

Lemma excl_spec_snoc ts t : excl_spec (ts ++ [t]) = charge (excl_spec ts) (classify (ev (t_raw t))).
Proof. unfold excl_spec, charge. cbn. by rewrite !count_of_bump. Qed.

Lemma episodes_spec_snoc ts t :
  episodes_spec (ts ++ [t]) =
    add_episodes (episodes_spec ts) (default low ((λ t, levels (t_raw t)) <$> last ts)) (levels (t_raw t)).
Proof. unfold episodes_spec, add_episodes. cbn -[levels]. by rewrite !episodes_of_snoc. Qed.

Lemma profile_spec_snoc a b ts t : profile_spec a b (ts ++ [t]) = add_tick a b (profile_spec a b ts) t.
Proof.
  unfold profile_spec, add_tick.
  rewrite !logged_snoc, lines_spec_snoc, excl_spec_snoc, episodes_spec_snoc, !count_of_bump, last_snoc.
  assert (u64 (Z.of_nat (length (ts ++ [t]))) = u64 (u64 (Z.of_nat (length ts)) + 1)) as ->.
  { unfold u64. rewrite wrap_add_l, length_app. f_equal. cbn. lia. }
  assert (u64 (Z.of_nat (S (length ts))) = u64 (u64 (Z.of_nat (length ts)) + 1)) as ->.
  { unfold u64. rewrite wrap_add_l. f_equal. lia. }
  unfold seen_entry. destruct (seen a b t); cbn [andb]; [|by rewrite app_nil_r].
  unfold prof_observe, prof_raw, prof_cycle. cbn -[levels add_lines charge add_episodes u64].
  f_equal; unfold count, bump_if, incr, count_of, u64; destruct (t_intr t), (t_device t); cbn [Z.b2z];
    rewrite ?Z.add_0_r, ?wrap_wrap by lia; done.
Qed.

Lemma run_add_tick a b ts : run (add_tick a b) reset_counts ts = profile_spec a b ts.
Proof.
  induction ts as [|t ts IH] using rev_ind; [done|]. rewrite run_app, IH. cbn [run].
  by rewrite profile_spec_snoc.
Qed.

(** *** The region of interest *)

Definition marker (pc : Z) (t : tick) : bool := t_sign t && (t_pc t =? pc).

(** The observer writes a report and looks for the markers [a] and [b]. *)
Record armed (o : observer) (a b : Z) : Prop := Armed {
  armed_path : has_path o = true;
  armed_roi : roi_requested o = true;
  armed_start : roi_start_pc o = a;
  armed_end : roi_end_pc o = b
}.

Lemma step_before o a b t :
  armed o a b → roi_active o = false → roi_started o = false → marker a t = false →
  step o t =
    if predictor_update_event (t_raw t) then
      set_warmups o
        (predictor_warmup_updates o ++
         [mkWarmup (predictor_warmup_update_sequence o) (cycle_count (prof o))
            (predictor_update_pc (t_raw t)) (predictor_update_actual_taken (t_raw t))])
        (u64 (predictor_warmup_update_sequence o + 1))
    else o.
Proof.
  intros [Hp Hr Hs He] Ha Hst Hm. unfold step.
  assert (perf_observer_update_roi o (t_sign t) (t_pc t) = o) as ->.
  { unfold perf_observer_update_roi, marker in *. rewrite Hp, Hr, Ha, Hst, Hs. cbn [negb orb andb].
    destruct (t_sign t); cbn [negb andb] in *; [by rewrite Hm|done]. }
  assert (∀ x, has_path x = has_path o → roi_requested x = true → roi_active x = false →
               collecting x = false) as Hc.
  { intros x _ Hxr Hxa. unfold collecting. rewrite Hxr, Hxa. cbn. by rewrite andb_false_r. }
  unfold perf_observer_cycle. rewrite Hc by done. unfold perf_observer_sample_raw.
  rewrite Hp, Hr, Hst. cbn [negb andb]. cbv zeta.
  destruct (predictor_update_event (t_raw t)); rewrite Hc by done; unfold perf_observer_sample;
    by rewrite Hc.
Qed.

Lemma run_before ts o a b :
  armed o a b → roi_active o = false → roi_started o = false →
  predictor_warmup_updates o = [] → predictor_warmup_update_sequence o = 0 →
  Forall (λ t, marker a t = false) ts →
  run step o ts =
    set_warmups o (warmups_spec (cycle_count (prof o)) ts)
      (u64 (Z.of_nat (length (filter (λ t, predictor_update_event (t_raw t)) ts)))).
Proof.
  intros Hd Ha Hst Hw Hn. induction ts as [|t ts IH] using rev_ind; intros Hts.
  { destruct o; cbn in *. by subst. }
  apply Forall_app in Hts as [Hts [Ht _]%Forall_cons].
  rewrite run_app, IH by done. cbn [run].
  rewrite (step_before _ a b) by (done || by destruct Hd; split).
  unfold warmups_spec. rewrite filter_app. cbn [filter list_filter].
  destruct (predictor_update_event (t_raw t)) eqn:Eu.
  - rewrite decide_True by done. rewrite imap_app, length_app. unfold set_warmups. cbn. rewrite Nat.add_0_r.
    f_equal. unfold u64. rewrite wrap_add_l. f_equal. lia.
  - rewrite decide_False by (by intros []). by rewrite app_nil_r.
Qed.

(** Inside, a cycle is one more tick of the profile. *)
Lemma perf_observe_inside o a b t :
  armed o a b → roi_active o = true → roi_started o = true →
  perf_observer_sample (perf_observer_sample_raw (perf_observer_cycle o) (t_raw t))
    (t_sign t) (t_pc t) (t_inst t) (t_intr t) (t_device t) =
  set_prof o (add_tick a b (prof o) t).
Proof.
  intros [Hp Hr Hs He] Ha Hst.
  assert (∀ p, collecting (set_prof o p) = true) as Hc.
  { intros p. unfold collecting, has_path in *. cbn. by rewrite Hp, Hr, Ha. }
  assert (collecting o = true) as Hc0 by (unfold collecting; by rewrite Hp, Hr, Ha).
  unfold perf_observer_cycle. rewrite Hc0. unfold perf_observer_sample_raw.
  cbn [roi_started set_prof roi_requested]. rewrite Hst. cbn [negb].
  rewrite andb_false_r. cbn [andb]. cbv iota zeta. rewrite Hc. cbn [prof set_prof].
  unfold perf_observer_sample. cbn [roi_requested roi_start_pc roi_end_pc set_prof].
  change (set_prof (set_prof o (prof_cycle (prof o))) (prof_raw (prof_cycle (prof o)) (t_raw t)))
    with (set_prof o (prof_raw (prof_cycle (prof o)) (t_raw t))).
  rewrite Hc, Hr, Hs, He. cbn [negb orb andb]. unfold add_tick, seen.
  destruct (t_sign t); cbn [negb andb]; [|done].
  by destruct ((t_pc t =? a) || (t_pc t =? b)).
Qed.

Lemma step_inside o a b t :
  armed o a b → roi_active o = true → roi_started o = true → marker b t = false →
  step o t = set_prof o (add_tick a b (prof o) t).
Proof.
  intros Hd Ha Hst Hm. unfold step.
  assert (perf_observer_update_roi o (t_sign t) (t_pc t) = o) as ->; [|by apply perf_observe_inside].
  destruct Hd as [Hp Hr Hs He]. unfold perf_observer_update_roi, marker in *.
  rewrite Hp, Hr, Ha, Hst, He. cbn [negb orb andb].
  destruct (t_sign t); cbn [negb andb] in *; [by rewrite Hm|done].
Qed.

Lemma perf_run_inside ts o a b :
  armed o a b → roi_active o = true → roi_started o = true → Forall (λ t, marker b t = false) ts →
  run step o ts = set_prof o (run (add_tick a b) (prof o) ts).
Proof.
  intros Hd Ha Hst Hts. revert o Hd Ha Hst.
  induction Hts as [|t ts Ht Hts IH]; intros o Hd Ha Hst; cbn [run]; [by destruct o|].
  rewrite (step_inside _ a b) by done. rewrite IH by (done || by destruct Hd; split). done.
Qed.

Lemma perf_step_begin o a b t :
  armed o a b → roi_started o = false → marker a t = true →
  step o t = set_prof (set_roi o true true (roi_ended o)) (add_tick a b reset_counts t).
Proof.
  intros Hd Hst Hm. unfold step.
  assert (perf_observer_update_roi o (t_sign t) (t_pc t) =
          set_roi (set_prof o reset_counts) true true (roi_ended o)) as ->.
  { destruct Hd as [Hp Hr Hs He]. unfold perf_observer_update_roi, marker in *. bool_to_prop.
    rewrite Hp, Hr, Hst, Hs. replace (t_sign t) with true. cbn [negb orb andb]. by zif_true. }
  rewrite (perf_observe_inside _ a b) by (done || by destruct Hd; split). done.
Qed.

(** Once the region has ended nothing changes any more. *)
Lemma perf_observe_outside o t :
  roi_requested o = true → roi_active o = false → roi_started o = true →
  perf_observer_sample (perf_observer_sample_raw (perf_observer_cycle o) (t_raw t))
    (t_sign t) (t_pc t) (t_inst t) (t_intr t) (t_device t) = o.
Proof.
  intros Hr Ha Hst. assert (collecting o = false) as Hc.
  { unfold collecting. rewrite Hr, Ha. cbn. by rewrite andb_false_r. }
  unfold perf_observer_cycle. rewrite Hc. unfold perf_observer_sample_raw. rewrite Hst. cbn [negb].
  rewrite andb_false_r. cbv iota zeta. cbn [andb]. rewrite Hc. unfold perf_observer_sample. by rewrite Hc.
Qed.

Lemma run_after ts o :
  roi_requested o = true → roi_active o = false → roi_started o = true → run step o ts = o.
Proof.
  intros Hr Ha Hst. induction ts as [|t ts IH]; [done|]. cbn [run].
  assert (step o t = o) as ->; [|done]. unfold step.
  assert (perf_observer_update_roi o (t_sign t) (t_pc t) = o) as ->; [|by apply perf_observe_outside].
  unfold perf_observer_update_roi. rewrite Hst, Ha. cbn [negb andb]. by case_if.
Qed.

Lemma perf_step_end o a b t :
  armed o a b → roi_active o = true → roi_started o = true → marker b t = true →
  step o t = set_roi o false true true.
Proof.
  intros Hd Ha Hst Hm. unfold step.
  assert (perf_observer_update_roi o (t_sign t) (t_pc t) = set_roi o false true true) as ->.
  { destruct Hd as [Hp Hr Hs He]. unfold perf_observer_update_roi, marker in *. bool_to_prop.
    rewrite Hp, Hr, Hst, Ha, He. replace (t_sign t) with true. cbn [negb orb andb]. by zif_true. }
  apply perf_observe_outside; [|done|done]. by destruct Hd.
Qed.

(** *** Every cycle is charged once *)

Lemma charge_sum x c : exclusive_cycle_sum (charge x c) = u64 (exclusive_cycle_sum x + 1).
Proof.
  unfold exclusive_cycle_sum, u64. rewrite wrap_add_l. unfold charge.
  cbn [exclusive_dcache_memory_wait_cycles exclusive_divider_block_cycles exclusive_branch_recovery_cycles
       exclusive_dependency_load_use_cycles exclusive_icache_wait_cycles exclusive_other_unclassified_cycles].
  set (S := exclusive_dcache_memory_wait_cycles x + _ + _ + _ + _ + _).
  destruct c; repeat first [rewrite bool_decide_eq_true_2 by done|rewrite bool_decide_eq_false_2 by done];
    unfold bump_if, incr, u64;
    match goal with |- wrap 64 ?l = _ =>
      match l with context [wrap 64 (?y + 1)] =>
        replace l with (wrap 64 (y + 1) + (S - y)) by (unfold S; lia) end end;
    rewrite wrap_add_l; f_equal; lia.
Qed.

Definition balanced (o : observer) : Prop := exclusive_cycle_sum (excl (prof o)) = cycle_count (prof o).

Lemma collecting_prof o p : collecting (set_prof o p) = collecting o.
Proof. done. Qed.
Lemma collecting_warmups o l n : collecting (set_warmups o l n) = collecting o.
Proof. done. Qed.

Lemma step_balanced o t : balanced o → balanced (step o t).
Proof.
  intros Hb. unfold step.
  assert (balanced (perf_observer_update_roi o (t_sign t) (t_pc t))) as Hb1.
  { unfold perf_observer_update_roi. repeat case_if; done. }
  set (o1 := perf_observer_update_roi _ _ _) in *. clearbody o1. clear Hb.
  assert (balanced (perf_observer_sample_raw (perf_observer_cycle o1) (t_raw t))) as Hb2.
  { unfold perf_observer_cycle. destruct (collecting o1) eqn:Hc; unfold perf_observer_sample_raw; cbv zeta;
      destruct (_ && predictor_update_event (t_raw t)); rewrite ?collecting_warmups, ?collecting_prof, ?Hc; try done;
      unfold balanced in *; cbn [prof set_prof set_warmups excl prof_raw prof_cycle cycle_count];
      by rewrite charge_sum, Hb1. }
  set (o2 := perf_observer_sample_raw _ _) in *. clearbody o2.
  unfold perf_observer_sample. repeat case_if; done.
Qed.

(** What initialisation leaves. *)
Lemma init_cases e o :
  result (perf_observer_init e observer_zero) = Ok o → e "PERF_RAW_OUT" ≠ Some "" →
  balanced o ∧ (output_path o = None ∨ is_Some (git_commit o) ∧ is_Some (workload o)).
Proof.
  unfold perf_observer_init. cbv zeta. intros H Hne. destruct (e "PERF_RAW_OUT") as [[|c t]|] eqn:E; [done| |].
  - cbn [empty_text] in H. revert H. case_if.
    + intros (_ & _ & H)%result_bind_Ok. simplify_eq/=. split; [done|by left].
    + intros. simplify_eq/=. split; [done|right]. split; by eexists.
  - simplify_eq/=. split; [done|by left].
Qed.

(** The path and the texts of the report do not change. *)
Definition header_of (o : observer) := (output_path o, workload o, git_commit o).
Lemma step_header o t : header_of (step o t) = header_of o.
Proof.
  unfold step, perf_observer_sample, perf_observer_sample_raw, perf_observer_cycle, perf_observer_update_roi.
  cbv zeta. repeat case_if; done.
Qed.

(** ** Reading a string back *)

(** The reader of a JSON string literal, for the two escapes the writer uses. *)
Fixpoint read_body (s : string) : option (string * string) :=
  match s with
  | EmptyString => None
  | String c s' =>
      if Ascii.eqb c "034" then Some (EmptyString, s')
      else if Ascii.eqb c backslash then
        match s' with
        | EmptyString => None
        | String d s'' => '(v, rest) ← read_body s''; Some (String d v, rest)
        end
      else '(v, rest) ← read_body s'; Some (String c v, rest)
  end.
Definition read_json_string (s : string) : option (string * string) :=
  match s with
  | String c s' => if Ascii.eqb c "034" then read_body s' else None
  | EmptyString => None
  end.

Lemma read_escape v rest : read_body (escape v +:+ (dq +:+ rest)) = Some (v, rest).
Proof.
  induction v as [|c v IH]; [done|]. cbn [escape].
  destruct (escaped c) eqn:E; cbn [String.append read_body].
  - change (Ascii.eqb backslash "034") with false. change (Ascii.eqb backslash backslash) with true.
    cbv iota. by rewrite IH.
  - apply orb_false_iff in E as [-> ->]. by rewrite IH.
Qed.

(** ** Properties *)

(** C18. What is profiled is the region of interest.  After initialisation with
    two distinct markers, a run in which [a] is first written back at tick
    [st] and [b] first after it at tick [en] leaves exactly the profile of the
    cycles from [st] to before [en]: every event counter is the number of
    cycles its line is high, every episode counter the number of maximal runs
    of its line, every cycle is charged to the first cause that applies, the
    logs hold the entries of those cycles in order and the markers are not
    among the write-backs.  The predictor updates before [st] are kept, in
    order and numbered from 0, all with cycle 0. *)
Theorem perf_roi_profile e o pre st body en post a b :
  result (perf_observer_init e observer_zero) = Ok o →
  empty_text (e "PERF_RAW_OUT") = false →
  parse_u64_env e "PERF_ROI_START_PC" = Some a → parse_u64_env e "PERF_ROI_END_PC" = Some b → a ≠ b →
  Forall (λ t, marker a t = false) pre → marker a st = true →
  Forall (λ t, marker b t = false) body → marker b en = true →
  let o' := run step o (pre ++ (st :: body) ++ en :: post) in
  prof o' = profile_spec a b (st :: body) ∧ predictor_warmup_updates o' = warmups_spec 0 pre ∧
  roi_started o' = true ∧ roi_ended o' = true ∧ roi_active o' = false.
Proof.
  intros Hi Hp Ha Hb Hne Hpre Hst Hbody Hen o'.
  assert (armed o a b ∧ roi_active o = false ∧ roi_started o = false ∧ prof o = reset_counts ∧
          predictor_warmup_updates o = [] ∧ predictor_warmup_update_sequence o = 0)
    as (Hd & Hact & Hnot & Hprof & Hw & Hn).
  { revert Hi. unfold perf_observer_init. cbv zeta. rewrite Hp, Ha, Hb. cbn [from_option]. unfold id.
    rewrite !bool_decide_eq_true_2 by (by eexists). cbn [Bool.eqb negb orb andb]. zif_false.
    cbn. intros. simplify_eq/=. split; [|done]. split; try done.
    unfold has_path. cbn. destruct (e "PERF_RAW_OUT"); done. }
  unfold o'. clear o'. rewrite run_app, (run_before pre o a b) by done.
  set (o1 := set_warmups o _ _). assert (armed o1 a b) as Hd1 by (by destruct Hd; split).
  cbn [app run]. rewrite (perf_step_begin o1 a b) by done.
  set (o2 := set_prof _ _). assert (armed o2 a b) as Hd2 by (by destruct Hd; split).
  rewrite run_app, (perf_run_inside body o2 a b) by done.
  set (o3 := set_prof o2 _). assert (armed o3 a b) as Hd3 by (by destruct Hd; split).
  cbn [run]. rewrite (perf_step_end o3 a b), run_after by (done || by destruct Hd). split_and!; try done.
  - change (run (add_tick a b) (add_tick a b reset_counts st) body = profile_spec a b (st :: body)).
    change (run (add_tick a b) reset_counts (st :: body) = profile_spec a b (st :: body)).
    apply run_add_tick.
  - cbn. by rewrite Hprof.
Qed.

(** C31. Every counted cycle is charged to exactly one cause, so whatever the run,
    [perf_observer_finalize] finds the exclusive counters to add up to the
    cycle count, returns 0 and reports the exit status it is given. *)
Theorem perf_attribution_total e o ts brn_num bflush_num exit_status :
  result (perf_observer_init e observer_zero) = Ok o → e "PERF_RAW_OUT" ≠ Some "" →
  let o' := run step o ts in
  exclusive_cycle_sum (excl (prof o')) = cycle_count (prof o') ∧
  result (perf_observer_finalize true brn_num bflush_num exit_status o') =
    Ok (0, match output_path o with
           | None => None
           | Some _ => Some (report o' brn_num bflush_num exit_status)
           end).
Proof.
  intros Hi Hne o'. destruct (init_cases e o Hi Hne) as [Hb Hh].
  assert (balanced o') as Hb' by (apply run_inv; [apply step_balanced|done]).
  assert (header_of o' = header_of o) as Hh'.
  { apply (run_inv step (λ x, header_of x = header_of o)); [|done]. intros x t Hx. by rewrite step_header. }
  clearbody o'. split; [done|]. unfold header_of in Hh'. injection Hh' as Ho Hw Hg.
  unfold perf_observer_finalize. rewrite Ho. destruct (output_path o) as [path|] eqn:Ep; [|done].
  destruct Hh as [|[Hgc Hwl]]; [done|].
  assert (sum_matches (prof o') = true) as Hs by (by apply Z.eqb_eq).
  rewrite Hs, andb_false_r. cbv zeta. rewrite io_bind_ret_l. cbn [negb].
  by rewrite Hg, Hw, !bool_decide_eq_true_2.
Qed.

(** A text written by [write_json_string] is read back whatever it contains
    and whatever follows. *)
Theorem json_string_roundtrip value rest :
  read_json_string (write_json_string value +:+ rest) = Some (value, rest).
Proof.
  unfold write_json_string. rewrite !append_assoc. cbn [read_json_string dq one String.append].
  change (Ascii.eqb "034" "034") with true. cbv iota. apply read_escape.
Qed.

(** ** Witnesses *)

Definition demo_env : env := λ n,
  if String.eqb n "PERF_RAW_OUT" then Some "out.json"
  else if String.eqb n "PERF_ROI_START_PC" then Some "0x100"
  else if String.eqb n "PERF_ROI_END_PC" then Some "0x200"
  else None.
(** A cycle with or without a load-use stall, a predictor update and a
    write-back of [pc]. *)
Definition demo_tick (sign : bool) (pc : Z) (stall : bool) : tick :=
  Tick sign pc 0x13 false false
    (Raw (Lines false false false false false false false stall false false false false stall)
       false false false false 0 false false false 0 0 false 0 false 0 false false false 0
       true pc true 7).

Lemma perf_roi_profile_witness :
  ∃ o, result (perf_observer_init demo_env observer_zero) = Ok o ∧
  let o' := run step o ([demo_tick true 0x50 true] ++
              (demo_tick true 0x100 true :: [demo_tick false 0 true; demo_tick true 0x104 false; demo_tick false 0 true])
              ++ demo_tick true 0x200 true :: [demo_tick true 0x100 true]) in
  cycle_count (prof o') = 4 ∧ load_use_stall (events (prof o')) = 3 ∧ w_load_use (episodes (prof o')) = 2 ∧
  exclusive_other_unclassified_cycles (excl (prof o')) = 1 ∧
  observations (prof o') = [mkObservation 3 0x104 0x13 false false] ∧
  predictor_warmup_updates o' = [mkWarmup 0 0 0x50 true].
Proof.
  eexists. assert (result (perf_observer_init demo_env observer_zero) = Ok _) as E by (vm_compute; reflexivity).
  split; [exact E|]. intros o'.
  destruct (perf_roi_profile demo_env _ [demo_tick true 0x50 true] (demo_tick true 0x100 true)
    [demo_tick false 0 true; demo_tick true 0x104 false; demo_tick false 0 true]
    (demo_tick true 0x200 true) [demo_tick true 0x100 true] 0x100 0x200 E eq_refl eq_refl eq_refl
    ltac:(discriminate) ltac:(repeat constructor) eq_refl ltac:(repeat constructor) eq_refl)
    as (Hp & Hw & _).
  fold o' in Hp, Hw. rewrite Hp, Hw. vm_compute. repeat split.
Defined.

Lemma perf_attribution_total_witness :
  ∃ o, result (perf_observer_init demo_env observer_zero) = Ok o ∧
  let o' := run step o [demo_tick true 0x100 true; demo_tick false 0 false] in
  exclusive_cycle_sum (excl (prof o')) = 2 ∧
  result (perf_observer_finalize true 0 0 5 o') = Ok (0, Some (report o' 0 0 5)).
Proof.
  eexists. assert (result (perf_observer_init demo_env observer_zero) = Ok _) as E by (vm_compute; reflexivity).
  split; [exact E|]. intros o'.
  destruct (perf_attribution_total demo_env _ [demo_tick true 0x100 true; demo_tick false 0 false] 0 0 5 E
    ltac:(discriminate)) as [Hs Hf].
  split; [etrans; [exact Hs|vm_compute; reflexivity]|exact Hf].
Defined.
