(* ===== verification/DivTb.v ===== *)
(** * The divider test bench
    [divider_drc1_tb.cpp]: the expected results it computes with unsigned
    arithmetic, its fixed cases and its loop over the cases.  The generated
    model of the divider is a parameter (class [Divider]); the pseudo-random
    cases are whatever list the generator gives. *)
From Stdlib Require Import Ascii.
From stdpp Require Import base numbers list option strings.
From S2P Require Import Prelude CText.

Local Open Scope Z_scope.

Definition UINT64_MAX : Z := 2 ^ 64 - 1.

Record TestCase := mkCase { dividend : Z; divisor : Z; is_signed : bool; hold_ready : bool }.

(** ** Expected results *)

(** [~value + 1U] on [uint64_t] *)
Definition neg64 (v : Z) : Z := u64 (u64 (Z.lnot v) + 1).

Definition magnitude (value : Z) : Z := if truthy (Z.shiftr value 63) then neg64 value else value.

Definition expected_quotient (t : TestCase) : Z :=
  if divisor t =? 0 then UINT64_MAX
  else if negb (is_signed t) then dividend t / divisor t
  else
    let negative := truthy (Z.shiftr (Z.lxor (dividend t) (divisor t)) 63) in
    let quotient := magnitude (dividend t) / magnitude (divisor t) in
    if negative then neg64 quotient else quotient.

Definition expected_remainder (t : TestCase) : Z :=
  if divisor t =? 0 then dividend t
  else if negb (is_signed t) then dividend t mod divisor t
  else
    let remainder := magnitude (dividend t) mod magnitude (divisor t) in
    if truthy (Z.shiftr (dividend t) 63) then neg64 remainder else remainder.

(** ** Cases *)

Definition values : list Z :=
  [0; 1; UINT64_MAX; 2; 3; 7; 11; 0x7fffffffffffffff; 0x8000000000000000; 0xfffffffffffffffb;
   0xfffffffffffffff9; 0xffffffff00000000; 0x00000000ffffffff].

Definition add_fixed_cases (tests : list TestCase) : list TestCase :=
  tests
  ++ (s ← [false; true]; a ← values; b ← values;
      [mkCase a b s (Z.land (Z.lxor a b) 7 =? 0)])
  ++ [mkCase 0x8000000000000000 UINT64_MAX true true; mkCase 5 11 true true;
      mkCase 11 11 true false; mkCase 12 11 true false].

(** The 512 random cases, from the successive outputs of the generator (the
    operands of a brace list are evaluated in order). *)
Definition random_cases (random : nat → Z) : list TestCase :=
  (λ i, mkCase (random (2 * i)%nat) (random (2 * i + 1)%nat) (truthy (Z.land (Z.of_nat i) 1))
          (Z.of_nat i mod 31 =? 0)) <$> seq 0 512.

(** ** The bench *)

Record inputs := Inputs {
  clk : Z; rstn : Z; i_alu_div_req : Z; i_stall : Z; rs1 : Z; rs2 : Z; sgn : Z
}.
Class Divider (T : Type) := {
  div_eval : T → inputs → T;
  o_alu_div_ack : T → bool;
  div_res : T → Z;
  div_rem : T → Z
}.

Section bench.
Context {T : Type} `{Divider T}.

(** The model with the values of its input ports. *)
Record bench := Bench { top : T; ins : inputs }.

Definition set_clk (s : bench) (c : Z) : bench :=
  Bench (top s) (Inputs c (rstn (ins s)) (i_alu_div_req (ins s)) (i_stall (ins s)) (rs1 (ins s)) (rs2 (ins s))
                   (sgn (ins s))).
Definition eval (s : bench) : bench := Bench (div_eval (top s) (ins s)) (ins s).
Definition clock (s : bench) : bench := eval (set_clk (eval (set_clk s 0)) 1).

Fixpoint clocks (n : nat) (s : bench) : bench :=
  match n with O => s | S n => clocks n (clock s) end.

Definition set_rstn (s : bench) (r : Z) : bench :=
  let i := ins s in Bench (top s) (Inputs (clk i) r (i_alu_div_req i) (i_stall i) (rs1 i) (rs2 i) (sgn i)).
Definition set_req (s : bench) (r : Z) : bench :=
  let i := ins s in Bench (top s) (Inputs (clk i) (rstn i) r (i_stall i) (rs1 i) (rs2 i) (sgn i)).
Definition set_stall (s : bench) (r : Z) : bench :=
  let i := ins s in Bench (top s) (Inputs (clk i) (rstn i) (i_alu_div_req i) r (rs1 i) (rs2 i) (sgn i)).
Definition set_operands (s : bench) (t : TestCase) : bench :=
  let i := ins s in
  Bench (top s) (Inputs (clk i) (rstn i) 1 (i_stall i) (dividend t) (divisor t) (Z.b2z (is_signed t))).

(** [while (!ack && ack_cycles < 70)]: [fuel] is how many cycles may pass. *)
Fixpoint wait_ack (fuel : nat) (s : bench) (ack_cycles : Z) : bench * Z :=
  match fuel with
  | O => (s, ack_cycles)
  | S fuel => if o_alu_div_ack (top s) then (s, ack_cycles) else wait_ack fuel (clock s) (ack_cycles + 1)
  end.

(** The cycles with [i_stall]: the state after them, or [None] on a mismatch. *)
Fixpoint hold (n : nat) (s : bench) : option bench :=
  match n with
  | O => Some s
  | S n =>
      let s' := clock s in
      if negb (o_alu_div_ack (top s')) || negb (div_res (top s') =? div_res (top s))
         || negb (div_rem (top s') =? div_rem (top s))
      then None else hold n s'
  end.

Definition case_line (index : nat) (t : TestCase) (ack_cycles held q r : Z) : string :=
  fmt_u (Z.of_nat index) +:+ "," +:+ fmt_u (Z.b2z (is_signed t)) +:+ "," +:+ fmt_0x 16 (dividend t) +:+ ","
  +:+ fmt_0x 16 (divisor t) +:+ "," +:+ fmt_u ack_cycles +:+ "," +:+ fmt_u held +:+ ","
  +:+ fmt_0x 16 q +:+ "," +:+ fmt_0x 16 r +:+ nl.

(** One case: a status that ends [main], or the state for the next case. *)
Definition run_case (index : nat) (t : TestCase) (s : bench) : list string * (Z + bench) :=
  let s := set_req (clock (set_operands s t)) 0 in
  let '(s, ack_cycles) := wait_ack 70 s 0 in
  if negb (o_alu_div_ack (top s)) || negb (div_res (top s) =? expected_quotient t)
     || negb (div_rem (top s) =? expected_remainder t) then
    (["divider mismatch at case " +:+ fmt_u (Z.of_nat index) +:+ nl], inl 1)
  else
    let held := if hold_ready t then 3%nat else 0%nat in
    match hold held (set_stall s (Z.b2z (hold_ready t))) with
    | None => (["ready hold mismatch at case " +:+ fmt_u (Z.of_nat index) +:+ nl], inl 2)
    | Some s =>
        let s := set_stall s 0 in
        let line := case_line index t ack_cycles (Z.of_nat held) (div_res (top s)) (div_rem (top s)) in
        let s := clock s in
        ([line], if o_alu_div_ack (top s) then inl 3 else inr s)
    end.

Fixpoint run_cases (index : nat) (tests : list TestCase) (s : bench) : list string * Z :=
  match tests with
  | [] => ([], 0)
  | t :: tests =>
      let '(out, r) := run_case index t s in
      match r with
      | inl status => (out, status)
      | inr s => let '(out', status) := run_cases (S index) tests s in (out ++ out', status)
      end
  end.

(** [main] on a fresh model. *)
Definition main (random : nat → Z) (top0 : T) : list string * Z :=
  let s := clocks 3 (Bench top0 (Inputs 0 0 0 0 0 0 0)) in
  let s := set_rstn s 1 in
  let '(out, status) := run_cases 0 (add_fixed_cases [] ++ random_cases random) s in
  (("index,signed,dividend,divisor,ack_cycles,held_cycles,quotient,remainder" +:+ nl) :: out, status).
End bench.
Arguments bench : clear implicits.

(** ** Division of the instruction set *)

Definition is_word (z : Z) : Prop := 0 <= z < 2 ^ 64.

(** [DIV]/[DIVU] and [REM]/[REMU] of the RISC-V M extension on 64-bit words. *)
Definition riscv_div (sg : bool) (a b : Z) : Z :=
  if b =? 0 then 2 ^ 64 - 1
  else if sg then u64 (Z.quot (s64 a) (s64 b)) else a / b.
Definition riscv_rem (sg : bool) (a b : Z) : Z :=
  if b =? 0 then a
  else if sg then u64 (Z.rem (s64 a) (s64 b)) else a mod b.

Lemma neg64_eq v : neg64 v = u64 (- v).
Proof. unfold neg64, u64. rewrite wrap_add_l, <- Z.opp_lnot at 1. f_equal. unfold Z.lnot. lia. Qed.

Lemma word_sign a : is_word a → truthy (Z.shiftr a 63) = (2 ^ 63 <=? a).
Proof.
  intros Ha. unfold is_word in Ha. rewrite Z.shiftr_div_pow2 by lia. unfold truthy.
  destruct (Z.leb_spec (2 ^ 63) a).
  - assert (a / 2 ^ 63 = 1) as -> by dlia. done.
  - assert (a / 2 ^ 63 = 0) as -> by dlia. done.
Qed.

Lemma s64_word a : is_word a → s64 a = if 2 ^ 63 <=? a then a - 2 ^ 64 else a.
Proof.
  intros Ha. unfold is_word in Ha. unfold s64, swrap. change (2 ^ (64 - 1)) with (2 ^ 63).
  destruct (Z.leb_spec (2 ^ 63) a).
  - replace (a + 2 ^ 63) with (a - 2 ^ 63 + 1 * 2 ^ 64) by lia. rewrite Z.mod_add, Z.mod_small by lia. lia.
  - rewrite Z.mod_small; lia.
Qed.

Lemma magnitude_word a : is_word a → magnitude a = Z.abs (s64 a).
Proof.
  intros Ha. unfold magnitude. rewrite word_sign, s64_word by done. unfold is_word in Ha.
  destruct (Z.leb_spec (2 ^ 63) a); [|lia]. rewrite neg64_eq. unfold u64, wrap.
  replace (- a) with (2 ^ 64 - a + (-1) * 2 ^ 64) by lia. rewrite Z.mod_add, Z.mod_small by lia. lia.
Qed.

Lemma signs_differ a b : is_word a → is_word b →
  truthy (Z.shiftr (Z.lxor a b) 63) = xorb (2 ^ 63 <=? a) (2 ^ 63 <=? b).
Proof.
  intros Ha Hb. rewrite Z.shiftr_lxor. rewrite <- (word_sign a), <- (word_sign b) by done.
  assert (∀ z, is_word z → Z.shiftr z 63 = 0 ∨ Z.shiftr z 63 = 1) as Hs.
  { intros z Hz. unfold is_word in Hz. rewrite Z.shiftr_div_pow2 by lia. dlia. }
  by destruct (Hs a Ha) as [-> | ->], (Hs b Hb) as [-> | ->].
Qed.

Lemma s64_sign a : is_word a → (2 ^ 63 <=? a) = (s64 a <? 0).
Proof. intros Ha. rewrite s64_word by done. unfold is_word in Ha. case_if; bool_to_prop; lia. Qed.

Lemma s64_zero b : is_word b → b ≠ 0 → s64 b ≠ 0.
Proof. intros Hb. rewrite s64_word by done. unfold is_word in Hb. case_if; bool_to_prop; lia. Qed.

(** Division towards zero from magnitudes and signs. *)
Lemma quot_signs x y : y ≠ 0 →
  Z.quot x y = (if xorb (x <? 0) (y <? 0) then - (Z.abs x / Z.abs y) else Z.abs x / Z.abs y).
Proof.
  intros Hy. rewrite Z.quot_div by done. destruct (decide (x = 0)) as [->|Hx].
  { change (Z.abs 0) with 0. rewrite Z.div_0_l by lia. destruct (xorb _ _); lia. }
  destruct (Z.ltb_spec x 0), (Z.ltb_spec y 0); cbn [xorb];
    rewrite ?(Z.sgn_neg x), ?(Z.sgn_neg y), ?(Z.sgn_pos x), ?(Z.sgn_pos y) by lia; lia.
Qed.
Lemma rem_signs x y : y ≠ 0 →
  Z.rem x y = (if x <? 0 then - (Z.abs x mod Z.abs y) else Z.abs x mod Z.abs y).
Proof.
  intros Hy. rewrite Z.rem_mod by done. destruct (decide (x = 0)) as [->|Hx].
  { change (Z.abs 0) with 0. by rewrite Z.mod_0_l by lia. }
  destruct (Z.ltb_spec x 0); rewrite ?(Z.sgn_neg x), ?(Z.sgn_pos x) by lia; lia.
Qed.

(** ** Properties *)

(** C27. The expected results of the bench are those of the RISC-V division and
    remainder instructions, for all pairs of 64-bit words, signed and
    unsigned, division by zero and the overflow of the smallest number divided
    by -1 included. *)
Theorem expected_is_riscv a b sg hold :
  is_word a → is_word b →
  expected_quotient (mkCase a b sg hold) = riscv_div sg a b ∧
  expected_remainder (mkCase a b sg hold) = riscv_rem sg a b.
Proof.
  intros Ha Hb. unfold expected_quotient, expected_remainder, riscv_div, riscv_rem. cbn [dividend divisor is_signed].
  destruct (Z.eqb_spec b 0) as [->|Hb0]; [done|]. destruct sg; cbn [negb]; [|done].
  pose proof (s64_zero b Hb Hb0) as Hs. rewrite !magnitude_word, signs_differ, word_sign, !s64_sign by done.
  pose proof (swrap_range 64 a ltac:(lia)) as Ra. fold (s64 a) in Ra. change (2 ^ (64 - 1)) with (2 ^ 63) in Ra.
  rewrite quot_signs, rem_signs by done. split.
  - destruct (xorb _ _); [apply neg64_eq|]. symmetry. apply wrap_small. split; [apply Z.div_pos; lia|].
    apply Z.le_lt_trans with (Z.abs (s64 a)); [|lia]. apply Z.div_le_upper_bound; nia.
  - destruct (s64 a <? 0); [apply neg64_eq|]. symmetry. apply wrap_small.
    pose proof (Z.mod_pos_bound (Z.abs (s64 a)) (Z.abs (s64 b)) ltac:(lia)).
    pose proof (Z.mod_le (Z.abs (s64 a)) (Z.abs (s64 b)) ltac:(lia) ltac:(lia)). lia.
Qed.

Lemma expected_is_riscv_witness :
  expected_quotient (mkCase 0x8000000000000000 UINT64_MAX true true) = 0x8000000000000000 ∧
  expected_remainder (mkCase 0xfffffffffffffff9 2 true true) = UINT64_MAX.
Proof.
  split.
  - etrans; [apply (expected_is_riscv 0x8000000000000000 UINT64_MAX true true); unfold is_word, UINT64_MAX; lia|].
    reflexivity.
  - etrans; [apply (expected_is_riscv 0xfffffffffffffff9 2 true true); unfold is_word; lia|]. reflexivity.
Defined.

(** *** What a passing run shows *)

Section soundness.
Context {T : Type} `{Divider T}.
Implicit Types s : bench T.

(** The divider answers case [t] from state [s]: within 70 cycles of the
    request it acknowledges with the RISC-V results, and when the pipeline
    stalls it holds them for three cycles. *)
Definition answers (t : TestCase) s : Prop :=
  let s0 := set_req (clock (set_operands s t)) 0 in
  ∃ n, (n ≤ 70)%nat ∧
    let s1 := clocks n s0 in
    (∀ k, (k < n)%nat → o_alu_div_ack (top (clocks k s0)) = false) ∧
    o_alu_div_ack (top s1) = true ∧
    div_res (top s1) = expected_quotient t ∧ div_rem (top s1) = expected_remainder t ∧
    (hold_ready t = true → ∀ k, (k ≤ 3)%nat →
       let s2 := clocks k (set_stall s1 1) in
       o_alu_div_ack (top s2) = true ∧ div_res (top s2) = expected_quotient t ∧
       div_rem (top s2) = expected_remainder t).

(** The state before case [i]. *)
Fixpoint before_case (index : nat) (tests : list TestCase) s (i : nat) : option (bench T) :=
  match i, tests with
  | O, _ => Some s
  | S i, t :: tests =>
      match (run_case index t s).2 with inr s => before_case (S index) tests s i | inl _ => None end
  | S _, [] => None
  end.

Lemma wait_ack_spec fuel s c s' c' :
  wait_ack fuel s c = (s', c') → o_alu_div_ack (top s') = true →
  ∃ n, (n ≤ fuel)%nat ∧ s' = clocks n s ∧ ∀ k, (k < n)%nat → o_alu_div_ack (top (clocks k s)) = false.
Proof.
  revert s c. induction fuel as [|fuel IH]; intros s c; cbn [wait_ack].
  - intros E Ha. simplify_eq. exists 0%nat. split; [lia|]. split; [done|lia].
  - destruct (o_alu_div_ack (top s)) eqn:Es; intros E Ha.
    + simplify_eq. exists 0%nat. split; [lia|]. split; [done|lia].
    + destruct (IH _ _ E Ha) as (n & Hn & -> & Hk). exists (S n). split; [lia|]. split; [done|].
      intros [|k] Hlt; [done|]. apply Hk. lia.
Qed.

Lemma hold_spec n s s' q r :
  hold n s = Some s' → o_alu_div_ack (top s) = true → div_res (top s) = q → div_rem (top s) = r →
  s' = clocks n s ∧
  ∀ k, (k ≤ n)%nat → o_alu_div_ack (top (clocks k s)) = true ∧ div_res (top (clocks k s)) = q ∧
                     div_rem (top (clocks k s)) = r.
Proof.
  revert s. induction n as [|n IH]; intros s; cbn [hold]; cbv zeta.
  - intros E ? ? ?. simplify_eq. split; [done|]. intros k Hk. replace k with 0%nat by lia. done.
  - destruct (negb _ || _ || _) eqn:E; [done|]. bool_to_prop. intros Eh Ha Hq Hr.
    destruct (IH (clock s) Eh) as [-> Hk]; [done|congruence|congruence|].
    split; [done|]. intros [|k] Hle; [done|]. apply Hk. lia.
Qed.

Lemma run_case_answers index t s s' : (run_case index t s).2 = inr s' → answers t s.
Proof.
  unfold run_case, answers. cbv zeta. set (s0 := set_req (clock (set_operands s t)) 0).
  destruct (wait_ack 70 s0 0) as [s1 ac] eqn:Ew.
  destruct (negb _ || _ || _) eqn:E; [done|]. bool_to_prop.
  destruct (wait_ack_spec 70 s0 0 s1 ac Ew) as (n & Hn & -> & Hk); [done|].
  destruct (hold _ _) as [s2|] eqn:Eh; [|done]. intros _. exists n. split_and!; [done..|].
  intros Hh. rewrite Hh in Eh. cbn in Eh.
  eapply (hold_spec 3 (set_stall (clocks n s0) 1)) in Eh as [_ Hall]; [exact Hall|done..].
Qed.

(** C28. If the test bench ends with status 0, the divider answered every case
    correctly: from the state in which the case found it, it acknowledged
    within 70 cycles with the quotient and the remainder, and held them while
    stalled. *)
Theorem bench_sound index tests s i t :
  (run_cases index tests s).2 = 0 → tests !! i = Some t →
  ∃ si, before_case index tests s i = Some si ∧ answers t si.
Proof.
  revert index s i. induction tests as [|u tests IH]; intros index s i; cbn [run_cases]; [done|].
  destruct (run_case index u s) as [out r] eqn:Er. destruct r as [status|s'].
  - intros Hz. cbn in Hz. subst. exfalso. revert Er. unfold run_case. cbv zeta.
    destruct (wait_ack _ _ _) as [s1 ac]. case_if; [intros; simplify_eq|].
    destruct (hold _ _); [|intros; simplify_eq]. repeat case_if; intros; simplify_eq.
  - destruct (run_cases (S index) tests s') as [out' status] eqn:Ec. cbn [snd]. intros -> Hi.
    destruct i as [|i]; cbn in Hi; cbn [before_case].
    + simplify_eq. exists s. split; [done|]. apply (run_case_answers index t s s'). by rewrite Er.
    + rewrite Er. cbn [snd]. apply (IH (S index) s' i); [by rewrite Ec|done].
Qed.
End soundness.

(** *** Witness *)

(** A divider that answers a request one cycle later and drops the
    acknowledgement with the next cycle that is not stalled. *)
Module Toy.
Record t := mk { ack : bool; busy : bool; q : Z; r : Z }.
#[global] Instance toy_divider : Divider t := {|
  div_eval d i :=
    if clk i =? 1 then
      if i_stall i =? 1 then d
      else if i_alu_div_req i =? 1 then
        mk false true (riscv_div (truthy (sgn i)) (rs1 i) (rs2 i)) (riscv_rem (truthy (sgn i)) (rs1 i) (rs2 i))
      else mk (busy d) false (q d) (r d)
    else d;
  o_alu_div_ack := ack;
  div_res := q;
  div_rem := r
|}.
Definition start : bench t := Bench (mk false false 0 0) (Inputs 0 1 0 0 0 0 0).
End Toy.

Lemma bench_sound_witness :
  ∃ si, before_case 0 (add_fixed_cases []) Toy.start 300 = Some si ∧
        answers (mkCase 0xfffffffffffffff9 1 true true) si.
Proof.
  apply (bench_sound 0 (add_fixed_cases []) Toy.start 300).
  - vm_compute. reflexivity.
  - vm_compute. reflexivity.
Defined.
