(* ===== verification/IntrTb.v ===== *)
(** * The interrupt bench
    [tests/custom/intr_directed_tb.cpp]: clocks the generated interrupt test for
    at most 512 cycles and checks the address [mret] returns to. *)
From stdpp Require Import base numbers list option strings.
From S2P Require Import Prelude CText.

Local Open Scope Z_scope.

(** The generated model: evaluation at a level of the clock, and its outputs. *)
Class IntrTop (T : Type) := {
  intr_eval : Z → T → T;
  done_o : T → Z; fail_o : T → Z; failed_state : T → Z; observed : T → Z;
  mret_check_phase : T → Z; mret_check_flush_en : T → Z; mret_check_flush_addr : T → Z
}.

Definition mret_target : Z := 0x80000203.
Definition max_cycles : nat := 512.

Section bench.
Context {T : Type} `{!IntrTop T}.

Record bench := Bench { top : T; checked_mret : bool; failed_mret : bool; mret_addr : Z; mret_en : Z }.

(** [top.clk = c; top.eval(); top.eval();] *)
Definition evals (c : Z) (t : T) : T := intr_eval c (intr_eval c t).

(** The check while the clock is low. *)
Definition check_mret (s : bench) : bench :=
  let t := top s in
  if truthy (mret_check_phase t) then
    Bench t true (negb (truthy (mret_check_flush_en t)) || negb (mret_check_flush_addr t =? mret_target))
      (mret_check_flush_addr t) (mret_check_flush_en t)
  else s.

(** The loop, with the cycles left; the [break] is inside the check. *)
Fixpoint bench_loop (n : nat) (s : bench) : bench :=
  match n with
  | O => s
  | S n =>
      if truthy (done_o (top s)) then s
      else
        let s := check_mret (Bench (evals 0 (top s)) (checked_mret s) (failed_mret s) (mret_addr s) (mret_en s)) in
        if truthy (mret_check_phase (top s)) && failed_mret s then s
        else bench_loop n (Bench (evals 1 (top s)) (checked_mret s) (failed_mret s) (mret_addr s) (mret_en s))
  end.

Definition bench_start (t : T) : bench := Bench t false false 0 0.

Definition main (t : T) : io Z :=
  let s := bench_loop max_cycles (bench_start t) in
  let t := top s in
  if truthy (done_o t) && negb (truthy (fail_o t)) && checked_mret s && negb (failed_mret s) then mret 0
  else
    emit ("intr_directed failed: done=" +:+ fmt_u (done_o t) +:+ " fail=" +:+ fmt_u (fail_o t)
          +:+ " state=" +:+ fmt_u (failed_state t) +:+ " observed=0x" +:+ fmt_0x 16 (observed t)
          +:+ " checked_mret=" +:+ fmt_u (Z.b2z (checked_mret s)) +:+ " failed_mret=" +:+ fmt_u (Z.b2z (failed_mret s))
          +:+ " mret_en=" +:+ fmt_u (mret_en s) +:+ " mret_addr=0x" +:+ fmt_0x 16 (mret_addr s) +:+ nl);;
    mret 1.

(** ** Properties *)

(** The model after [k] whole cycles, and in the low half of the next. *)
Fixpoint after_cycles (k : nat) (t : T) : T :=
  match k with O => t | S k => after_cycles k (evals 1 (evals 0 t)) end.
Definition low_half (k : nat) (t : T) : T := evals 0 (after_cycles k t).

Definition in_phase (t : T) : bool := truthy (mret_check_phase t).
Definition mret_ok (t : T) : bool :=
  truthy (mret_check_flush_en t) && (mret_check_flush_addr t =? mret_target).

(** The test ends by itself at cycle [n], having passed every check. *)
Record passes_at (t : T) (n : nat) : Prop := {
  pass_end : truthy (done_o (after_cycles n t)) = true ∧ ∀ k, (k < n)%nat → truthy (done_o (after_cycles k t)) = false;
  pass_good : truthy (fail_o (after_cycles n t)) = false;
  pass_seen : ∃ k, (k < n)%nat ∧ in_phase (low_half k t) = true;
  pass_mret : ∀ k, (k < n)%nat → in_phase (low_half k t) = true → mret_ok (low_half k t) = true
}.

Definition verdict (s : bench) : bool :=
  truthy (done_o (top s)) && negb (truthy (fail_o (top s))) && checked_mret s && negb (failed_mret s).

(** The same with checks made before. *)
Definition passes_from (seen : bool) (t : T) (n : nat) : Prop :=
  (truthy (done_o (after_cycles n t)) = true ∧ ∀ k, (k < n)%nat → truthy (done_o (after_cycles k t)) = false) ∧
  truthy (fail_o (after_cycles n t)) = false ∧
  (seen = true ∨ ∃ k, (k < n)%nat ∧ in_phase (low_half k t) = true) ∧
  (∀ k, (k < n)%nat → in_phase (low_half k t) = true → mret_ok (low_half k t) = true).

Lemma passes_from_step seen t n :
  truthy (done_o t) = false →
  passes_from seen t (S n) ↔
    passes_from (seen || in_phase (evals 0 t)) (evals 1 (evals 0 t)) n ∧
    (in_phase (evals 0 t) = true → mret_ok (evals 0 t) = true).
Proof.
  intros Hd. unfold passes_from. cbn [after_cycles]. split.
  - intros ((He & Hb) & Hf & Hs & Hm). split; [|intros Hp; apply (Hm 0%nat); [lia|done]].
    split_and!; [done| |done| |].
    + intros k Hk. apply (Hb (S k)). lia.
    + destruct Hs as [->|(k & Hk & Hp)]; [by left|]. destruct k as [|k].
      * left. change (low_half 0 t) with (evals 0 t) in Hp. by rewrite Hp, orb_true_r.
      * right. exists k. split; [lia|exact Hp].
    + intros k Hk. apply (Hm (S k)). lia.
  - intros (((He & Hb) & Hf & Hs & Hm) & H0). split_and!; [done| |done| |].
    + intros [|k] Hk; [done|]. apply Hb. lia.
    + destruct Hs as [[->|Hp]%orb_true_iff|(k & Hk & Hp)]; [by left| |].
      * right. exists 0%nat. split; [lia|exact Hp].
      * right. exists (S k). split; [lia|exact Hp].
    + intros [|k] Hk; [exact H0|]. apply Hm. lia.
Qed.

Lemma bench_loop_verdict n s :
  failed_mret s = false →
  verdict (bench_loop n s) = true ↔ ∃ k, (k <= n)%nat ∧ passes_from (checked_mret s) (top s) k.
Proof.
  revert s. induction n as [|n IH]; intros s Hf; cbn [bench_loop].
  - unfold verdict. rewrite Hf, !andb_true_iff, !negb_true_iff. split.
    + intros (((Hd & Hg) & Hs) & _). exists 0%nat. split; [lia|]. unfold passes_from. cbn.
      split_and!; [done|lia|done|by left|lia].
    + intros (k & Hk & (Hd & _) & Hg & Hs & _). assert (k = 0)%nat as -> by lia. cbn in *.
      destruct Hs as [Hs|(k & Hk' & _)]; [done|lia].
  - destruct (truthy (done_o (top s))) eqn:Ed.
    + unfold verdict. rewrite Hf, Ed, !andb_true_iff, !negb_true_iff. split.
      * intros (((_ & Hg) & Hs) & _). exists 0%nat. split; [lia|]. unfold passes_from. cbn.
        split_and!; [done|lia|done|by left|lia].
      * intros (k & Hk & (_ & Hb) & Hg & Hs & _). destruct k as [|k]; [|specialize (Hb 0%nat ltac:(lia)); cbn in Hb; congruence].
        cbn in *. destruct Hs as [Hs|(k & Hk' & _)]; [done|lia].
    + assert ((∃ k, (k <= S n)%nat ∧ passes_from (checked_mret s) (top s) k) ↔
              ∃ k, (k <= n)%nat ∧ passes_from (checked_mret s) (top s) (S k)) as ->.
      { split; [|intros (k & Hk & H); exists (S k); split; [lia|done]]. intros ([|k] & Hk & H); [|exists k; split; [lia|done]].
        destruct H as ((H & _) & _). cbn in H. congruence. }
      unfold check_mret. cbn [top checked_mret failed_mret mret_addr mret_en].
      assert (∀ k, passes_from (checked_mret s) (top s) (S k) ↔ _) as Hstep
        by (intros k; apply passes_from_step, Ed).
      unfold in_phase, mret_ok in Hstep.
      destruct (truthy (mret_check_phase (evals 0 (top s)))) eqn:Ep; cbn [top checked_mret failed_mret andb].
      * rewrite Ep. cbn [andb]. rewrite <- negb_andb. unfold mret_ok in *.
        destruct (truthy (mret_check_flush_en (evals 0 (top s))) &&
                  (mret_check_flush_addr (evals 0 (top s)) =? mret_target)) eqn:Em; cbn [negb].
        -- rewrite IH by done. cbn [top checked_mret]. setoid_rewrite Hstep. rewrite orb_true_r. naive_solver.
        -- unfold verdict. cbn [failed_mret]. rewrite andb_false_r. setoid_rewrite Hstep. naive_solver.
      * rewrite Ep. cbn [andb]. rewrite IH by done. cbn [top checked_mret]. setoid_rewrite Hstep.
        rewrite orb_false_r. naive_solver.
Qed.

(** C29. The bench is sound and complete for its 512 cycles: it always returns,
    with 0 exactly when the test ends by itself within them, does not report a
    failure, the phase of the check was seen before, and at every cycle of it
    [mret] flushed to the address expected; otherwise it returns 1. *)
Theorem intr_bench_verdict t :
  ∃ code, result (main t) = Ok code ∧ (code = 0 ∨ code = 1) ∧
    (code = 0 ↔ ∃ n, (n <= max_cycles)%nat ∧ passes_at t n).
Proof.
  pose proof (bench_loop_verdict max_cycles (bench_start t) eq_refl) as H. unfold verdict in H.
  assert ((∃ n, (n <= max_cycles)%nat ∧ passes_at t n) ↔
          ∃ n, (n <= max_cycles)%nat ∧ passes_from (checked_mret (bench_start t)) (top (bench_start t)) n) as E.
  { split; intros (n & Hn & Hp); exists n; (split; [done|]).
    - destruct Hp as [H1 H2 H3 H4]. unfold passes_from. cbn. tauto.
    - destruct Hp as (H1 & H2 & [H3|H3] & H4); [discriminate H3|by split]. }
  rewrite <- H in E. clear H. unfold main. cbv zeta.
  destruct (truthy (done_o (top (bench_loop max_cycles (bench_start t)))) && _ && _ && _).
  - exists 0. rewrite E. split; [done|]. split; [by left|done].
  - exists 1. rewrite E. split; [done|]. split; [by right|done].
Qed.
End bench.
