(* ===== verification/Disasm.v ===== *)
(** * The disassembler glue
    [disasm.cc]: [init_disasm], which sets LLVM up for a target, and
    [disassemble], which prints one instruction into a buffer of the caller.
    What LLVM knows and prints is a parameter; the state is the static pointers
    [gDisassembler], [gSTI] and [gIP], as far as the calls configure them. *)
From Stdlib Require Import Ascii.
From stdpp Require Import base numbers list option strings.
From S2P Require Import Prelude Bytes CText.

Local Open Scope Z_scope.

(** The configuration of the subtarget and of the printer. *)
Record disassembler := Disassembler {
  triple : string;
  features : list string;
  PrintImmHex : bool;
  PrintBranchImmAsAddress : bool
}.

(** LLVM: its version, the name of the target of a triple or why there is none,
    and the text [getInstruction] and [printInst] make of the bytes at an
    address, whatever they are. *)
Record llvm := Llvm {
  LLVM_VERSION_MAJOR : Z;
  lookupTarget : string → string + string;
  printInst : disassembler → Z → list Z → string
}.

Section disasm.
Variable l : llvm.

Definition init_disasm (gTriple : string) : io disassembler :=
  match lookupTarget l gTriple with
  | inl errstr => emit ("Can't find target for " +:+ gTriple +:+ ": " +:+ errstr +:+ nl);; fail AssertFail
  | inr isa =>
      mret (Disassembler gTriple
        (if String.eqb isa "riscv32" || String.eqb isa "riscv64" then ["+m"; "+a"; "+c"; "+f"; "+d"] else [])
        true (11 <=? LLVM_VERSION_MAJOR l))
  end.

(** [s.find_first_not_of('\t')]. *)
Fixpoint find_first_not_tab (s : string) : option nat :=
  match s with
  | EmptyString => None
  | String c s => if Ascii.eqb c "009" then S <$> find_first_not_tab s else Some O
  end.

(** What [str] holds afterwards.  When there is nothing but tabs, [npos] becomes
    the [int] -1: the assertion counts one character more than there are, and
    the copy starts in front of the text. *)
Definition disassemble (d : disassembler) (size pc : Z) (code : list Z) : io string :=
  let s := printInst l d pc code in
  let skip := match find_first_not_tab s with Some n => Z.of_nat n | None => -1 end in
  if Z.of_nat (String.length s) - skip <? size then
    if skip <? 0 then fail OutOfBounds
    else mret (String.substring (Z.to_nat skip) (String.length s - Z.to_nat skip) s)
  else fail AssertFail.
End disasm.

(** ** What comes out *)

Definition tabs (n : nat) : string := String.concat EmptyString (replicate n tab).

Lemma tabs_succ n : tabs (S n) = String "009" (tabs n).
Proof. unfold tabs. destruct n; done. Qed.
Lemma length_tabs n : String.length (tabs n) = n.
Proof. induction n as [|n IH]; [done|]. rewrite tabs_succ. cbn. by rewrite IH. Qed.

(** A text is tabs, and something that starts with another character or nothing. *)
Definition no_tab (s : string) : bool :=
  match s with String c _ => negb (Ascii.eqb c "009") | EmptyString => false end.

Lemma find_tabs n s : no_tab s = true → find_first_not_tab (tabs n +:+ s) = Some n.
Proof.
  intros Hs. induction n as [|n IH].
  - destruct s as [|c s]; [done|]. cbn in Hs |- *. by destruct (Ascii.eqb c "009").
  - rewrite tabs_succ. cbn -[Ascii.eqb]. by rewrite IH.
Qed.
Lemma find_only_tabs n : find_first_not_tab (tabs n) = None.
Proof. induction n as [|n IH]; [done|]. rewrite tabs_succ. cbn. by rewrite IH. Qed.

Lemma substring_whole s : String.substring 0 (String.length s) s = s.
Proof. induction s as [|c s IH]; [done|]. cbn. by rewrite IH. Qed.
Lemma substring_tabs n s k : String.substring n k (tabs n +:+ s) = String.substring 0 k s.
Proof. induction n as [|n IH]; [done|]. by rewrite tabs_succ. Qed.

Lemma disassemble_cases l d size pc code n s :
  printInst l d pc code = tabs n +:+ s → no_tab s = true →
  disassemble l d size pc code = if Z.of_nat (String.length s) <? size then mret s else fail AssertFail.
Proof.
  intros E Hs. unfold disassemble. rewrite E, find_tabs, length_append, length_tabs by done. cbv zeta.
  replace (Z.of_nat (n + String.length s) - Z.of_nat n) with (Z.of_nat (String.length s)) by lia.
  case_if; [|done]. zif_false. rewrite Nat2Z.id. f_equal. rewrite substring_tabs. replace (n + String.length s - n)%nat with (String.length s) by lia.
  apply substring_whole.
Qed.

Lemma disassemble_nothing l d size pc code n :
  printInst l d pc code = tabs n →
  disassemble l d size pc code = fail (if Z.of_nat n + 1 <? size then OutOfBounds else AssertFail).
Proof.
  intros E. unfold disassemble. rewrite E, find_only_tabs, length_tabs. cbv zeta.
  replace (Z.of_nat n - -1) with (Z.of_nat n + 1) by lia. by case_if.
Qed.

(** The start-up of the simulator fails exactly for a target LLVM does not
    know, and turns the extensions of the core on for RISC-V. *)
Lemma init_disasm_riscv l t isa :
  lookupTarget l t = inr isa → isa = "riscv32" ∨ isa = "riscv64" →
  init_disasm l t = mret (Disassembler t ["+m"; "+a"; "+c"; "+f"; "+d"] true (11 <=? LLVM_VERSION_MAJOR l)).
Proof. intros E H. unfold init_disasm. rewrite E. by destruct H as [->| ->]. Qed.
