(* ===== verification/Elf.v ===== *)
(** * ELF symbols, the function trace and the instruction trace
    [read_elf] of [sdb.cpp], which fills the table [func] with the function
    symbols of a program, [ftrace] of [sim_main.cpp], which looks program
    counters up in it, and [itrace].  A file is its bytes.  What a buffer holds
    before it is read into is a parameter ([stale]), and allocations succeed. *)
From Stdlib Require Import Ascii.
From stdpp Require Import base numbers list option strings.
From S2P Require Import Prelude Bytes CText Disasm.

Local Open Scope Z_scope.

(** ** Buffers *)

(** [fread] of [n] bytes at [pos]: the buffer, and the position behind.  Bytes
    behind the end of the file stay as they were. *)
Definition fread (stale : nat → Z) (file : list Z) (pos : Z) (n : nat) : list Z * Z :=
  ((λ i, if pos + Z.of_nat i <? Z.of_nat (length file) then default 0 (file !! Z.to_nat (pos + Z.of_nat i))
         else stale i) <$> seq 0 n,
   Z.max pos (Z.min (pos + Z.of_nat n) (Z.of_nat (length file)))).

(** [fseek(fp, off, SEEK_SET)] fails when the offset is negative as a [long]. *)
Definition fseek (pos off : Z) : Z := if s64 off <? 0 then pos else off.

(** A little-endian field of [n] bytes at [off]. *)
Definition field (buf : list Z) (off n : nat) : io Z :=
  if (off + n <=? length buf)%nat then mret (le_combine (take n (drop off buf))) else fail OutOfBounds.

(** [strcmp(buf, lit) == 0], [lit] with its terminator. *)
Fixpoint strcmp_eq (buf lit : list Z) {struct lit} : io bool :=
  match lit with
  | [] => mret true
  | c :: lit =>
      match buf with
      | [] => fail OutOfBounds
      | b :: buf => if b =? c then strcmp_eq buf lit else mret false
      end
  end.

(** A C string in a buffer. *)
Fixpoint c_string (buf : list Z) : option (list Z) :=
  match buf with
  | [] => None
  | b :: buf => if b =? 0 then Some [] else cons b <$> c_string buf
  end.

Fixpoint bytes_of (s : string) : list Z :=
  match s with EmptyString => [] | String c s => code c :: bytes_of s end.
Fixpoint string_of (l : list Z) : string :=
  match l with [] => EmptyString | b :: l => String (chr b) (string_of l) end.

(** ** The table of functions *)

(** [name] points into a string table, or at an offset from NULL. *)
Record FN := mkFN { name : option (list Z) * Z; addr : Z; size : Z }.
Definition func_zero : list FN := replicate 32 (mkFN (None, 0) 0 0).

(** The fields of a symbol that the reader uses. *)
Record symbol := Symbol { st_name : Z; st_info : Z; st_value : Z; st_size : Z }.
Definition sym_at (sym_data : list Z) (x : nat) : symbol :=
  let at_ off n := le_combine (take n (drop (24 * x + off) sym_data)) in
  Symbol (at_ 0 4)%nat (at_ 4 1)%nat (at_ 8 8)%nat (at_ 16 8)%nat.

Definition is_func (s : symbol) : bool := Z.land (st_info s) 0x0f =? 0x02.
Definition func_capacity : nat := 32.
Definition fn_of (pstr : option (list Z)) (s : symbol) : FN := mkFN (pstr, st_name s) (st_value s) (st_size s).

(** The loop over the symbols: [m], [func] and [function_symbols_truncated]. *)
Fixpoint load_symbols (pstr : option (list Z)) (syms : list symbol) (m : nat) (func : list FN) (truncated : bool) :
    list FN * bool :=
  match syms with
  | [] => (func, truncated)
  | s :: syms =>
      if is_func s && (m <? func_capacity)%nat
      then load_symbols pstr syms (S m) (<[m := fn_of pstr s]> func) truncated
      else load_symbols pstr syms m func (if is_func s then true else truncated)
  end.

(** Fields of a section header. *)
Definition sh_name (shdr : list Z) (i : Z) : io Z :=
  if i <? 0 then fail OutOfBounds else field shdr (64 * Z.to_nat i) 4.
Definition sh_offset (shdr : list Z) (i : Z) : io Z :=
  if i <? 0 then fail OutOfBounds else field shdr (64 * Z.to_nat i + 24) 8.
Definition sh_size (shdr : list Z) (i : Z) : io Z :=
  if i <? 0 then fail OutOfBounds else field shdr (64 * Z.to_nat i + 32) 8.

Definition section_is (shdr shstrtab : list Z) (i : Z) (lit : string) : io bool :=
  off ← sh_name shdr i; strcmp_eq (drop (Z.to_nat off) shstrtab) (bytes_of lit ++ [0]).

(** The index of the section [.strtab], among those from [i] on. *)
Fixpoint find_strtab (shdr shstrtab : list Z) (i : Z) (n : nat) : io (option Z) :=
  match n with
  | O => mret None
  | S n =>
      b ← section_is shdr shstrtab i ".strtab";
      if b : bool then mret (Some i) else find_strtab shdr shstrtab (i + 1) n
  end.

Definition read_section (stale : nat → Z) (file shdr : list Z) (i pos : Z) : io (list Z * Z) :=
  n ← sh_size shdr i;
  off ← sh_offset shdr i;
  mret (fread stale file (fseek pos off) (Z.to_nat n)).

Definition read_elf (stale : nat → nat → Z) (file : option (list Z)) (func : list FN) : io (list FN) :=
  match file with
  | None => emit "fail to open the file";; fail (ExitCall 0)
  | Some file =>
      let '(elf_head, pos) := fread (stale 0%nat) file 0 64 in
      if negb (bool_decide (take 4 elf_head = [0x7f; 69; 76; 70])) then
        emit ("Not a ELF file" +:+ nl);; fail (ExitCall 0)
      else
        e_shoff ← field elf_head 40 8;
        e_shnum ← field elf_head 60 2;
        e_shstrndx ← field elf_head 62 2;
        let '(shdr, _) := fread (stale 1%nat) file (fseek pos e_shoff) (64 * Z.to_nat e_shnum) in
        '(shstrtab, pos) ← read_section (stale 2%nat) file shdr e_shstrndx 0;
        found ← find_strtab shdr shstrtab 0 (Z.to_nat e_shnum);
        '(pstr, j, pos) ←
          match found with
          | Some i => '(str_data, pos) ← read_section (stale 3%nat) file shdr i pos; mret (Some str_data, i - 1, pos)
          | None => mret (None, 0, pos)
          end;
        b ← section_is shdr shstrtab j ".symtab";
        func ←
          (if b : bool then
             n ← sh_size shdr j;
             '(sym_data, _) ← read_section (stale 4%nat) file shdr j pos;
             off ← sh_offset shdr j;
             (if (Z.of_nat (length file) <? fseek pos off + n) || (n =? 0) then emit "read_elf fail" else mret tt);;
             let syms := sym_at sym_data <$> seq 0 (Z.to_nat (n / 24)) in
             let '(func, truncated) := load_symbols pstr syms 0 func false in
             (if truncated : bool then
                emit ("ftrace: function symbol table truncated at " +:+ fmt_u (Z.of_nat func_capacity)
                      +:+ " entries" +:+ nl)
              else mret tt);;
             mret func
           else emit "no .symtab";; mret func);
        emit nl;;
        mret func
  end.

(** ** Traces *)

(** [%s] of a name. *)
Definition name_text (n : option (list Z) * Z) : io string :=
  match n with
  | (None, _) => fail NullDeref
  | (Some buf, off) =>
      match c_string (drop (Z.to_nat off) buf) with
      | Some s => mret (string_of s)
      | None => fail OutOfBounds
      end
  end.

Definition covers (f : FN) (pc : Z) : bool := (addr f <=? pc) && (pc <? u64 (addr f + size f)).

(** The loop over the table: the index of the first match, and [j]. *)
Fixpoint lookup_func (func : list FN) (pc : Z) (j : Z) : option FN * Z :=
  match func with
  | [] => (None, j)
  | f :: func => if covers f pc then (Some f, j + 1) else lookup_func func pc (j + 1)
  end.

Definition ftrace (func : list FN) (inst_now pc_now pc_next : Z) : io unit :=
  let op := Z.land inst_now 0x7f in
  if (op =? 0x6f) || (op =? 0x63) then
    let '(f, j) := lookup_func func pc_next 0 in
    match f with
    | Some f =>
        n ← name_text (name f);
        emit ("0X" +:+ fmt_0x 8 pc_now +:+ tab +:+ " call [" +:+ n +:+ tab +:+ "@" +:+ fmt_0x 8 pc_next +:+ "]" +:+ nl)
    | None => mret tt
    end;;
    (if j =? 32 then emit ("no func to call" +:+ nl) else mret tt)
  else if op =? 0x67 then
    let '(f, j) := lookup_func func pc_now 0 in
    match f with
    | Some f =>
        n ← name_text (name f);
        emit ("0X" +:+ fmt_0x 8 pc_now +:+ tab +:+ " ret  [" +:+ n +:+ tab +:+ "]" +:+ nl)
    | None => mret tt
    end;;
    (if j =? 32 then emit ("no func to ret" +:+ nl) else mret tt)
  else mret tt.

(** [logbuf] has 128 characters: address and bytes come first, the instruction
    gets the rest. *)
Definition logbuf_size : Z := 128.
Definition itrace (l : llvm) (d : disassembler) (pc cpu_inst : Z) : io unit :=
  let inst := le_split 4 cpu_inst in
  let logbuf := "0x" +:+ fmt_0x 16 pc +:+ ":" +:+ String.concat EmptyString (map (λ b, " " +:+ fmt_0x 2 b) inst)
                +:+ " " in
  str ← disassemble l d (logbuf_size - Z.of_nat (String.length logbuf)) pc inst;
  emit (logbuf +:+ str +:+ nl).

(** ** Lemmas *)

Definition slice (f : list Z) (off n : nat) : list Z := take n (drop off f).

Lemma length_slice f off n : (off + n <= length f)%nat → length (slice f off n) = n.
Proof. intros H. unfold slice. rewrite length_take, length_drop. lia. Qed.

Lemma slice_slice f a n b m : (b + m <= n)%nat → slice (slice f a n) b m = slice f (a + b) m.
Proof.
  intros H. unfold slice. rewrite take_drop_commute, take_take, Nat.min_l, <- take_drop_commute, drop_drop by done.
  done.
Qed.

Lemma field_slice f off n : (off + n <= length f)%nat → field f off n = mret (le_combine (slice f off n)).
Proof. intros H. unfold field. by rewrite (proj2 (Nat.leb_le _ _) H). Qed.

(** A read inside the file. *)
Lemma fread_slice stale f pos n :
  (pos + n <= length f)%nat → fread stale f (Z.of_nat pos) n = (slice f pos n, Z.of_nat (pos + n)).
Proof.
  intros H. unfold fread. f_equal; [|lia]. unfold slice. apply list_eq. intros i.
  rewrite list_lookup_fmap. destruct (decide (i < n)%nat) as [Hi|Hi].
  - rewrite lookup_seq_lt, lookup_take_lt, lookup_drop by done. cbn [fmap option_fmap option_map].
    rewrite (proj2 (Z.ltb_lt _ _)) by lia. replace (Z.to_nat (Z.of_nat pos + Z.of_nat (0 + i))) with (pos + i)%nat by lia.
    destruct (lookup_lt_is_Some_2 f (pos + i)) as [x ->]; [lia|done].
  - rewrite lookup_seq_ge, lookup_take_ge by lia. done.
Qed.

Lemma fseek_in pos (off : nat) : Z.of_nat off < 2 ^ 63 → fseek pos (Z.of_nat off) = Z.of_nat off.
Proof. intros H. unfold fseek, s64. rewrite swrap_small by lia. by rewrite (proj2 (Z.ltb_ge _ _)) by lia. Qed.

(** [strcmp] on terminated strings. *)
Lemma strcmp_c_string buf lit s :
  c_string buf = Some s → 0 ∉ lit → strcmp_eq buf (lit ++ [0]) = mret (bool_decide (s = lit)).
Proof.
  revert buf s. induction lit as [|c lit IH]; intros [|b buf] s Hs Hl; try done; cbn [c_string app strcmp_eq] in *.
  - destruct (b =? 0); [by simplify_eq|]. destruct (c_string buf); [|done]. by simplify_eq/=.
  - apply not_elem_of_cons in Hl as [Hc Hl]. destruct (Z.eqb_spec b 0) as [->|Hb].
    + simplify_eq. rewrite (proj2 (Z.eqb_neq 0 c)) by done. done.
    + destruct (c_string buf) as [s'|] eqn:E; [|done]. simplify_eq/=. destruct (Z.eqb_spec b c) as [->|Hbc].
      * rewrite (IH buf s') by done. f_equal. apply bool_decide_ext. naive_solver.
      * f_equal. symmetry. apply bool_decide_eq_false. naive_solver.
Qed.

(** The table after the loop: the first free places taken by the function
    symbols in their order, the rest as before. *)
Definition fill (m : nat) (fns func : list FN) : list FN :=
  take m func ++ take (func_capacity - m) fns ++ drop (m + length (take (func_capacity - m) fns)) func.

Lemma load_symbols_fill pstr syms m func tr :
  length func = func_capacity → (m <= func_capacity)%nat →
  let fns := fn_of pstr <$> filter (λ s, is_func s = true) syms in
  load_symbols pstr syms m func tr = (fill m fns func, tr || (func_capacity <? m + length fns)%nat).
Proof.
  intros Hf. revert m func Hf tr. induction syms as [|s syms IH]; intros m func Hf tr Hm; cbv zeta.
  { cbn [filter list_filter fmap list_fmap load_symbols length]. unfold fill.
    rewrite take_nil, Nat.add_0_r. cbn [app length]. rewrite Nat.add_0_r, take_drop.
    rewrite (proj2 (Nat.ltb_ge _ _)) by lia. by rewrite orb_false_r. }
  cbn [load_symbols]. rewrite filter_cons. destruct (is_func s) eqn:Es; cbn [andb].
  2: { rewrite decide_False by done. by apply IH. }
  rewrite decide_True by done. cbn [fmap list_fmap length]. destruct (m <? func_capacity)%nat eqn:Em.
  - apply Nat.ltb_lt in Em. rewrite IH by (rewrite ?length_insert; lia). f_equal; [|f_equal; f_equal; lia].
    unfold fill. replace (func_capacity - m)%nat with (S (func_capacity - S m)) by lia. cbn [take length].
    assert (take (S m) (<[m:=fn_of pstr s]> func) = take m func ++ [fn_of pstr s]) as ->.
    { rewrite (take_S_r _ _ (fn_of pstr s)) by (apply list_lookup_insert_eq; lia).
      by rewrite take_insert_ge by lia. }
    rewrite <- app_assoc, drop_insert_lt by lia. cbn [app]. do 4 f_equal. lia.
  - apply Nat.ltb_ge in Em. rewrite IH by lia. unfold fill. replace (func_capacity - m)%nat with O by lia. cbn [take app].
    f_equal. rewrite (proj2 (Nat.ltb_lt _ (m + S _))) by lia. by rewrite orb_true_r.
Qed.

(** ** Well-formed files *)

Section elf.
Variable f : list Z.

Definition num (off n : nat) : nat := Z.to_nat (le_combine (slice f off n)).
Definition shoff : nat := num 40 8.
Definition shnum : nat := num 60 2.
Definition shstrndx : nat := num 62 2.
Definition sec_name (k : nat) : nat := num (shoff + 64 * k) 4.
Definition sec_offset (k : nat) : nat := num (shoff + 64 * k + 24) 8.
Definition sec_size (k : nat) : nat := num (shoff + 64 * k + 32) 8.
Definition section (k : nat) : list Z := slice f (sec_offset k) (sec_size k).
Definition sec_text (k : nat) : option (list Z) := c_string (drop (sec_name k) (section shstrndx)).

(** The symbol table is section [i - 1], its strings are section [i]. *)
Record elf_ok (i : nat) : Prop := {
  elf_bytes : Forall is_byte f;
  elf_magic : take 4 f = [0x7f; 69; 76; 70];
  elf_long : (64 <= length f)%nat;
  elf_range : Z.of_nat (length f) < 2 ^ 63;
  elf_table : (shoff + 64 * shnum <= length f)%nat;
  elf_strndx : (shstrndx < shnum)%nat;
  elf_index : (0 < i < shnum)%nat;
  elf_inside : Forall (λ k, sec_offset k + sec_size k <= length f)%nat [shstrndx; i; (i - 1)%nat];
  elf_before : ∀ k, (k < i)%nat → ∃ s, sec_text k = Some s ∧ s ≠ bytes_of ".strtab";
  elf_strtab : sec_text i = Some (bytes_of ".strtab");
  elf_symtab : sec_text (i - 1) = Some (bytes_of ".symtab");
  elf_symbols : (0 < sec_size (i - 1))%nat
}.

Hypothesis f_bytes : Forall is_byte f.

Lemma num_nonneg off n : Z.of_nat (num off n) = le_combine (slice f off n).
Proof.
  unfold num. apply Z2Nat.id. unfold slice.
  assert (Forall is_byte (take n (drop off f))) as H by auto using Forall_take, Forall_drop.
  apply le_combine_range in H. lia.
Qed.

(** The section header table, as it is read. *)
Definition shdrs : list Z := slice f shoff (64 * shnum).

Hypothesis f_table : (shoff + 64 * shnum <= length f)%nat.

Lemma shdr_field k off n :
  (k < shnum)%nat → (off + n <= 64)%nat →
  field shdrs (64 * k + off) n = mret (Z.of_nat (num (shoff + 64 * k + off) n)).
Proof.
  intros Hk Ho. unfold shdrs. rewrite field_slice by (rewrite length_slice; lia).
  rewrite slice_slice, num_nonneg by lia. by rewrite Nat.add_assoc.
Qed.

Lemma sh_fields k :
  (k < shnum)%nat →
  sh_name shdrs (Z.of_nat k) = mret (Z.of_nat (sec_name k)) ∧
  sh_offset shdrs (Z.of_nat k) = mret (Z.of_nat (sec_offset k)) ∧
  sh_size shdrs (Z.of_nat k) = mret (Z.of_nat (sec_size k)).
Proof.
  intros Hk. unfold sh_name, sh_offset, sh_size. rewrite (proj2 (Z.ltb_ge _ _)), Nat2Z.id by lia.
  split_and!; [|by apply shdr_field; lia..].
  pose proof (shdr_field k 0 4 Hk ltac:(lia)) as E. rewrite !Nat.add_0_r in E. exact E.
Qed.

Lemma section_is_text k s lit :
  (k < shnum)%nat → sec_text k = Some s → 0 ∉ bytes_of lit →
  section_is shdrs (section shstrndx) (Z.of_nat k) lit = mret (bool_decide (s = bytes_of lit)).
Proof.
  intros Hk Hs Hl. unfold section_is. destruct (sh_fields k Hk) as (-> & _ & _). rewrite io_bind_ret_l, Nat2Z.id.
  by apply strcmp_c_string.
Qed.

Lemma find_strtab_at i k n :
  (k + n = shnum)%nat → (k <= i < shnum)%nat →
  (∀ k, (k < i)%nat → ∃ s, sec_text k = Some s ∧ s ≠ bytes_of ".strtab") →
  sec_text i = Some (bytes_of ".strtab") →
  find_strtab shdrs (section shstrndx) (Z.of_nat k) n = mret (Some (Z.of_nat i)).
Proof.
  intros Hn Hk Hbefore Hi. revert k Hn Hk. induction n as [|n IH]; intros k Hn Hk; [lia|]. cbn [find_strtab].
  destruct (decide (k = i)) as [->|Hne].
  - rewrite (section_is_text i (bytes_of ".strtab")) by (done || lia || decide_now). 
    by rewrite bool_decide_eq_true_2.
  - destruct (Hbefore k ltac:(lia)) as (s & Hs & Hns).
    rewrite (section_is_text k s) by (done || lia || decide_now).
    rewrite bool_decide_eq_false_2, io_bind_ret_l by done.
    replace (Z.of_nat k + 1) with (Z.of_nat (S k)) by lia. apply IH; lia.
Qed.

Hypothesis f_range : Z.of_nat (length f) < 2 ^ 63.

Lemma read_section_in stale k pos :
  (k < shnum)%nat → (sec_offset k + sec_size k <= length f)%nat →
  read_section stale f shdrs (Z.of_nat k) pos = mret (section k, Z.of_nat (sec_offset k + sec_size k)).
Proof.
  intros Hk Hin. unfold read_section. destruct (sh_fields k Hk) as (_ & -> & ->).
  rewrite !io_bind_ret_l, fseek_in, Nat2Z.id by lia. by rewrite fread_slice.
Qed.
End elf.

(** ** Properties *)

(** C24. The symbols of a program are read.  From a well-formed file whose section
    [i] is the first called [.strtab] and follows the one called [.symtab],
    [read_elf] puts the first 32 function symbols of the latter, with their
    names, addresses and sizes, in order at the front of the table and leaves
    the rest of it as it was; it says so when there are more than 32. *)
Theorem read_elf_symbols stale f func i :
  elf_ok f i → length func = func_capacity →
  let syms := sym_at (section f (i - 1)) <$> seq 0 (Z.to_nat (Z.of_nat (sec_size f (i - 1)) / 24)) in
  let fns := fn_of (Some (section f i)) <$> filter (λ s, is_func s = true) syms in
  read_elf stale (Some f) func =
    ((if (32 <? length fns)%nat
      then ["ftrace: function symbol table truncated at 32 entries" +:+ nl] else []) ++ [nl],
     Ok (take 32 fns ++ drop (length (take 32 fns)) func)).
Proof.
  intros [Hb Hm Hl Hr Ht Hx Hi Hin Hbef Hstr Hsym Hpos] Hf. rewrite !Forall_cons in Hin.
  destruct Hin as (Hin1 & Hin2 & Hin3 & _). cbv zeta.
  unfold read_elf. pose proof (fread_slice (stale 0%nat) f 0 64 ltac:(lia)) as Ehead.
  change (Z.of_nat 0) with 0 in Ehead. rewrite Ehead.
  assert (take 4 (slice f 0 64) = take 4 f) as -> by (unfold slice; by rewrite take_take).
  rewrite bool_decide_eq_true_2 by done. cbn [negb].
  rewrite !field_slice by (rewrite length_slice by lia; lia).
  rewrite !io_bind_ret_l, !slice_slice by lia. rewrite <- !(num_nonneg f) by done. rewrite Nat2Z.id.
  change (num f (0 + 40) 8) with (shoff f). change (num f (0 + 60) 2) with (shnum f).
  change (num f (0 + 62) 2) with (shstrndx f).
  rewrite fseek_in, fread_slice by lia. fold (shdrs f).
  rewrite read_section_in, io_bind_ret_l by (done || lia).
  pose proof (find_strtab_at f Hb Ht i 0 (shnum f) eq_refl ltac:(lia) Hbef Hstr) as Efind.
  change (Z.of_nat 0) with 0 in Efind. rewrite Efind, io_bind_ret_l.
  rewrite (read_section_in f Hb Ht Hr _ i), !io_bind_ret_l by (done || lia).
  replace (Z.of_nat i - 1) with (Z.of_nat (i - 1)) by lia.
  rewrite (section_is_text f Hb Ht (i - 1) (bytes_of ".symtab")), io_bind_ret_l by (done || lia || decide_now).
  rewrite bool_decide_eq_true_2 by done.
  destruct (sh_fields f Hb Ht (i - 1) ltac:(lia)) as (_ & -> & ->).
  rewrite (read_section_in f Hb Ht Hr _ (i - 1)), !io_bind_ret_l, fseek_in by (done || lia).
  replace (Z.of_nat (length f) <? Z.of_nat (sec_offset f (i - 1)) + Z.of_nat (sec_size f (i - 1))) with false by lia.
  replace (Z.of_nat (sec_size f (i - 1)) =? 0) with false by lia. cbn [orb]. rewrite io_bind_ret_l.
  rewrite load_symbols_fill by (done || lia). unfold fill. cbn [take app orb]. rewrite Nat.sub_0_r, Nat.add_0_l.
  unfold func_capacity. destruct (32 <? _)%nat; done.
Qed.

Lemma lookup_func_find func pc j :
  lookup_func func pc j =
    match list_find (λ f, covers f pc = true) func with
    | Some (i, f) => (Some f, j + Z.of_nat i + 1)
    | None => (None, j + Z.of_nat (length func))
    end.
Proof.
  revert j. induction func as [|f func IH]; intros j; cbn [lookup_func list_find length].
  { f_equal. lia. }
  destruct (decide (covers f pc = true)) as [E|E].
  - rewrite E. f_equal. lia.
  - apply not_true_is_false in E. rewrite E, IH.
    destruct (list_find _ func) as [[i g]|]; cbn; f_equal; lia.
Qed.

(** What the trace logs for a transfer that is looked up at [pc]. *)
Definition transfer_log (func : list FN) (pc : Z) (line : string → string) (missing : string) : io unit :=
  match list_find (λ f, covers f pc = true) func with
  | Some (i, f) =>
      n ← name_text (name f);
      emit (line n);;
      (if (i =? 31)%nat then emit (missing +:+ nl) else mret tt)
  | None => emit (missing +:+ nl)
  end.

(** The function trace names the first function of the table that covers the
    target of a jump or branch, or the place of a return, and says that there is
    none exactly when no function covers it, or, wrongly, when the one that does
    is the last of the table; other instructions are not logged. *)
Theorem ftrace_logs func inst pc next :
  length func = func_capacity →
  let op := Z.land inst 0x7f in
  ftrace func inst pc next =
    if (op =? 0x6f) || (op =? 0x63) then
      transfer_log func next
        (λ n, "0X" +:+ fmt_0x 8 pc +:+ tab +:+ " call [" +:+ n +:+ tab +:+ "@" +:+ fmt_0x 8 next +:+ "]" +:+ nl)
        "no func to call"
    else if op =? 0x67 then
      transfer_log func pc (λ n, "0X" +:+ fmt_0x 8 pc +:+ tab +:+ " ret  [" +:+ n +:+ tab +:+ "]" +:+ nl)
        "no func to ret"
    else mret tt.
Proof.
  intros Hf op. unfold ftrace, transfer_log. fold op. rewrite !lookup_func_find, Hf.
  assert (∀ i : nat, (0 + Z.of_nat i + 1 =? 32) = (i =? 31)%nat) as Hi
    by (intros i; apply eq_bool_prop_intro; rewrite !Is_true_true, Z.eqb_eq, Nat.eqb_eq; lia).
  destruct ((op =? 0x6f) || (op =? 0x63)).
  - destruct (list_find _ func) as [[i g]|]; [|done]. by rewrite io_bind_assoc, Hi.
  - destruct (op =? 0x67); [|done].
    destruct (list_find _ func) as [[i g]|]; [|done]. by rewrite io_bind_assoc, Hi.
Qed.

(** C38. The instruction trace takes what LLVM prints without its leading tabs.  A
    text of at most 95 characters is logged behind the address and the four
    bytes of the instruction; a longer one stops the simulator at an assertion.
    An instruction of which LLVM prints nothing but tabs makes it read in front of
    the text, or stop at the assertion when there are 95 tabs or more. *)
Theorem itrace_text l d pc inst n s :
  0 <= pc < 2 ^ 64 → 
  let code := le_split 4 inst in
  let head := "0x" +:+ fmt_0x 16 pc +:+ ":" +:+ String.concat EmptyString (map (λ b, " " +:+ fmt_0x 2 b) code) +:+ " " in
  (printInst l d pc code = tabs n +:+ s → no_tab s = true →
    itrace l d pc inst = if (String.length s <=? 95)%nat then emit (head +:+ s +:+ nl) else fail AssertFail) ∧
  (printInst l d pc code = tabs n →
    itrace l d pc inst = fail (if (n <=? 94)%nat then OutOfBounds else AssertFail)).
Proof.
  intros Hpc code head. assert (Z.of_nat (String.length head) = 32) as Hlen.
  { unfold head, code, le_split. rewrite !length_append, length_fmt_0x by (cbn; lia). cbn [map String.concat].
    rewrite !length_append, !length_fmt_0x by first [lia|apply Z.mod_pos_bound; lia]. done. }
  unfold itrace. fold code. fold head. cbv zeta. rewrite Hlen. split.
  - intros E Hs. rewrite (disassemble_cases _ _ _ _ _ _ _ E Hs).
    destruct (Nat.leb_spec (String.length s) 95).
    + rewrite (proj2 (Z.ltb_lt _ _)) by (unfold logbuf_size; lia). by rewrite io_bind_ret_l.
    + by rewrite (proj2 (Z.ltb_ge _ _)) by (unfold logbuf_size; lia).
  - intros E. rewrite (disassemble_nothing _ _ _ _ _ _ E).
    destruct (Nat.leb_spec n 94); [rewrite (proj2 (Z.ltb_lt _ _))|rewrite (proj2 (Z.ltb_ge _ _))];
      by unfold logbuf_size; lia || done.
Qed.

(** ** Witnesses *)

(** A program with one function, [main] at [0x80000000], and one object. *)
Module ElfToy.
Definition sym (st_name st_info st_value st_size : Z) : list Z :=
  le_split 4 st_name ++ le_split 1 st_info ++ le_split 3 0 ++ le_split 8 st_value ++ le_split 8 st_size.
Definition shdr (sh_name sh_offset sh_size : Z) : list Z :=
  le_split 4 sh_name ++ replicate 20 0 ++ le_split 8 sh_offset ++ le_split 8 sh_size ++ replicate 24 0.
Definition strtab : list Z := [0] ++ bytes_of "main" ++ [0].
Definition shstrtab : list Z := [0] ++ bytes_of ".symtab" ++ [0] ++ bytes_of ".strtab" ++ [0].
Definition file : list Z :=
  [0x7f; 69; 76; 70] ++ replicate 36 0 ++ le_split 8 64 ++ replicate 12 0 ++ le_split 2 4 ++ le_split 2 3
  ++ shdr 0 0 0 ++ shdr 1 320 72 ++ shdr 9 392 6 ++ shdr 0 398 17
  ++ sym 0 0 0 0 ++ sym 1 0x12 0x80000000 0x40 ++ sym 1 0x11 0x80001000 8 ++ strtab ++ shstrtab.
Definition main : FN := mkFN (Some strtab, 1) 0x80000000 0x40.
(** A table in which only the last entry is used. *)
Definition last_only : list FN := replicate 31 (mkFN (None, 0) 0 0) ++ [main].
End ElfToy.

Lemma toy_elf_ok : elf_ok ElfToy.file 2.
Proof.
  split.
  - decide_now.
  - reflexivity.
  - decide_now.
  - reflexivity.
  - decide_now.
  - decide_now.
  - split; decide_now.
  - repeat apply Forall_cons_2; try apply Forall_nil_2; decide_now.
  - intros [|[|k]] Hk; [| |lia]; (eexists; split; [vm_compute; reflexivity|decide_now]).
  - vm_compute. reflexivity.
  - vm_compute. reflexivity.
  - decide_now.
Qed.

Lemma read_elf_symbols_witness :
  ∃ func, read_elf (λ _ _, 0) (Some ElfToy.file) func_zero = ([nl], Ok func) ∧ func !! 0%nat = Some ElfToy.main.
Proof.
  eexists. split.
  - etrans; [exact (read_elf_symbols (λ _ _, 0) ElfToy.file func_zero 2 toy_elf_ok eq_refl)|].
    vm_compute. reflexivity.
  - vm_compute. reflexivity.
Defined.

Lemma ftrace_logs_witness :
  ftrace ElfToy.last_only 0x6f 0x80000100 0x80000000 =
    (["0X80000100" +:+ tab +:+ " call [main" +:+ tab +:+ "@80000000]" +:+ nl; "no func to call" +:+ nl], Ok tt).
Proof.
  etrans; [exact (ftrace_logs ElfToy.last_only 0x6f 0x80000100 0x80000000 eq_refl)|]. vm_compute. reflexivity.
Defined.

(** An LLVM that prints [addi] with a tab in front. *)
Definition toy_llvm : llvm := Llvm 14 (λ _, inr "riscv64") (λ _ _ _, tab +:+ "addi a0, a0, 1").
Lemma itrace_text_witness :
  itrace toy_llvm (Disassembler "riscv64" [] true true) 0x80000000 0x00150513 =
    emit ("0x0000000080000000: 13 05 15 00 addi a0, a0, 1" +:+ nl).
Proof.
  destruct (itrace_text toy_llvm (Disassembler "riscv64" [] true true) 0x80000000 0x00150513 1 "addi a0, a0, 1") as [H _].
  - lia.
  - etrans; [apply H; reflexivity|]. vm_compute. reflexivity.
Defined.
