(* ===== verification/Variants.v ===== *)
(** * The instrumented builds of the simulator
    The code of [sim_main.cpp] and [npc_main.cpp] under the macros
    [PERFORMANCE_MODEL], [LOADUSE_P1_MONITOR] and [ICACHE_64SET_MONITOR]: the
    dependency observer and two monitors sampled by the simulation loop.  The
    macros are the fields of [build]; with none defined the code is that of
    [Cpu].  The rest of these programs is in [Builds]. *)
From stdpp Require Import base numbers list option strings gmap.
From S2P Require Import Prelude Bytes CText PMem Env Expr DepObs Cpu.

Local Open Scope Z_scope.

Record build := Build { PERFORMANCE_MODEL : bool; LOADUSE_P1_MONITOR : bool; ICACHE_64SET_MONITOR : bool }.

(** ** Ports and internals of the instrumented top *)

Record perf_ports := PerfPorts {
  perf_dependency_stall : Z; perf_dcache_total_stall : Z; perf_divider_stall : Z; perf_branch_recovery : Z;
  perf_dcache_load_access_event : Z; perf_dcache_hit_event : Z; perf_dcache_miss_event : Z;
  perf_dcache_access_address : Z; perf_dependency_consumer_pc : Z; perf_dependency_consumer_inst : Z;
  perf_dependency_producer_pc : Z; perf_dependency_producer_inst : Z; perf_dependency_producer_rd : Z;
  perf_dependency_producer_address : Z
}.
Record loaduse_ports := LoadusePorts {
  loaduse_p1_hit_bypass_event : Z; loaduse_p1_miss_hazard_event : Z; loaduse_p1_operand_bypass_event : Z
}.
(** [tag_arry<way>[index]] and [sign_arry<way>[index]] of the instruction cache. *)
Class Instrumented (T : Type) := {
  perf_of : T → perf_ports;
  loaduse_of : T → loaduse_ports;
  tag_arry : T → nat → Z → Z;
  sign_arry : T → nat → Z → Z
}.

Definition dependency_sample (p : perf_ports) : DependencyObserverSample :=
  mkSample (truthy (perf_dependency_stall p)) (truthy (perf_dcache_total_stall p))
    (truthy (perf_divider_stall p)) (truthy (perf_branch_recovery p))
    (truthy (perf_dcache_load_access_event p)) (truthy (perf_dcache_hit_event p))
    (truthy (perf_dcache_miss_event p)) (perf_dcache_access_address p)
    (perf_dependency_consumer_pc p) (perf_dependency_consumer_inst p)
    (perf_dependency_producer_pc p) (perf_dependency_producer_inst p)
    (perf_dependency_producer_rd p) (perf_dependency_producer_address p).

(** ** The monitors *)

Record loaduse := Loaduse {
  loaduse_p1_hit_bypass_events : Z; loaduse_p1_miss_hazard_events : Z; loaduse_p1_operand_bypass_events : Z
}.
Definition loaduse_p1_monitor_sample (m : loaduse) (p : loaduse_ports) : loaduse :=
  Loaduse (u64 (loaduse_p1_hit_bypass_events m + loaduse_p1_hit_bypass_event p))
    (u64 (loaduse_p1_miss_hazard_events m + loaduse_p1_miss_hazard_event p))
    (u64 (loaduse_p1_operand_bypass_events m + loaduse_p1_operand_bypass_event p)).
Definition loaduse_p1_monitor_finalize (m : loaduse) : io Z :=
  emit ("LOADUSE_P1_HIT_BYPASS_EVENTS=" +:+ fmt_u (loaduse_p1_hit_bypass_events m) +:+ nl);;
  emit ("LOADUSE_P1_MISS_HAZARD_EVENTS=" +:+ fmt_u (loaduse_p1_miss_hazard_events m) +:+ nl);;
  emit ("LOADUSE_P1_OPERAND_BYPASS_EVENTS=" +:+ fmt_u (loaduse_p1_operand_bypass_events m) +:+ nl);;
  mret (if (0 <? loaduse_p1_hit_bypass_events m) && (0 <? loaduse_p1_miss_hazard_events m) &&
           (loaduse_p1_operand_bypass_events m =? loaduse_p1_hit_bypass_events m) then 0 else 1).

Definition icache_64set_lines : list Z := [0x80000400; 0x80000800; 0x80000c00; 0x80001000; 0x80001400].
Definition line_of (wb_pc : Z) : Z := u32 (Z.land wb_pc 0xffffffe0).
Definition icache_64set_monitor_sample (executed : list bool) (o : outs) : list bool :=
  if negb (truthy (wb_sign o)) then executed
  else zip_with (λ line e, if line_of (wb_pc o) =? line then true else e) icache_64set_lines executed.

Section icache.
Context {T : Type} `{!Instrumented T}.

Definition index6 (line_addr : Z) : Z := Z.land (Z.shiftr line_addr 5) 0x3f.
Definition index5 (line_addr : Z) : Z := Z.land (Z.shiftr line_addr 5) 0x1f.
Definition line_tag (line_addr : Z) : Z := Z.shiftr line_addr 11.

(** The loop over the ways: the last one that holds the line, or -1. *)
Definition holds_line (t : T) (line_addr : Z) (way : nat) : bool :=
  truthy (Z.land (sign_arry t way (index6 line_addr)) 1) &&
  (tag_arry t way (index6 line_addr) =? line_tag line_addr).
Definition resident_way (t : T) (line_addr : Z) : Z :=
  foldl (λ w way, if holds_line t line_addr way then Z.of_nat way else w) (-1) (seq 0 4).

Fixpoint icache_64set_lines_loop (t : T) (lines : list (Z * bool)) (executed resident : Z) : io (Z * Z) :=
  match lines with
  | [] => mret (executed, resident)
  | (line_addr, e) :: lines =>
      let w := resident_way t line_addr in
      emit ("ICACHE64SET line addr=0x" +:+ fmt_0x 8 line_addr +:+ " executed=" +:+ fmt_u (Z.b2z e)
            +:+ " index6=" +:+ fmt_u (index6 line_addr) +:+ " index5=" +:+ fmt_u (index5 line_addr)
            +:+ " tag=0x" +:+ fmt_x (line_tag line_addr) +:+ " resident_way=" +:+ fmt_d w +:+ nl);;
      icache_64set_lines_loop t lines (executed + Z.b2z e) (resident + Z.b2z (0 <=? w))
  end.

Definition icache_64set_monitor_finalize (t : T) (executed : list bool) : io Z :=
  '(ne, nr) ← icache_64set_lines_loop t (zip icache_64set_lines executed) 0 0;
  if negb (ne =? 5) || negb (nr =? 5) then
    emit ("ICACHE64SET monitor failure: executed=" +:+ fmt_u ne +:+ "/5 resident=" +:+ fmt_u nr +:+ "/5" +:+ nl);;
    mret 1
  else
    emit ("ICACHE64SET_MONITOR: PASS target_lines=5 dynamic_way_residency=3+2 old_set32_distribution=5" +:+ nl);;
    mret 0.
End icache.

(** ** The loop *)

Section variants.
Context {T R : Type} `{!Dut T} `{!RefSim R} `{!Instrumented T}.
Variable gettimeofday : nat → Z * Z.
Variable b : build.

Record inst := Inst { core : sim T R; dep : observer; lu : loaduse; icache_executed : list bool }.

Definition set_core (s : inst) (c : sim T R) : inst := Inst c (dep s) (lu s) (icache_executed s).
Definition set_dep (s : inst) (o : observer) : inst :=
  Inst (core s) (if PERFORMANCE_MODEL b then o else dep s) (lu s) (icache_executed s).
Definition sample_loaduse (s : inst) : inst :=
  Inst (core s) (dep s)
    (if LOADUSE_P1_MONITOR b then loaduse_p1_monitor_sample (lu s) (loaduse_of (top (core s))) else lu s)
    (icache_executed s).
Definition sample_icache (s : inst) : inst :=
  Inst (core s) (dep s) (lu s)
    (if ICACHE_64SET_MONITOR b then icache_64set_monitor_sample (icache_executed s) (dut_out (top (core s)))
     else icache_executed s).

Definition single_cycle (s : inst) : io inst :=
  c ← eval_at gettimeofday 0 (core s);
  let s := set_core s c in
  let s := set_dep s (dependency_observer_cycle (dep s)) in
  let s := sample_icache (sample_loaduse s) in
  let s := set_core s (tick_time (core s)) in
  c ← eval_at gettimeofday 1 (core s);
  let s := set_core s c in
  let s := set_dep s (dependency_observer_sample (dep s) (dependency_sample (perf_of (top (core s))))) in
  let s := sample_icache s in
  mret (set_core s (tick_time (core s))).

Definition exec_once (s : inst) : io inst :=
  let o := dut_out (top (core s)) in
  let s := set_dep s (dependency_observer_update_roi (dep s) (truthy (wb_sign o)) (wb_pc o)) in
  c ← Cpu.exec_once (core s);
  mret (set_core s c).

Fixpoint cycles (n : nat) (s : inst) : io inst :=
  match n with
  | O => mret s
  | S n => s ← single_cycle s; cycles n s
  end.
Definition reset (n : Z) (s : inst) : io inst :=
  s ← cycles (Z.to_nat n) (set_core s (set_rstn (core s) 0));
  mret (set_core s (set_rstn (core s) 1)).

Fixpoint cpu_loop (fuel : nat) (i n : Z) (s : inst) : io inst :=
  if i <? n then
    if truthy (difftest_error (core s)) then mret s
    else
      s ← exec_once s;
      if is_ebreak (hst (core s)) =? 1 then mret (set_core s (set_cpu_state (core s) NPC_END))
      else
        s ← single_cycle s;
        i ← as_int (i + 1);
        match fuel with
        | O => fail OutOfFuel
        | S fuel => cpu_loop fuel i n s
        end
  else mret s.

Definition cpu_exec (fuel : nat) (n : Z) (s : inst) : io inst :=
  if cpu_state (core s) =? NPC_ABORT then
    emit ("Program execution has ABORT at 0X" +:+ pc16 (wb_pc_now (core s)));; mret s
  else if cpu_state (core s) =? NPC_QUIT then mret s
  else if cpu_state (core s) =? NPC_END then
    emit ("Program execution has ended. To restart the program, exit NEMU and run again." +:+ nl);;
    mret s
  else
    s ← cpu_loop fuel 0 (u32 n) (set_core s (set_cpu_state (core s) NPC_RUNNING));
    let c := core s in
    if cpu_state c =? NPC_ABORT then
      emit ("npc: ABORT at pc = 0x" +:+ pc16 (wb_pc_now c));; mret s
    else if cpu_state c =? NPC_END then
      g ← cpu_gpr c; a0 ← gpr_at g 10;
      emit ("npc: " +:+ (if a0 =? 0 then "HIT GOOD TRAP" else "HIT BAD TRAP") +:+ " at pc = 0x"
            +:+ pc16 (wb_pc_now c));;
      mret s
    else mret (set_core s (set_cpu_state c NPC_RUNNING)).

(** [main] between the shell and its end: the three reports and the exit code;
    [fopens] is whether the profile can be written, and its lines come with the
    code. *)
Definition finish (fopens : bool) (s : inst) : io (Z * option (list string)) :=
  exit_status ← is_exit_status_bad (core s);
  let '(dependency_status, report) :=
    if PERFORMANCE_MODEL b then dependency_observer_finalize fopens exit_status (dep s) else (0, None) in
  monitor_status ← (if ICACHE_64SET_MONITOR b
                    then icache_64set_monitor_finalize (top (core s)) (icache_executed s) else mret 0);
  loaduse_p1_status ← (if LOADUSE_P1_MONITOR b then loaduse_p1_monitor_finalize (lu s) else mret 0);
  mret (if negb (monitor_status =? 0) then monitor_status
        else if negb (loaduse_p1_status =? 0) then loaduse_p1_status
        else if negb (dependency_status =? 0) then dependency_status
        else exit_status, report).

(** [init_sim] up to [init_monitor]: the observer is set up before reset. *)
Definition init_clock (e : env) (s : inst) : io inst :=
  o ← (if PERFORMANCE_MODEL b then dependency_observer_init_from_env e (dep s) else mret (dep s));
  reset 5 (Inst (core s) o (lu s) (icache_executed s)).

(** The state of a build whose core is [c]: the statics are zero. *)
Definition inst_init (c : sim T R) : inst := Inst c observer_zero (Loaduse 0 0 0) (replicate 5 false).
End variants.
Arguments inst : clear implicits.
Arguments Inst {T R} _ _ _ _.

(** ** Lemmas *)

Section facts.
Context {T R : Type} `{!Dut T} `{!RefSim R} `{!Instrumented T}.
Variable gettimeofday : nat → Z * Z.
Variable b : build.
Implicit Types (s : inst T R) (c : sim T R).

(** What the samplers see of one cycle: the core after each half. *)
Definition observed s c1 c2 : inst T R :=
  let s := set_dep b (set_core s c1) (dependency_observer_cycle (dep s)) in
  let s := set_core (sample_icache b (sample_loaduse b s)) c2 in
  let s := set_dep b s (dependency_observer_sample (dep s) (dependency_sample (perf_of (top c2)))) in
  set_core (sample_icache b s) (tick_time c2).

Lemma single_cycle_observed s :
  single_cycle gettimeofday b s =
    c1 ← eval_at gettimeofday 0 (core s);
    c2 ← eval_at gettimeofday 1 (tick_time c1);
    mret (observed s c1 c2).
Proof. done. Qed.

(** Forgetting the observer and the monitors. *)
Definition erase (m : io (inst T R)) : io (sim T R) := s ← m; mret (core s).

Lemma erase_bind {A} (m : io A) (f : A → io (inst T R)) : erase (m ≫= f) = m ≫= λ a, erase (f a).
Proof. unfold erase. by rewrite io_bind_assoc. Qed.
Lemma erase_ret s : erase (mret s) = mret (core s).
Proof. done. Qed.

Lemma erase_then (m : io (inst T R)) (n : io (sim T R)) f h :
  erase m = n → (∀ s, erase (f s) = h (core s)) → erase (m ≫= f) = n ≫= h.
Proof.
  intros <- Hf. rewrite erase_bind. unfold erase at 2. rewrite io_bind_assoc.
  apply io_bind_ext. intros s _. by rewrite io_bind_ret_l.
Qed.

Lemma single_cycle_erase s : erase (single_cycle gettimeofday b s) = Cpu.single_cycle gettimeofday (core s).
Proof.
  rewrite single_cycle_observed, erase_bind. unfold Cpu.single_cycle. apply io_bind_ext. intros c1 _.
  rewrite erase_bind. cbv zeta. apply io_bind_ext. by intros c2 _.
Qed.

Lemma exec_once_erase s : erase (exec_once b s) = Cpu.exec_once (core s).
Proof.
  unfold exec_once, erase. cbv zeta. rewrite io_bind_assoc. cbn [core set_dep].
  destruct (Cpu.exec_once (core s)) as [o [c|x]]; [|done]. unfold mbind, io_bind. cbn. by rewrite app_nil_r.
Qed.

Lemma cpu_loop_erase fuel i n s :
  erase (cpu_loop gettimeofday b fuel i n s) = Cpu.cpu_loop gettimeofday fuel i n (core s).
Proof.
  revert i s. induction fuel as [|fuel IH]; intros i s; cbn [cpu_loop Cpu.cpu_loop];
    (destruct (i <? n); [|done]); (destruct (truthy (difftest_error (core s))); [done|]);
    (apply erase_then; [apply exec_once_erase|]); intros s1;
    (destruct (is_ebreak (hst (core s1)) =? 1); [done|]);
    (apply erase_then; [apply single_cycle_erase|]); intros s2; rewrite erase_bind; apply io_bind_ext; intros j _.
  - done.
  - apply IH.
Qed.

Lemma cpu_exec_erase fuel n s :
  erase (cpu_exec gettimeofday b fuel n s) = Cpu.cpu_exec gettimeofday fuel n (core s).
Proof.
  unfold cpu_exec, Cpu.cpu_exec. destruct (cpu_state (core s) =? NPC_ABORT); [done|].
  destruct (cpu_state (core s) =? NPC_QUIT); [done|]. destruct (cpu_state (core s) =? NPC_END); [done|].
  apply erase_then; [apply cpu_loop_erase|]. intros s'. cbv zeta.
  destruct (cpu_state (core s') =? NPC_ABORT); [done|]. destruct (cpu_state (core s') =? NPC_END); [|done].
  rewrite erase_bind. apply io_bind_ext. intros g _. rewrite erase_bind. by apply io_bind_ext.
Qed.

(** *** What the observer sees of the loop *)

(** The ticks of [Cpu.cpu_loop]: one for every iteration that runs to its end. *)
Fixpoint loop_ticks (fuel : nat) (i n : Z) c : list tick :=
  if (i <? n) && negb (truthy (difftest_error c)) then
    match result (Cpu.exec_once c) with
    | Ok c1 =>
        if is_ebreak (hst c1) =? 1 then []
        else match result (Cpu.single_cycle gettimeofday c1) with
             | Ok c2 =>
                 Tick (truthy (wb_sign (dut_out (top c)))) (wb_pc (dut_out (top c)))
                      (dependency_sample (perf_of (top c2)))
                 :: match fuel with O => [] | S fuel => loop_ticks fuel (i + 1) n c2 end
             | Fault _ => []
             end
    | Fault _ => []
    end
  else [].

Hypothesis perf_model : PERFORMANCE_MODEL b = true.

Lemma erase_Ok (m : io (inst T R)) s' : result m = Ok s' → result (erase m) = Ok (core s').
Proof. intros E. unfold erase. by rewrite result_bind, E. Qed.

Lemma single_cycle_dep s s' :
  result (single_cycle gettimeofday b s) = Ok s' →
  dep s' = dependency_observer_sample (dependency_observer_cycle (dep s))
             (dependency_sample (perf_of (top (core s')))).
Proof.
  rewrite single_cycle_observed. intros (c1 & _ & (c2 & _ & [= <-])%result_bind_Ok)%result_bind_Ok.
  unfold observed, set_dep, set_core, sample_icache, sample_loaduse. cbn [dep core]. by rewrite perf_model.
Qed.

Lemma exec_once_dep s s' :
  result (exec_once b s) = Ok s' →
  dep s' = dependency_observer_update_roi (dep s) (truthy (wb_sign (dut_out (top (core s)))))
             (wb_pc (dut_out (top (core s)))).
Proof.
  unfold exec_once. cbv zeta. intros (c & _ & [= <-])%result_bind_Ok.
  unfold set_dep. cbn [dep set_core]. by rewrite perf_model.
Qed.

(** The last iteration may stop between its two parts. *)
Definition after_loop (o o' : observer) : Prop :=
  o' = o ∨ ∃ sign pc, o' = dependency_observer_update_roi o sign pc.

Lemma cpu_loop_dep fuel i n s s' :
  result (cpu_loop gettimeofday b fuel i n s) = Ok s' →
  after_loop (run step (dep s) (loop_ticks fuel i n (core s))) (dep s').
Proof.
  revert i s. induction fuel as [|fuel IH]; intros i s; cbn [cpu_loop loop_ticks];
    (destruct (i <? n); [|intros [= <-]; by left]);
    (destruct (truthy (difftest_error (core s))) eqn:Ed; [intros [= <-]; by left|]); cbn [andb negb];
    intros (s1 & E1 & H)%result_bind_Ok; pose proof (erase_Ok _ _ E1) as F1; rewrite exec_once_erase in F1;
    rewrite F1; (destruct (is_ebreak (hst (core s1)) =? 1);
      [injection H as <-; right; do 2 eexists; exact (exec_once_dep _ _ E1)|]);
    apply result_bind_Ok in H as (s2 & E2 & H); pose proof (erase_Ok _ _ E2) as F2;
    rewrite single_cycle_erase in F2; rewrite F2; apply result_bind_Ok in H as (j & Ej & H); [done|].
  unfold as_int in Ej. destruct (in_int (i + 1)); [|done]. injection Ej as <-.
  apply IH in H. cbn [run]. rewrite (single_cycle_dep _ _ E2), (exec_once_dep _ _ E1) in H. exact H.
Qed.
End facts.

(** A finished region of interest stays as it is. *)
Lemma after_loop_valid (o o' : observer) :
  roi_requested o = true → roi_valid o = true → after_loop o o' →
  roi_cycles o' = roi_cycles o ∧ episodes o' = episodes o ∧ roi_valid o' = true.
Proof.
  intros Hr Hv [->|(sign & pc & ->)]; [done|]. unfold roi_valid in Hv. rewrite Hr in Hv. cbn [negb orb] in Hv.
  bool_to_prop. unfold dependency_observer_update_roi. replace (roi_started o) with true. cbn [negb andb].
  assert (roi_valid o = true) as Hvo.
  { unfold roi_valid. rewrite Hr. replace (roi_started o) with true. by replace (roi_ended o) with true. }
  repeat case_if; try done. unfold dependency_observer_end_roi. case_if; [done|].
  split; [done|]. split; [done|]. unfold roi_valid. cbn. rewrite Hr. by replace (roi_started o) with true.
Qed.

Lemma step_requested o t : roi_requested (step o t) = roi_requested o.
Proof.
  unfold step, dependency_observer_sample, dependency_observer_cycle, dependency_observer_update_roi,
    dependency_observer_begin_roi, dependency_observer_end_roi.
  repeat case_if; done.
Qed.

(** ** Properties *)

Section properties.
Context {T R : Type} `{!Dut T} `{!RefSim R} `{!Instrumented T}.
Variable gettimeofday : nat → Z * Z.
Variable b : build.
Implicit Types (s : inst T R).

(** C13. The profile of a program.  In the [PERFORMANCE_MODEL] build, when the
    simulation loop runs a program in which the start marker is first written
    back at one iteration and the end marker first after it at a later one, the
    observer has counted exactly the iterations from the one to before the
    other, its dependency cycles are the exclusive dependency stalls of the
    core among them, its episodes are their maximal runs, and its region is
    valid, whatever else the loop does. *)
Theorem loop_profile fuel n s s' pre st body en post x y :
  PERFORMANCE_MODEL b = true →
  settings (dep s) = (true, true, x, y) → roi_active (dep s) = false → roi_started (dep s) = false →
  result (cpu_loop gettimeofday b fuel 0 n s) = Ok s' →
  loop_ticks gettimeofday fuel 0 n (core s) = pre ++ st :: body ++ en :: post →
  Forall (λ t, marker x t = false) pre → marker x st = true →
  Forall (λ t, marker y t = false) body → marker y en = true →
  let ts := st :: body in
  roi_cycles (dep s') = u64 (Z.of_nat (length ts)) ∧
  t_dependency_cycles (totals_of (episodes (dep s'))) = u64 (n_true (stalls ts)) ∧
  length (episodes (dep s')) = runs false (stalls ts) ∧
  roi_valid (dep s') = true.
Proof.
  intros Hb Hs Ha Hst Hloop Hticks Hpre Hx Hbody Hy ts.
  pose proof (cpu_loop_dep gettimeofday b Hb fuel 0 n s s' Hloop) as Hd. rewrite Hticks in Hd.
  destruct (roi_window_run (dep s) pre st body en post x y Hs Ha Hst Hpre Hx Hbody Hy) as (R1 & R2 & R3 & R4).
  assert (roi_requested (dep s) = true) as Hreq by (unfold settings in Hs; by injection Hs).
  destruct (after_loop_valid _ _ (run_inv step (λ o, roi_requested o = true)
    (λ o t H, eq_trans (step_requested o t) H) _ _ Hreq) R4 Hd) as (-> & -> & ->).
  done.
Qed.
End properties.

(** *** Monitors *)

Lemma line_of_range pc line :
  line mod 32 = 0 → (line_of pc =? line) = ((line <=? u32 pc) && (u32 pc <? line + 32)).
Proof.
  intros Hl. unfold line_of.
  assert (Z.land pc 0xffffffe0 = u32 pc - u32 pc mod 32) as ->.
  { change 0xffffffe0 with (Z.shiftl (Z.ones 27) 5).
    assert (Z.land pc (Z.shiftl (Z.ones 27) 5) = Z.shiftl (Z.land (Z.shiftr pc 5) (Z.ones 27)) 5) as ->.
    { apply Z.bits_inj'. intros n Hn. rewrite Z.land_spec. destruct (decide (n < 5)).
      - by rewrite !Z.shiftl_spec_low, andb_false_r.
      - rewrite !Z.shiftl_spec, Z.land_spec, Z.shiftr_spec by lia. by replace (n - 5 + 5) with n by lia. }
    rewrite Z.land_ones, Z.shiftl_mul_pow2, Z.shiftr_div_pow2 by lia. unfold u32, wrap. dlia. }
  pose proof (wrap_range 32 pc ltac:(lia)) as Hr. fold (u32 pc) in Hr. unfold u32 at 1.
  rewrite wrap_small by dlia. apply eq_bool_prop_intro.
  rewrite !Is_true_true, andb_true_iff, Z.eqb_eq, Z.leb_le, Z.ltb_lt. dlia.
Qed.

(** An instruction of the line is written back. *)
Definition touches_line (line : Z) (o : outs) : bool :=
  truthy (wb_sign o) && ((line <=? u32 (wb_pc o)) && (u32 (wb_pc o) <? line + 32)).

Lemma icache_sample_lookup ex o k line e :
  icache_64set_lines !! k = Some line → ex !! k = Some e →
  icache_64set_monitor_sample ex o !! k = Some (e || touches_line line o).
Proof.
  intros Hl He. unfold icache_64set_monitor_sample, touches_line. destruct (truthy (wb_sign o)); cbn [negb andb].
  - rewrite lookup_zip_with, Hl, He. cbn. rewrite line_of_range.
    + destruct (_ && _), e; done.
    + assert (Forall (λ l, l mod 32 = 0) icache_64set_lines) as H by decide_now.
      rewrite Forall_forall in H. apply H. by eapply list_elem_of_lookup_2.
  - by rewrite orb_false_r.
Qed.

(** The cache monitor sees exactly the lines that are executed.  After any
    sequence of samples a target line is marked exactly when at one of them an
    instruction in its 32 bytes was written back. *)
Theorem icache_lines_executed os k line :
  icache_64set_lines !! k = Some line →
  run icache_64set_monitor_sample (replicate 5 false) os !! k = Some (existsb (touches_line line) os).
Proof.
  intros Hk. assert (replicate 5 false !! k = Some false) as H0.
  { apply lookup_replicate_2. apply lookup_lt_Some in Hk. exact Hk. }
  revert H0. generalize (replicate 5 false). change (existsb (touches_line line) os) with (false || existsb (touches_line line) os).
  generalize false. induction os as [|o os IH]; intros e ex He; cbn [run existsb]; [by rewrite orb_false_r|].
  rewrite orb_assoc. apply IH. by apply icache_sample_lookup.
Qed.

Section finishing.
Context {T R : Type} `{!Dut T} `{!RefSim R} `{!Instrumented T}.
Implicit Types (s : inst T R) (t : T).

Definition is_resident t (line_addr : Z) : bool := existsb (holds_line t line_addr) (seq 0 4).

Lemma resident_way_ge t line_addr : (0 <=? resident_way t line_addr) = is_resident t line_addr.
Proof.
  unfold resident_way, is_resident. cbn [seq foldl existsb].
  destruct (holds_line t line_addr 0), (holds_line t line_addr 1), (holds_line t line_addr 2),
    (holds_line t line_addr 3); done.
Qed.

Lemma lines_loop_counts t ls ne nr :
  result (icache_64set_lines_loop t ls ne nr) =
    Ok (ne + n_true (snd <$> ls), nr + n_true ((λ l, is_resident t l.1) <$> ls)).
Proof.
  revert ne nr. induction ls as [|[line e] ls IH]; intros ne nr; cbn [icache_64set_lines_loop].
  { cbn. by rewrite !Z.add_0_r. }
  cbv zeta. rewrite result_bind. cbn [result emit snd]. rewrite IH, resident_way_ge. unfold n_true.
  cbn [fmap list_fmap sum_list_Z foldr snd fst]. unfold sum_list_Z. rewrite !Z.add_assoc. done.
Qed.

Lemma n_true_full l : n_true l = Z.of_nat (length l) ↔ Forall (λ e, e = true) l.
Proof.
  assert (n_true l <= Z.of_nat (length l)) as Hle.
  { induction l as [|e l IH]; [done|]. unfold n_true, sum_list_Z in *. cbn in *. destruct e; cbn; lia. }
  induction l as [|e l IH]; [split; done|]. rewrite Forall_cons.
  assert (n_true l <= Z.of_nat (length l)) as Hl.
  { clear. induction l as [|e l IH]; [done|]. unfold n_true, sum_list_Z in *. cbn in *. destruct e; cbn; lia. }
  specialize (IH Hl). rewrite <- IH. unfold n_true, sum_list_Z in *. cbn [fmap list_fmap foldr length] in *.
  destruct e; cbn [Z.b2z] in *; split; intros; try split; try tauto; try lia; try (destruct H; done).
Qed.

(** All five lines were executed and are in the cache. *)
Definition lines_ok t (executed : list bool) : Prop :=
  Forall (λ e, e = true) executed ∧ Forall (λ line, is_resident t line = true) icache_64set_lines.

Lemma icache_status t executed :
  length executed = 5%nat →
  ∃ st, result (icache_64set_monitor_finalize t executed) = Ok st ∧ (st = 0 ↔ lines_ok t executed).
Proof.
  intros Hlen. unfold icache_64set_monitor_finalize. rewrite result_bind, lines_loop_counts. rewrite !Z.add_0_l.
  assert (snd <$> zip icache_64set_lines executed = executed) as -> by (apply snd_zip; rewrite Hlen; done).
  assert ((λ l, is_resident t l.1) <$> zip icache_64set_lines executed = is_resident t <$> icache_64set_lines) as ->.
  { rewrite <- (fst_zip icache_64set_lines executed) at 2 by (rewrite Hlen; done). by rewrite <- list_fmap_compose. }
  pose proof (n_true_full executed) as H1. pose proof (n_true_full (is_resident t <$> icache_64set_lines)) as H2.
  rewrite length_fmap in H2. change (Z.of_nat (length icache_64set_lines)) with 5 in H2. rewrite Hlen in H1.
  rewrite Forall_fmap in H2. change (Z.of_nat 5) with 5 in H1.
  assert (lines_ok t executed ↔ n_true executed = 5 ∧ n_true (is_resident t <$> icache_64set_lines) = 5) as Hok
    by (unfold lines_ok; by rewrite H1, H2).
  destruct (Z.eqb_spec (n_true executed) 5), (Z.eqb_spec (n_true (is_resident t <$> icache_64set_lines)) 5);
    cbn [negb orb]; rewrite result_bind; cbn [result emit snd]; eexists; (split; [reflexivity|]);
    rewrite Hok; (split; [intros ?; split; done || lia|intros []; done || lia]).
Qed.

Definition loaduse_ok (m : loaduse) : Prop :=
  0 < loaduse_p1_hit_bypass_events m ∧ 0 < loaduse_p1_miss_hazard_events m ∧
  loaduse_p1_operand_bypass_events m = loaduse_p1_hit_bypass_events m.

Lemma loaduse_status m :
  ∃ st, result (loaduse_p1_monitor_finalize m) = Ok st ∧ (st = 0 ↔ loaduse_ok m).
Proof.
  unfold loaduse_p1_monitor_finalize. rewrite !result_bind. cbn [result emit snd mret io_ret].
  eexists. split; [reflexivity|]. unfold loaduse_ok.
  destruct (Z.ltb_spec 0 (loaduse_p1_hit_bypass_events m)), (Z.ltb_spec 0 (loaduse_p1_miss_hazard_events m)),
    (Z.eqb_spec (loaduse_p1_operand_bypass_events m) (loaduse_p1_hit_bypass_events m)); cbn [andb]; lia.
Qed.

(** C35. An instrumented run is reported as good exactly when everything it looks
    at is: when [main] returns, its exit code is 0 just if the simulation's own
    status is good, the profile was written and accepted, the five target lines
    were executed and are in the cache, and the bypass counters are positive
    and agree, each as far as the build has it. *)
Theorem finish_passes b fopens s code report :
  length (icache_executed s) = 5%nat →
  result (finish b fopens s) = Ok (code, report) →
  code = 0 ↔
    result (is_exit_status_bad (core s)) = Ok 0 ∧
    (PERFORMANCE_MODEL b = true → (dependency_observer_finalize fopens 0 (dep s)).1 = 0) ∧
    (ICACHE_64SET_MONITOR b = true → lines_ok (top (core s)) (icache_executed s)) ∧
    (LOADUSE_P1_MONITOR b = true → loaduse_ok (lu s)).
Proof.
  intros Hlen. unfold finish. intros (ex & Hex & H)%result_bind_Ok. rewrite Hex.
  assert (∀ x, (dependency_observer_finalize fopens x (dep s)).1 = (dependency_observer_finalize fopens 0 (dep s)).1)
    as Hst by (intros x; unfold dependency_observer_finalize; by repeat case_if).
  specialize (Hst ex).
  destruct (dependency_observer_finalize fopens ex (dep s)) as [dst rep]. cbn [fst] in Hst. rewrite <- Hst.
  destruct (icache_status (top (core s)) (icache_executed s) Hlen) as (ist & Ei & Hi).
  destruct (loaduse_status (lu s)) as (lst & El & Hl). rewrite <- Hi, <- Hl.
  destruct b as [[] [] []]; cbn [PERFORMANCE_MODEL ICACHE_64SET_MONITOR LOADUSE_P1_MONITOR] in *;
    rewrite ?io_bind_ret_l, ?result_bind, ?Ei, ?result_bind, ?El in H; cbn [result mret io_ret snd] in H;
    injection H as <- <-;
    repeat match goal with |- context [?x =? 0] => destruct (Z.eqb_spec x 0) end; cbn [negb]; naive_solver congruence.
Qed.
End finishing.

(** ** Witnesses *)

(** A core that writes one instruction back per cycle, at consecutive program
    counters, with a dependency stall at even ones; its cache holds the lines. *)
Module VariantToy.
#[global] Instance counter : Dut Z := {|
  dut_eval c _ t := DRet (if c =? 1 then t + 1 else t);
  dut_out t := Outs 1 t 0x13 0 0 0;
  dut_gpr _ := replicate 33 0
|}.
#[global] Instance idle_ref : RefSim unit := {|
  ref_memcpy r _ _ := r; ref_put_regs r _ := r; ref_get_regs _ := replicate 33 0; ref_exec r _ := r;
  ref_raise_intr r _ := r
|}.
Definition ports_at (t : Z) : perf_ports :=
  PerfPorts (Z.b2z (Z.even t)) 0 0 0 0 0 0 0 0 0x00a50513 0 0x00053503 10 0.
#[global] Instance ports : Instrumented Z := {|
  perf_of t := ports_at t;
  loaduse_of _ := LoadusePorts 1 1 1;
  tag_arry _ way index := if index =? 0 then 0x100001 + Z.of_nat way else 0x100000 + Z.of_nat way;
  sign_arry _ _ _ := 1
|}.
Definition all : build := Build true true true.
Definition sim_at (t state : Z) : sim Z unit := Sim t 0 1 (Host ∅ timer_init 0 true) tt 0 state 0 1 0 false.
(** The observer with the ROI from [0x102] to [0x106]. *)
Definition start : inst Z unit :=
  Inst (sim_at 0x100 NPC_RUNNING)
    (Observer (Some "out.json") "toy" true true false false false 0x102 0x106 0 false [])
    (Loaduse 0 0 0) (replicate 5 false).
Definition tick_at (pc : Z) : tick := Tick true pc (dependency_sample (ports_at (pc + 1))).
Definition good : inst Z unit := Inst (sim_at 0 NPC_END) observer_zero (Loaduse 3 1 3) (replicate 5 true).
End VariantToy.

Lemma loop_profile_witness :
  ∃ s', result (cpu_loop Toy.no_clock VariantToy.all 9 0 8 VariantToy.start) = Ok s' ∧
    roi_cycles (dep s') = 4 ∧ t_dependency_cycles (totals_of (episodes (dep s'))) = 2.
Proof.
  destruct (result (cpu_loop Toy.no_clock VariantToy.all 9 0 8 VariantToy.start)) as [s'|] eqn:E;
    [|vm_compute in E; discriminate E].
  exists s'. split; [reflexivity|].
  destruct (loop_profile Toy.no_clock VariantToy.all 9 8 VariantToy.start s'
    (VariantToy.tick_at <$> [0x100; 0x101]) (VariantToy.tick_at 0x102) (VariantToy.tick_at <$> [0x103; 0x104; 0x105])
    (VariantToy.tick_at 0x106) [VariantToy.tick_at 0x107] 0x102 0x106) as (H1 & H2 & _);
    [reflexivity|reflexivity|reflexivity|reflexivity|exact E|reflexivity|repeat constructor|reflexivity
    |repeat constructor|reflexivity|].
  split; [etrans; [exact H1|]|etrans; [exact H2|]]; reflexivity.
Defined.

Lemma icache_lines_executed_witness :
  run icache_64set_monitor_sample (replicate 5 false)
    [Outs 1 0x80000c1c 0 0 0 0; Outs 0 0x80000800 0 0 0 0] !! 2%nat = Some true.
Proof. exact (icache_lines_executed [Outs 1 0x80000c1c 0 0 0 0; Outs 0 0x80000800 0 0 0 0] 2 0x80000c00 eq_refl). Defined.

Lemma finish_passes_witness :
  ∃ code report, result (finish VariantToy.all true VariantToy.good) = Ok (code, report) ∧ code = 0.
Proof.
  destruct (result (finish VariantToy.all true VariantToy.good)) as [[code report]|] eqn:E;
    [|vm_compute in E; discriminate E].
  exists code, report. split; [reflexivity|].
  apply (finish_passes VariantToy.all true VariantToy.good code report eq_refl E). split; [reflexivity|].
  split; [reflexivity|]. split.
  - intros _. split; repeat constructor.
  - intros _. split; [reflexivity|]. split; reflexivity.
Defined.
