(* ===== verification/Sdb.v ===== *)
(** * The debugger shell and the program's [main]
    [sdb.cpp] (command table, the nine handlers, [sdb_mainloop], [init_sdb])
    and [main] of [npc_main.cpp] after [init_sim].  The shell's state is the
    simulation of [Cpu.v], the watchpoint pool of [Watch.v] and the static
    buffers of [Expr.v]; [readline] is the list of the lines typed, which ends
    where the input ends.  [strtok] keeps its position in a static pointer: a
    handler is given the text that follows the command word, which its calls
    [strtok(NULL, ...)] consume. *)
From Stdlib Require Import Ascii.
From stdpp Require Import base numbers list option strings gmap.
From S2P Require Import Prelude Bytes CText PMem Watch Expr ExprGram Cpu.

Local Open Scope Z_scope.

Definition blank (c : ascii) : bool := Ascii.eqb c " ".
Definition no_delim (_ : ascii) : bool := false.

(** A token, when there is one. *)
Definition token (p : ascii → bool) (s : string) : option string := fst <$> strtok p s.

(** [atoi] of a pointer that may be NULL. *)
Definition atoi_ptr (arg : option string) : io Z :=
  match arg with None => fail NullDeref | Some s => mret (atoi s) end.

Inductive handler := cmd_help | cmd_c | cmd_q | cmd_si | cmd_info | cmd_x | cmd_p | cmd_w | cmd_d.
#[global] Instance handler_eq_dec : EqDecision handler.
Proof. solve_decision. Defined.

Definition cmd_table : list (string * string * handler) := [
  ("help", "Display informations about all supported commands", cmd_help);
  ("c", "   Continue the execution of the program", cmd_c);
  ("q", "   Exit NEMU", cmd_q);
  ("si", "  si [N]: Execute N step", cmd_si);
  ("info", "info r: Print regs status", cmd_info);
  ("x", "   x [N] [ADDR]: Print N word in the begin of memory[ADDR] ", cmd_x);
  ("p", "   p EXPR: Calculate the expresion", cmd_p);
  ("w", "   w EXPR: Set watchpoint", cmd_w);
  ("d", "   p EXPR: Delete watchpoint N", cmd_d) ].

Fixpoint find_cmd (name : string) (t : list (string * string * handler)) :
    option (string * string * handler) :=
  match t with
  | [] => None
  | c :: t => if String.eqb name c.1.1 then Some c else find_cmd name t
  end.

Definition unknown (cmd : string) : string := "Unknown command '" +:+ cmd +:+ "'" +:+ nl.
Definition help_line (c : string * string * handler) : string :=
  c.1.1 +:+ " - " +:+ c.1.2 +:+ nl.

Section sdb.
Context {T R : Type} `{!Dut T} `{!RefSim R}.
Variable gettimeofday : nat → Z * Z.
(** Bound on the iterations of one [cpu_exec]; [cpu_exec n] needs no more than
    [n] of them. *)
Variable fuel : nat.

Record sdb := Sdb { msim : sim T R; wps : pool; sts : statics }.
Definition set_sim (d : sdb) (s : sim T R) : sdb := Sdb s (wps d) (sts d).

(** [cpu_gpr] as [expr] reads it: every access through NULL faults, as every
    access to the empty array does. *)
Definition gpr_view (s : sim T R) : list Z :=
  if gpr_ptr (hst s) then dut_gpr (top s) else [].
Definition sdb_expr (d : sdb) (e : string) : io (Z * option bool * statics) :=
  expr (gpr_view (msim d)) (wb_pc_now (msim d)) (pmem (hst (msim d))) (sts d) e.

(** ** Handlers *)

Definition run_c (d : sdb) : io sdb :=
  s ← cpu_exec gettimeofday fuel (-1) (msim d); mret (set_sim d s).

Definition run_q (d : sdb) : io sdb :=
  s ← cpu_exec gettimeofday fuel 1 (Cpu.set_cpu_state (msim d) NPC_QUIT); mret (set_sim d s).

Definition run_si (args : option string) (rest : string) (d : sdb) : io sdb :=
  n ← (match args with None => mret 1 | Some _ => atoi_ptr (token blank rest) end);
  s ← cpu_exec gettimeofday fuel n (msim d);
  mret (set_sim d s).

Definition wp_line (w : WP) : string :=
  "Watchpoint " +:+ fmt_d (NO w) +:+ " expression is " +:+ default "(null)" (string_ w)
  +:+ ", value is " +:+ fmt_u (value w) +:+ nl.

(** The walk of [info w]; the fuel bounds it, the pool has 32 nodes. *)
Fixpoint show_wps (fuel : nat) (ns : list WP) (ptr : option nat) : io unit :=
  match ptr with
  | None => mret tt
  | Some _ =>
      '(_, w) ← deref ns ptr;
      emit (wp_line w);;
      match fuel with
      | O => fail OutOfFuel
      | S f => show_wps f ns (next w)
      end
  end.

Definition run_info (rest : string) (d : sdb) : io sdb :=
  match token blank rest with
  | None => fail NullDeref
  | Some arg1 =>
      (if is_char "r" arg1 then isa_reg_display (msim d)
       else if is_char "w" arg1 then
         (match head (wps d) with
          | None => emit ("No watchpoint to print" +:+ nl)
          | Some _ => mret tt
          end);;
         show_wps NR_WP (wp_pool (wps d)) (head (wps d))
       else emit "Error cmd");;
      mret d
  end.

Fixpoint dump (n : nat) (m : bytes) (addr : Z) : io unit :=
  match n with
  | O => mret tt
  | S n =>
      value ← paddr_read m addr 4;
      emit ("0x" +:+ fmt_0x 8 addr +:+ " value is: 0x" +:+ fmt_0x 8 value +:+ nl);;
      dump n m (u64 (addr + 4))
  end.

Definition run_x (rest : string) (d : sdb) : io sdb :=
  match strtok blank rest with
  | None => emit "Error cmd";; mret d
  | Some (arg1, rest) =>
      match token blank rest with
      | None => emit "Error cmd";; mret d
      | Some arg2 =>
          dump (Z.to_nat (atoi arg1)) (pmem (hst (msim d))) (u64 (strtol 0 arg2).1);;
          mret d
      end
  end.

Definition run_p (rest : string) (d : sdb) : io sdb :=
  match token no_delim rest with
  | None => emit "Error cmd";; mret d
  | Some arg1 =>
      '(a, boo, st) ← sdb_expr d arg1;
      emit (match boo with
            | Some false => "Regex failed"
            | _ => "Expression: " +:+ arg1 +:+ " = " +:+ fmt_d a +:+ nl
            end);;
      mret (Sdb (msim d) (wps d) st)
  end.

Definition set_watch (w : WP) (e : string) (v : Z) : WP := mkWP (NO w) (next w) (Some e) v.

Definition run_w (rest : string) (d : sdb) : io sdb :=
  match token no_delim rest with
  | None => emit "Error cmd";; mret d
  | Some arg1 =>
      '(newwp, p) ← new_wp (wps d);
      '(_, w) ← deref (wp_pool p) (Some newwp);
      '(v, _, st) ← sdb_expr d arg1;
      emit ("Watchpoint " +:+ fmt_d (NO w) +:+ " has created,expression is " +:+ arg1 +:+ nl);;
      mret (Sdb (msim d)
        (Pool (<[newwp := set_watch w arg1 v]> (wp_pool p)) (head p) (free_ p)) st)
  end.

(** The search of [d] from [head]. *)
Fixpoint find_no (fuel : nat) (ns : list WP) (a : Z) (ptr : option nat) : io (option nat) :=
  match ptr with
  | None => mret None
  | Some _ =>
      '(i, w) ← deref ns ptr;
      if NO w =? a then mret (Some i)
      else match fuel with
           | O => fail OutOfFuel
           | S f => find_no f ns a (next w)
           end
  end.

Definition run_d (rest : string) (d : sdb) : io sdb :=
  a ← atoi_ptr (token no_delim rest);
  ptr ← find_no NR_WP (wp_pool (wps d)) a (head (wps d));
  match ptr with
  | None => mret d
  | Some i => p ← free_wp i (wps d); mret (Sdb (msim d) p (sts d))
  end.

Fixpoint emit_all (l : list string) : io unit :=
  match l with [] => mret tt | s :: l => emit s;; emit_all l end.

Definition run_help (rest : string) (d : sdb) : io sdb :=
  (match token blank rest with
   | None => emit_all (help_line <$> cmd_table)
   | Some arg =>
       match find_cmd arg cmd_table with
       | Some c => emit (help_line c)
       | None => emit (unknown arg)
       end
   end);;
  mret d.

(** Every handler returns 0. *)
Definition run_handler (h : handler) (args : option string) (rest : string) (d : sdb) : io sdb :=
  match h with
  | cmd_help => run_help rest d
  | cmd_c => run_c d
  | cmd_q => run_q d
  | cmd_si => run_si args rest d
  | cmd_info => run_info rest d
  | cmd_x => run_x rest d
  | cmd_p => run_p rest d
  | cmd_w => run_w rest d
  | cmd_d => run_d rest d
  end.

(** ** The loop *)

(** One line: the command word, the pointer [args] behind it (NULL when it is
    at or past the end of the line), and the handler. *)
Definition sdb_line (str : string) (d : sdb) : io sdb :=
  match strtok blank str with
  | None => mret d
  | Some (cmd, rest) =>
      let args := match rest with EmptyString => None | _ => Some rest end in
      match find_cmd cmd cmd_table with
      | Some c => run_handler c.2 args rest d
      | None => emit (unknown cmd);; mret d
      end
  end.

(** Whether the loop tests [cpu_state] after the line: a blank line restarts
    it before the test. *)
Definition tested (str : string) : bool := match strtok blank str with None => false | Some _ => true end.

Fixpoint sdb_lines (lines : list string) (d : sdb) : io sdb :=
  match lines with
  | [] => mret d
  | str :: lines =>
      d ← sdb_line str d;
      if tested str && (cpu_state (msim d) =? NPC_QUIT) then mret d
      else sdb_lines lines d
  end.

Definition sdb_mainloop (is_batch_mode : bool) (lines : list string) (d : sdb) : io sdb :=
  if is_batch_mode then run_c d else sdb_lines lines d.

(** The pool as [init_sdb] leaves it, and the static buffers at program start;
    [init_regex] compiles the patterns of [Expr.rules]. *)
Definition init_sdb (s : sim T R) : sdb := Sdb s init_wp_pool statics_init.

(** [main] after [init_sim]; [end_sim] releases the model and the log. *)
Definition main (is_batch_mode : bool) (lines : list string) (s : sim T R) : io Z :=
  d ← sdb_mainloop is_batch_mode lines (init_sdb s);
  is_exit_status_bad (msim d).
End sdb.
Arguments sdb : clear implicits.
Arguments Sdb {T R} _ _ _.

(** ** Lemmas *)

(** A text without blanks is one word: [strtok] stops at the blank behind it. *)
Fixpoint no_blank (s : string) : bool :=
  match s with EmptyString => true | String c s => negb (blank c) && no_blank s end.

Lemma take_until_word s t :
  no_blank s = true →
  take_until blank (s +:+ String " " t) = (s, t) ∧ take_until blank s = (s, "").
Proof.
  induction s as [|c s IH]; [done|]. intros [Hc Hs]%andb_true_iff.
  destruct (IH Hs) as [E1 E2]. cbn [take_until String.append].
  rewrite (proj1 (negb_true_iff _) Hc). by rewrite E1, E2.
Qed.

Lemma skip_word s t : no_blank s = true → s ≠ "" → skip_while blank (s +:+ t) = s +:+ t.
Proof.
  destruct s as [|c s]; [done|]. simpl. intros [Hc _]%andb_true_iff _.
  by rewrite (proj1 (negb_true_iff _) Hc).
Qed.

Lemma strtok_word s t :
  no_blank s = true → s ≠ "" → strtok blank (s +:+ String " " t) = Some (s, t).
Proof.
  intros Hb Hs. unfold strtok. rewrite skip_word by done.
  destruct (take_until_word s t Hb) as [E _]. rewrite <- E. by destruct s.
Qed.

Lemma strtok_last s : no_blank s = true → s ≠ "" → strtok blank s = Some (s, "").
Proof.
  intros Hb Hs. unfold strtok. pose proof (skip_word s "" Hb Hs) as E.
  rewrite append_nil_r in E. rewrite E. destruct (take_until_word s "" Hb) as [_ E'].
  rewrite <- E'. by destruct s.
Qed.

Lemma token_rest s : s ≠ "" → token no_delim s = Some s.
Proof.
  intros Hs. assert (∀ t, take_until no_delim t = (t, "")) as H.
  { intros t. induction t as [|c t IH]; simpl; [done|]. by rewrite IH. }
  unfold token, strtok. destruct s as [|c s]; [done|]. cbn -[take_until]. by rewrite H.
Qed.

Section shell.
Context {T R : Type} `{!Dut T} `{!RefSim R}.
Variable gettimeofday : nat → Z * Z.
Implicit Types d : sdb T R.

(** What the shell keeps true: the pool holds the two lists, every watchpoint
    in use has its text, and the pointer array of [expr] has 32 entries. *)
Definition texts (p : pool) (hs : list nat) : Prop :=
  ∀ i w, i ∈ hs → wp_pool p !! i = Some w → is_Some (string_ w).
Definition watching (d : sdb T R) (hs fs : list nat) : Prop :=
  holds (wps d) hs fs ∧ texts (wps d) hs.
Record shell_ok (d : sdb T R) : Prop := {
  shell_pool : ∃ hs fs, watching d hs fs;
  shell_strs : length (strs_ (sts d)) = NR_TOKEN
}.

Lemma init_shell_ok s : shell_ok (init_sdb s : sdb T R).
Proof.
  split; [|done]. exists [], (seq 0 NR_WP). split; [apply holds_init|].
  intros i w Hi. by apply elem_of_nil in Hi.
Qed.

Lemma find_no_in fuel (ns : list WP) a ptr hs i :
  chain ns ptr hs → result (find_no fuel ns a ptr) = Ok (Some i) → i ∈ hs.
Proof.
  intros Hc. revert fuel. induction Hc as [|j w l Hj Hc IH]; intros fuel; [by destruct fuel|].
  destruct fuel as [|f]; cbn [find_no]; rewrite (deref_Some _ _ _ Hj), io_bind_ret_l;
    (case_if; [intros; simplify_eq/=; by left|]); [done|]. intros H. right. by eapply IH.
Qed.

Lemma texts_same p p' hs hs' :
  same_payload (wp_pool p) (wp_pool p') → texts p hs → (∀ i, i ∈ hs' → i ∈ hs) → texts p' hs'.
Proof.
  intros Hs Ht Hsub i w Hi Hw. destruct (Hs _ _ Hw) as (w0 & Hw0 & -> & _). eauto.
Qed.

(** Deleting a watchpoint keeps the pool well formed. *)
Lemma watching_free p hs fs i p' :
  holds p hs fs → texts p hs → i ∈ hs → result (free_wp i p) = Ok p' →
  ∃ hs' fs', holds p' hs' fs' ∧ texts p' hs'.
Proof.
  intros H Ht Hi E. pose proof (free_wp_payload _ _ _ E) as Hs. destruct fs as [|f fs].
  - by rewrite (free_wp_null _ _ _ H Hi) in E.
  - destruct (free_wp_ok _ _ _ _ _ H Hi) as (p'' & hs1 & hs2 & -> & E' & H' & _).
    rewrite E' in E. simplify_eq/=. eexists _, _. split; [done|].
    eapply texts_same; [done..|]. set_solver.
Qed.

(** Setting one adds the node with its text in front. *)
Lemma watching_new p hs fs i p' w e v :
  holds p hs fs → texts p hs → result (new_wp p) = Ok (i, p') → wp_pool p' !! i = Some w →
  let q := Pool (<[i := set_watch w e v]> (wp_pool p')) (head p') (free_ p') in
  ∃ fs', fs = i :: fs' ∧ holds q (i :: hs) fs' ∧ texts q (i :: hs) ∧
    wp_pool q !! i = Some (set_watch w e v) ∧ NO w = Z.of_nat i.
Proof.
  intros H Ht E Hw q. pose proof (new_wp_payload _ _ _ E) as Hs. destruct fs as [|f fs].
  - by rewrite (new_wp_exhausted _ _ H) in E.
  - destruct (new_wp_ok _ _ _ _ H) as (p'' & E' & H'). rewrite E' in E. simplify_eq/=.
    exists fs. split; [done|]. split; [by eapply holds_payload|].
    assert (wp_pool q !! i = Some (set_watch w e v)) as Hq.
    { apply list_lookup_insert_eq. by eapply lookup_lt_Some. }
    split_and!; [|done|by eapply (holds_no _ _ _ H')].
    intros j u Hj Hu. apply list_lookup_insert_Some in Hu as [(<- & <- & _)|(Hne & Hu)]; [by eexists|].
    apply elem_of_cons in Hj as [->|Hj]; [done|].
    destruct (Hs _ _ Hu) as (w0 & Hw0 & -> & _). eauto.
Qed.

Lemma run_w_ok rest d d' : shell_ok d → result (run_w rest d) = Ok d' → shell_ok d'.
Proof.
  intros Hok. unfold run_w. destruct (token no_delim rest) as [e|]; [|by intros; simplify_eq/=].
  destruct Hok as [(hs & fs & H & Ht) Hl].
  intros ([i p] & E & Hr)%result_bind_Ok. cbv beta iota in Hr.
  apply result_bind_Ok in Hr as ([? w] & [[= <-] Hw]%deref_inv & Hr). cbv beta iota in Hr.
  apply result_bind_Ok in Hr as ([[v b] st] & Hx & Hr). cbv beta iota in Hr.
  apply result_bind_Ok in Hr as (_ & _ & Hr). injection Hr as <-.
  apply expr_strs_length in Hx. simpl in Hx.
  destruct (watching_new _ _ _ _ _ w e v H Ht E Hw) as (fs' & -> & Hq & Hqt & _).
  split; [|by rewrite <- Hl]. by exists (i :: hs), fs'.
Qed.

Lemma run_d_ok rest d d' : shell_ok d → result (run_d rest d) = Ok d' → shell_ok d'.
Proof.
  intros [(hs & fs & H & Ht) Hl]. unfold run_d. intros (a & _ & Hr)%result_bind_Ok.
  apply result_bind_Ok in Hr as ([i|] & Hf & Hr); [|by simplify_eq/=; split; [exists hs, fs|]].
  apply result_bind_Ok in Hr as (p & Hp & Hr). injection Hr as <-.
  apply find_no_in with (hs := hs) in Hf; [|apply H].
  destruct (watching_free _ _ _ _ _ H Ht Hf Hp) as (hs' & fs' & ? & ?). split; [|done]. by exists hs', fs'.
Qed.

(** Whatever is typed, a handler that returns leaves a well-formed shell. *)
Lemma run_handler_ok fuel h args rest d d' :
  shell_ok d → result (run_handler gettimeofday fuel h args rest d) = Ok d' → shell_ok d'.
Proof.
  intros Hok. destruct h; cbn [run_handler].
  - intros (_ & _ & Hr)%result_bind_Ok. by simplify_eq/=.
  - intros (s & _ & Hr)%result_bind_Ok. simplify_eq/=. by destruct Hok.
  - intros (s & _ & Hr)%result_bind_Ok. simplify_eq/=. by destruct Hok.
  - intros (n & _ & Hr)%result_bind_Ok. apply result_bind_Ok in Hr as (s & _ & Hr).
    simplify_eq/=. by destruct Hok.
  - unfold run_info. destruct (token blank rest) as [e|]; [|done].
    intros (_ & _ & Hr)%result_bind_Ok. by simplify_eq/=.
  - unfold run_x. destruct (strtok blank rest) as [[? r]|]; [|by intros; simplify_eq/=].
    destruct (token blank r); [|by intros; simplify_eq/=].
    intros (_ & _ & Hr)%result_bind_Ok. by simplify_eq/=.
  - unfold run_p. destruct (token no_delim rest) as [e|]; [|by intros; simplify_eq/=].
    intros ([[v b] st] & Hx & Hr)%result_bind_Ok. cbv beta iota in Hr.
    apply result_bind_Ok in Hr as (_ & _ & Hr). injection Hr as <-.
    apply expr_strs_length in Hx. destruct Hok as [? Hl]. split; [done|]. by rewrite <- Hl.
  - by apply run_w_ok.
  - by apply run_d_ok.
Qed.

Lemma sdb_line_ok fuel str d d' :
  shell_ok d → result (sdb_line gettimeofday fuel str d) = Ok d' → shell_ok d'.
Proof.
  intros Hok. unfold sdb_line. destruct (strtok blank str) as [[cmd rest]|]; [|by intros; simplify_eq/=].
  cbv zeta. destruct (find_cmd cmd cmd_table); [by apply run_handler_ok|].
  intros (_ & _ & Hr)%result_bind_Ok. by simplify_eq/=.
Qed.

Lemma sdb_lines_ok fuel lines d d' :
  shell_ok d → result (sdb_lines gettimeofday fuel lines d) = Ok d' → shell_ok d'.
Proof.
  revert d. induction lines as [|str lines IH]; intros d Hok; cbn [sdb_lines].
  - intros; by simplify_eq/=.
  - intros (d1 & Hl & Hr)%result_bind_Ok. apply sdb_line_ok in Hl; [|done].
    revert Hr. case_if; [by intros; simplify_eq/=|by apply IH].
Qed.

(** The list [info w] prints. *)
Fixpoint wp_lines (ns : list WP) (hs : list nat) : list string :=
  match hs with
  | [] => []
  | i :: hs => match ns !! i with Some w => wp_line w :: wp_lines ns hs | None => [] end
  end.

Lemma show_wps_chain fuel (ns : list WP) ptr hs :
  chain ns ptr hs → (length hs <= fuel)%nat → show_wps fuel ns ptr = (wp_lines ns hs, Ok tt).
Proof.
  intros Hc. revert fuel. induction Hc as [|i w l Hi Hc IH]; intros fuel Hf; [by destruct fuel|].
  destruct fuel as [|f]; [simpl in Hf; lia|].
  cbn [show_wps wp_lines]. rewrite (deref_Some _ _ _ Hi), io_bind_ret_l, Hi.
  rewrite IH by (simpl in Hf; lia). done.
Qed.

Lemma holds_short p hs fs : holds p hs fs → (length hs <= NR_WP)%nat.
Proof.
  intros H. apply NoDup_length_lt.
  - pose proof (holds_nodup _ _ _ H) as Hn. by apply NoDup_app in Hn as [? _].
  - intros i Hi. rewrite <- (holds_len _ _ _ H). eapply chain_lt; [apply H|done].
Qed.
End shell.

(** ** Stepping in parts *)

Section stepping.
Context {T R : Type} `{!Dut T} `{!RefSim R}.
Variable gettimeofday : nat → Z * Z.
Implicit Types s : sim T R.
Notation loop := (cpu_loop gettimeofday).

(** The states the loop goes through: running, or aborted with the error flag. *)
Definition going s : Prop :=
  cpu_state s = NPC_RUNNING ∨ (cpu_state s = NPC_ABORT ∧ truthy (difftest_error s) = true).

Lemma going_not_end s : going s → (cpu_state s =? NPC_END) = false.
Proof. by intros [->|[-> _]]. Qed.

Lemma difftest_step_going s s' : result (difftest_step s) = Ok s' → going s → going s'.
Proof.
  unfold difftest_step. case_if; [|by intros; simplify_eq/=].
  intros (g & _ & Eg)%result_bind_Ok. by simplify_eq/=.
Qed.

Lemma difftest_check_going s s' : result (difftest_check s) = Ok s' → going s → going s'.
Proof.
  unfold difftest_check. intros (ok & _ & E)%result_bind_Ok Hg. destruct ok; [by simplify_eq/=|].
  cbv zeta in E. apply result_bind_Ok in E as (_ & _ & E). simplify_eq/=. by right.
Qed.

Lemma exec_once_going s s' : result (exec_once s) = Ok s' → going s → going s'.
Proof.
  unfold exec_once. cbv zeta. case_if; [|by intros; simplify_eq/=].
  intros (s1 & E1 & Es)%result_bind_Ok Hg. apply result_bind_Ok in Es as (n & _ & Es).
  assert (going s1) as H1; [|by simplify_eq/=].
  clear Es. revert E1. case_if; [|by intros; simplify_eq/=].
  intros (s2 & E2 & E3)%result_bind_Ok. apply difftest_step_going in E2; [|done].
  apply result_bind_Ok in E3 as (s3 & E3 & E4). apply difftest_check_going in E3; [|by case_if].
  simplify_eq/=. by case_if.
Qed.

Lemma single_cycle_going s s' : result (single_cycle gettimeofday s) = Ok s' → going s → going s'.
Proof.
  intros F%single_cycle_frame. injection F as _ E1 _ _ E2 _. unfold going. by rewrite E1, E2.
Qed.

(** One round of the loop from counter [i]. *)
Definition round (k : Z → sim T R → io (sim T R)) (i n : Z) s : io (sim T R) :=
  if i <? n then
    if truthy (difftest_error s) then mret s
    else
      s ← exec_once s;
      if is_ebreak (hst s) =? 1 then mret (Cpu.set_cpu_state s NPC_END)
      else s ← single_cycle gettimeofday s; i ← as_int (i + 1); k i s
  else mret s.

Lemma round_ext k k' i n s :
  (∀ s, i < n → k (i + 1) s = k' (i + 1) s) → round k i n s = round k' i n s.
Proof.
  intros H. unfold round. case_if; [|done]. case_if; [done|]. bool_to_prop.
  apply io_bind_ext. intros s1 _. case_if; [done|].
  apply io_bind_ext. intros s2 _. apply io_bind_ext. intros j Hj.
  unfold as_int in Hj. case_if; simplify_eq/=. by apply H.
Qed.

(** More fuel than iterations changes nothing, so the loop satisfies its own
    equation at constant fuel. *)
Lemma cpu_loop_fuel f g i n s : n - i <= Z.of_nat f → n - i <= Z.of_nat g → loop f i n s = loop g i n s.
Proof.
  revert g i s. induction f as [|f IH]; intros g i s Hf Hg.
  - assert (i <? n = false) as E by lia. destruct g; cbn [cpu_loop]; by rewrite E.
  - destruct g as [|g].
    + assert (i <? n = false) as E by lia. cbn [cpu_loop]. by rewrite E.
    + apply (round_ext (λ i s, loop f i n s) (λ i s, loop g i n s)).
      intros s' Hi. apply IH; lia.
Qed.

Lemma cpu_loop_round f i n s : n - i <= Z.of_nat f → loop f i n s = round (λ i s, loop f i n s) i n s.
Proof.
  intros Hf. destruct f as [|f].
  - assert (i <? n = false) as E by lia. unfold round. cbn [cpu_loop]. by rewrite E.
  - apply (round_ext (λ i s, loop f i n s) (λ i s, loop (S f) i n s)).
    intros s' Hi. apply cpu_loop_fuel; lia.
Qed.

(** Running to [m] is running to [n] and, unless that hit the end, on to [m]. *)
Lemma cpu_loop_split f n m : n <= m → ∀ i s, 0 <= i <= n → m <= Z.of_nat f → going s →
  loop f i m s = (loop f i n s ≫= λ s1, if cpu_state s1 =? NPC_END then mret s1 else loop f n m s1).
Proof.
  intros Hnm i s Hi Hf Hg. remember (Z.to_nat (n - i)) as k eqn:Hk.
  revert i s Hi Hk Hg. induction k as [|k IH]; intros i s Hi Hk Hg.
  - assert (i = n) as -> by lia.
    rewrite (cpu_loop_round f n n) by lia. unfold round. rewrite Z.ltb_irrefl, io_bind_ret_l.
    by rewrite going_not_end.
  - rewrite (cpu_loop_round f i n), (cpu_loop_round f i m) by lia. unfold round.
    replace (i <? m) with true by lia. replace (i <? n) with true by lia.
    destruct (truthy (difftest_error s)) eqn:He.
    { by rewrite io_bind_ret_l, going_not_end, (cpu_loop_end gettimeofday). }
    rewrite io_bind_assoc. apply io_bind_ext. intros s1 E1. apply exec_once_going in E1; [|done].
    case_if; [by rewrite io_bind_ret_l|].
    rewrite io_bind_assoc. apply io_bind_ext. intros s2 E2. apply single_cycle_going in E2; [|done].
    rewrite io_bind_assoc. apply io_bind_ext. intros j Hj.
    unfold as_int in Hj. case_if; simplify_eq/=. apply IH; [lia|lia|done].
Qed.

(** The counter matters only through the number of rounds left. *)
Lemma cpu_loop_shift f n k : 0 <= k → n + k <= INT_MAX → ∀ i s, 0 <= i → n - i <= Z.of_nat f →
  loop f (i + k) (n + k) s = loop f i n s.
Proof.
  intros Hk Hn i s Hi Hf. remember (Z.to_nat (n - i)) as c eqn:Hc.
  revert i s Hi Hf Hc. induction c as [|c IH]; intros i s Hi Hf Hc;
    rewrite (cpu_loop_round f i n), (cpu_loop_round f (i + k)) by lia; unfold round.
  - replace (i <? n) with false by lia. by replace (i + k <? n + k) with false by lia.
  - replace (i <? n) with true by lia. replace (i + k <? n + k) with true by lia.
    case_if; [done|]. apply io_bind_ext. intros s1 _. case_if; [done|].
    apply io_bind_ext. intros s2 _. rewrite !as_int_in by (unfold INT_MAX, INT_MIN in *; lia).
    rewrite !io_bind_ret_l. replace (i + k + 1) with (i + 1 + k) by lia. apply IH; lia.
Qed.

Lemma cpu_loop_states f : ∀ i n s s', going s → result (loop f i n s) = Ok s' →
  going s' ∨ cpu_state s' = NPC_END.
Proof.
  induction f as [|f IH]; intros i n s s' Hg; cbn [cpu_loop];
    (destruct (i <? n); [|intros; simplify_eq/=; by left]);
    (destruct (truthy _); [intros; simplify_eq/=; by left|]);
    intros (s1 & E1 & Er)%result_bind_Ok; (apply exec_once_going in E1; [|done]);
    (destruct (is_ebreak (hst s1) =? 1); [simplify_eq/=; by right|]);
    apply result_bind_Ok in Er as (s2 & E2 & Es); (apply single_cycle_going in E2; [|done]);
    apply result_bind_Ok in Es as (j & _ & Es); [done|by eapply IH].
Qed.

(** What [cpu_exec] does after its loop. *)
Definition finish s : io (sim T R) :=
  if cpu_state s =? NPC_ABORT then
    emit ("npc: ABORT at pc = 0x" +:+ pc16 (wb_pc_now s));; mret s
  else if cpu_state s =? NPC_END then
    g ← cpu_gpr s; a0 ← gpr_at g 10;
    emit ("npc: " +:+ (if a0 =? 0 then "HIT GOOD TRAP" else "HIT BAD TRAP") +:+ " at pc = 0x"
          +:+ pc16 (wb_pc_now s));;
    mret s
  else mret (Cpu.set_cpu_state s NPC_RUNNING).

(** [cpu_exec] does nothing in a state that is not running. *)
Definition halted s : bool :=
  (cpu_state s =? NPC_ABORT) || (cpu_state s =? NPC_QUIT) || (cpu_state s =? NPC_END).

Lemma cpu_exec_halted f n s : halted s = true → result (cpu_exec gettimeofday f n s) = Ok s.
Proof.
  unfold halted, cpu_exec. intros H. case_if; [done|]. case_if; [done|]. by case_if.
Qed.

Lemma cpu_exec_running f n s : halted s = false →
  cpu_exec gettimeofday f n s = (loop f 0 (u32 n) (Cpu.set_cpu_state s NPC_RUNNING) ≫= finish).
Proof.
  unfold halted, cpu_exec. intros H. bool_to_prop.
  destruct (cpu_state s =? NPC_ABORT) eqn:E1, (cpu_state s =? NPC_QUIT) eqn:E2,
    (cpu_state s =? NPC_END) eqn:E3; bool_to_prop; done.
Qed.

Lemma set_running s : cpu_state s = NPC_RUNNING → Cpu.set_cpu_state s NPC_RUNNING = s.
Proof. destruct s; simpl. by intros ->. Qed.

Lemma u32_small n : 0 <= n <= INT_MAX → u32 n = n.
Proof. intros. unfold INT_MAX in *. apply wrap_small. lia. Qed.

Lemma finish_stays s s' : result (finish s) = Ok s' → cpu_state s = NPC_END → s' = s.
Proof.
  intros H E. unfold finish in H. rewrite E in H. change (NPC_END =? NPC_ABORT) with false in H.
  change (NPC_END =? NPC_END) with true in H. cbv iota in H.
  apply result_bind_Ok in H as (g & _ & H). apply result_bind_Ok in H as (a0 & _ & H).
  by simplify_eq/=.
Qed.

(** Executing [n + m] instructions is executing [n] and then [m]. *)
Lemma cpu_exec_add f n m s :
  0 <= n → 0 <= m → n + m <= INT_MAX → n + m <= Z.of_nat f →
  result (cpu_exec gettimeofday f (n + m) s) =
  result (cpu_exec gettimeofday f n s ≫= cpu_exec gettimeofday f m).
Proof.
  intros Hn Hm Hi Hf. rewrite (result_bind (cpu_exec gettimeofday f n s)).
  destruct (halted s) eqn:Hh; [by rewrite !cpu_exec_halted|].
  rewrite !cpu_exec_running, !u32_small by (done || lia).
  set (s0 := Cpu.set_cpu_state s NPC_RUNNING). assert (going s0) as Hg by (by left).
  rewrite (cpu_loop_split f n (n + m)), !result_bind by (done || lia).
  destruct (result (loop f 0 n s0)) as [s1|] eqn:E1; [|done].
  destruct (cpu_loop_states _ _ _ _ _ Hg E1) as [Hg1|He].
  - rewrite going_not_end by done. destruct Hg1 as [Hr|[Ha Ht]].
    + unfold finish at 2. rewrite Hr. cbn. rewrite set_running by done.
      rewrite cpu_exec_running by (unfold halted; by rewrite Hr).
      rewrite set_running, u32_small by (done || lia).
      pose proof (cpu_loop_shift f m n ltac:(lia) ltac:(lia) 0 s1 ltac:(lia) ltac:(lia)) as Hs.
      rewrite Z.add_0_l, (Z.add_comm m n) in Hs. rewrite Hs. by rewrite result_bind.
    + rewrite (cpu_loop_end gettimeofday) by done. cbn. unfold finish. rewrite Ha. cbn.
      rewrite cpu_exec_halted; [done|]. unfold halted. by rewrite Ha.
  - rewrite He. change (NPC_END =? NPC_END) with true. cbv iota.
    change (result (mret s1)) with (Ok s1). cbv iota.
    destruct (result (finish s1)) as [s2|] eqn:E2; [|done].
    apply finish_stays in E2 as ->; [|done]. rewrite cpu_exec_halted; [done|].
    unfold halted. by rewrite He.
Qed.
End stepping.

(** ** Typing a command *)

Lemma no_blank_digit d : 0 <= d < 36 → blank (digit_char d) = false.
Proof.
  intros Hd. unfold blank. destruct (Ascii.eqb_spec (digit_char d) " ") as [E|]; [|done].
  pose proof (digit_val_char d Hd) as Hv. by rewrite E in Hv.
Qed.

Lemma no_blank_digits ds : Forall (λ d, 0 <= d < 36) ds → no_blank (of_digits ds) = true.
Proof. induction 1; simpl; [done|]. by rewrite no_blank_digit. Qed.

Lemma fmt_u_word n : 0 <= n → no_blank (fmt_u n) = true ∧ fmt_u n ≠ "".
Proof.
  intros Hn. unfold fmt_u. split.
  - apply no_blank_digits. eapply Forall_impl; [by apply digits_of_range|]. simpl. lia.
  - pose proof (digits_of_nonempty 10 n). by destruct (digits_of 10 n).
Qed.

Lemma fmt_0x_word w n : 0 <= n → no_blank ("0x" +:+ fmt_0x w n) = true ∧ "0x" +:+ fmt_0x w n ≠ "".
Proof.
  intros Hn. split; [|done]. unfold fmt_0x, fmt_x, pad0. rewrite of_digits_zeros. simpl.
  apply no_blank_digits, Forall_app. split; [apply Forall_replicate; lia|].
  eapply Forall_impl; [by apply digits_of_range|]. simpl. lia.
Qed.

Section commands.
Context {T R : Type} `{!Dut T} `{!RefSim R}.
Variable gettimeofday : nat → Z * Z.
Implicit Types d : sdb T R.
Notation line := (sdb_line gettimeofday).

(** A command word, a blank and an argument text. *)
Definition type_cmd (name rest : string) : string := name +:+ String " " rest.

Lemma sdb_line_cmd fuel name c rest d :
  no_blank name = true → name ≠ "" → find_cmd name cmd_table = Some c → rest ≠ "" →
  line fuel (type_cmd name rest) d = run_handler gettimeofday fuel c.2 (Some rest) rest d.
Proof.
  intros Hb Hn Hc Hr. unfold sdb_line, type_cmd. rewrite strtok_word, Hc by done. by destruct rest.
Qed.

Lemma tested_cmd name rest : no_blank name = true → name ≠ "" → tested (type_cmd name rest) = true.
Proof. intros. unfold tested, type_cmd. by rewrite strtok_word. Qed.

Lemma line_si fuel n d : 0 <= n <= INT_MAX →
  line fuel (type_cmd "si" (fmt_u n)) d =
    (s ← cpu_exec gettimeofday fuel n (msim d); mret (set_sim d s)).
Proof.
  intros Hn. destruct (fmt_u_word n) as [Hb Hz]; [lia|].
  rewrite (sdb_line_cmd _ "si" ("si", "  si [N]: Execute N step", cmd_si)) by done.
  cbn [run_handler snd]. unfold run_si, token, atoi_ptr. rewrite strtok_last by done.
  cbn [fmap option_fmap option_map fst]. by rewrite io_bind_ret_l, atoi_fmt_u.
Qed.

Lemma set_quit d : (cpu_state (msim d) =? NPC_QUIT) = true →
  set_sim d (Cpu.set_cpu_state (msim d) NPC_QUIT) = d.
Proof. intros H. bool_to_prop. destruct d as [s ? ?], s; simpl in *. by subst. Qed.

Lemma sdb_lines_quit fuel pre post d d1 :
  result (sdb_lines gettimeofday fuel pre d) = Ok d1 →
  result (sdb_lines gettimeofday fuel (pre ++ "q" :: post) d) =
    Ok (set_sim d1 (Cpu.set_cpu_state (msim d1) NPC_QUIT)).
Proof.
  revert d. induction pre as [|str pre IH]; intros d; cbn [app sdb_lines].
  - intros E. injection E as <-. change (tested "q") with true.
    change (line fuel "q" d) with (run_q gettimeofday fuel d). unfold run_q.
    rewrite !result_bind, cpu_exec_halted by done. done.
  - intros (d2 & E2 & E)%result_bind_Ok. rewrite result_bind, E2. revert E.
    destruct (tested str && (cpu_state (msim d2) =? NPC_QUIT)) eqn:Eq; [|apply IH].
    intros E. injection E as <-. bool_to_prop. by rewrite set_quit by (by apply Z.eqb_eq).
Qed.

(** The words [x] prints. *)
Definition dump_line (m : bytes) (addr : Z) : string :=
  "0x" +:+ fmt_0x 8 addr +:+ " value is: 0x" +:+ fmt_0x 8 (load m (get_mem_addr addr) 4) +:+ nl.

Lemma dump_fits n m addr : fits addr (4 * Z.of_nat n) →
  dump n m addr = ((λ k, dump_line m (addr + 4 * Z.of_nat k)) <$> seq 0 n, Ok tt).
Proof.
  revert addr. induction n as [|n IH]; intros addr Hf; [done|]. cbn [dump].
  unfold fits, CONFIG_PC_RET, CONFIG_MSIZE in Hf.
  rewrite paddr_read_fits, io_bind_ret_l; [|decide_now|unfold fits, CONFIG_PC_RET, CONFIG_MSIZE; lia].
  assert (u64 (addr + 4) = addr + 4) as -> by (apply wrap_small; lia).
  rewrite IH by (unfold fits, CONFIG_PC_RET, CONFIG_MSIZE; lia).
  cbn [seq]. rewrite fmap_cons, <- fmap_S_seq, <- list_fmap_compose. unfold mbind, io_bind; simpl.
  f_equal. f_equal; [by rewrite Z.add_0_r|].
  apply list_fmap_ext. intros i k _. unfold compose. f_equal. lia.
Qed.
End commands.

(** ** Properties *)

Section sdb_props.
Context {T R : Type} `{!Dut T} `{!RefSim R}.
Variable gettimeofday : nat → Z * Z.
Implicit Types d : sdb T R.

(** [w EXPR] takes the first free node, evaluates the text and lists the
    watchpoint in front of the others with the value found, leaving the
    simulation and the other watchpoints as they were. *)
Theorem w_sets_watchpoint fuel d hs i fs e out v b st :
  watching d hs (i :: fs) → e ≠ "" → sdb_expr d e = (out, Ok (v, b, st)) →
  ∃ d', sdb_line gettimeofday fuel (type_cmd "w" e) d =
          (["Set watchpoint " +:+ fmt_d (Z.of_nat i) +:+ nl] ++ out ++
           ["Watchpoint " +:+ fmt_d (Z.of_nat i) +:+ " has created,expression is " +:+ e +:+ nl],
           Ok d') ∧
    watching d' (i :: hs) fs ∧ msim d' = msim d ∧ sts d' = st ∧
    ∃ w, wp_pool (wps d') !! i = Some w ∧ string_ w = Some e ∧ value w = v.
Proof.
  intros [H Ht] He Hx. destruct (new_wp_ok _ _ _ _ H) as (p & E & Hp).
  destruct (holds_lookup _ _ _ i Hp) as [w Hw]; [by left|].
  destruct (watching_new _ _ _ _ _ w e v H Ht ltac:(by rewrite E) Hw)
    as (fs' & Hfs & Hq & Hqt & Hi & Hno). injection Hfs as <-.
  exists (Sdb (msim d) (Pool (<[i := set_watch w e v]> (wp_pool p)) (head p) (free_ p)) st).
  split; [|split; [by split|split; [done|split; [done|by eexists]]]].
  rewrite (sdb_line_cmd _ _ "w" ("w", "   w EXPR: Set watchpoint", cmd_w)) by done.
  cbn [run_handler snd]. unfold run_w. rewrite token_rest, E by done.
  unfold mbind at 1, io_bind at 1. cbn [snd]. cbv beta iota zeta.
  rewrite (deref_Some _ _ _ Hw), io_bind_ret_l, Hx, Hno. done.
Qed.

(** C36. [p EXPR] on a well-formed expression of at most 32 tokens, over the
    registers, the [pc] and the memory of the simulation: a single number or
    register, or what starts with a parenthesis, is printed with the value of
    the expression as the evaluator reads it, all hexadecimal numbers as the last
    one and all registers as the last one (with at most one of each, the value of
    the expression itself, [ExprGram.expr_correct]), as long as that is defined;
    the value stands behind the trace of the lexer as an unsigned 32-bit number,
    and neither the simulation nor the watchpoints are touched.  On any other
    expression the shell stops at a read in front of the array of tokens. *)
Theorem p_prints_value fuel d e gaps :
  let s := msim d in
  let line := sdb_line gettimeofday fuel (type_cmd "p" (lay gaps (toks e))) d in
  shell_ok d → wf 1 e = true →
  (registers e ≠ [] → length (gpr_view s) = 33%nat) → (length (toks e) <= NR_TOKEN)%nat →
  (∀ v, inside e = true → zeval (gpr_view s) (wb_pc_now s) (pmem (hst s)) (as_read e) = Some v →
     ∃ out st, line = (out ++ ["Expression: " +:+ lay gaps (toks e) +:+ " = " +:+ fmt_d (u32 v) +:+ nl],
                       Ok (Sdb s (wps d) st))) ∧
  (inside e = false → result line = Fault OutOfBounds).
Proof.
  cbv zeta. intros Hok Hw H33 Hn.
  rewrite (sdb_line_cmd _ _ "p" ("p", "   p EXPR: Calculate the expresion", cmd_p))
    by (done || by eapply lay_toks_nonempty).
  cbn [run_handler snd]. unfold run_p. rewrite token_rest by by eapply lay_toks_nonempty. split.
  - intros v Hi Hz. destruct (expr_value _ _ _ (sts d) e gaps v Hw Hi Hz H33 Hn (shell_strs _ Hok)) as [st Hx].
    exists (sdb_expr d (lay gaps (toks e))).1, st.
    unfold sdb_expr in *. destruct (expr _ _ _ _ _) as [o r]. simpl in Hx. subst r. done.
  - intros Hi. unfold sdb_expr. by rewrite result_bind, expr_outside by (done || apply shell_strs, Hok).
Qed.

(** [x N ADDR] prints the [N] consecutive words from [ADDR] on, as long as
    they lie in memory, and changes nothing. *)
Theorem x_dumps_memory fuel d n addr :
  Z.of_nat n <= INT_MAX → fits addr (4 * Z.of_nat n) →
  sdb_line gettimeofday fuel
    (type_cmd "x" (type_cmd (fmt_u (Z.of_nat n)) ("0x" +:+ fmt_0x 8 addr))) d =
  ((λ k, dump_line (pmem (hst (msim d))) (addr + 4 * Z.of_nat k)) <$> seq 0 n, Ok d).
Proof.
  intros Hn Hf. destruct (fmt_u_word (Z.of_nat n)) as [Hb Hne]; [lia|].
  assert (0 <= addr < 2 ^ 63) as Ha by (unfold fits, CONFIG_PC_RET, CONFIG_MSIZE in Hf; lia).
  destruct (fmt_0x_word 8 addr) as [Hb' Hne']; [lia|].
  rewrite (sdb_line_cmd _ _ "x" ("x", "   x [N] [ADDR]: Print N word in the begin of memory[ADDR] ", cmd_x));
    [|done..|unfold type_cmd; by destruct (fmt_u _)].
  cbn [run_handler snd]. unfold run_x, type_cmd at 1. rewrite strtok_word by done.
  unfold token. rewrite strtok_last by done. cbn [fmap option_fmap option_map fst].
  rewrite atoi_fmt_u, Nat2Z.id by lia. unfold strtol. rewrite strto_fmt_0x by lia. cbn [fst].
  rewrite Z.min_r, Z.max_r by lia. unfold u64. rewrite wrap_small by lia.
  rewrite dump_fits by done. unfold mbind, io_bind; simpl. by rewrite app_nil_r.
Qed.

(** Stepping [n] and then [m] instructions leaves the shell as stepping
    [n + m] at once does, also when the program ends or the comparison fails
    on the way. *)
Theorem si_additive fuel n m d :
  0 <= n → 0 <= m → n + m <= INT_MAX → n + m <= Z.of_nat fuel →
  result (sdb_lines gettimeofday fuel
            [type_cmd "si" (fmt_u n); type_cmd "si" (fmt_u m)] d) =
  result (sdb_lines gettimeofday fuel [type_cmd "si" (fmt_u (n + m))] d).
Proof.
  intros Hn Hm Hi Hf. cbn [sdb_lines]. rewrite !tested_cmd by done. rewrite !line_si by lia.
  rewrite !io_bind_assoc, !result_bind, cpu_exec_add, result_bind by done.
  destruct (result (cpu_exec gettimeofday fuel n (msim d))) as [s1|]; [|done].
  rewrite !io_bind_ret_l, !andb_true_l. cbn [msim set_sim].
  destruct (cpu_state s1 =? NPC_QUIT) eqn:Eq.
  - rewrite cpu_exec_halted by (unfold halted; rewrite Eq; by rewrite orb_true_r).
    rewrite io_bind_ret_l. cbn [msim set_sim]. by rewrite Eq.
  - rewrite line_si, io_bind_assoc, result_bind by lia. by destruct (result _).
Qed.

(** [q] ends the session: whatever was typed before and whatever is typed
    behind it, the shell stops in the quit state with everything else as the
    commands before left it, and the program exits with status 0. *)
Theorem q_ends_session fuel pre post s d1 :
  result (sdb_lines gettimeofday fuel pre (init_sdb s : sdb T R)) = Ok d1 →
  result (sdb_lines gettimeofday fuel (pre ++ "q" :: post) (init_sdb s)) =
    Ok (set_sim d1 (Cpu.set_cpu_state (msim d1) NPC_QUIT)) ∧
  result (main gettimeofday fuel false (pre ++ "q" :: post) s) = Ok 0.
Proof.
  intros E%(sdb_lines_quit _ _ _ post). split; [done|].
  unfold main, sdb_mainloop. by rewrite result_bind, E.
Qed.
End sdb_props.

(** ** Witnesses *)

Definition toy_shell : sdb Toy.core (list Z) := init_sdb (Toy.start 1 0 0 false).

Lemma w_sets_watchpoint_witness :
  ∃ d' w, result (sdb_line Toy.no_clock 5 "w (1 + 2)" toy_shell) = Ok d' ∧
    watching d' [0%nat] (seq 1 31) ∧ wp_pool (wps d') !! 0%nat = Some w ∧
    string_ w = Some "(1 + 2)" ∧ value w = 3.
Proof.
  assert (sdb_expr toy_shell "(1 + 2)" = (_, Ok (_, _, _))) as E by (vm_compute; reflexivity).
  destruct (w_sets_watchpoint Toy.no_clock 5 toy_shell [] 0 (seq 1 31) "(1 + 2)" _ _ _ _
    ltac:(split; [apply holds_init|intros ? ? Hi; by apply elem_of_nil in Hi]) ltac:(discriminate) E)
    as (d' & Hl & Hw & _ & _ & w & Hp & Hs & Hv).
  exists d', w. split; [|split; [exact Hw|split; [exact Hp|split; [exact Hs|exact Hv]]]].
  exact (f_equal snd Hl).
Defined.

Lemma p_prints_value_witness :
  (∃ out st, sdb_line Toy.no_clock 5 "p ($a0+7 - 0x2*3)" toy_shell =
    (out ++ ["Expression: ($a0+7 - 0x2*3) = 1" +:+ nl], Ok (Sdb (msim toy_shell) (wps toy_shell) st))) ∧
  result (sdb_line Toy.no_clock 5 "p $a0+7" toy_shell) = Fault OutOfBounds.
Proof.
  split.
  - exact (proj1 (p_prints_value Toy.no_clock 5 toy_shell
      (Paren (Bin BSub (Bin BAdd (Reg "a0") (Num 7)) (Bin BMul (Hex 0 2) (Num 3)))) [0; 0; 0; 0; 1; 1]%nat
      (init_shell_ok _) eq_refl (λ _, eq_refl) ltac:(vm_compute; lia)) 1 eq_refl eq_refl).
  - exact (proj2 (p_prints_value Toy.no_clock 5 toy_shell (Bin BAdd (Reg "a0") (Num 7)) []
      (init_shell_ok _) eq_refl (λ _, eq_refl) ltac:(vm_compute; lia)) eq_refl).
Defined.

Lemma x_dumps_memory_witness :
  sdb_line Toy.no_clock 5 "x 2 0x80000000" toy_shell =
  (["0x80000000 value is: 0x00000000" +:+ nl; "0x80000004 value is: 0x00000000" +:+ nl], Ok toy_shell).
Proof.
  exact (x_dumps_memory Toy.no_clock 5 toy_shell 2 0x80000000 ltac:(vm_compute; discriminate)
    ltac:(split; vm_compute; discriminate)).
Defined.

Lemma si_additive_witness :
  result (sdb_lines Toy.no_clock 5 ["si 1"; "si 2"] toy_shell) =
  result (sdb_lines Toy.no_clock 5 ["si 3"] toy_shell) ∧
  ∃ d, result (sdb_lines Toy.no_clock 5 ["si 3"] toy_shell) = Ok d ∧ wb_num (msim d) = 4.
Proof.
  split.
  - apply (si_additive Toy.no_clock 5 1 2 toy_shell); vm_compute; discriminate.
  - eexists. split; vm_compute; reflexivity.
Defined.

Lemma q_ends_session_witness :
  result (main Toy.no_clock 5 false ["si 1"; "q"; "si 2"] (Toy.start 7 0 0 false)) = Ok 0.
Proof.
  eapply (q_ends_session Toy.no_clock 5 ["si 1"] ["si 2"] (Toy.start 7 0 0 false)).
  vm_compute. reflexivity.
Defined.
