(* ===== verification/Watchlist.v ===== *)
(** * What a session of the shell does to the watchpoints
    An abstract list of watchpoints, the latest first, next to a list of free
    numbers, with the effect of each line typed on them, and the proof that the
    linked nodes of [Watch] hold exactly that list after any session of
    [Sdb.sdb_lines]. *)
From Stdlib Require Import Ascii.
From stdpp Require Import base numbers list option strings gmap.
From S2P Require Import Prelude CText PMem Watch Expr Cpu Sdb.

Local Open Scope Z_scope.

(** ** The abstract list *)

(** A watchpoint: its number, its text, and the value the text had when it was
    set. *)
Definition watch : Type := nat * string * Z.
Definition number (u : watch) : nat := u.1.1.

Record watches := Watches { used : list watch; unused : list nat }.
Definition watches_init : watches := Watches [] (seq 0 NR_WP).

(** The command of a line and the text behind the command word. *)
Definition command (str : string) : option (handler * string) :=
  '(cmd, rest) ← strtok blank str;
  c ← find_cmd cmd cmd_table;
  Some (c.2, rest).

(** [w] gives the value [v] the next free number and puts it in front; [d] takes
    the watchpoint of that number out and gives the number back in place of the
    next free one, which is lost. *)
Definition add_watch (e : string) (v : Z) (W : watches) : watches :=
  match unused W with i :: fs => Watches ((i, e, v) :: used W) fs | [] => W end.
Definition delete_watch (n : Z) (W : watches) : watches :=
  match List.find (λ u, Z.of_nat (number u) =? n) (used W) with
  | Some u => Watches (filter (λ u', number u' ≠ number u) (used W)) (number u :: tail (unused W))
  | None => W
  end.

Section watchlist.
Context {T R : Type} `{!Dut T} `{!RefSim R}.
Variables (gettimeofday : nat → Z * Z) (fuel : nat).
Implicit Types (d : sdb T R) (W : watches).

(** A line typed at [d]; only [w] and [d] with an argument have an effect. *)
Definition watch_line (str : string) d W : watches :=
  match command str with
  | Some (cmd_w, rest) =>
      match token no_delim rest with
      | Some e => match result (sdb_expr d e) with Ok (v, _, _) => add_watch e v W | Fault _ => W end
      | None => W
      end
  | Some (cmd_d, rest) =>
      match token no_delim rest with Some t => delete_watch (atoi t) W | None => W end
  | _ => W
  end.

(** A session: the shell runs along, as expressions are evaluated in it. *)
Fixpoint watch_lines (lines : list string) d W : watches :=
  match lines with
  | [] => W
  | str :: lines =>
      match result (sdb_line gettimeofday fuel str d) with
      | Ok d1 =>
          let W := watch_line str d W in
          if tested str && (cpu_state (msim d1) =? NPC_QUIT) then W else watch_lines lines d1 W
      | Fault _ => W
      end
  end.

(** ** The nodes hold the list *)

Definition entry (ns : list WP) (u : watch) : Prop :=
  ∃ w, ns !! number u = Some w ∧ string_ w = Some u.1.2 ∧ value w = u.2.
Definition shows d W : Prop :=
  holds (wps d) (number <$> used W) (unused W) ∧ Forall (entry (wp_pool (wps d))) (used W).

Lemma shows_init s : shows (init_sdb s : sdb T R) watches_init.
Proof. split; [apply holds_init|constructor]. Qed.

Lemma entry_same ns ns' u :
  same_payload ns ns' → is_Some (ns' !! number u) → entry ns u → entry ns' u.
Proof.
  intros Hs [w' Hw'] (w & Hw & Ht & Hv). destruct (Hs _ _ Hw') as (w0 & Hw0 & Et & Ev). simplify_eq.
  exists w'. split; [done|]. by rewrite Et, Ev.
Qed.

(** Operations of the pool keep the entries that are still in use. *)
Lemma entries_same p p' us hs fs :
  same_payload (wp_pool p) (wp_pool p') → holds p' hs fs → (∀ u, u ∈ us → number u ∈ hs) →
  Forall (entry (wp_pool p)) us → Forall (entry (wp_pool p')) us.
Proof.
  intros Hs H Hin. rewrite !Forall_forall. intros He u Hu. eapply entry_same; [done| |by apply He].
  destruct (holds_lookup _ _ _ (number u) H) as [w Hw]; [|by eexists].
  apply elem_of_app. left. by apply Hin.
Qed.

Lemma find_no_chain fuel' (ns : list WP) a ptr hs :
  (∀ i w, ns !! i = Some w → NO w = Z.of_nat i) → chain ns ptr hs → (length hs <= fuel')%nat →
  result (find_no fuel' ns a ptr) = Ok (List.find (λ i, Z.of_nat i =? a) hs).
Proof.
  intros Hno Hc. revert fuel'. induction Hc as [|i w l Hi Hc IH]; intros f Hf; [by destruct f|].
  destruct f as [|f]; [cbn in Hf; lia|]. cbn [find_no List.find].
  rewrite (deref_Some _ _ _ Hi), io_bind_ret_l, (Hno _ _ Hi). destruct (_ =? a); [done|]. apply IH. cbn in Hf. lia.
Qed.

Lemma find_number a us :
  List.find (λ i, Z.of_nat i =? a) (number <$> us) = number <$> List.find (λ u, Z.of_nat (number u) =? a) us.
Proof. induction us as [|u us IH]; [done|]. cbn. by destruct (_ =? a). Qed.

Lemma filter_keep (us : list watch) i :
  i ∉ (number <$> us) → filter (λ u, number u ≠ i) us = us.
Proof.
  induction us as [|u us IH]; [done|]. rewrite fmap_cons, not_elem_of_cons. intros [Hne Hi].
  rewrite filter_cons_True by congruence. by rewrite IH.
Qed.

Lemma filter_number (us : list watch) i hs1 hs2 :
  number <$> us = hs1 ++ i :: hs2 → NoDup (hs1 ++ i :: hs2) →
  number <$> filter (λ u, number u ≠ i) us = hs1 ++ hs2.
Proof.
  intros (us1 & us2 & -> & E1 & ->)%fmap_app_inv Hnd. destruct us2 as [|u us2]; [done|].
  cbn [fmap list_fmap] in E1. injection E1 as -> ->.
  apply NoDup_app in Hnd as (_ & N1 & [N2 _]%NoDup_cons).
  rewrite filter_app, filter_cons_False, fmap_app by auto.
  rewrite !filter_keep; [done|done|]. intros Hx. apply (N1 _ Hx). by left.
Qed.

Lemma run_w_shows rest d d' W :
  shows d W → result (run_w rest d) = Ok d' →
  shows d' (match token no_delim rest with
            | Some e => match result (sdb_expr d e) with Ok (v, _, _) => add_watch e v W | Fault _ => W end
            | None => W
            end).
Proof.
  intros [H He]. unfold run_w. destruct (token no_delim rest) as [e|]; [|by intros; simplify_eq/=].
  intros ([i p] & E & Hr)%result_bind_Ok. cbv beta iota in Hr.
  apply result_bind_Ok in Hr as ([? w] & [[= <-] Hw]%deref_inv & Hr). cbv beta iota in Hr.
  apply result_bind_Ok in Hr as ([[v b] st] & Hx & Hr). cbv beta iota in Hr.
  apply result_bind_Ok in Hr as (_ & _ & Hr). injection Hr as <-. rewrite Hx.
  pose proof (new_wp_payload _ _ _ E) as Hs. unfold add_watch. destruct (unused W) as [|f fs].
  { by rewrite (new_wp_exhausted _ _ H) in E. }
  destruct (new_wp_ok _ _ _ _ H) as (p' & E' & H'). rewrite E' in E. injection E as <- <-.
  pose proof (holds_nodup _ _ _ H') as Hnd. split; cbn [wps used unused wp_pool head free_].
  - rewrite fmap_cons. by eapply holds_payload.
  - constructor.
    + exists (set_watch w e v). split; [|done]. apply list_lookup_insert_eq. by eapply lookup_lt_Some.
    + assert (Forall (entry (wp_pool p')) (used W)) as He'.
      { eapply entries_same; [done..| |done]. intros u Hu. right. by apply list_elem_of_fmap_2. }
      rewrite Forall_forall in *. intros u Hu. destruct (He' u Hu) as (w1 & Hw1 & ?). exists w1. split; [|done].
      rewrite list_lookup_insert_ne; [done|]. intros ->. cbn in Hnd. apply NoDup_cons in Hnd as [Hnd _].
      apply Hnd, elem_of_app. left. by apply list_elem_of_fmap_2.
Qed.

Lemma run_d_shows rest d d' W :
  shows d W → result (run_d rest d) = Ok d' →
  shows d' (match token no_delim rest with Some t => delete_watch (atoi t) W | None => W end).
Proof.
  intros [H He]. unfold run_d. destruct (token no_delim rest) as [t|]; [|done]. cbn [atoi_ptr].
  rewrite io_bind_ret_l. intros (o & Eo & Hr)%result_bind_Ok.
  rewrite (find_no_chain _ _ _ _ _ (holds_no _ _ _ H) (holds_head _ _ _ H) (holds_short _ _ _ H)), find_number in Eo.
  injection Eo as <-. unfold delete_watch. destruct (List.find _ (used W)) as [u|] eqn:Ef; cbn [fmap option_fmap option_map] in Hr;
    [|by injection Hr as <-].
  apply List.find_some in Ef as [Hin _]. apply list_elem_of_In in Hin.
  apply result_bind_Ok in Hr as (p & Hp & [= <-]). pose proof (free_wp_payload _ _ _ Hp) as Hs.
  assert (number u ∈ number <$> used W) as Hi by by apply list_elem_of_fmap_2.
  destruct (unused W) as [|f fs]; [by rewrite (free_wp_null _ _ _ H Hi) in Hp|].
  destruct (free_wp_ok _ _ _ _ _ H Hi) as (p' & hs1 & hs2 & E & Ep & H' & _). rewrite Ep in Hp. injection Hp as <-.
  pose proof (holds_nodup _ _ _ H) as Hnd. apply NoDup_app in Hnd as [Hnd _].
  assert (number <$> filter (λ u', number u' ≠ number u) (used W) = hs1 ++ hs2) as En
    by (apply filter_number; [done|by rewrite <- E]).
  split; cbn [wps used unused tail]; [by rewrite En|].
  eapply entries_same; [done..| |].
  - intros x Hx. rewrite <- En. by apply list_elem_of_fmap_2.
  - rewrite Forall_forall in *. intros x [_ Hx]%list_elem_of_filter. by apply He.
Qed.

(** The other commands leave the pool alone. *)
Lemma handler_keeps_pool h args rest d :
  h ≠ cmd_w → h ≠ cmd_d → ensures (run_handler gettimeofday fuel h args rest d) (λ d', wps d' = wps d).
Proof.
  intros Hw Hd. destruct h; try done; cbn [run_handler].
  - unfold run_help. apply ensures_bind, ensures_any. intros _. by apply ensures_ret.
  - unfold run_c. apply ensures_bind, ensures_any. intros s. by apply ensures_ret.
  - unfold run_q. apply ensures_bind, ensures_any. intros s. by apply ensures_ret.
  - unfold run_si. do 2 (apply ensures_bind, ensures_any; intros ?). by apply ensures_ret.
  - unfold run_info. case_match; [|apply ensures_fail]. apply ensures_bind, ensures_any. intros _. by apply ensures_ret.
  - unfold run_x. repeat case_match; apply ensures_bind, ensures_any; intros _; by apply ensures_ret.
  - unfold run_p. case_match; apply ensures_bind, ensures_any; [intros [[v b] st]|intros _; by apply ensures_ret].
    apply ensures_bind, ensures_any. intros _. by apply ensures_ret.
Qed.

Lemma line_shows str d d' W :
  shows d W → result (sdb_line gettimeofday fuel str d) = Ok d' → shows d' (watch_line str d W).
Proof.
  intros H. unfold sdb_line, watch_line, command.
  destruct (strtok blank str) as [[cmd rest]|]; [|by intros [= <-]]. cbn [mbind option_bind].
  destruct (find_cmd cmd cmd_table) as [[nd h]|]; cbn [mbind option_bind snd];
    [|by intros (_ & _ & [= <-])%result_bind_Ok].
  destruct (decide (h = cmd_w)) as [->|Hw]; [by apply run_w_shows|].
  destruct (decide (h = cmd_d)) as [->|Hd]; [by apply run_d_shows|].
  intros E%(handler_keeps_pool h _ _ d Hw Hd). unfold shows in *. rewrite E. by destruct h.
Qed.

Lemma lines_show lines d d' W :
  shows d W → result (sdb_lines gettimeofday fuel lines d) = Ok d' → shows d' (watch_lines lines d W).
Proof.
  revert d W. induction lines as [|str lines IH]; intros d W H; cbn [sdb_lines watch_lines]; [by intros [= <-]|].
  intros (d1 & E1 & E)%result_bind_Ok. rewrite E1. cbv zeta. pose proof (line_shows _ _ _ _ H E1) as H1.
  destruct (_ && _); [by injection E as <-|by apply IH].
Qed.

(** ** What [info w] prints *)

Definition print_watch (u : watch) : string :=
  "Watchpoint " +:+ fmt_d (Z.of_nat (number u)) +:+ " expression is " +:+ u.1.2 +:+ ", value is " +:+ fmt_u u.2 +:+ nl.

Lemma wp_lines_entries p us hs fs :
  holds p hs fs → Forall (entry (wp_pool p)) us → wp_lines (wp_pool p) (number <$> us) = print_watch <$> us.
Proof.
  intros H. induction 1 as [|u us (w & Hw & Ht & Hv) _ IH]; [done|]. rewrite !fmap_cons. cbn [wp_lines].
  rewrite Hw, IH. f_equal. unfold wp_line, print_watch. by rewrite (holds_no _ _ _ H _ _ Hw), Ht, Hv.
Qed.

(** C15. Whatever lines are typed from the start of the shell on, when the
    session returns, the watchpoints are those of the abstract list: each [w]
    with an expression has put in front of it the next free number, the text and
    the value the text had then, each [d] has taken out the watchpoint of its
    number, and no other line has changed it.  The linked nodes hold that list,
    in that order, and the free numbers; [info w] prints it, the latest first,
    with those texts and values, and changes nothing. *)
Theorem session_watchpoints lines s d' :
  result (sdb_lines gettimeofday fuel lines (init_sdb s : sdb T R)) = Ok d' →
  let W := watch_lines lines (init_sdb s) watches_init in
  holds (wps d') (number <$> used W) (unused W) ∧ Forall (entry (wp_pool (wps d'))) (used W) ∧
  sdb_line gettimeofday fuel "info w" d' =
    (match used W with [] => ["No watchpoint to print" +:+ nl] | us => print_watch <$> us end, Ok d').
Proof.
  intros E W. pose proof (lines_show _ _ _ _ (shows_init s) E) as [H He]. fold W in H, He. split_and!; [done..|].
  change (run_info "w" d' = (match used W with [] => ["No watchpoint to print" +:+ nl] | us => print_watch <$> us end,
    Ok d')).
  unfold run_info. change (token blank "w") with (Some "w"). cbv beta iota.
  change (is_char "r" "w") with false. change (is_char "w" "w") with true. cbv iota.
  pose proof (holds_head _ _ _ H) as Hh.
  rewrite (show_wps_chain _ _ _ _ Hh) by (by eapply holds_short). rewrite (wp_lines_entries _ _ _ _ H He).
  destruct (used W) as [|u us]; rewrite ?fmap_cons in Hh; inversion Hh; unfold mbind, io_bind; simpl;
    by rewrite ?app_nil_r.
Qed.
End watchlist.

(** Three are set, the second is deleted, and its number comes back. *)
Lemma session_watchpoints_witness :
  ∃ d', result (sdb_lines Toy.no_clock 5 ["w (1 + 2)"; "nonsense"; "w 7"; "w 8"; "d 1"; "d 9"; ""; "w $a0"] toy_shell)
      = Ok d' ∧
    sdb_line Toy.no_clock 5 "info w" d' =
      (["Watchpoint 1 expression is $a0, value is 0" +:+ nl; "Watchpoint 2 expression is 8, value is 8" +:+ nl;
        "Watchpoint 0 expression is (1 + 2), value is 3" +:+ nl], Ok d').
Proof.
  eexists. assert (result (sdb_lines Toy.no_clock 5
    ["w (1 + 2)"; "nonsense"; "w 7"; "w 8"; "d 1"; "d 9"; ""; "w $a0"] toy_shell) = Ok _) as E by (vm_compute; reflexivity).
  destruct (session_watchpoints Toy.no_clock 5 _ (Toy.start 1 0 0 false) _ E) as (_ & _ & Hi).
  split; [exact E|]. etrans; [exact Hi|]. vm_compute. reflexivity.
Defined.
