(* ===== verification/Session.v ===== *)
(** * What a session of the shell does to the simulation
    An abstract shell whose lines are three actions, stepping, continuing and
    quitting, and the proof that [Sdb.sdb_lines] refines it: printing, dumping
    memory and setting or deleting watchpoints leave no trace in the simulated
    system, and stepping in portions is stepping at once. *)
From Stdlib Require Import Ascii.
From stdpp Require Import base numbers list option strings gmap.
From S2P Require Import Prelude Bytes CText PMem Watch Expr ExprGram Cpu Sdb.

Local Open Scope Z_scope.

(** ** The abstract shell *)

Inductive action := Run (n : Z) | Quit.

(** What a typed line asks of the simulation. *)
Definition action_of (str : string) : option action :=
  '(cmd, rest) ← strtok blank str;
  c ← find_cmd cmd cmd_table;
  match c.2 with
  | cmd_c => Some (Run (-1))
  | cmd_q => Some Quit
  | cmd_si => match rest with
              | EmptyString => Some (Run 1)
              | _ => (λ arg, Run (atoi arg)) <$> token blank rest
              end
  | _ => None
  end.

Section session.
Context {T R : Type} `{!Dut T} `{!RefSim R}.
Variables (gettimeofday : nat → Z * Z) (fuel : nat).
Implicit Types (s : sim T R) (d : sdb T R).

Definition act (a : action) s : io (sim T R) :=
  match a with
  | Run n => cpu_exec gettimeofday fuel n s
  | Quit => mret (Cpu.set_cpu_state s NPC_QUIT)
  end.

Fixpoint session (acts : list action) s : io (sim T R) :=
  match acts with
  | [] => mret s
  | a :: acts =>
      s ← act a s;
      if cpu_state s =? NPC_QUIT then mret s else session acts s
  end.

(** ** One line *)

Lemma set_sim_Ok {m : io (sim T R)} {d d'} :
  result (s ← m; mret (set_sim d s)) = Ok d' → result m = Ok (msim d').
Proof. by intros (s & -> & [= <-])%result_bind_Ok. Qed.

Lemma quit_effect s : result (cpu_exec gettimeofday fuel 1 (Cpu.set_cpu_state s NPC_QUIT))
  = Ok (Cpu.set_cpu_state s NPC_QUIT).
Proof. by apply cpu_exec_halted. Qed.

(** The handlers that do not run the simulation keep it. *)
Definition runs_sim (h : handler) : bool := match h with cmd_c | cmd_q | cmd_si => true | _ => false end.

Lemma handler_keeps h args rest d :
  runs_sim h = false → ensures (run_handler gettimeofday fuel h args rest d) (λ d', msim d' = msim d).
Proof.
  intros Hh. destruct h; try done; cbn [run_handler].
  - unfold run_help. apply ensures_bind, ensures_any. intros _. by apply ensures_ret.
  - unfold run_info. case_match; [|apply ensures_fail]. apply ensures_bind, ensures_any. intros _. by apply ensures_ret.
  - unfold run_x. repeat case_match; apply ensures_bind, ensures_any; intros _; by apply ensures_ret.
  - unfold run_p. case_match; apply ensures_bind, ensures_any; [intros [[v b] st]|intros _; by apply ensures_ret].
    apply ensures_bind, ensures_any. intros _. by apply ensures_ret.
  - unfold run_w. case_match; [|apply ensures_bind, ensures_any; intros _; by apply ensures_ret].
    apply ensures_bind, ensures_any. intros [i p]. apply ensures_bind, ensures_any. intros [j w].
    apply ensures_bind, ensures_any. intros [[v b] st]. apply ensures_bind, ensures_any. intros _. by apply ensures_ret.
  - unfold run_d. do 2 (apply ensures_bind, ensures_any; intros ?). case_match; [|by apply ensures_ret].
    apply ensures_bind, ensures_any. intros p. by apply ensures_ret.
Qed.

(** The effect of a line is that of its action. *)
Definition effect_of (o : option action) s s' : Prop :=
  match o with None => s' = s | Some a => result (act a s) = Ok s' end.

Lemma line_effect str d d' :
  result (sdb_line gettimeofday fuel str d) = Ok d' → effect_of (action_of str) (msim d) (msim d').
Proof.
  unfold sdb_line, action_of. destruct (strtok blank str) as [[cmd rest]|]; [|by intros [= <-]].
  cbn [mbind option_bind]. destruct (find_cmd cmd cmd_table) as [[nd h]|]; cbn [mbind option_bind snd];
    [|by intros (? & _ & [= <-])%result_bind_Ok].
  destruct (runs_sim h) eqn:Hh.
  - destruct h; try done; cbn [run_handler].
    + apply set_sim_Ok.
    + unfold run_q. rewrite result_bind, quit_effect. by intros [= <-].
    + unfold run_si. intros (n & En & E%set_sim_Ok)%result_bind_Ok. cbn [effect_of].
      destruct rest as [|c rest]; [by injection En as <-|].
      destruct (token blank _) as [arg|]; [|done]. by injection En as <-.
  - intros E%(handler_keeps h _ _ d Hh). by destruct h.
Qed.

Lemma action_tested str a : action_of str = Some a → tested str = true.
Proof. unfold action_of, tested. by destruct (strtok blank str). Qed.

(** ** A session *)

Lemma session_quit acts s : cpu_state s = NPC_QUIT → result (session acts s) = Ok s.
Proof.
  intros Hq. induction acts as [|a acts IH]; [done|]. cbn [session]. rewrite result_bind.
  assert (result (act a s) = Ok s) as ->.
  { destruct a; cbn [act]; [apply cpu_exec_halted; unfold halted; by rewrite Hq|].
    destruct s. cbn in Hq. by subst. }
  by rewrite Hq.
Qed.

Lemma lines_session lines d d' :
  result (sdb_lines gettimeofday fuel lines d) = Ok d' →
  result (session (omap action_of lines) (msim d)) = Ok (msim d').
Proof.
  revert d. induction lines as [|str lines IH]; intros d; cbn [sdb_lines omap list_omap]; [by intros [= <-]|].
  intros (d1 & E1 & E)%result_bind_Ok. apply line_effect in E1. destruct (action_of str) as [a|] eqn:Ea.
  - rewrite (action_tested _ _ Ea) in E. cbn [effect_of andb session] in *. rewrite result_bind, E1.
    destruct (cpu_state (msim d1) =? NPC_QUIT); [by injection E as <-|by apply IH].
  - cbn in E1. rewrite <- E1. destruct (tested str && (cpu_state (msim d1) =? NPC_QUIT)) eqn:Eq; [|by apply IH].
    injection E as <-. apply andb_true_iff in Eq as [_ Eq%Z.eqb_eq]. by apply session_quit.
Qed.

(** Portions of steps add up. *)
Lemma session_steps n ns s s' :
  0 <= n → Forall (λ k, 0 <= k) ns → n + foldr Z.add 0 ns <= INT_MAX → n + foldr Z.add 0 ns <= Z.of_nat fuel →
  result (session (Run <$> n :: ns) s) = Ok s' →
  result (cpu_exec gettimeofday fuel (n + foldr Z.add 0 ns) s) = Ok s'.
Proof.
  intros Hn Hns. revert n s Hn. induction Hns as [|m ns Hm Hns IH]; intros n s Hn Hi Hf; cbn [foldr fmap list_fmap] in *.
  { rewrite Z.add_0_r. cbn [session act]. intros (s1 & -> & E)%result_bind_Ok. by destruct (_ =? _). }
  assert (0 <= foldr Z.add 0 ns) as H0 by (clear -Hns; induction Hns; cbn; lia).
  cbn [session act]. intros (s1 & E1 & E)%result_bind_Ok.
  rewrite cpu_exec_add, result_bind, E1 by lia. destruct (cpu_state s1 =? NPC_QUIT) eqn:Eq.
  - injection E as <-. apply cpu_exec_halted. unfold halted. by rewrite Eq, orb_true_r.
  - by apply (IH m s1); [lia..|].
Qed.

(** C37. The shell refines the abstract one.  Whatever is typed, a session that
    returns leaves the simulation as the actions of its lines alone do: only
    [c], [si] and [q] touch it, and looking at registers, memory, expressions
    and watchpoints has no effect on it.  When all the actions are steps, the
    session is as good as one [si] of their sum, also when the program ends or
    the comparison fails on the way. *)
Theorem session_refines lines d d' :
  result (sdb_lines gettimeofday fuel lines d) = Ok d' →
  result (session (omap action_of lines) (msim d)) = Ok (msim d') ∧
  ∀ n ns, omap action_of lines = Run <$> n :: ns → Forall (λ k, 0 <= k) (n :: ns) →
    n + foldr Z.add 0 ns <= INT_MAX → n + foldr Z.add 0 ns <= Z.of_nat fuel →
    result (cpu_exec gettimeofday fuel (n + foldr Z.add 0 ns) (msim d)) = Ok (msim d').
Proof.
  intros E%lines_session. split; [done|]. intros n ns Ha [Hn Hns]%Forall_cons Hi Hf. rewrite Ha in E.
  by apply session_steps.
Qed.
End session.

Lemma session_refines_witness :
  ∃ d', result (sdb_lines Toy.no_clock 9 ["w (1+2)"; "si 2"; "x 1 0x80000000"; "si"; "info w"; "d 0"] toy_shell) = Ok d' ∧
    result (cpu_exec Toy.no_clock 9 3 (msim toy_shell)) = Ok (msim d') ∧ wb_num (msim d') = 4.
Proof.
  eexists. assert (result (sdb_lines Toy.no_clock 9 ["w (1+2)"; "si 2"; "x 1 0x80000000"; "si"; "info w"; "d 0"] toy_shell)
    = Ok _) as E by (vm_compute; reflexivity).
  destruct (session_refines Toy.no_clock 9 _ toy_shell _ E) as [_ H]. split; [exact E|]. split.
  - apply (H 2 [1]); [vm_compute; reflexivity|repeat constructor; lia|vm_compute; discriminate|vm_compute; discriminate].
  - vm_compute. reflexivity.
Defined.
