(* ===== verification/Init.v ===== *)
(** * Start of the simulator
    [init.cpp] (options, log file, image, difftest), [init_sim] of
    [sim_main.cpp] and the whole [main] of [npc_main.cpp], in the default build.
    [getopt_long] and the file system are parameters: the options are those it
    yields, in order. *)
From Stdlib Require Import Ascii.
From stdpp Require Import base numbers list option strings gmap.
From S2P Require Import Prelude Bytes CText PMem Watch Expr Cpu Disasm Elf Sdb.

Local Open Scope Z_scope.

(** What [getopt_long] returns, with [optarg]: [OOther] is any letter without a
    [case], among them [h], [p] and [?]. *)
Inductive opt :=
| OBatch
| OLog (optarg : string)
| ODiff (optarg : string)
| OFtrace (optarg : string)
| OImage (optarg : string)
| OOther.

(** The files by name, which of them can be opened for writing, the shared
    objects that can be loaded and their symbols, and LLVM. *)
Record system := System {
  file_at : string → option (list Z);
  writable : string → bool;
  loadable : string → bool;
  dlerror : string;
  dlsym : string → string → bool;
  stale_memory : nat → nat → Z;
  llvm_of : llvm
}.

(** The static variables the options set, and the table of functions. *)
Record args := Args {
  is_batch_mode : bool;
  log_file : option string;
  diff_so_file : option string;
  img_file : option string;
  func : list FN
}.
Definition args_init : args := Args false None None None func_zero.
Definition set_batch (a : args) : args := Args true (log_file a) (diff_so_file a) (img_file a) (func a).
Definition set_log (a : args) (f : string) : args :=
  Args (is_batch_mode a) (Some f) (diff_so_file a) (img_file a) (func a).
Definition set_diff (a : args) (f : string) : args :=
  Args (is_batch_mode a) (log_file a) (Some f) (img_file a) (func a).
Definition set_img (a : args) (f : string) : args :=
  Args (is_batch_mode a) (log_file a) (diff_so_file a) (Some f) (func a).
Definition set_func (a : args) (t : list FN) : args :=
  Args (is_batch_mode a) (log_file a) (diff_so_file a) (img_file a) t.

Definition usage (argv0 : string) : io unit :=
  emit ("Usage: " +:+ argv0 +:+ " [OPTION...] IMAGE [args]" +:+ nl +:+ nl);;
  emit (tab +:+ "-b,--batch              run with batch mode" +:+ nl);;
  emit (tab +:+ "-l,--log=FILE           output log to FILE" +:+ nl);;
  emit (tab +:+ "-d,--diff=REF_SO        run DiffTest with reference REF_SO" +:+ nl);;
  emit (tab +:+ "-p,--port=PORT          run DiffTest with port PORT" +:+ nl);;
  emit nl.

Section init.
Context {T R : Type} `{!Dut T} `{!RefSim R}.
Variable gettimeofday : nat → Z * Z.
Variable sys : system.
Implicit Types s : sim T R.

Fixpoint parse_args (argv0 : string) (opts : list opt) (a : args) : io args :=
  match opts with
  | [] => mret a
  | OBatch :: opts => parse_args argv0 opts (set_batch a)
  | OLog f :: opts => parse_args argv0 opts (set_log a f)
  | ODiff f :: opts => parse_args argv0 opts (set_diff a f)
  | OFtrace f :: opts =>
      t ← read_elf (stale_memory sys) (file_at sys f) (func a);
      parse_args argv0 opts (set_func a t)
  | OImage f :: _ => mret (set_img a f)
  | OOther :: _ => usage argv0;; fail (ExitCall 0)
  end.

(** A log file that cannot be opened leaves [log_fp] NULL. *)
Definition init_log (log_file : option string) : io unit :=
  match log_file with
  | Some f =>
      if writable sys f then emit ("Log is written to " +:+ f +:+ nl) else fail NullDeref
  | None => emit ("Log is written to stdout" +:+ nl)
  end.

Definition image_of (img_file : option string) : image :=
  match img_file with
  | None => NoImage
  | Some f => match file_at sys f with None => CannotOpen f | Some contents => ImageFile f contents end
  end.

Definition set_pmem s (m : bytes) : sim T R :=
  let h := hst s in
  set_top s (clk s) (rstn s) (Host m (clock h) (is_ebreak h) (gpr_ptr h)) (top s) (main_time s).

Definition init_args (argv0 : string) (opts : list opt) s : io (args * sim T R) :=
  a ← parse_args argv0 opts args_init;
  '(img_size, m) ← load_img (pmem (hst s)) (image_of (img_file a));
  let so := default EmptyString (diff_so_file a) in
  s ← init_difftest (diff_so_file a) (loadable sys so) (dlerror sys) (dlsym sys so) img_size (set_pmem s m);
  mret (a, s).

(** [init_sdb] starts the pool and the patterns ([Sdb.init_sdb]).  The default
    build does not trace instructions, so the disassembler is not kept. *)
Definition init_monitor (argv0 : string) (opts : list opt) s : io (args * sim T R) :=
  '(a, s) ← init_args argv0 opts s;
  init_log (log_file a);;
  init_disasm (llvm_of sys) "riscv64-pc-linux-gnu";;
  mret (a, s).

Definition init_sim (argv0 : string) (opts : list opt) s : io (args * sim T R) :=
  s ← reset gettimeofday 5 s;
  '(a, s) ← init_monitor argv0 opts s;
  emit ("initial ok!!!" +:+ nl);;
  mret (a, s).

(** [main], on the lines typed into the shell. *)
Definition program (fuel : nat) (argv0 : string) (opts : list opt) (lines : list string) s : io Z :=
  '(a, s) ← init_sim argv0 opts s;
  Sdb.main gettimeofday fuel (is_batch_mode a) lines s.
End init.

(** ** Options *)

(** What stops the scan: an image, or a letter without a [case]. *)
Definition stops (o : opt) : bool := match o with OImage _ | OOther => true | _ => false end.

(** What an option that does not stop the scan sets, [-f] apart. *)
Definition apply_opt (a : args) (o : opt) : args :=
  match o with
  | OBatch => set_batch a
  | OLog f => set_log a f
  | ODiff f => set_diff a f
  | OImage f => set_img a f
  | _ => a
  end.
Definition plain (o : opt) : bool := match o with OFtrace _ | OOther => false | _ => true end.

Section facts.
Context {T R : Type} `{!Dut T} `{!RefSim R}.
Variable gettimeofday : nat → Z * Z.
Variable sys : system.
Implicit Types s : sim T R.

Lemma parse_args_stop argv0 pre o post a :
  stops o = true → parse_args sys argv0 (pre ++ o :: post) a = parse_args sys argv0 (pre ++ [o]) a.
Proof.
  intros Ho. revert a. induction pre as [|x pre IH]; intros a; [by destruct o|].
  destruct x; cbn [app parse_args]; auto. apply io_bind_ext. auto.
Qed.

Lemma parse_args_plain argv0 opts a :
  Forall (λ o, plain o = true ∧ stops o = false) opts →
  parse_args sys argv0 opts a = mret (foldl apply_opt a opts).
Proof.
  intros H. revert a. induction H as [|o opts [Hp Hs] H IH]; intros a; [done|].
  destruct o; cbn [plain stops] in *; try done; apply IH.
Qed.

(** Scanning never makes up a reference. *)
Lemma parse_args_diff argv0 opts a a' :
  result (parse_args sys argv0 opts a) = Ok a' → (∀ f, ODiff f ∉ opts) → diff_so_file a' = diff_so_file a.
Proof.
  revert a. induction opts as [|o opts IH]; intros a; cbn [parse_args].
  { by intros [= <-]. }
  assert ((∀ f, ODiff f ∉ o :: opts) → ∀ f, ODiff f ∉ opts) as Ht by set_solver.
  destruct o; intros E Hn.
  - by rewrite (IH _ E) by auto.
  - by rewrite (IH _ E) by auto.
  - exfalso. apply (Hn optarg). by left.
  - apply result_bind_Ok in E as (t & _ & E). by rewrite (IH _ E) by auto.
  - by simplify_eq/=.
  - by rewrite result_bind in E.
Qed.

(** ** Properties *)

(** C9. Starting leaves core and reference in step.  When reset runs through and
    the core has handed over its registers, the options before the image name a
    log that can be written and a reference that can be loaded, the image is not
    empty and fits the memory, and LLVM knows the target, [init_sim] returns with exactly this
    state: the core as reset leaves it, the image at the start of the memory,
    and the reference given the image at the reset address and the registers of
    the core; nothing behind the image on the command line matters. *)
Theorem init_sim_boots argv0 opts name rest contents so s s1 :
  result (reset gettimeofday 5 s) = Ok s1 → gpr_ptr (hst s1) = true →
  Forall (λ o, plain o = true ∧ stops o = false) opts →
  let a := foldl apply_opt args_init (opts ++ [OImage name]) in
  file_at sys name = Some contents → (0 < length contents)%nat → Z.of_nat (length contents) <= CONFIG_MSIZE →
  diff_so_file a = Some so → loadable sys so = true →
  Forall (λ f, dlsym sys so f = true) ["difftest_memcpy"; "difftest_regcpy"; "difftest_exec"; "difftest_raise_intr"] →
  (∀ f, log_file a = Some f → writable sys f = true) →
  (∃ isa, lookupTarget (llvm_of sys) "riscv64-pc-linux-gnu" = inr isa) →
  let r := ref_put_regs (ref_memcpy (ref s1) CONFIG_PC_RET contents) (dut_gpr (top s1)) in
  result (init_sim gettimeofday sys argv0 (opts ++ OImage name :: rest) s) =
    Ok (a, set_ref (set_pmem s1 (store_bytes (pmem (hst s1)) 0 contents)) r (is_skip_ref s1)).
Proof.
  intros Hreset Hgpr Hopts a Hfile Hne Hfit Hso Hload Hsym Hlog [isa Hllvm] r.
  assert (parse_args sys argv0 (opts ++ OImage name :: rest) args_init = mret a) as Hparse.
  { rewrite parse_args_stop by done. unfold a. rewrite foldl_app. cbn [foldl apply_opt].
    clear -Hopts. generalize args_init. induction Hopts as [|o opts [Hp Hs] H IH]; intros a0; [done|].
    destruct o; cbn [plain stops] in *; try done; apply IH. }
  assert (img_file a = Some name) as Himg by (unfold a; by rewrite foldl_app).
  assert (init_difftest (Some so) (loadable sys so) (dlerror sys) (dlsym sys so) (Z.of_nat (length contents))
            (set_pmem s1 (store_bytes (pmem (hst s1)) 0 contents)) =
          (["Difftesd file is " +:+ so +:+ nl],
           Ok (set_ref (set_pmem s1 (store_bytes (pmem (hst s1)) 0 contents)) r (is_skip_ref s1)))) as Hdiff.
  { unfold init_difftest. rewrite Hload. rewrite !Forall_cons in Hsym. destruct Hsym as (-> & -> & -> & -> & _).
    cbn [andb]. rewrite Nat2Z.id. unfold in_pmem at 1. replace (0 <=? 0) with true by done.
    rewrite (proj2 (Z.leb_le _ _)) by lia. cbn [andb]. cbv zeta. cbn [set_pmem set_top hst pmem].
    rewrite load_store_bytes. unfold cpu_gpr. cbn [set_pmem set_top hst gpr_ptr]. rewrite Hgpr. done. }
  assert (load_img (pmem (hst s1)) (ImageFile name contents) =
          (["The image is " +:+ name +:+ ", size = " +:+ fmt_d (Z.of_nat (length contents)) +:+ nl],
           Ok (Z.of_nat (length contents), store_bytes (pmem (hst s1)) 0 contents))) as Himage.
  { unfold load_img. rewrite (proj2 (Z.eqb_neq _ _)) by lia. unfold in_pmem. replace (0 <=? 0) with true by done.
    by rewrite (proj2 (Z.leb_le _ _)) by lia. }
  assert (result (init_args sys argv0 (opts ++ OImage name :: rest) s1) =
    Ok (a, set_ref (set_pmem s1 (store_bytes (pmem (hst s1)) 0 contents)) r (is_skip_ref s1))) as Hargs.
  { unfold init_args. rewrite Hparse, io_bind_ret_l. unfold image_of. rewrite Himg, Hfile, result_bind, Himage.
    cbn [result snd]. rewrite Hso. cbn [default from_option]. unfold id. cbv zeta.
    rewrite result_bind, Hdiff. done. }
  unfold init_sim, init_monitor. rewrite result_bind, Hreset, result_bind, result_bind, Hargs.
  rewrite result_bind. unfold init_log, init_disasm. rewrite Hllvm.
  destruct (log_file a) as [lf|] eqn:El; [|done]. by rewrite (Hlog lf).
Qed.

(** A reference is required.  Without [-d] before the image no start of the
    default build succeeds: it stops at an assertion if nothing stopped it
    before, although the usage text calls the option optional. *)
Theorem init_needs_reference argv0 opts s x :
  (∀ f, ODiff f ∉ opts) → result (init_sim gettimeofday sys argv0 opts s) ≠ Ok x.
Proof.
  intros Hn H. unfold init_sim in H. apply result_bind_Ok in H as (s1 & _ & H).
  apply result_bind_Ok in H as ([a s2] & H & _). unfold init_monitor in H.
  apply result_bind_Ok in H as ([a' s3] & H & _). unfold init_args in H.
  apply result_bind_Ok in H as (a1 & Ha & H). apply result_bind_Ok in H as ([n m] & _ & H).
  rewrite (parse_args_diff _ _ _ _ Ha Hn) in H. cbv zeta in H. by rewrite result_bind in H.
Qed.

(** Whatever is not an option of the table ends the program with its usage. *)
Theorem usage_exits argv0 pre post a :
  Forall (λ o, plain o = true ∧ stops o = false) pre →
  result (parse_args sys argv0 (pre ++ OOther :: post) a) = Fault (ExitCall 0).
Proof.
  intros H. rewrite parse_args_stop by done. revert a.
  induction H as [|o opts [Hp Hs] H IH]; intros a; [done|].
  destruct o; cbn [plain stops] in *; try done; apply IH.
Qed.
End facts.

(** ** Witnesses *)

Module InitToy.
Definition toy : system :=
  System (λ f, if String.eqb f "prog.bin" then Some [0x13; 0; 0; 0] else None) (λ _, true)
    (λ so, String.eqb so "ref.so") "" (λ _ _, true) (λ _ _, 0) toy_llvm.
(** Before reset; [ebreak] stops the run at once. *)
Definition power_on : sim Toy.core (list Z) :=
  Sim (0, Outs 0 0 0 0 0 0) 0 0 (Host ∅ timer_init 1 true) [7] 0 NPC_RUNNING 0x80000000 0 0 false.
End InitToy.

Lemma init_sim_boots_witness :
  ∃ a s', result (init_sim Toy.no_clock InitToy.toy "npc" [OBatch; ODiff "ref.so"; OImage "prog.bin"; OOther]
                    InitToy.power_on) = Ok (a, s') ∧
    is_batch_mode a = true ∧ regs_agree s' = true ∧ main_time s' = 10.
Proof.
  destruct (result (reset Toy.no_clock 5 InitToy.power_on)) as [s1|] eqn:E; [|vm_compute in E; discriminate E].
  pose proof (init_sim_boots Toy.no_clock InitToy.toy "npc" [OBatch; ODiff "ref.so"] "prog.bin" [OOther]
    [0x13; 0; 0; 0] "ref.so" InitToy.power_on s1 E) as H.
  eexists _, _. split.
  - apply H.
    + vm_compute in E. injection E as <-. reflexivity.
    + repeat constructor.
    + reflexivity.
    + cbn. lia.
    + discriminate.
    + reflexivity.
    + reflexivity.
    + repeat constructor.
    + intros f Hf. discriminate Hf.
    + exists "riscv64". reflexivity.
  - vm_compute in E. injection E as <-. split; [reflexivity|]. split; reflexivity.
Defined.

Lemma init_needs_reference_witness :
  result (init_sim Toy.no_clock InitToy.toy "npc" [OBatch; OImage "prog.bin"] InitToy.power_on)
    ≠ Ok (args_init, InitToy.power_on).
Proof.
  apply (init_needs_reference Toy.no_clock InitToy.toy "npc" [OBatch; OImage "prog.bin"]). set_solver.
Defined.
