(* ===== verification/Builds.v ===== *)
(** * The instrumented programs
    [Variants] models the simulation loop of the builds with an observer or a
    monitor; here is the rest of the program around it: the shell of [sdb.cpp],
    [init_sim] and [main] of [npc_main.cpp].  The handlers that do not run the
    simulation are those of [Sdb], on the core of the instrumented state. *)
From Stdlib Require Import Ascii.
From stdpp Require Import base numbers list option strings gmap.
From S2P Require Import Prelude Bytes CText PMem Env Watch Expr DepObs Cpu Elf Variants Sdb Session Init.

Local Open Scope Z_scope.

Section builds.
Context {T R : Type} `{!Dut T} `{!RefSim R} `{!Instrumented T}.
Variables (gettimeofday : nat → Z * Z) (fuel : nat) (b : build) (sys : system).

Record isdb := ISdb { isim : inst T R; iwps : pool; ists : statics }.
Definition set_isim (d : isdb) (s : inst T R) : isdb := ISdb s (iwps d) (ists d).

(** The shell as the default build has it. *)
Definition view (d : isdb) : sdb T R := Sdb (core (isim d)) (iwps d) (ists d).
Definition put (d : isdb) (d' : sdb T R) : isdb := ISdb (set_core (isim d) (msim d')) (wps d') (sts d').

Definition run_handler (h : handler) (args : option string) (rest : string) (d : isdb) : io isdb :=
  match h with
  | cmd_c => s ← Variants.cpu_exec gettimeofday b fuel (-1) (isim d); mret (set_isim d s)
  | cmd_q =>
      s ← Variants.cpu_exec gettimeofday b fuel 1
            (set_core (isim d) (Cpu.set_cpu_state (core (isim d)) NPC_QUIT));
      mret (set_isim d s)
  | cmd_si =>
      n ← (match args with None => mret 1 | Some _ => atoi_ptr (token blank rest) end);
      s ← Variants.cpu_exec gettimeofday b fuel n (isim d);
      mret (set_isim d s)
  | _ => d' ← Sdb.run_handler gettimeofday fuel h args rest (view d); mret (put d d')
  end.

Definition sdb_line (str : string) (d : isdb) : io isdb :=
  match strtok blank str with
  | None => mret d
  | Some (cmd, rest) =>
      let args := match rest with EmptyString => None | _ => Some rest end in
      match find_cmd cmd cmd_table with
      | Some c => run_handler c.2 args rest d
      | None => emit (unknown cmd);; mret d
      end
  end.

Fixpoint sdb_lines (lines : list string) (d : isdb) : io isdb :=
  match lines with
  | [] => mret d
  | str :: lines =>
      d ← sdb_line str d;
      if tested str && (cpu_state (core (isim d)) =? NPC_QUIT) then mret d
      else sdb_lines lines d
  end.

Definition sdb_mainloop (is_batch_mode : bool) (lines : list string) (d : isdb) : io isdb :=
  if is_batch_mode then s ← Variants.cpu_exec gettimeofday b fuel (-1) (isim d); mret (set_isim d s)
  else sdb_lines lines d.

Definition init_sim (e : env) (argv0 : string) (opts : list opt) (s : inst T R) : io (args * inst T R) :=
  s ← init_clock gettimeofday b e s;
  '(a, c) ← init_monitor sys argv0 opts (core s);
  emit ("initial ok!!!" +:+ nl);;
  mret (a, set_core s c).

(** [main] up to the exit status, and to its end. *)
Definition session (e : env) (argv0 : string) (opts : list opt) (lines : list string) (s : inst T R) : io isdb :=
  '(a, s) ← init_sim e argv0 opts s;
  sdb_mainloop (is_batch_mode a) lines (ISdb s init_wp_pool statics_init).
Definition main (e : env) (fopens : bool) (argv0 : string) (opts : list opt) (lines : list string) (s : inst T R) :
    io (Z * option (list string)) :=
  d ← session e argv0 opts lines s;
  Variants.finish b fopens (isim d).
End builds.
Arguments isdb : clear implicits.
Arguments ISdb {T R} _ _ _.

(** ** Lemmas *)

Section erasure.
Context {T R : Type} `{!Dut T} `{!RefSim R} `{!Instrumented T}.
Variables (gettimeofday : nat → Z * Z) (fuel : nat) (b : build) (sys : system).
Implicit Types (d : isdb T R) (s : inst T R).

(** The instrumentation of a shell forgotten. *)
Definition plain_shell (m : io (isdb T R)) : io (sdb T R) := d ← m; mret (view d).

Lemma plain_bind {A} (m : io A) (f : A → io (isdb T R)) :
  plain_shell (m ≫= f) = m ≫= λ a, plain_shell (f a).
Proof. unfold plain_shell. by rewrite io_bind_assoc. Qed.
Lemma plain_ret d : plain_shell (mret d) = mret (view d).
Proof. done. Qed.

Lemma plain_then (m : io (isdb T R)) (n : io (sdb T R)) f h :
  plain_shell m = n → (∀ d, plain_shell (f d) = h (view d)) → plain_shell (m ≫= f) = n ≫= h.
Proof.
  intros <- Hf. rewrite plain_bind. unfold plain_shell at 2. rewrite io_bind_assoc.
  apply io_bind_ext. intros d _. by rewrite io_bind_ret_l.
Qed.

Lemma plain_exec n d s :
  plain_shell (s' ← Variants.cpu_exec gettimeofday b fuel n s; mret (set_isim d s'))
  = (c ← Cpu.cpu_exec gettimeofday fuel n (core s); mret (set_sim (view d) c)).
Proof.
  rewrite <- (cpu_exec_erase gettimeofday b). unfold plain_shell, erase. rewrite !io_bind_assoc.
  apply io_bind_ext. intros s' _. by rewrite !io_bind_ret_l.
Qed.

Lemma put_view d (d' : sdb T R) : view (put d d') = d'.
Proof. by destruct d'. Qed.

Lemma run_handler_plain h args rest d :
  plain_shell (run_handler gettimeofday fuel b h args rest d)
  = Sdb.run_handler gettimeofday fuel h args rest (view d).
Proof.
  assert (∀ m : io (sdb T R), plain_shell (d' ← m; mret (put d d')) = m) as Hput.
  { intros [o [d'|x]]; [|done]. unfold plain_shell, mbind, io_bind. cbn. rewrite !app_nil_r. by destruct d'. }
  destruct h; cbn [run_handler]; try apply Hput.
  - apply plain_exec.
  - apply (plain_exec 1 d (set_core (isim d) _)).
  - cbn [Sdb.run_handler]. unfold run_si. rewrite plain_bind. apply io_bind_ext. intros n _. apply plain_exec.
Qed.

Lemma sdb_lines_plain lines d :
  plain_shell (sdb_lines gettimeofday fuel b lines d) = Sdb.sdb_lines gettimeofday fuel lines (view d).
Proof.
  revert d. induction lines as [|str lines IH]; intros d; [done|]. cbn [sdb_lines Sdb.sdb_lines].
  apply plain_then.
  - unfold sdb_line, Sdb.sdb_line. destruct (strtok blank str) as [[cmd rest]|]; [|done].
    destruct (find_cmd cmd cmd_table); [apply run_handler_plain|]. by rewrite plain_bind.
  - intros d1. cbn [view msim]. by destruct (tested str && _).
Qed.

Lemma sdb_mainloop_plain batch lines d :
  plain_shell (sdb_mainloop gettimeofday fuel b batch lines d)
  = Sdb.sdb_mainloop gettimeofday fuel batch lines (view d).
Proof. destruct batch; [apply plain_exec|apply sdb_lines_plain]. Qed.

Lemma cycles_erase n s : erase (Variants.cycles gettimeofday b n s) = Cpu.cycles gettimeofday n (core s).
Proof.
  revert s. induction n as [|n IH]; intros s; [done|]. cbn [Variants.cycles Cpu.cycles].
  apply erase_then; [apply single_cycle_erase|done].
Qed.
Lemma reset_erase n s : erase (Variants.reset gettimeofday b n s) = Cpu.reset gettimeofday n (core s).
Proof. unfold Variants.reset, Cpu.reset. apply erase_then; [apply cycles_erase|done]. Qed.

(** The observer's start says at most that its region is wrong. *)
Lemma init_clock_erase e s :
  ∃ out, erase (init_clock gettimeofday b e s)
      = (out ++ (Cpu.reset gettimeofday 5 (core s)).1, (Cpu.reset gettimeofday 5 (core s)).2) ∧
    (PERFORMANCE_MODEL b = false → out = []).
Proof.
  assert (∃ out o, (if PERFORMANCE_MODEL b then dependency_observer_init_from_env e (dep s) else mret (dep s))
    = (out, Ok o) ∧ (PERFORMANCE_MODEL b = false → out = [])) as (out & o & E & Hout).
  { destruct (PERFORMANCE_MODEL b); [|by eexists _, _]. unfold dependency_observer_init_from_env.
    repeat case_match; by eexists _, _. }
  exists out. split; [|done]. unfold init_clock. rewrite erase_bind, E. unfold mbind at 1, io_bind at 1. cbn [snd fst].
  cbv beta iota zeta. by rewrite reset_erase.
Qed.

Lemma behind_then (m : io (inst T R)) (n : io (sim T R)) (f : inst T R → io (isdb T R)) h out :
  erase m = (out ++ n.1, n.2) → (∀ s, plain_shell (f s) = h (core s)) →
  plain_shell (m ≫= f) = (out ++ (n ≫= h).1, (n ≫= h).2).
Proof.
  intros E Hf. rewrite plain_bind. revert E. unfold erase.
  destruct m as [o [s|x]], n as [o' [c|y]]; unfold mbind, io_bind; cbn; rewrite ?app_nil_r; intros [= -> ?];
    simplify_eq; [|done].
  by rewrite Hf, app_assoc.
Qed.

(** The same program without instrumentation, up to the end of the shell. *)
Definition plain_session (argv0 : string) (opts : list opt) (lines : list string) (c : sim T R) : io (sdb T R) :=
  '(a, c) ← Init.init_sim gettimeofday sys argv0 opts c;
  Sdb.sdb_mainloop gettimeofday fuel (is_batch_mode a) lines (init_sdb c).

Lemma session_plain e argv0 opts lines s :
  let m := plain_session argv0 opts lines (core s) in
  ∃ out, plain_shell (session gettimeofday fuel b sys e argv0 opts lines s) = (out ++ m.1, m.2) ∧
    (PERFORMANCE_MODEL b = false → out = []).
Proof.
  intros m. destruct (init_clock_erase e s) as (out & E & Hout). exists out. split; [|done].
  unfold m, session, init_sim, plain_session, Init.init_sim. rewrite !io_bind_assoc.
  apply behind_then; [exact E|]. intros s1. rewrite !io_bind_assoc, plain_bind. apply io_bind_ext. intros [a c] _.
  rewrite !io_bind_assoc, plain_bind. apply io_bind_ext. intros [] _. rewrite !io_bind_ret_l.
  apply (sdb_mainloop_plain _ _ (ISdb (set_core s1 c) init_wp_pool statics_init)).
Qed.

(** No status of an instrument hides a bad simulation. *)
Lemma finish_sound fopens s code report :
  result (Variants.finish b fopens s) = Ok (code, report) →
  ∃ status, result (is_exit_status_bad (core s)) = Ok status ∧ (status ≠ 0 → code ≠ 0).
Proof.
  unfold Variants.finish. intros (status & Es & H)%result_bind_Ok. exists status. split; [done|].
  destruct (if PERFORMANCE_MODEL b then _ else _) as [dstat rep].
  apply result_bind_Ok in H as (m & _ & H). apply result_bind_Ok in H as (l & _ & H).
  injection H as <- _. intros Hs. destruct (Z.eqb_spec m 0), (Z.eqb_spec l 0), (Z.eqb_spec dstat 0); done.
Qed.

(** C19. Instrumentation does not disturb the program.  In every build, whatever
    the options and the lines typed, [main] up to the reports of the instruments
    prints what the default build prints and, the observer and the monitors
    forgotten, leaves its state or stops with its fault; only the performance
    build may print something before, about its environment.  When it ends, the
    default build ends, too, and the exit code of the instrumented one is not 0
    where that of the default build is not. *)
Theorem program_erase e fopens argv0 opts lines s :
  (let m := plain_session argv0 opts lines (core s) in
   ∃ out, plain_shell (session gettimeofday fuel b sys e argv0 opts lines s) = (out ++ m.1, m.2) ∧
     (PERFORMANCE_MODEL b = false → out = [])) ∧
  ∀ code report, result (main gettimeofday fuel b sys e fopens argv0 opts lines s) = Ok (code, report) →
    ∃ status, result (program gettimeofday sys fuel argv0 opts lines (core s)) = Ok status ∧
      (status ≠ 0 → code ≠ 0).
Proof.
  split; [apply session_plain|]. intros code report (d & Ed & Ef)%result_bind_Ok.
  destruct (session_plain e argv0 opts lines s) as (out & E & _).
  apply (f_equal snd) in E. cbn [snd] in E. unfold plain_shell in E.
  assert (result (d ← session gettimeofday fuel b sys e argv0 opts lines s; mret (view d)) = Ok (view d)) as Hv
    by (by rewrite result_bind, Ed).
  unfold result in Hv. rewrite Hv in E. destruct (finish_sound _ _ _ _ Ef) as (status & Es & Hs).
  exists status. split; [|done]. unfold program, Sdb.main, plain_session in *.
  destruct (Init.init_sim gettimeofday sys argv0 opts (core s)) as [o [[a c]|x]]; [|done].
  unfold mbind at 1, io_bind at 1 in E. cbn [snd fst] in E. rewrite result_bind. cbn [result snd].
  rewrite result_bind. unfold result in *. by rewrite <- E.
Qed.
End erasure.

(** ** Witness *)

(** A build with the load-use monitor. *)
Definition toy_env : env := λ _, None.
Definition toy_inst : inst Z unit := inst_init (VariantToy.sim_at 0x100 NPC_RUNNING).
Definition toy_build : build := Build false true false.

Lemma program_erase_witness :
  ∃ report status,
    result (main Toy.no_clock 9 toy_build InitToy.toy toy_env true "npc" [ODiff "ref.so"; OImage "prog.bin"]
              ["si 3"; "q"] toy_inst) = Ok (0, report) ∧
    result (program Toy.no_clock InitToy.toy 9 "npc" [ODiff "ref.so"; OImage "prog.bin"] ["si 3"; "q"]
              (core toy_inst)) = Ok status ∧ status = 0.
Proof.
  destruct (result (main Toy.no_clock 9 toy_build InitToy.toy toy_env true "npc" [ODiff "ref.so"; OImage "prog.bin"]
    ["si 3"; "q"] toy_inst)) as [[code report]|] eqn:E; [|vm_compute in E; discriminate E].
  destruct (program_erase Toy.no_clock 9 toy_build InitToy.toy toy_env true "npc" [ODiff "ref.so"; OImage "prog.bin"]
    ["si 3"; "q"] toy_inst) as [_ H].
  destruct (H code report E) as (status & Hs & Hc). exists report, status.
  assert (code = 0) as -> by (vm_compute in E; injection E as <-; reflexivity).
  split; [reflexivity|]. split; [exact Hs|].
  destruct (decide (status = 0)) as [Hz|Hz]; [exact Hz|destruct (Hc Hz eq_refl)].
Defined.
