(* ===== verification/SimType.v ===== *)
(** * Well-formed simulation states
    What the C++ types and the code together keep true of the simulation from
    power-on to the end of a session of the shell: the memory holds bytes and
    nothing outside the array, the state is one of the four macros of
    [common.h] and is NPC_ABORT only after a mismatch, the counters stay in
    the ranges of their types.  Every operation of [Cpu.v], [Init.v] and
    [Sdb.v] that returns preserves this; the lemmas are postconditions
    ([ensures] of the prelude), one per operation, composed as the code
    composes the operations. *)
From Stdlib Require Import Ascii.
From stdpp Require Import base numbers list option strings gmap.
From S2P Require Import Prelude Bytes CText PMem Watch Expr Cpu Elf Sdb Session Init.

Local Open Scope Z_scope.

(** [pmem]: bytes, none of them outside the array. *)
Record pmem_ok (m : bytes) : Prop := {
  pmem_bytes : bytes_ok m;
  pmem_bound : ∀ a, is_Some (m !! a) → 0 <= a < CONFIG_MSIZE
}.

Lemma pmem_ok_empty : pmem_ok ∅.
Proof. split; [apply bytes_ok_empty|]. intros a. rewrite lookup_empty. by intros []. Qed.

Lemma pmem_ok_store_bytes m off l :
  pmem_ok m → Forall is_byte l → in_pmem off (length l) = true → pmem_ok (store_bytes m off l).
Proof.
  intros [Hb Hd] Hl Hin. split; [by apply bytes_ok_store_bytes|]. unfold in_pmem in Hin. bool_to_prop.
  clear Hb Hl. revert m off H H0 Hd. induction l as [|b l IH]; intros m off H0 H1 Hd; cbn [store_bytes]; [done|].
  cbn [length] in H1. apply IH; [lia|lia|]. intros a. destruct (decide (a = off)) as [->|].
  - lia.
  - rewrite lookup_insert_ne by done. apply Hd.
Qed.

Lemma pmem_store_ok m off n data : pmem_ok m → ensures (pmem_store m off n data) pmem_ok.
Proof.
  intros Hm. unfold pmem_store. case_if; [|apply ensures_fail]. apply ensures_ret.
  apply pmem_ok_store_bytes; [done|apply le_split_bytes|by rewrite length_le_split].
Qed.

Lemma paddr_write_ok m addr len data : pmem_ok m → ensures (paddr_write m addr len data) pmem_ok.
Proof.
  intros Hm. unfold paddr_write.
  repeat (case_if; try (by apply pmem_store_ok); try (by apply ensures_fail)).
  apply ensures_bind, ensures_any. intros _. by apply ensures_ret.
Qed.

Lemma write_lanes_ok lanes m addr wdata wmask :
  pmem_ok m → ensures (write_lanes m addr wdata wmask lanes) pmem_ok.
Proof.
  revert m. induction lanes as [|i lanes IH]; intros m Hm; cbn [write_lanes]; [by apply ensures_ret|].
  apply ensures_bind. eapply ensures_mono; [|exact IH].
  case_if; [by apply paddr_write_ok|by apply ensures_ret].
Qed.

Lemma mem_write_ok c m waddr wdata wmask wen :
  pmem_ok m → ensures (mem_write c m waddr wdata wmask wen) pmem_ok.
Proof.
  intros Hm. unfold mem_write. case_if; [|by apply ensures_ret]. case_if; [|by apply write_lanes_ok].
  apply ensures_bind, ensures_any. intros _. by apply ensures_ret.
Qed.

Section typed.
Context {T R : Type} `{!Dut T} `{!RefSim R}.
Variable gettimeofday : nat → Z * Z.
Implicit Types (s : sim T R) (d : sdb T R).

(** [main_time] is a [uint64_t]; [wb_num] an [int] that only counts. *)
Record sim_ok s : Prop := {
  ok_pmem : pmem_ok (pmem (hst s));
  ok_time : 0 <= main_time s < 2 ^ 64;
  ok_state : cpu_state s ∈ [NPC_RUNNING; NPC_END; NPC_QUIT; NPC_ABORT];
  ok_error : difftest_error s ∈ [0; 1];
  ok_abort : cpu_state s = NPC_ABORT → difftest_error s = 1;
  ok_num : 0 <= wb_num s <= INT_MAX
}.

(** ** Clocking *)

Lemma run_dpi_ok c h (t : dpi T) :
  pmem_ok (pmem h) → ensures (run_dpi gettimeofday c h t) (λ r, pmem_ok (pmem r.1)).
Proof.
  revert h. induction t as [t|a e v k IH|a v m e k IH|e k IH|p k IH]; intros h Hh; cbn [run_dpi].
  - by apply ensures_ret.
  - apply ensures_bind, ensures_any. intros [v' tm]. by apply IH.
  - apply ensures_bind. eapply ensures_mono; [by apply mem_write_ok|]. intros m' Hm. by apply IH.
  - by apply IH.
  - apply ensures_bind. unfold set_gpr_ptr. destruct p.
    + apply ensures_ret. by apply IH.
    + apply ensures_bind, ensures_any. intros _. apply ensures_ret. by apply IH.
Qed.

(** What clocking may change of a typed state. *)
Lemma sim_ok_set_top s c r h t time :
  sim_ok s → pmem_ok (pmem h) → 0 <= time < 2 ^ 64 → sim_ok (set_top s c r h t time).
Proof. by intros []; split. Qed.

Lemma eval_at_ok c s : sim_ok s → ensures (eval_at gettimeofday c s) sim_ok.
Proof.
  intros Hs. unfold eval_at. apply ensures_bind. eapply ensures_mono; [apply run_dpi_ok, Hs|].
  intros [h t] Hh. apply ensures_ret. apply sim_ok_set_top; [done|done|apply Hs].
Qed.

Lemma tick_time_ok s : sim_ok s → sim_ok (tick_time s).
Proof. intros Hs. apply sim_ok_set_top; [done|apply Hs|apply wrap_range; lia]. Qed.

Lemma single_cycle_ok s : sim_ok s → ensures (single_cycle gettimeofday s) sim_ok.
Proof.
  intros Hs. unfold single_cycle. apply ensures_bind. eapply ensures_mono; [by apply eval_at_ok|].
  intros s1 H1. apply ensures_bind. eapply ensures_mono; [by apply eval_at_ok, tick_time_ok|].
  intros s2 H2. by apply ensures_ret, tick_time_ok.
Qed.

Lemma set_rstn_ok s r : sim_ok s → sim_ok (set_rstn s r).
Proof. intros Hs. apply sim_ok_set_top; [done|apply Hs..]. Qed.

Lemma reset_ok n s : sim_ok s → ensures (reset gettimeofday n s) sim_ok.
Proof.
  intros Hs. unfold reset. apply ensures_bind.
  enough (∀ k s, sim_ok s → ensures (cycles gettimeofday k s) sim_ok) as Hc.
  { eapply ensures_mono; [by apply Hc, set_rstn_ok|]. intros s1 H1. by apply ensures_ret, set_rstn_ok. }
  clear. intros k. induction k as [|k IH]; intros s Hs; cbn [cycles]; [by apply ensures_ret|].
  apply ensures_bind. eapply ensures_mono; [by apply single_cycle_ok|exact IH].
Qed.

(** ** The loop *)

Lemma sim_ok_set_ref s r b : sim_ok s → sim_ok (set_ref s r b).
Proof. by intros []; split. Qed.
Lemma sim_ok_set_wb s pc n : sim_ok s → 0 <= n <= INT_MAX → sim_ok (set_wb s pc n).
Proof. by intros []; split. Qed.
Lemma sim_ok_set_state s n :
  sim_ok s → n ∈ [NPC_RUNNING; NPC_END; NPC_QUIT] → sim_ok (Cpu.set_cpu_state s n).
Proof.
  intros [] Hn. rewrite !elem_of_cons, elem_of_nil in Hn.
  split; try done; cbn; destruct Hn as [->|[->|[->|[]]]]; (done || set_solver).
Qed.
Lemma sim_ok_mismatch s : sim_ok s → sim_ok (set_error (Cpu.set_cpu_state s NPC_ABORT) 1).
Proof. intros []. split; try done; cbn; set_solver. Qed.

Lemma difftest_step_ok s : sim_ok s → ensures (difftest_step s) sim_ok.
Proof.
  intros Hs. unfold difftest_step. case_if.
  - apply ensures_bind, ensures_any. intros g. by apply ensures_ret, sim_ok_set_ref.
  - by apply ensures_ret, sim_ok_set_ref.
Qed.

Lemma difftest_check_ok s : sim_ok s → ensures (difftest_check s) sim_ok.
Proof.
  intros Hs. unfold difftest_check. apply ensures_bind, ensures_any. intros [].
  - by apply ensures_ret.
  - apply ensures_bind, ensures_any. intros _. by apply ensures_ret, sim_ok_mismatch.
Qed.

Lemma exec_once_typed s : sim_ok s → ensures (exec_once s) sim_ok.
Proof.
  intros Hs. unfold exec_once. cbv zeta. case_if; [|by apply ensures_ret].
  set (s0 := set_wb s _ _). assert (sim_ok s0) as H0 by apply (sim_ok_set_wb _ _ _ Hs), Hs.
  apply ensures_bind. apply (ensures_mono _ sim_ok).
  - case_if; [|by apply ensures_ret]. apply ensures_bind.
    eapply ensures_mono; [by apply difftest_step_ok|]. intros s1 H1. apply ensures_bind.
    eapply ensures_mono; [apply difftest_check_ok; case_if; by try apply sim_ok_set_ref|].
    intros s2 H2. apply ensures_ret. case_if; [by apply sim_ok_set_ref|done].
  - intros s1 H1. apply ensures_bind, ensures_as_int. intros Hi. apply ensures_ret, sim_ok_set_wb; [done|].
    destruct H1. unfold in_int in Hi. bool_to_prop. lia.
Qed.

Lemma cpu_loop_typed fuel i n s : sim_ok s → ensures (cpu_loop gettimeofday fuel i n s) sim_ok.
Proof.
  revert i s. induction fuel as [|fuel IH]; intros i s Hs; cbn [cpu_loop];
    (case_if; [|by apply ensures_ret]); (case_if; [by apply ensures_ret|]); apply ensures_bind;
    (eapply ensures_mono; [by apply exec_once_typed|]); intros s1 H1;
    (case_if; [by apply ensures_ret, sim_ok_set_state; [|set_solver]|]); apply ensures_bind;
    (eapply ensures_mono; [by apply single_cycle_ok|]); intros s2 H2; apply ensures_bind, ensures_as_int;
    intros _.
  - apply ensures_fail.
  - by apply IH.
Qed.

Lemma cpu_exec_typed fuel n s : sim_ok s → ensures (cpu_exec gettimeofday fuel n s) sim_ok.
Proof.
  intros Hs. unfold cpu_exec. case_if; [apply ensures_bind, ensures_any; intros _; by apply ensures_ret|].
  case_if; [by apply ensures_ret|].
  case_if; [apply ensures_bind, ensures_any; intros _; by apply ensures_ret|].
  apply ensures_bind. eapply ensures_mono; [apply cpu_loop_typed, sim_ok_set_state; [done|set_solver]|].
  intros s1 H1. case_if; [apply ensures_bind, ensures_any; intros _; by apply ensures_ret|].
  case_if; [|by apply ensures_ret, sim_ok_set_state; [|set_solver]].
  do 3 (apply ensures_bind, ensures_any; intros ?). by apply ensures_ret.
Qed.

(** ** The shell *)

(** A command leaves the simulation alone or runs [cpu_exec] on it. *)
Lemma run_handler_typed fuel h args rest d :
  sim_ok (msim d) → ensures (run_handler gettimeofday fuel h args rest d) (λ d', sim_ok (msim d')).
Proof.
  intros Hd. destruct (runs_sim h) eqn:Hh.
  - destruct h; try done; cbn [run_handler].
    + apply ensures_bind. eapply ensures_mono; [by apply cpu_exec_typed|]. intros s Hs. by apply ensures_ret.
    + apply ensures_bind. eapply ensures_mono; [apply cpu_exec_typed, sim_ok_set_state; [done|set_solver]|].
      intros s Hs. by apply ensures_ret.
    + unfold run_si. apply ensures_bind, ensures_any. intros n. apply ensures_bind.
      eapply ensures_mono; [by apply cpu_exec_typed|]. intros s Hs. by apply ensures_ret.
  - eapply ensures_mono; [by apply handler_keeps|]. by intros d' ->.
Qed.

Lemma sdb_lines_typed fuel lines d :
  sim_ok (msim d) → ensures (sdb_lines gettimeofday fuel lines d) (λ d', sim_ok (msim d')).
Proof.
  revert d. induction lines as [|str lines IH]; intros d Hd; cbn [sdb_lines]; [by apply ensures_ret|].
  apply ensures_bind. apply (ensures_mono _ (λ d', sim_ok (msim d'))).
  - unfold sdb_line. case_match; [|by apply ensures_ret]. case_match. case_match.
    + by apply run_handler_typed.
    + apply ensures_bind, ensures_any. intros _. by apply ensures_ret.
  - intros d1 H1. case_if; [by apply ensures_ret|by apply IH].
Qed.

Lemma sdb_mainloop_typed fuel batch lines d :
  sim_ok (msim d) → ensures (sdb_mainloop gettimeofday fuel batch lines d) (λ d', sim_ok (msim d')).
Proof.
  intros Hd. unfold sdb_mainloop. case_if; [apply (run_handler_typed fuel cmd_c None ""); done|].
  by apply sdb_lines_typed.
Qed.

(** ** The start *)

Variable sys : system.
(** A file is a list of bytes. *)
Hypothesis files_bytes : ∀ f contents, file_at sys f = Some contents → Forall is_byte contents.

Lemma load_img_ok m img :
  pmem_ok m → (∀ name contents, img = ImageFile name contents → Forall is_byte contents) →
  ensures (load_img m img) (λ r, pmem_ok r.2).
Proof.
  intros Hm Hi. destruct img as [|name|name contents]; cbn [load_img].
  - apply ensures_bind, ensures_any. intros _. by apply ensures_ret.
  - apply ensures_fail.
  - apply ensures_bind, ensures_any. intros _. case_if; [apply ensures_fail|].
    case_if; [|apply ensures_fail]. apply ensures_ret. by apply pmem_ok_store_bytes; [|eapply Hi|].
Qed.

Lemma init_difftest_ok so opened err dlsym n s :
  sim_ok s → ensures (init_difftest so opened err dlsym n s) sim_ok.
Proof.
  intros Hs. unfold init_difftest. case_match; [|apply ensures_fail].
  do 2 (apply ensures_bind, ensures_any; intros _). case_if; [|apply ensures_fail].
  case_if; [|apply ensures_fail]. cbv zeta. apply ensures_bind, ensures_any. intros g.
  by apply ensures_ret, sim_ok_set_ref.
Qed.

Lemma init_sim_ok argv0 opts s :
  sim_ok s → ensures (init_sim gettimeofday sys argv0 opts s) (λ r, sim_ok r.2).
Proof.
  intros Hs. unfold init_sim. apply ensures_bind. eapply ensures_mono; [by apply reset_ok|]. intros s1 H1.
  apply ensures_bind. apply (ensures_mono _ (λ r, sim_ok r.2)).
  - unfold init_monitor. apply ensures_bind. apply (ensures_mono _ (λ r, sim_ok r.2)).
    + unfold init_args. apply ensures_bind, ensures_any. intros a. apply ensures_bind.
      eapply ensures_mono; [apply load_img_ok; [apply H1|]|].
      { intros name contents. unfold image_of. repeat case_match; intros; simplify_eq. by eapply files_bytes. }
      intros [n m] Hm. cbv zeta. apply ensures_bind. eapply ensures_mono.
      { apply init_difftest_ok. apply sim_ok_set_top; [done|exact Hm|apply H1]. }
      intros s2 H2. by apply ensures_ret.
    + intros [a s2] H2. do 2 (apply ensures_bind, ensures_any; intros _). by apply ensures_ret.
  - intros [a s2] H2. apply ensures_bind, ensures_any. intros _. by apply ensures_ret.
Qed.

(** C16. The simulation stays well typed through the whole program.  Started from a
    well-typed state with any command line and any lines typed into the shell,
    a program that reaches the end of [sdb_mainloop] leaves the memory an
    array of bytes with nothing outside its bounds, [cpu_state] one of the
    four macros and NPC_ABORT only when differential testing found a
    mismatch, [difftest_error] 0 or 1, the time a [uint64_t] and the count of
    write-backs a non-negative [int]. *)
Theorem session_typed fuel argv0 opts lines s :
  sim_ok s →
  ensures ('(a, s) ← init_sim gettimeofday sys argv0 opts s;
           sdb_mainloop gettimeofday fuel (is_batch_mode a) lines (init_sdb s))
    (λ d, sim_ok (msim d)).
Proof.
  intros Hs. apply ensures_bind. eapply ensures_mono; [by apply init_sim_ok|].
  intros [a s1] H1. by apply sdb_mainloop_typed.
Qed.
End typed.

(** ** Witness *)

Lemma session_typed_witness :
  ∃ d, result ('(a, s) ← init_sim Toy.no_clock InitToy.toy "npc" [ODiff "ref.so"; OImage "prog.bin"] InitToy.power_on;
               sdb_mainloop Toy.no_clock 9 (is_batch_mode a) ["si 2"; "p (1 + 1)"; "q"] (init_sdb s)) = Ok d ∧
    sim_ok (msim d).
Proof.
  eexists. split; [vm_compute; reflexivity|].
  apply (session_typed Toy.no_clock InitToy.toy) with (fuel := 9%nat) (argv0 := "npc")
    (opts := [ODiff "ref.so"; OImage "prog.bin"]) (lines := ["si 2"; "p (1 + 1)"; "q"]) (s := InitToy.power_on).
  - intros f contents. cbn. destruct (String.eqb f "prog.bin"); [|discriminate].
    intros [= <-]. repeat constructor; unfold is_byte; lia.
  - split; cbn; [apply pmem_ok_empty|lia|set_solver|set_solver|discriminate|unfold INT_MAX; lia].
  - vm_compute. reflexivity.
Defined.
