(* ===== verification/BatchRun.v ===== *)
(** * Batch runs of the program
    [main] of [npc_main.cpp] in batch mode, from the command line to the exit
    code: start-up ([Init]), one [cpu_exec(-1)] and the status.  What the exit
    code says of the run of the core next to the reference, and that the
    [int] counter of the loop overflows when nothing ends the run. *)
From stdpp Require Import base numbers list option strings gmap.
From S2P Require Import Prelude Bytes CText PMem Watch Expr Cpu Elf Sdb Init.

Local Open Scope Z_scope.

Section batch.
Context {T R : Type} `{!Dut T} `{!RefSim R}.
Variable gettimeofday : nat → Z * Z.
Implicit Types s : sim T R.
Notation loop := (cpu_loop gettimeofday).
Notation lockstep := (Cpu.lockstep gettimeofday).

Hypothesis dut_gpr_len : ∀ t : T, length (dut_gpr t) = 33%nat.
Hypothesis ref_regs_len : ∀ r : R, length (ref_get_regs r) = 33%nat.

(** Such rounds keep the state running, without an error. *)
Definition healthy s : Prop := cpu_state s = NPC_RUNNING ∧ difftest_error s = 0.

Lemma round_healthy s s1 s2 :
  healthy s → agree s → result (exec_once s) = Ok s1 → result (single_cycle gettimeofday s1) = Ok s2 → healthy s2.
Proof.
  intros [Hst He] Ha E1 E2. destruct (exec_once_ok dut_gpr_len ref_regs_len _ _ E1) as (_ & _ & He1 & Hs1).
  rewrite !decide_True in He1, Hs1 by done. pose proof (single_cycle_frame _ _ _ E2) as F.
  injection F as _ Fs _ _ Fe _. split; congruence.
Qed.

Lemma cpu_loop_step f i n s s1 s2 :
  i < n → in_int (i + 1) = true → difftest_error s = 0 → result (exec_once s) = Ok s1 → is_ebreak (hst s1) ≠ 1 →
  result (single_cycle gettimeofday s1) = Ok s2 → result (loop (S f) i n s) = result (loop f (i + 1) n s2).
Proof.
  intros Hi Hint He E1 Hb E2. cbn [cpu_loop]. rewrite (proj2 (Z.ltb_lt _ _)) by lia. rewrite He.
  change (truthy 0) with false. cbv iota. rewrite result_bind, E1, (proj2 (Z.eqb_neq _ _)) by done.
  rewrite result_bind, E2. unfold as_int. by rewrite Hint, io_bind_ret_l.
Qed.

(** The loop goes through the rounds, as far as its counter and its fuel reach. *)
Lemma loop_lockstep k s s' f i n :
  lockstep k s s' → healthy s → 0 <= i → i + Z.of_nat k <= n → i + Z.of_nat k <= INT_MAX →
  result (loop (k + f) i n s) = result (loop f (i + Z.of_nat k) n s') ∧ healthy s'.
Proof.
  intros Hl. revert i. induction Hl as [s|k s s1 s2 s' Ha E1 Hb E2 Hl IH]; intros i Hs Hi Hn Hint.
  - by rewrite Z.add_0_r.
  - pose proof (round_healthy _ _ _ Hs Ha E1 E2) as Hs2. cbn [Nat.add].
    rewrite (cpu_loop_step (k + f) i n s s1 s2); [|lia| |apply Hs|done..].
    + destruct (IH (i + 1) Hs2) as [-> Hs']; [lia..|]. split; [|done].
      by replace (i + 1 + Z.of_nat k) with (i + Z.of_nat (S k)) by lia.
    + unfold in_int, INT_MIN, INT_MAX in *. apply andb_true_iff. rewrite !Z.leb_le. lia.
Qed.

Lemma cpu_exec_batch f s :
  healthy s → cpu_exec gettimeofday f (-1) s = (loop f 0 (2 ^ 32 - 1) s ≫= finish).
Proof.
  intros [Hst _]. rewrite cpu_exec_running by (unfold halted; by rewrite Hst). by rewrite set_running.
Qed.

(** The two ways a run ends by itself. *)
Lemma batch_ebreak k f s sk s1 :
  lockstep k s sk → healthy s → Z.of_nat k < 2 ^ 31 → (k <= f)%nat →
  result (exec_once sk) = Ok s1 → is_ebreak (hst s1) = 1 → gpr_ptr (hst s1) = true →
  result (cpu_exec gettimeofday f (-1) s) = Ok (Cpu.set_cpu_state s1 NPC_END).
Proof.
  intros Hl Hs Hk Hf E1 Hb Hp. rewrite cpu_exec_batch, result_bind by done.
  replace f with (k + (f - k))%nat by lia.
  destruct (loop_lockstep k s sk (f - k) 0 (2 ^ 32 - 1) Hl Hs) as [-> Hsk]; [unfold INT_MAX in *; lia..|].
  assert (result (loop (f - k) (0 + Z.of_nat k) (2 ^ 32 - 1) sk) = Ok (Cpu.set_cpu_state s1 NPC_END)) as ->.
  { destruct (f - k)%nat; cbn [cpu_loop]; rewrite (proj2 (Z.ltb_lt _ _)) by lia; rewrite (proj2 Hsk);
      change (truthy 0) with false; cbv iota; by rewrite result_bind, E1, Hb. }
  unfold finish. change (cpu_state (Cpu.set_cpu_state s1 NPC_END)) with NPC_END.
  change (NPC_END =? NPC_ABORT) with false. change (NPC_END =? NPC_END) with true. cbv iota.
  destruct (cpu_a0 dut_gpr_len (Cpu.set_cpu_state s1 NPC_END) Hp) as (a0 & _ & K). by rewrite K.
Qed.

Lemma batch_mismatch k f s sk s1 s2 :
  lockstep k s sk → healthy s → Z.of_nat k < 2 ^ 31 - 1 → (k < f)%nat →
  result (exec_once sk) = Ok s1 → is_ebreak (hst s1) ≠ 1 → ¬ agree sk →
  result (single_cycle gettimeofday s1) = Ok s2 →
  result (cpu_exec gettimeofday f (-1) s) = Ok s2 ∧ cpu_state s2 = NPC_ABORT.
Proof.
  intros Hl Hs Hk Hf E1 Hb Ha E2. rewrite cpu_exec_batch, result_bind by done.
  replace f with (k + S (f - k - 1))%nat by lia.
  destruct (loop_lockstep k s sk (S (f - k - 1)) 0 (2 ^ 32 - 1) Hl Hs) as [-> Hsk]; [unfold INT_MAX in *; lia..|].
  rewrite (cpu_loop_step _ _ _ sk s1 s2); [|lia| |apply Hsk|done..].
  2:{ unfold in_int, INT_MIN, INT_MAX in *. apply andb_true_iff. rewrite !Z.leb_le. lia. }
  destruct (exec_once_ok dut_gpr_len ref_regs_len _ _ E1) as (_ & _ & He1 & Hs1).
  rewrite !decide_False in He1, Hs1 by done. pose proof (single_cycle_frame _ _ _ E2) as F.
  injection F as _ Fs _ _ Fe _. rewrite (cpu_loop_end gettimeofday) by (by rewrite Fe, He1).
  cbn [result mret io_ret snd]. unfold finish. by rewrite Fs, Hs1.
Qed.

(** The whole program, once start-up has returned. *)
Lemma program_batch sys fuel argv0 opts lines s0 a s s' code :
  result (init_sim gettimeofday sys argv0 opts s0) = Ok (a, s) → is_batch_mode a = true →
  result (cpu_exec gettimeofday fuel (-1) s) = Ok s' → result (is_exit_status_bad s') = Ok code →
  result (program gettimeofday sys fuel argv0 opts lines s0) = Ok code.
Proof.
  intros Hi Hb Hx Hc. unfold program. rewrite result_bind, Hi. unfold main, sdb_mainloop.
  rewrite Hb, result_bind. unfold run_c. change (msim (init_sdb s)) with s. by rewrite result_bind, Hx.
Qed.

Lemma exit_end s :
  cpu_state s = NPC_END → gpr_ptr (hst s) = true →
  ∃ a0, dut_gpr (top s) !! 10%nat = Some a0 ∧ result (is_exit_status_bad s) = Ok (if a0 =? 0 then 0 else 1).
Proof.
  intros Hst Hp. destruct (cpu_a0 dut_gpr_len s Hp) as (a0 & Ha & K). exists a0. split; [done|].
  unfold is_exit_status_bad. rewrite Hst. change (NPC_END =? NPC_END) with true. cbv iota. rewrite K.
  rewrite io_bind_ret_l. change (NPC_END =? NPC_QUIT) with false. by destruct (a0 =? 0).
Qed.

(** ** Properties *)

Variable sys : system.

(** C3. The exit code of a batch run is the verdict on the run.  Suppose start-up
    returns in batch mode, the state is running and core and reference agree
    for [k] rounds, fewer than the counter of the loop can count.  If the core
    stops at [ebreak] in the next round, the program ends with exit code 0 or 1
    as register [a0] is zero or not; if instead the registers differ there, it
    ends with exit code 1. *)
Theorem program_verdict k fuel argv0 opts lines s0 a s sk s1 :
  result (init_sim gettimeofday sys argv0 opts s0) = Ok (a, s) → is_batch_mode a = true → healthy s →
  lockstep k s sk → Z.of_nat k < INT_MAX → (k < fuel)%nat →
  result (exec_once sk) = Ok s1 → gpr_ptr (hst s1) = true →
  (is_ebreak (hst s1) = 1 →
   ∃ a0, dut_gpr (top sk) !! 10%nat = Some a0 ∧
     result (program gettimeofday sys fuel argv0 opts lines s0) = Ok (if a0 =? 0 then 0 else 1)) ∧
  (is_ebreak (hst s1) ≠ 1 → ¬ agree sk → (∃ s2, result (single_cycle gettimeofday s1) = Ok s2) →
   result (program gettimeofday sys fuel argv0 opts lines s0) = Ok 1).
Proof.
  intros Hi Hb Hs Hl Hk Hf E1 Hp. unfold INT_MAX in Hk. split.
  - intros Hbr. destruct (exec_once_ok dut_gpr_len ref_regs_len _ _ E1) as (Ht & _).
    destruct (exit_end (Cpu.set_cpu_state s1 NPC_END) eq_refl Hp) as (a0 & Ha0 & Hex). exists a0.
    split; [by rewrite <- Ht|]. eapply program_batch; [done|done| |exact Hex].
    apply (batch_ebreak k fuel s sk); (done || lia).
  - intros Hbr Ha (s2 & E2). destruct (batch_mismatch k fuel s sk s1 s2) as [Hx Hst]; [(done || lia)..|].
    eapply program_batch; [done|done|exact Hx|]. unfold is_exit_status_bad. by rewrite Hst.
Qed.

(** C40. A batch run that nothing ends does not run on: in the round after [2 ^ 31 - 1]
    the [int] counter overflows, although the bound of the loop is an
    [unsigned int] of [2 ^ 32 - 1]. *)
Theorem batch_overflows fuel s s' :
  healthy s → lockstep (Z.to_nat (2 ^ 31)) s s' → (Z.to_nat (2 ^ 31) <= fuel)%nat →
  result (cpu_exec gettimeofday fuel (-1) s) = Fault SignedOverflow.
Proof.
  intros Hs Hl Hf.
  assert (∀ k s', lockstep (S k) s s' → ∃ sk, lockstep k s sk ∧ lockstep 1 sk s') as Hsplit.
  { clear. intros k. generalize s. induction k as [|k IH]; intros s0 s' H.
    - exists s0. split; [constructor|done].
    - inversion H; subst. edestruct IH as (sk & K1 & K2); [eassumption|]. exists sk. split; [|done]. by econstructor. }
  replace (Z.to_nat (2 ^ 31)) with (S (Z.to_nat INT_MAX)) in Hl by (unfold INT_MAX; lia).
  destruct (Hsplit _ _ Hl) as (sk & H1 & H2). rewrite cpu_exec_batch, result_bind by done.
  replace fuel with (Z.to_nat INT_MAX + S (fuel - Z.to_nat INT_MAX - 1))%nat by (unfold INT_MAX; lia).
  destruct (loop_lockstep (Z.to_nat INT_MAX) s sk (S (fuel - Z.to_nat INT_MAX - 1)) 0 (2 ^ 32 - 1) H1 Hs) as [-> Hsk];
    [unfold INT_MAX; lia..|].
  rewrite Z2Nat.id, Z.add_0_l by done. inversion H2 as [|? ? s1 s2 ? Ha E1 Hb E2 _]; subst.
  cbn [cpu_loop]. change (INT_MAX <? 2 ^ 32 - 1) with true. rewrite (proj2 Hsk).
  change (truthy 0) with false. cbv iota. rewrite result_bind, E1, (proj2 (Z.eqb_neq _ _)) by done.
  rewrite result_bind, E2. done.
Qed.
End batch.

(** ** Witnesses *)

(** A core that counts rising edges in its first register and raises [ebreak] at
    the eighth, next to the counting reference of [Cpu.Toy]; and one that never
    writes anything back. *)
Module BatchToy.
Inductive stopper := At (n : Z).
#[global] Instance stopper_dut : Dut stopper := {|
  dut_eval c _ t :=
    let '(At n) := t in
    if c =? 1 then DSetEbreak (Z.b2z (n + 1 =? 8)) (DRet (At (n + 1))) else DRet t;
  dut_out t := Outs 1 0x80000000 0x13 0 0 0;
  dut_gpr t := let '(At n) := t in n :: replicate 32 0
|}.
Lemma stopper_len (t : stopper) : length (dut_gpr t) = 33%nat.
Proof. by destruct t. Qed.

(** Before reset, with the registers handed over. *)
Definition power_on : sim stopper (list Z) :=
  Sim (At 0) 0 0 (Host ∅ timer_init 0 true) [7] 0 NPC_RUNNING 0x80000000 0 0 false.
Definition opts : list opt := [OBatch; ODiff "ref.so"; OImage "prog.bin"].
Definition booted : args * sim stopper (list Z) :=
  match result (init_sim Toy.no_clock InitToy.toy "npc" opts power_on) with
  | Ok r => r
  | Fault _ => (args_init, power_on)
  end.
Definition next_round (s : sim stopper (list Z)) : sim stopper (list Z) :=
  match result (s ← exec_once s; single_cycle Toy.no_clock s) with Ok s => s | Fault _ => s end.
Definition last_round : sim stopper (list Z) := next_round (next_round (next_round booted.2)).

Definition stuck (clk time : Z) : sim Toy.core (list Z) :=
  Sim (1, Outs 0 0 0 0 0 0) clk 1 (Host ∅ timer_init 0 true) [1] time NPC_RUNNING 0 0 0 false.
#[local] Instance stuck_dut : Dut Toy.core := {|
  dut_eval _ _ t := DRet t;
  dut_out t := t.2;
  dut_gpr t := t.1 :: replicate 32 0
|}.
Lemma stuck_len (t : Toy.core) : length (dut_gpr t) = 33%nat.
Proof. done. Qed.
Lemma stuck_forever n clk time : ∃ s', lockstep (R := list Z) Toy.no_clock n (stuck clk time) s'.
Proof.
  revert clk time. induction n as [|n IH]; intros clk time; [eexists; constructor|].
  destruct (IH 1 (u64 (u64 (time + 1) + 1))) as [s' H']. exists s'.
  eapply lockstep_round; [by left|reflexivity|done|reflexivity|exact H'].
Qed.

Lemma batch_overflows_witness :
  result (cpu_exec Toy.no_clock (Z.to_nat (2 ^ 32)) (-1) (stuck 0 0)) = Fault SignedOverflow.
Proof.
  destruct (stuck_forever (Z.to_nat (2 ^ 31)) 0 0) as [s' H'].
  apply (batch_overflows Toy.no_clock stuck_len Toy.list_len (Z.to_nat (2 ^ 32)) (stuck 0 0) s').
  - split; reflexivity.
  - exact H'.
  - lia.
Defined.
End BatchToy.

Lemma program_verdict_witness :
  result (program Toy.no_clock InitToy.toy 9 "npc" BatchToy.opts [] BatchToy.power_on) = Ok 0.
Proof.
  destruct (program_verdict Toy.no_clock BatchToy.stopper_len Toy.list_len InitToy.toy 3 9 "npc" BatchToy.opts []
    BatchToy.power_on BatchToy.booted.1 BatchToy.booted.2 BatchToy.last_round
    (match result (exec_once BatchToy.last_round) with Ok s => s | Fault _ => BatchToy.last_round end)) as [H _].
  - vm_compute. reflexivity.
  - reflexivity.
  - split; vm_compute; reflexivity.
  - do 3 (eapply lockstep_round; [decide_now|vm_compute; reflexivity|vm_compute; discriminate|vm_compute; reflexivity|]).
    apply lockstep_nil.
  - unfold INT_MAX. lia.
  - lia.
  - vm_compute. reflexivity.
  - vm_compute. reflexivity.
  - destruct H as (a0 & Ha & Hr); [vm_compute; reflexivity|].
    etrans; [exact Hr|]. vm_compute in Ha. injection Ha as <-. reflexivity.
Defined.
