(* ===== verification/Gol.v ===== *)
(** * The game-of-life profiling harness
    [workloads/gol/scripts/gol_profiling_verilator_harness.cpp]: loads a
    byte-per-line HEX image, clocks the core with a one-word AXI memory that
    answers at once, collects the marker events the program writes and decides
    from them whether the run passed.  The core generated from the RTL is a
    parameter (class [GolCore]); a C++ exception is its [what()] text. *)
From Stdlib Require Import Ascii.
From stdpp Require Import base numbers list option strings gmap.
From S2P Require Import Prelude Bytes CText PMem.

Local Open Scope Z_scope.

Definition kMemoryBase : Z := 0x80000000.
Definition kMemoryBytes : Z := 1048576.
Definition kEventAddress : Z := 0xa0000100.
Definition kPayloadAddress : Z := 0xa0000108.
Definition kWatchdogCycles : Z := 10000000.

(** ** The image *)

Definition is_xdigit (c : ascii) : bool := bool_decide (is_Some (digit_in 16 c)).
Definition hex_byte (token : string) : option Z :=
  match token with
  | String a (String b EmptyString) =>
      if is_xdigit a && is_xdigit b then Some (u8 (strtoull 16 token).1) else None
  | _ => None
  end.

(** The lines [getline] yields, from [offset] on. *)
Fixpoint load_lines (m : bytes) (offset : Z) (lines : list string) : string + bytes * Z :=
  match lines with
  | [] => inr (m, offset)
  | token :: lines =>
      match hex_byte token with
      | Some v =>
          if kMemoryBytes <=? offset then inl "invalid or oversized byte-per-line HEX"
          else load_lines (<[offset := v]> m) (offset + 1) lines
      | None => inl "invalid or oversized byte-per-line HEX"
      end
  end.

Definition LoadHex (hex_path : string) (file : option (list string)) : io (string + bytes) :=
  match file with
  | None => mret (inl ("cannot open HEX: " +:+ hex_path))
  | Some lines =>
      match load_lines ∅ 0 lines with
      | inl what => mret (inl what)
      | inr (m, offset) => emit ("HEX_BYTES_LOADED=" +:+ fmt_u offset +:+ nl);; mret (inr m)
      end
  end.

(** ** Memory accesses *)

Fixpoint read_loop (m : bytes) (offset : Z) (lanes : list Z) (result : Z) : Z :=
  match lanes with
  | [] => result
  | byte :: lanes =>
      read_loop m offset lanes (Z.lor result (Z.shiftl (get m (offset + byte)) (byte * 8)))
  end.
Definition Read64 (m : bytes) (address : Z) : Z :=
  if (address <? kMemoryBase) || (kMemoryBase + kMemoryBytes - 8 <? address) then 0
  else read_loop m (address - kMemoryBase) [0; 1; 2; 3; 4; 5; 6; 7] 0.

Fixpoint commit_loop (m : bytes) (offset data strobes : Z) (lanes : list Z) : bytes :=
  match lanes with
  | [] => m
  | byte :: lanes =>
      if offset + byte <? kMemoryBytes then
        commit_loop (if truthy (Z.land (Z.shiftr strobes byte) 1)
                     then <[offset + byte := u8 (Z.shiftr data (byte * 8))]> m else m)
          offset data strobes lanes
      else m
  end.

(** ** The harness *)

(** Ports of the core that the harness reads and drives. *)
Record outs := Outs {
  axi_aw_valid_o : Z; axi_w_valid_o : Z; axi_b_ready_o : Z; axi_ar_valid_o : Z; axi_r_ready_o : Z;
  axi_ar_addr_o : Z; axi_aw_addr_o : Z; axi_w_data_o : Z; axi_w_strb_o : Z
}.
Record ins := Ins {
  clk : Z; rstn : Z; axi_aw_ready_i : Z; axi_w_ready_i : Z; axi_b_valid_i : Z; axi_ar_ready_i : Z;
  axi_r_valid_i : Z; axi_r_data_i : Z; axi_b_resp_i : Z; axi_b_id_i : Z; axi_b_user_i : Z;
  axi_r_resp_i : Z; axi_r_last_i : Z; axi_r_id_i : Z; axi_r_user_i : Z
}.
Class GolCore (T : Type) := { core_eval : ins → T → T; core_out : T → outs }.

(** What the marker registers have collected. *)
Record marks := Marks {
  last_payload_ : Z; measured_cycles_ : Z; checksum_ : Z; done_ : bool; events_ : list Z
}.
Definition marks_init : marks := Marks 0 0 0 false [].

Section harness.
Context {T : Type} `{!GolCore T}.

Record gol := Gol {
  top_ : T; pins : ins; memory_ : bytes;
  read_address_ : Z; write_address_ : Z; write_data_ : Z; write_strobes_ : Z;
  marks_ : marks; rising_edges_ : Z
}.

Definition set_pins (s : gol) (p : ins) : gol :=
  Gol (top_ s) p (memory_ s) (read_address_ s) (write_address_ s) (write_data_ s) (write_strobes_ s)
    (marks_ s) (rising_edges_ s).
Definition set_marks (s : gol) (k : marks) : gol :=
  Gol (top_ s) (pins s) (memory_ s) (read_address_ s) (write_address_ s) (write_data_ s)
    (write_strobes_ s) k (rising_edges_ s).
Definition set_memory (s : gol) (m : bytes) : gol :=
  Gol (top_ s) (pins s) m (read_address_ s) (write_address_ s) (write_data_ s) (write_strobes_ s)
    (marks_ s) (rising_edges_ s).
Definition set_clk (s : gol) (c : Z) : gol :=
  let p := pins s in
  set_pins s (Ins c (rstn p) (axi_aw_ready_i p) (axi_w_ready_i p) (axi_b_valid_i p) (axi_ar_ready_i p)
    (axi_r_valid_i p) (axi_r_data_i p) (axi_b_resp_i p) (axi_b_id_i p) (axi_b_user_i p)
    (axi_r_resp_i p) (axi_r_last_i p) (axi_r_id_i p) (axi_r_user_i p)).
Definition set_rstn (s : gol) (r : Z) : gol :=
  let p := pins s in
  set_pins s (Ins (clk p) r (axi_aw_ready_i p) (axi_w_ready_i p) (axi_b_valid_i p) (axi_ar_ready_i p)
    (axi_r_valid_i p) (axi_r_data_i p) (axi_b_resp_i p) (axi_b_id_i p) (axi_b_user_i p)
    (axi_r_resp_i p) (axi_r_last_i p) (axi_r_id_i p) (axi_r_user_i p)).

Definition marker_line (event payload edges : Z) : string :=
  "MARKER event=" +:+ fmt_u event +:+ " payload=" +:+ fmt_u payload
  +:+ " architectural_cycle_diagnostic=" +:+ fmt_u edges +:+ " harness_edge_count=" +:+ fmt_u edges +:+ nl.

(** The effect of an event on the marks. *)
Definition add_event (k : marks) (event : Z) : marks :=
  Marks (last_payload_ k) (if event =? 4 then last_payload_ k else measured_cycles_ k)
    (if event =? 5 then last_payload_ k else checksum_ k) (if event =? 6 then true else done_ k)
    (events_ k ++ [event]).
Definition set_payload (k : marks) (v : Z) : marks :=
  Marks v (measured_cycles_ k) (checksum_ k) (done_ k) (events_ k).

Definition CommitWrite (s : gol) : io gol :=
  let a := write_address_ s in
  if negb (truthy (axi_b_ready_o (core_out (top_ s)))) then mret s
  else if a =? kPayloadAddress then mret (set_marks s (set_payload (marks_ s) (write_data_ s)))
  else if a =? kEventAddress then
    emit (marker_line (write_data_ s) (last_payload_ (marks_ s)) (rising_edges_ s));;
    mret (set_marks s (add_event (marks_ s) (write_data_ s)))
  else if (a <? kMemoryBase) || (kMemoryBase + kMemoryBytes <=? a) then mret s
  else mret (set_memory s (commit_loop (memory_ s) (a - kMemoryBase) (write_data_ s) (write_strobes_ s)
               [0; 1; 2; 3; 4; 5; 6; 7])).

Definition DriveAxi (s : gol) : gol :=
  let o := core_out (top_ s) in
  set_pins s (Ins (clk (pins s)) (rstn (pins s)) (axi_aw_valid_o o) (axi_w_valid_o o) (axi_b_ready_o o)
    (axi_ar_valid_o o) (axi_r_ready_o o) (Read64 (memory_ s) (read_address_ s)) 0 0 0 0 1 0 0).

Definition Evaluate (s : gol) : gol :=
  let s := DriveAxi s in
  Gol (core_eval (pins s) (top_ s)) (pins s) (memory_ s) (read_address_ s) (write_address_ s)
    (write_data_ s) (write_strobes_ s) (marks_ s) (rising_edges_ s).

Definition count_edge (s : gol) : gol :=
  Gol (top_ s) (pins s) (memory_ s) (read_address_ s) (write_address_ s) (write_data_ s) (write_strobes_ s)
    (marks_ s) (u64 (rising_edges_ s + 1)).
Definition latch (s : gol) : gol :=
  let o := core_out (top_ s) in
  Gol (top_ s) (pins s) (memory_ s) (axi_ar_addr_o o) (axi_aw_addr_o o) (axi_w_data_o o) (axi_w_strb_o o)
    (marks_ s) (rising_edges_ s).

Definition RisingEdge (s : gol) : io gol :=
  s ← CommitWrite (count_edge (Evaluate (set_clk s 1)));
  mret (latch s).
Definition FallingEdge (s : gol) : gol := Evaluate (set_clk s 0).

Definition cycle (s : gol) : io gol := s ← RisingEdge s; mret (FallingEdge s).

(** The reset loop prints its index between the two edges. *)
Fixpoint reset_loop (edges : list Z) (s : gol) : io gol :=
  match edges with
  | [] => mret s
  | e :: edges =>
      s ← RisingEdge s;
      emit ("RESET_POSEDGE=" +:+ fmt_u e +:+ nl);;
      reset_loop edges (FallingEdge s)
  end.

Fixpoint cycles (n : nat) (s : gol) : io gol :=
  match n with O => mret s | S n => s ← cycle s; cycles n s end.

(** The main loop; the fuel bounds its iterations. *)
Fixpoint watch_loop (fuel : nat) (s : gol) : io gol :=
  if negb (done_ (marks_ s)) && (rising_edges_ s <? kWatchdogCycles) then
    s ← cycle s;
    match fuel with O => fail OutOfFuel | S fuel => watch_loop fuel s end
  else mret s.

Fixpoint EventSequence (events : list Z) : string :=
  match events with
  | [] => ""
  | [e] => fmt_u e
  | e :: events => fmt_u e +:+ "," +:+ EventSequence events
  end.

Definition pass (expected_checksum expected_cycles : Z) (k : marks) : bool :=
  bool_decide (events_ k = [1; 2; 3; 4; 5; 6]) &&
  ((expected_cycles =? 0) || (measured_cycles_ k =? expected_cycles)) &&
  (checksum_ k =? expected_checksum).

Definition Run (fuel : nat) (expected_checksum expected_cycles : Z) (s : gol) : io (Z * gol) :=
  s ← reset_loop [1; 2; 3; 4; 5] (Evaluate (set_rstn (set_clk s 0) 0));
  let s := Evaluate (set_rstn s 1) in
  emit ("RESET_DEASSERT_AFTER_POSEDGE=5" +:+ nl);;
  s ← watch_loop fuel s;
  if negb (done_ (marks_ s)) then
    emit ("SIMULATION_STATUS=FAIL_WATCHDOG" +:+ nl);; mret (1, s)
  else
    s ← cycles 5 s;
    let k := marks_ s in
    emit ("DONE_POST_RISING_EDGES=5" +:+ nl);;
    emit ("MARKER_EVENT_SEQUENCE=" +:+ EventSequence (events_ k) +:+ nl);;
    emit ("OBSERVED_CYCLES_PER_GENERATION=" +:+ fmt_u (measured_cycles_ k) +:+ nl);;
    emit ("OBSERVED_CHECKSUM=" +:+ fmt_u (checksum_ k) +:+ nl);;
    emit ("EXPECTED_CHECKSUM=" +:+ fmt_u expected_checksum +:+ nl);;
    (if expected_cycles =? 0 then mret tt
     else emit ("EXPECTED_CYCLES_PER_GENERATION=" +:+ fmt_u expected_cycles +:+ nl));;
    emit ("DONE_SEEN=YES" +:+ nl);;
    emit ("CONTROLLED_TERMINATION=PASS" +:+ nl);;
    mret (if pass expected_checksum expected_cycles k then 0 else 2, s).

(** The constructor, on a model [top] with its inputs at [p]. *)
Definition GolHarness (top : T) (p : ins) (m : bytes) : gol := Gol top p m 0 0 0 0 marks_init 0.

(** [std::stoull(text, nullptr, 0)]: an exception when there are no digits or
    the value does not fit. *)
Definition stoull (text : string) : string + Z :=
  match strto 0 text with
  | None => inl "stoull"
  | Some (_, v, _) => if v <=? ULLONG_MAX then inr (strtoull 0 text).1 else inl "stoull"
  end.

Definition harness_error (what : string) : io Z :=
  emit ("HARNESS_ERROR=" +:+ what +:+ nl);; mret 65.

(** [main] on the arguments behind the program name. *)
Definition main (fuel : nat) (file : string → option (list string)) (top : T) (p : ins)
    (args : list string) : io Z :=
  let go hex checksum cycles :=
    m ← LoadHex hex (file hex);
    match m with
    | inl what => harness_error what
    | inr m => '(code, _) ← Run fuel checksum cycles (GolHarness top p m); mret code
    end in
  match args with
  | [hex; sum] =>
      match stoull sum with inl what => harness_error what | inr checksum => go hex checksum 0 end
  | [hex; sum; cyc] =>
      match stoull sum, stoull cyc with
      | inr checksum, inr cycles => go hex checksum cycles
      | inl what, _ | _, inl what => harness_error what
      end
  | _ =>
      emit ("usage: gol_profiling_verilator_harness HEX EXPECTED_CHECKSUM [EXPECTED_CYCLES]" +:+ nl);;
      mret 64
  end.
End harness.
Arguments gol : clear implicits.
Arguments Gol {T} _ _ _ _ _ _ _ _ _.

(** ** Lemmas *)

(** Bytes put together with [|] and [<<]. *)
Lemma lor_shiftl_add r b n : 0 <= n → 0 <= r < 2 ^ n → Z.lor r (Z.shiftl b n) = r + b * 2 ^ n.
Proof.
  intros Hn Hr. rewrite <- Z.shiftl_mul_pow2 by done.
  assert (Z.land r (Z.shiftl b n) = 0) as Hl.
  { apply Z.bits_inj'. intros i Hi. rewrite Z.land_spec, Z.bits_0. destruct (decide (i < n)).
    - by rewrite Z.shiftl_spec_low, andb_false_r.
    - rewrite <- (Z.mod_small r (2 ^ n)), Z.mod_pow2_bits_high by lia. done. }
  by rewrite (Z.add_nocarry_lxor _ _ Hl), Z.lxor_lor.
Qed.

Lemma read_loop_load m off n k acc :
  bytes_ok m → 0 <= acc < 2 ^ (8 * Z.of_nat k) →
  read_loop m off (Z.of_nat <$> seq k n) acc =
    acc + 2 ^ (8 * Z.of_nat k) * le_combine (load_bytes m (off + Z.of_nat k) n).
Proof.
  intros Hok. revert k acc. induction n as [|n IH]; intros k acc Ha; [cbn; lia|].
  cbn [seq fmap list_fmap read_loop load_bytes le_combine].
  rewrite (Z.mul_comm (Z.of_nat k) 8), lor_shiftl_add by lia.
  pose proof (Hok (off + Z.of_nat k)) as Hb. unfold is_byte in Hb.
  assert (2 ^ (8 * Z.of_nat (S k)) = 2 ^ (8 * Z.of_nat k) * 2 ^ 8) as E
    by (rewrite <- Z.pow_add_r by lia; f_equal; lia).
  rewrite IH by (rewrite E; nia). rewrite E.
  replace (off + Z.of_nat (S k)) with (off + Z.of_nat k + 1) by lia. nia.
Qed.

Lemma Read64_load m off :
  bytes_ok m → 0 <= off → off + 8 <= kMemoryBytes → Read64 m (kMemoryBase + off) = load m off 8.
Proof.
  intros Hok H0 H1. unfold Read64.
  replace (kMemoryBase + off <? kMemoryBase) with false by lia.
  replace (kMemoryBase + kMemoryBytes - 8 <? kMemoryBase + off) with false by lia. cbn [orb].
  replace (kMemoryBase + off - kMemoryBase) with off by lia.
  change [0; 1; 2; 3; 4; 5; 6; 7] with (Z.of_nat <$> seq 0 8).
  rewrite read_loop_load by (done || (cbn; lia)). unfold load.
  rewrite Z.add_0_l, Z.mul_1_l. change (Z.of_nat 0) with 0. by rewrite Z.add_0_r.
Qed.

(** Two digits are read back. *)
Definition hex2 (b : Z) : string := fmt_0x 2 b.
Lemma hex_byte_hex2 b : is_byte b → hex_byte (hex2 b) = Some b.
Proof.
  intros Hb. assert (forallb (λ i, bool_decide (hex_byte (hex2 (Z.of_nat i)) = Some (Z.of_nat i))) (seq 0 256)
    = true) as H by (vm_compute; reflexivity).
  rewrite forallb_forall in H. specialize (H (Z.to_nat b)). rewrite bool_decide_eq_true in H.
  unfold is_byte in Hb. rewrite Z2Nat.id in H by lia. apply H, in_seq. lia.
Qed.

Lemma load_lines_bytes bs m off :
  Forall is_byte bs → off + Z.of_nat (length bs) <= kMemoryBytes →
  load_lines m off (hex2 <$> bs) = inr (store_bytes m off bs, off + Z.of_nat (length bs)).
Proof.
  intros Hbs. revert m off. induction Hbs as [|b bs Hb Hbs IH]; intros m off Ho.
  - cbn. by rewrite Z.add_0_r.
  - cbn [fmap list_fmap load_lines]. rewrite hex_byte_hex2 by done. cbn [length] in Ho.
    replace (kMemoryBytes <=? off) with false by lia. rewrite IH by lia. cbn [store_bytes length].
    do 2 f_equal. lia.
Qed.

Lemma bytes_ok_stored l m a : bytes_ok m → Forall is_byte l → bytes_ok (store_bytes m a l).
Proof.
  intros Hm Hl. revert m a Hm. induction Hl; intros; cbn; [done|]. auto using bytes_ok_insert.
Qed.

(** The byte loop of a write inside the memory. *)
Lemma commit_loop_get lanes m off data strobes k :
  NoDup lanes → Forall (λ i, 0 <= i ∧ off + i < kMemoryBytes) lanes →
  get (commit_loop m off data strobes lanes) k =
    if decide (k - off ∈ lanes ∧ Z.testbit strobes (k - off) = true)
    then lane_byte data (k - off) else get m k.
Proof.
  intros Hnd Hl. revert m. induction lanes as [|i lanes IH]; intros m.
  { cbn. rewrite decide_False; [done|]. by intros [?%elem_of_nil _]. }
  apply NoDup_cons in Hnd as [Hi Hnd]. apply Forall_cons in Hl as [[Hi0 Hi1] Hl].
  cbn [commit_loop]. replace (off + i <? kMemoryBytes) with true by lia. rewrite IH by done.
  assert (truthy (Z.land (Z.shiftr strobes i) 1) = Z.testbit strobes i) as Ht.
  { change 1 with (2 ^ 0). rewrite truthy_land_bit by lia. by rewrite Z.shiftr_spec by lia. }
  rewrite Ht. destruct (decide (k - off = i)) as [E|Hne].
  - subst i. rewrite decide_False by (by intros [? _]). replace (off + (k - off)) with k by lia.
    destruct (Z.testbit strobes (k - off)) eqn:Et.
    + rewrite get_insert, decide_True by done. rewrite decide_True by (split; [by left|done]).
      unfold lane_byte. by rewrite Z.mul_comm.
    + rewrite decide_False; [done|]. by intros [_ ?].
  - assert (get (if Z.testbit strobes i then <[off + i := u8 (Z.shiftr data (i * 8))]> m else m) k = get m k) as ->.
    { case_if; [|done]. rewrite get_insert, decide_False by lia. done. }
    destruct (decide (k - off ∈ lanes ∧ _)) as [[H1 H2]|H1].
    + rewrite decide_True; [done|]. split; [by right|done].
    + rewrite decide_False; [done|]. intros [[?|?]%elem_of_cons ?]; [done|]. by apply H1.
Qed.

(** *** The marker protocol *)

(** A committed write, as the marker registers see it. *)
Definition mark_write (k : marks) (w : Z * Z) : marks :=
  if w.1 =? kPayloadAddress then set_payload k w.2
  else if w.1 =? kEventAddress then add_event k w.2
  else k.

Definition events_in (ws : list (Z * Z)) : list Z := snd <$> filter (λ w, w.1 = kEventAddress) ws.
Definition payload_of (ws : list (Z * Z)) : Z :=
  default 0 (last (snd <$> filter (λ w, w.1 = kPayloadAddress) ws)).

(** The payload in force at an event that is written once. *)
Definition payload_at (e : Z) (ws : list (Z * Z)) (v : Z) : Prop :=
  ∀ pre post, ws = pre ++ (kEventAddress, e) :: post → payload_of pre = v.

(** What the log of one register gains with a write. *)
Lemma register_log reg ws a v :
  snd <$> filter (λ w : Z * Z, w.1 = reg) (ws ++ [(a, v)]) =
    (snd <$> filter (λ w : Z * Z, w.1 = reg) ws) ++ (if a =? reg then [v] else []).
Proof. rewrite filter_app, fmap_app. cbn. destruct (Z.eqb_spec a reg); by case_decide. Qed.

Lemma marks_log ws :
  let k := run mark_write marks_init ws in
  events_ k = events_in ws ∧ last_payload_ k = payload_of ws ∧ (done_ k = true ↔ 6 ∈ events_in ws).
Proof.
  induction ws as [|[a v] ws (IH1 & IH2 & IH3)] using rev_ind.
  { cbn. split_and!; [done|done|]. split; [done|]. by intros ?%elem_of_nil. }
  cbv zeta. rewrite run_app. cbn [run]. set (k := run mark_write marks_init ws) in *.
  unfold events_in, payload_of, mark_write in *. rewrite !register_log. cbn [fst snd].
  destruct (Z.eqb_spec a kPayloadAddress) as [->|Hp].
  - change (kPayloadAddress =? kEventAddress) with false. cbn [set_payload events_ last_payload_ done_].
    by rewrite last_snoc, app_nil_r.
  - rewrite app_nil_r. destruct (Z.eqb_spec a kEventAddress) as [->|He].
    + cbn [add_event events_ last_payload_ done_]. rewrite IH1, elem_of_app, list_elem_of_singleton.
      split_and!; [done|done|]. destruct (Z.eqb_spec v 6) as [->|Hv]; [naive_solver|].
      rewrite IH3. naive_solver.
    + by rewrite app_nil_r.
Qed.

Lemma events_in_app ws vs : events_in (ws ++ vs) = events_in ws ++ events_in vs.
Proof. unfold events_in. by rewrite filter_app, fmap_app. Qed.
Lemma events_in_cons e vs : events_in ((kEventAddress, e) :: vs) = e :: events_in vs.
Proof. unfold events_in. by rewrite filter_cons_True. Qed.

(** Events other than [e] keep what event [e] recorded. *)
Lemma marks_keep ws k e :
  e ∉ events_in ws →
  let k' := run mark_write k ws in
  (e = 4 → measured_cycles_ k' = measured_cycles_ k) ∧ (e = 5 → checksum_ k' = checksum_ k).
Proof.
  revert k. induction ws as [|[a v] ws IH]; intros k He; [done|]. cbn [run]. cbv zeta.
  assert (e ∉ events_in ws ∧ (a = kEventAddress → v ≠ e)) as [H1 H2].
  { unfold events_in in *. cbn [filter list_filter] in He. cbn [fst] in He.
    destruct (decide (a = kEventAddress)); set_solver. }
  destruct (IH (mark_write k (a, v)) H1) as [I1 I2]. unfold mark_write in *. cbn [fst snd] in *.
  destruct (a =? kPayloadAddress) eqn:Ea; [done|].
  destruct (Z.eqb_spec a kEventAddress) as [->|?]; [|done]. cbn in *.
  split; intros ->; [rewrite I1 by done|rewrite I2 by done];
    (destruct (Z.eqb_spec v 4), (Z.eqb_spec v 5); naive_solver).
Qed.

Lemma marks_recorded pre e post :
  e ∉ events_in post →
  let k := run mark_write marks_init (pre ++ (kEventAddress, e) :: post) in
  (e = 4 → measured_cycles_ k = payload_of pre) ∧ (e = 5 → checksum_ k = payload_of pre).
Proof.
  intros He k. unfold k. rewrite run_app. cbn [run].
  destruct (marks_log pre) as (_ & Hp & _). set (k0 := run mark_write marks_init pre) in *.
  destruct (marks_keep post (mark_write k0 (kEventAddress, e)) e He) as [H4 H5].
  split; intros ->; [rewrite H4 by done|rewrite H5 by done]; done.
Qed.

(** What [pass] decides, on the writes. *)
Definition passes (expected_checksum expected_cycles : Z) (ws : list (Z * Z)) : Prop :=
  events_in ws = [1; 2; 3; 4; 5; 6] ∧
  (expected_cycles ≠ 0 → payload_at 4 ws expected_cycles) ∧ payload_at 5 ws expected_checksum.

(** An event that occurs once. *)
Lemma once e ws :
  NoDup (events_in ws) → e ∈ events_in ws →
  ∃ pre post, ws = pre ++ (kEventAddress, e) :: post ∧ e ∉ events_in post ∧
    ∀ pre' post', ws = pre' ++ (kEventAddress, e) :: post' → pre' = pre.
Proof.
  intros Hnd He. assert ((kEventAddress, e) ∈ ws) as Hin.
  { unfold events_in in He. apply list_elem_of_fmap in He as ([a v] & -> & [Ha Hw]%list_elem_of_filter).
    cbn in Ha. by subst. }
  apply list_elem_of_split in Hin as (pre & post & ->). exists pre, post. split; [done|].
  rewrite events_in_app, events_in_cons in Hnd. apply NoDup_app in Hnd as (_ & Hd & [Hp Hn]%NoDup_cons).
  split; [done|]. clear He. intros pre' post' Heq. revert pre' Heq Hd.
  induction pre as [|x pre IH]; intros [|y pre'] Heq Hd; [done| | |].
  - injection Heq as <- ->. rewrite events_in_app, events_in_cons in Hp. set_solver.
  - injection Heq as -> <-. exfalso. apply (Hd e); [|by left]. rewrite events_in_cons. by left.
  - injection Heq as -> Heq. f_equal. apply (IH pre' Heq). intros z Hz. apply Hd.
    unfold events_in in *. cbn [filter list_filter]. case_decide; [by right|done].
Qed.

Lemma pass_spec ec ey ws : pass ec ey (run mark_write marks_init ws) = true ↔ passes ec ey ws.
Proof.
  destruct (marks_log ws) as (He & _ & _). unfold pass, passes. rewrite He.
  rewrite !andb_true_iff, bool_decide_eq_true, orb_true_iff, !Z.eqb_eq.
  split.
  - intros [[Hev Hc] Hs]. split; [done|]. assert (NoDup (events_in ws)) as Hnd by (rewrite Hev; decide_now).
    destruct (once 4 ws Hnd) as (p4 & q4 & E4 & N4 & U4); [rewrite Hev; decide_now|].
    destruct (once 5 ws Hnd) as (p5 & q5 & E5 & N5 & U5); [rewrite Hev; decide_now|].
    destruct (marks_recorded p4 4 q4 N4) as [M4 _]. destruct (marks_recorded p5 5 q5 N5) as [_ M5].
    rewrite <- E4 in M4. rewrite <- E5 in M5. split.
    + intros Hy pre post Hw. rewrite (U4 _ _ Hw), <- M4 by done. by destruct Hc.
    + intros pre post Hw. rewrite (U5 _ _ Hw), <- M5 by done. done.
  - intros (Hev & H4 & H5). assert (NoDup (events_in ws)) as Hnd by (rewrite Hev; decide_now).
    destruct (once 4 ws Hnd) as (p4 & q4 & E4 & N4 & U4); [rewrite Hev; decide_now|].
    destruct (once 5 ws Hnd) as (p5 & q5 & E5 & N5 & U5); [rewrite Hev; decide_now|].
    destruct (marks_recorded p4 4 q4 N4) as [M4 _]. destruct (marks_recorded p5 5 q5 N5) as [_ M5].
    rewrite <- E4 in M4. rewrite <- E5 in M5. split_and!; [done| |].
    + destruct (decide (ey = 0)); [by left|right]. rewrite M4 by done. by apply (H4 ltac:(done) p4 q4).
    + rewrite M5 by done. by apply (H5 p5 q5).
Qed.

(** *** Runs of the harness *)

Section runs.
Context {T : Type} `{!GolCore T}.
Implicit Types s : gol T.

(** The write that a rising edge from [s] commits. *)
Definition committed s : list (Z * Z) :=
  let s1 := Evaluate (set_clk s 1) in
  if truthy (axi_b_ready_o (core_out (top_ s1))) then [(write_address_ s, write_data_ s)] else [].

(** States reached by clock edges and changes of the reset, with the writes
    committed on the way. *)
Inductive edges s : list (Z * Z) → gol T → Prop :=
| edges_nil : edges s [] s
| edges_rise ws s1 s2 : edges s ws s1 → result (RisingEdge s1) = Ok s2 → edges s (ws ++ committed s1) s2
| edges_fall ws s1 : edges s ws s1 → edges s ws (FallingEdge s1)
| edges_reset ws s1 r : edges s ws s1 → edges s ws (Evaluate (set_rstn s1 r))
| edges_low ws s1 r : edges s ws s1 → edges s ws (Evaluate (set_rstn (set_clk s1 0) r)).

Lemma CommitWrite_ok s :
  ∃ s', result (CommitWrite s) = Ok s' ∧ rising_edges_ s' = rising_edges_ s ∧
    marks_ s' = run mark_write (marks_ s)
                  (if truthy (axi_b_ready_o (core_out (top_ s))) then [(write_address_ s, write_data_ s)] else []).
Proof.
  unfold CommitWrite. cbv zeta. destruct (truthy _); cbn [negb run]; [|by eexists].
  unfold mark_write. cbn [fst snd]. destruct (_ =? kPayloadAddress); [by eexists|].
  destruct (_ =? kEventAddress); [by eexists|]. destruct (_ || _); by eexists.
Qed.

Lemma RisingEdge_ok s :
  ∃ s', result (RisingEdge s) = Ok s' ∧ rising_edges_ s' = u64 (rising_edges_ s + 1) ∧
    marks_ s' = run mark_write (marks_ s) (committed s).
Proof.
  unfold RisingEdge, committed. rewrite result_bind.
  destruct (CommitWrite_ok (count_edge (Evaluate (set_clk s 1)))) as (s' & E & Hr & Hm).
  rewrite E. eexists. split; [done|]. done.
Qed.

Lemma edges_marks s ws s' : edges s ws s' → marks_ s' = run mark_write (marks_ s) ws.
Proof.
  induction 1 as [|ws s1 s2 _ IH E|ws s1 _ IH|ws s1 r _ IH|ws s1 r _ IH]; [done| |done..].
  destruct (RisingEdge_ok s1) as (s3 & E' & _ & Hm). rewrite E in E'. simplify_eq/=.
  by rewrite run_app, Hm, IH.
Qed.

(** Rising edges are counted, up to a bound far below the counter's range. *)
Definition fits_counter s (n : Z) : Prop := 0 <= rising_edges_ s ∧ rising_edges_ s + n < 2 ^ 64.

Lemma cycle_ok s0 ws s :
  edges s0 ws s → fits_counter s 1 →
  ∃ vs s', result (cycle s) = Ok s' ∧ edges s0 (ws ++ vs) s' ∧ rising_edges_ s' = rising_edges_ s + 1.
Proof.
  intros He Hf. destruct (RisingEdge_ok s) as (s1 & E & Hr & _).
  exists (committed s), (FallingEdge s1). unfold cycle. rewrite result_bind, E. split; [done|].
  split; [by apply edges_fall, edges_rise|]. cbn. rewrite Hr. apply wrap_small.
  unfold fits_counter in Hf. lia.
Qed.

Lemma cycles_ok n s0 ws s :
  edges s0 ws s → fits_counter s (Z.of_nat n) →
  ∃ vs s', result (cycles n s) = Ok s' ∧ edges s0 (ws ++ vs) s' ∧
    rising_edges_ s' = rising_edges_ s + Z.of_nat n.
Proof.
  revert ws s. induction n as [|n IH]; intros ws s He Hf; cbn [cycles].
  - exists [], s. rewrite app_nil_r. split; [done|]. split; [done|]. lia.
  - unfold fits_counter in *. destruct (cycle_ok s0 ws s He) as (vs & s1 & E1 & He1 & Hr1); [unfold fits_counter; lia|].
    destruct (IH (ws ++ vs) s1 He1) as (vs' & s2 & E2 & He2 & Hr2); [lia|].
    exists (vs ++ vs'), s2. rewrite result_bind, E1, app_assoc. split; [done|]. split; [done|]. lia.
Qed.

Lemma reset_loop_ok l s0 ws s :
  edges s0 ws s → fits_counter s (Z.of_nat (length l)) →
  ∃ ws' s', result (reset_loop l s) = Ok s' ∧ edges s0 ws' s' ∧
    rising_edges_ s' = rising_edges_ s + Z.of_nat (length l).
Proof.
  revert ws s. induction l as [|e l IH]; intros ws s He Hf; cbn [reset_loop length].
  - exists ws, s. split; [done|]. split; [done|]. lia.
  - cbn [length] in Hf. unfold fits_counter in *. destruct (RisingEdge_ok s) as (s1 & E1 & Hr1 & _).
    assert (rising_edges_ s1 = rising_edges_ s + 1) as Hr by (rewrite Hr1; apply wrap_small; lia).
    destruct (IH (ws ++ committed s) (FallingEdge s1)) as (ws2 & s2 & E2 & He2 & Hr2);
      [by apply edges_fall, edges_rise|cbn; lia|].
    exists ws2, s2. rewrite result_bind, E1, result_bind. cbn -[reset_loop FallingEdge result].
    split; [done|]. split; [done|]. cbn in Hr2. lia.
Qed.

Lemma watch_loop_ok fuel s0 ws s :
  edges s0 ws s → fits_counter s kWatchdogCycles → kWatchdogCycles - rising_edges_ s <= Z.of_nat fuel →
  ∃ ws' s', result (watch_loop fuel s) = Ok s' ∧ edges s0 ws' s' ∧
    (rising_edges_ s <= rising_edges_ s' <= Z.max (rising_edges_ s) kWatchdogCycles).
Proof.
  revert ws s. induction fuel as [|fuel IH]; intros ws s He Hf Hn; cbn [watch_loop];
    destruct (negb (done_ (marks_ s)) && (rising_edges_ s <? kWatchdogCycles)) eqn:Ec.
  1: (bool_to_prop; lia).
  1, 3: (exists ws, s; split; [done|]; split; [done|]; lia).
  bool_to_prop. unfold fits_counter in *.
  destruct (cycle_ok s0 ws s He) as (vs & s1 & E1 & He1 & Hr1); [unfold fits_counter, kWatchdogCycles in *; lia|].
  destruct (IH (ws ++ vs) s1 He1) as (ws2 & s2 & E2 & He2 & Hr2); [unfold kWatchdogCycles in *; lia|lia|].
  exists ws2, s2. rewrite result_bind, E1. split; [done|]. split; [done|]. lia.
Qed.

(** *** Runs that finish *)

Lemma cycle_edge s s1 :
  result (cycle s) = Ok s1 → fits_counter s 1 → rising_edges_ s1 = rising_edges_ s + 1.
Proof.
  intros E Hf. destruct (cycle_ok s [] s (edges_nil s) Hf) as (vs & s2 & E2 & _ & Hr). rewrite E in E2. by injection E2 as <-.
Qed.

Lemma cycles_app m n s s1 : result (cycles m s) = Ok s1 → result (cycles (m + n) s) = result (cycles n s1).
Proof.
  revert s. induction m as [|m IH]; intros s; cbn [cycles Nat.add]; [by intros [= <-]|].
  rewrite !result_bind. destruct (result (cycle s)) as [s2|]; [apply IH|done].
Qed.

(** The main loop stops at the first cycle that has event 6. *)
Definition first_done s (m : nat) (s' : gol T) : Prop :=
  result (cycles m s) = Ok s' ∧ done_ (marks_ s') = true ∧
  ∀ k sk, (k < m)%nat → result (cycles k s) = Ok sk → done_ (marks_ sk) = false.

Lemma watch_loop_done n fuel s sn :
  result (cycles n s) = Ok sn → done_ (marks_ sn) = true →
  0 <= rising_edges_ s → rising_edges_ s + Z.of_nat n <= kWatchdogCycles → (n <= fuel)%nat →
  ∃ m s', (m <= n)%nat ∧ first_done s m s' ∧ result (watch_loop fuel s) = Ok s'.
Proof.
  revert fuel s. induction n as [|n IH]; intros fuel s E Hd H0 Hw Hf;
    (destruct (done_ (marks_ s)) eqn:Ed;
     [exists 0%nat, s; split; [lia|]; split; [split_and!; [done|done|lia]|]; destruct fuel; cbn [watch_loop]; by rewrite Ed|]).
  { cbn [cycles] in E. injection E as ->. congruence. }
  destruct fuel as [|fuel]; [lia|]. cbn [cycles] in E. apply result_bind_Ok in E as (s1 & E1 & E).
  pose proof (cycle_edge _ _ E1) as Hr. unfold fits_counter, kWatchdogCycles in Hr.
  specialize (Hr ltac:(unfold kWatchdogCycles in *; lia)).
  destruct (IH fuel s1 E Hd) as (m & s' & Hm & (C & D & F) & W); [lia|lia|lia|].
  exists (S m), s'. split; [lia|]. split; [split_and!|].
  - cbn [cycles]. by rewrite result_bind, E1.
  - done.
  - intros [|k] sk Hk; [cbn [cycles]; intros [= <-]; done|]. cbn [cycles]. rewrite result_bind, E1.
    apply F. lia.
  - cbn [watch_loop]. rewrite Ed, (proj2 (Z.ltb_lt _ _)) by lia. cbn [negb andb].
    by rewrite result_bind, E1.
Qed.

(** The state in which the main loop starts. *)
Definition released s : io (gol T) :=
  s ← reset_loop [1; 2; 3; 4; 5] (Evaluate (set_rstn (set_clk s 0) 0));
  mret (Evaluate (set_rstn s 1)).

(** ** Properties *)

(** C22. The harness always comes to a verdict.  From a fresh state [Run] returns
    after at most the watchdog's cycles and five more; it returns 1 exactly
    when event 6 was never committed, and otherwise 0 exactly when the events
    committed are 1 to 6 in this order, the payload in force at event 5 is the
    expected checksum and, if cycles are expected, that at event 4 their
    number; otherwise it returns 2.  Writes to other addresses between them do
    not matter. *)
Theorem gol_run_verdict fuel ec ey s :
  marks_ s = marks_init → rising_edges_ s = 0 → kWatchdogCycles <= Z.of_nat fuel →
  ∃ code s' ws, result (Run fuel ec ey s) = Ok (code, s') ∧ edges s ws s' ∧
    rising_edges_ s' <= kWatchdogCycles + 5 ∧
    (code = 1 ↔ 6 ∉ events_in ws) ∧ (code = 0 ↔ passes ec ey ws) ∧ (code = 0 ∨ code = 1 ∨ code = 2).
Proof.
  intros Hm Hr Hf.
  assert (∀ ws s', edges s ws s' → marks_ s' = run mark_write marks_init ws) as Hmarks.
  { intros ws s' E. by rewrite (edges_marks _ _ _ E), Hm. }
  set (s0 := Evaluate (set_rstn (set_clk s 0) 0)).
  assert (edges s [] s0) as E0 by (apply edges_low, edges_nil).
  destruct (reset_loop_ok [1; 2; 3; 4; 5] s [] s0 E0) as (ws1 & s1 & R1 & E1 & C1).
  { unfold fits_counter. cbn. lia. }
  set (s2 := Evaluate (set_rstn s1 1)). assert (edges s ws1 s2) as E2 by (by apply edges_reset).
  assert (rising_edges_ s2 = 5) as C2 by (change (rising_edges_ s1 = 5); rewrite C1; cbn; lia).
  destruct (watch_loop_ok fuel s ws1 s2 E2) as (ws3 & s3 & R3 & E3 & C3);
    [unfold fits_counter, kWatchdogCycles; lia|unfold kWatchdogCycles in *; lia|].
  pose proof (Hmarks _ _ E3) as M3. destruct (marks_log ws3) as (_ & _ & D3). rewrite <- M3 in D3.
  unfold Run. fold s0. rewrite result_bind, R1. cbv zeta. fold s2. rewrite result_bind.
  change (result (emit _)) with (Ok tt). cbv iota. rewrite result_bind, R3.
  destruct (done_ (marks_ s3)) eqn:Hd; cbn [negb].
  - destruct (cycles_ok 5 s ws3 s3 E3) as (vs & s4 & R4 & E4 & C4);
      [unfold fits_counter, kWatchdogCycles in *; lia|].
    pose proof (Hmarks _ _ E4) as M4. exists (if pass ec ey (marks_ s4) then 0 else 2), s4, (ws3 ++ vs).
    rewrite result_bind, R4. split; [by destruct (ey =? 0)|]. split; [done|]. split; [unfold kWatchdogCycles in *; lia|].
    rewrite <- pass_spec, <- M4. assert (6 ∈ events_in (ws3 ++ vs)) as H6.
    { rewrite events_in_app, elem_of_app. left. by apply D3. }
    destruct (pass ec ey (marks_ s4)); naive_solver.
  - exists 1, s3, ws3. split; [done|]. split; [done|]. split; [unfold kWatchdogCycles in *; lia|].
    assert (6 ∉ events_in ws3) as H6 by (intros H6; apply D3 in H6; done).
    split; [naive_solver|]. split; [|naive_solver]. split; [done|]. intros [Hp _].
    exfalso. apply H6. rewrite Hp. decide_now.
Qed.

(** C23. A program that reaches its last event is judged on time.  If the core,
    clocked freely from the release of its reset, has event 6 committed
    within [n] cycles, inside the watchdog's budget, then the harness returns
    with a verdict other than the watchdog's, as soon as the first such cycle
    and five more are over, in the state the core is in then. *)
Theorem gol_run_finishes n fuel ec ey s g gn :
  rising_edges_ s = 0 → result (released s) = Ok g →
  result (cycles n g) = Ok gn → done_ (marks_ gn) = true →
  5 + Z.of_nat n <= kWatchdogCycles → (n <= fuel)%nat →
  ∃ m s' code, (m <= n)%nat ∧ (∃ gm, first_done g m gm) ∧ result (cycles (m + 5) g) = Ok s' ∧
    result (Run fuel ec ey s) = Ok (code, s') ∧
    code = (if pass ec ey (marks_ s') then 0 else 2) ∧ rising_edges_ s' = 5 + Z.of_nat m + 5.
Proof.
  intros Hr Hg Hn Hd Hw Hf. unfold released in Hg. apply result_bind_Ok in Hg as (s1 & R1 & Hg).
  cbn [result mret io_ret snd] in Hg. injection Hg as <-. set (g := Evaluate (set_rstn s1 1)) in *.
  destruct (reset_loop_ok [1; 2; 3; 4; 5] s [] _ (edges_low s [] s 0 (edges_nil s))) as (ws & s1' & R1' & _ & C1).
  { unfold fits_counter. cbn. lia. }
  rewrite R1 in R1'. simplify_eq. assert (rising_edges_ g = 5) as Cg by (change (rising_edges_ s1' = 5); rewrite C1; cbn; lia).
  destruct (watch_loop_done n fuel g gn Hn Hd) as (m & gm & Hm & Hfirst & W); [lia|lia|done|].
  destruct (cycles_ok (m + 5) g [] g (edges_nil g)) as (vs & s' & R4 & _ & C4);
    [unfold fits_counter, kWatchdogCycles in *; lia|].
  destruct Hfirst as (R3 & D3 & F3). pose proof (cycles_app m 5 g gm R3) as A. rewrite R4 in A.
  exists m, s', (if pass ec ey (marks_ s') then 0 else 2). split; [done|]. split; [by exists gm|]. split; [done|].
  split; [|split; [done|lia]]. unfold Run. rewrite result_bind, R1. cbv zeta. fold g. rewrite result_bind.
  change (result (emit _)) with (Ok tt). cbv iota. rewrite result_bind, W, D3. cbn [negb].
  rewrite result_bind, <- A. by destruct (ey =? 0).
Qed.

(** A committed write of up to eight bytes at an address in memory is what the
    next read of that address returns, lane by lane, and leaves every other
    byte alone. *)
Theorem gol_write_read s off :
  bytes_ok (memory_ s) → 0 <= off → off + 8 <= kMemoryBytes →
  truthy (axi_b_ready_o (core_out (top_ s))) = true → write_address_ s = kMemoryBase + off →
  ∃ s', CommitWrite s = mret s' ∧
    Read64 (memory_ s') (kMemoryBase + off) =
      merge_lanes (Read64 (memory_ s) (kMemoryBase + off)) (write_data_ s) (write_strobes_ s) ∧
    ∀ k, k < off ∨ off + 8 <= k → get (memory_ s') k = get (memory_ s) k.
Proof.
  intros Hok H0 H1 Hb Ha. unfold CommitWrite. rewrite Hb, Ha. cbn [negb]. cbv zeta.
  unfold kPayloadAddress, kEventAddress, kMemoryBase, kMemoryBytes in *.
  rewrite !(proj2 (Z.eqb_neq _ _)) by lia. replace (2147483648 + off <? 2147483648) with false by lia.
  replace (2147483648 + 1048576 <=? 2147483648 + off) with false by lia. cbn [orb].
  eexists. split; [done|]. cbn [memory_ set_memory].
  replace (2147483648 + off - 2147483648) with off by lia.
  set (m' := commit_loop _ _ _ _ _).
  assert (∀ k, get m' k = if decide (k - off ∈ [0; 1; 2; 3; 4; 5; 6; 7] ∧ Z.testbit (write_strobes_ s) (k - off) = true)
    then lane_byte (write_data_ s) (k - off) else get (memory_ s) k) as Hg.
  { intros k. apply commit_loop_get; [decide_now|]. unfold kMemoryBytes. repeat constructor; lia. }
  assert (bytes_ok m') as Hok'.
  { intros k. rewrite Hg. case_decide; [apply wrap_range; lia|apply Hok]. }
  split.
  - rewrite !Read64_load by (done || (unfold kMemoryBytes; lia)). rewrite load_8_map. unfold merge_lanes. f_equal.
    apply map_ext_in. intros i Hi%list_elem_of_In. rewrite Hg.
    replace (off + i - off) with i by lia.
    assert (0 <= i < 8) by (rewrite !elem_of_cons, elem_of_nil in Hi; lia). rewrite lane_byte_load by done.
    destruct (Z.testbit (write_strobes_ s) i); [by rewrite decide_True|].
    rewrite decide_False; [done|]. by intros [_ ?].
  - intros k Hk. rewrite Hg, decide_False; [done|]. rewrite !elem_of_cons, elem_of_nil. lia.
Qed.
End runs.

(** An image printed one byte per line is loaded and read back: [LoadHex]
    reports its length, and every word of the memory is made of the bytes of
    the image, zero behind its end. *)
Theorem gol_image_reads_back path bs :
  Forall is_byte bs → Z.of_nat (length bs) <= kMemoryBytes →
  ∃ m, LoadHex path (Some (hex2 <$> bs)) =
         (["HEX_BYTES_LOADED=" +:+ fmt_u (Z.of_nat (length bs)) +:+ nl], Ok (inr m)) ∧
    ∀ off, 0 <= off → off + 8 <= kMemoryBytes →
      Read64 m (kMemoryBase + off) =
        le_combine (map (λ i, default 0 (bs !! Z.to_nat (off + i))) [0; 1; 2; 3; 4; 5; 6; 7]).
Proof.
  intros Hbs Hl. exists (store_bytes ∅ 0 bs). unfold LoadHex. rewrite load_lines_bytes by (done || lia).
  split; [done|]. intros off H0 H1.
  rewrite Read64_load by (done || by apply bytes_ok_stored, Hbs; apply bytes_ok_empty).
  rewrite load_8_map. f_equal. apply map_ext_in. intros i Hi%list_elem_of_In.
  assert (0 <= i) by (rewrite !elem_of_cons, elem_of_nil in Hi; lia).
  rewrite get_store_bytes, Z.sub_0_r, Z.add_0_l, get_empty. case_decide; [done|].
  rewrite lookup_ge_None_2 by lia. done.
Qed.

(** ** Witnesses *)

(** A core that writes a fixed list of words, one per cycle. *)
Module Toy.
Definition program : list (Z * Z) :=
  [(kPayloadAddress, 7); (kEventAddress, 1); (0x80000008, 0x1122334455667788); (kEventAddress, 2);
   (kEventAddress, 3); (kPayloadAddress, 44); (kEventAddress, 4); (kPayloadAddress, 55);
   (kEventAddress, 5); (kEventAddress, 6)].
#[global] Instance writer : GolCore nat := {|
  core_eval p n := if clk p =? 1 then S n else n;
  core_out n := let w := default (0, 0) (program !! n) in Outs 1 1 1 0 0 0 w.1 w.2 0x0f
|}.
Definition start : gol nat := GolHarness 0%nat (Ins 0 0 0 0 0 0 0 0 0 0 0 0 0 0 0) ∅.
(** Out of reset, and ten cycles later. *)
Definition freed : gol nat := match result (released start) with Ok g => g | Fault _ => start end.
Definition finished : gol nat := match result (cycles 10 freed) with Ok g => g | Fault _ => start end.
(** About to commit a write of the lower four bytes at offset 8. *)
Definition writing : gol nat :=
  Gol 0%nat (pins start) ∅ 0 0x80000008 0x1122334455667788 0x0f marks_init 0.
End Toy.

Example toy_run_passes :
  fst <$> match result (Run 40 55 44 Toy.start) with Ok r => Some r | Fault _ => None end = Some 0.
Proof. vm_compute. reflexivity. Qed.

Lemma gol_run_verdict_witness :
  ∃ code s' ws, result (Run (Z.to_nat kWatchdogCycles) 55 44 Toy.start) = Ok (code, s') ∧
    edges Toy.start ws s' ∧ (code = 0 ↔ passes 55 44 ws).
Proof.
  destruct (gol_run_verdict (Z.to_nat kWatchdogCycles) 55 44 Toy.start eq_refl eq_refl
    ltac:(rewrite Z2Nat.id; [reflexivity|discriminate])) as (code & s' & ws & HR & He & _ & _ & Hp & _).
  exists code, s', ws. split; [exact HR|]. split; [exact He|exact Hp].
Defined.

Lemma gol_run_finishes_witness :
  ∃ s' code, result (Run 20 55 44 Toy.start) = Ok (code, s') ∧ (code = 0 ∨ code = 2) ∧ rising_edges_ s' <= 20.
Proof.
  destruct (gol_run_finishes 10 20 55 44 Toy.start Toy.freed Toy.finished)
    as (m & s' & code & Hm & _ & _ & HR & Hc & He); [vm_compute; reflexivity..|discriminate|lia|].
  exists s', code. split; [exact HR|]. split; [|lia].
  destruct (pass 55 44 (marks_ s')); [left|right]; exact Hc.
Defined.

Lemma gol_write_read_witness :
  ∃ s', CommitWrite Toy.writing = mret s' ∧ Read64 (memory_ s') 0x80000008 = 0x55667788.
Proof.
  destruct (gol_write_read Toy.writing 8 bytes_ok_empty ltac:(discriminate) ltac:(discriminate)
    eq_refl eq_refl) as (s' & Hc & Hr & _).
  exists s'. split; [exact Hc|]. etrans; [exact Hr|]. vm_compute. reflexivity.
Defined.

Lemma gol_image_reads_back_witness :
  ∃ m, LoadHex "gol.hex" (Some ["13"; "05"; "a0"; "02"]) = (["HEX_BYTES_LOADED=4" +:+ nl], Ok (inr m)) ∧
       Read64 m 0x80000000 = 0x02a00513.
Proof.
  destruct (gol_image_reads_back "gol.hex" [0x13; 0x05; 0xa0; 0x02]
    ltac:(repeat constructor; unfold is_byte; lia) ltac:(discriminate)) as (m & Hl & Hr).
  exists m. split; [exact Hl|]. etrans; [apply (Hr 0); discriminate|]. vm_compute. reflexivity.
Defined.
