(* ===== verification/GolProf.v ===== *)
(** * The counting game-of-life harnesses
    [models/cache/gol_cache_profile_harness.cpp] and
    [models/loaduse_p1/gol_profile_harness.cpp]: the game-of-life harness with
    32 counters sampled inside a region of interest (ROI) that is found in the
    image, and a trace of the data-cache accesses.  The two files differ in the
    calls of the dependency observer, which are the class [Probe], and in their
    verdict (modules [CacheHarness] and [P1Harness]).  The part of the state that
    drives the bus is that of [Gol], whose statements both files repeat. *)
From Stdlib Require Import Ascii.
From stdpp Require Import base numbers list option strings gmap.
From S2P Require Import Prelude Bytes CText PMem Env DepObs Gol.

Local Open Scope Z_scope.

(** ** The image, and the ROI in it *)

Fixpoint load_tokens (m : bytes) (offset : Z) (lines : list string) : string + bytes * Z :=
  match lines with
  | [] => inr (m, offset)
  | token :: lines =>
      match hex_byte token with
      | Some v =>
          if kMemoryBytes <=? offset then inl "invalid HEX"
          else load_tokens (<[offset := v]> m) (offset + 1) lines
      | None => inl "invalid HEX"
      end
  end.

Definition word_at (m : bytes) (byte : Z) : Z :=
  u32 (Z.lor (Z.lor (Z.lor (get m byte) (Z.shiftl (get m (byte + 1)) 8))
                    (Z.shiftl (get m (byte + 2)) 16)) (Z.shiftl (get m (byte + 3)) 24)).
Definition is_csrr_cycle (word : Z) : bool := Z.land word 0xfffff07f =? 0xc0002073.

(** The scan for reads of the cycle counter; the fuel bounds its steps. *)
Fixpoint scan_csrs (fuel : nat) (m : bytes) (byte offset : Z) (cycle_csrs : list Z) : list Z :=
  match fuel with
  | O => cycle_csrs
  | S fuel =>
      if byte + 3 <? offset then
        scan_csrs fuel m (byte + 4) offset
          (if is_csrr_cycle (word_at m byte) then cycle_csrs ++ [kMemoryBase + byte] else cycle_csrs)
      else cycle_csrs
  end.

(** The memory, [roi_start_pc_] and [roi_end_pc_]. *)
Definition LoadHex (file : option (list string)) : string + bytes * Z * Z :=
  match file with
  | None => inl "cannot open HEX"
  | Some lines =>
      match load_tokens ∅ 0 lines with
      | inl what => inl what
      | inr (m, offset) =>
          match scan_csrs (Z.to_nat offset) m 0 offset [] with
          | [_; _; start; stop] => inr (m, start, stop)
          | _ => inl "unexpected csrr cycle count"
          end
      end
  end.

(** ** The profile *)

(** Ports of the core that only the counting harnesses read. *)
Record perf := Perf {
  perf_icache_access_event : Z; perf_icache_hit_event : Z; perf_icache_miss_event : Z;
  perf_icache_miss_stall : Z; perf_icache_total_stall : Z;
  perf_dcache_access_event : Z; perf_dcache_load_access_event : Z; perf_dcache_store_access_event : Z;
  perf_dcache_hit_event : Z; perf_dcache_miss_event : Z; perf_dcache_dirty_eviction_event : Z;
  perf_dcache_miss_stall : Z; perf_dcache_writeback_stall : Z; perf_dcache_total_stall : Z;
  perf_dcache_access_address : Z; perf_dcache_access_wmask : Z;
  perf_divider_stall : Z; perf_branch_recovery : Z; perf_dependency_stall : Z;
  perf_dependency_consumer_pc : Z; perf_dependency_consumer_inst : Z;
  perf_dependency_producer_rd : Z; perf_dependency_producer_address : Z;
  perf_exu_active : Z; perf_exu_pc : Z; perf_exu_inst : Z
}.
Class PerfPorts (T : Type) := perf_out : T → perf.

(** Where a harness calls an observer of its own. *)
Class Probe (O : Type) := {
  probe_begin_roi : O → O;
  probe_end_roi : O → O;
  probe_cycle : O → O;
  probe_sample : perf → O → O
}.

(** An output stream: writing to one that was never opened only makes it bad. *)
Record ofstream := Ofstream { is_open : bool; bad : bool; written : list string }.
Definition stream_put (f : ofstream) (text : string) : ofstream :=
  if bad f then f
  else if is_open f then Ofstream true false (written f ++ [text])
  else Ofstream false true (written f).

Record Counts := mkCounts { counted_cycles : Z; values : list Z }.
Definition counts_zero : Counts := mkCounts 0 (replicate 34 0).

(** The previous levels of the three stall signals. *)
Record levels := Levels { previous_icache_refill_ : bool; previous_dcache_refill_ : bool;
  previous_dcache_writeback_ : bool }.

Record profile (B : Type) := Profile {
  counts_ : Counts;
  roi_start_pc_ : Z; roi_end_pc_ : Z;
  roi_ : bool; roi_completed_ : bool;
  levels_ : levels;
  trace_file_ : ofstream; trace_sequence_ : Z;
  probe_ : B
}.
Arguments Profile {B} _ _ _ _ _ _ _ _ _.
Arguments counts_ {B} _.
Arguments roi_start_pc_ {B} _.
Arguments roi_end_pc_ {B} _.
Arguments roi_ {B} _.
Arguments roi_completed_ {B} _.
Arguments levels_ {B} _.
Arguments trace_file_ {B} _.
Arguments trace_sequence_ {B} _.
Arguments probe_ {B} _.

(** [value[i] += x], for one cycle, in the order of the source. *)
Definition bump (v : list Z) (u : nat * Z) : list Z := alter (λ x, u64 (x + u.2)) u.1 v.
Definition land_z (a b : bool) : Z := Z.b2z (a && b).
Definition exclusive (p : perf) : nat :=
  if truthy (perf_dcache_total_stall p) then 24%nat
  else if truthy (perf_divider_stall p) then 25%nat
  else if truthy (perf_branch_recovery p) then 26%nat
  else if truthy (perf_dependency_stall p) then 27%nat
  else if truthy (perf_icache_total_stall p) then 28%nat
  else 29%nat.
Definition increments (l : levels) (p : perf) : list (nat * Z) :=
  let hit := truthy (perf_dcache_hit_event p) in
  let miss := truthy (perf_dcache_miss_event p) in
  let load := truthy (perf_dcache_load_access_event p) in
  let store := truthy (perf_dcache_store_access_event p) in
  [(0%nat, perf_icache_access_event p);
   (1%nat, perf_icache_hit_event p);
   (2%nat, perf_icache_miss_event p);
   (3%nat, land_z (truthy (perf_icache_miss_stall p)) (negb (previous_icache_refill_ l)));
   (4%nat, land_z (negb (truthy (perf_icache_miss_stall p))) (previous_icache_refill_ l));
   (5%nat, perf_icache_miss_stall p);
   (6%nat, perf_icache_total_stall p);
   (7%nat, perf_dcache_access_event p);
   (8%nat, perf_dcache_load_access_event p);
   (9%nat, perf_dcache_store_access_event p);
   (10%nat, perf_dcache_hit_event p);
   (11%nat, perf_dcache_miss_event p);
   (12%nat, land_z hit load);
   (13%nat, land_z miss load);
   (14%nat, land_z hit store);
   (15%nat, land_z miss store);
   (16%nat, land_z (truthy (perf_dcache_miss_stall p)) (negb (previous_dcache_refill_ l)));
   (17%nat, land_z (negb (truthy (perf_dcache_miss_stall p))) (previous_dcache_refill_ l));
   (18%nat, perf_dcache_dirty_eviction_event p);
   (19%nat, land_z (truthy (perf_dcache_writeback_stall p)) (negb (previous_dcache_writeback_ l)));
   (20%nat, land_z (negb (truthy (perf_dcache_writeback_stall p))) (previous_dcache_writeback_ l));
   (21%nat, perf_dcache_miss_stall p);
   (22%nat, perf_dcache_writeback_stall p);
   (23%nat, perf_dcache_total_stall p);
   (30%nat, perf_icache_miss_event p);
   (31%nat, perf_dcache_miss_event p);
   (exclusive p, 1)].

Section profiling.
Context {B : Type} `{!Probe B}.
Implicit Types v : profile B.

Definition set_probe v (o : B) : profile B :=
  Profile (counts_ v) (roi_start_pc_ v) (roi_end_pc_ v) (roi_ v) (roi_completed_ v) (levels_ v)
    (trace_file_ v) (trace_sequence_ v) o.
Definition set_prof_counts v (c : Counts) : profile B :=
  Profile c (roi_start_pc_ v) (roi_end_pc_ v) (roi_ v) (roi_completed_ v) (levels_ v)
    (trace_file_ v) (trace_sequence_ v) (probe_ v).
Definition set_prof_roi v (roi completed : bool) : profile B :=
  Profile (counts_ v) (roi_start_pc_ v) (roi_end_pc_ v) roi completed (levels_ v)
    (trace_file_ v) (trace_sequence_ v) (probe_ v).
Definition set_levels v (p : perf) : profile B :=
  Profile (counts_ v) (roi_start_pc_ v) (roi_end_pc_ v) (roi_ v) (roi_completed_ v)
    (Levels (truthy (perf_icache_miss_stall p)) (truthy (perf_dcache_miss_stall p))
       (truthy (perf_dcache_writeback_stall p)))
    (trace_file_ v) (trace_sequence_ v) (probe_ v).

Definition Sample v (p : perf) : profile B :=
  if negb (roi_ v) then v
  else
    let c := counts_ v in
    let v := set_probe v (probe_cycle (probe_ v)) in
    let v := set_prof_counts v (mkCounts (u64 (counted_cycles c + 1))
               (foldl bump (values c) (increments (levels_ v) p))) in
    set_probe v (probe_sample p (probe_ v)).

Definition trace_line (sequence edges : Z) (phase : string) (p : perf) : string :=
  fmt_u sequence +:+ "," +:+ fmt_u edges +:+ "," +:+ phase +:+ ",0x"
  +:+ fmt_0x 8 (perf_dcache_access_address p) +:+ ","
  +:+ (if truthy (perf_dcache_store_access_event p) then "STORE" else "LOAD") +:+ ",0x"
  +:+ fmt_0x 2 (perf_dcache_access_wmask p) +:+ "," +:+ fmt_u (perf_dcache_hit_event p) +:+ ","
  +:+ fmt_u (perf_dcache_miss_event p) +:+ "," +:+ fmt_u (perf_dcache_dirty_eviction_event p) +:+ nl.

Definition SampleTrace v (edges : Z) (phase : string) (p : perf) : profile B :=
  if bad (trace_file_ v) || roi_completed_ v || negb (truthy (perf_dcache_access_event p)) then v
  else Profile (counts_ v) (roi_start_pc_ v) (roi_end_pc_ v) (roi_ v) (roi_completed_ v) (levels_ v)
         (stream_put (trace_file_ v) (trace_line (trace_sequence_ v) edges phase p))
         (u64 (trace_sequence_ v + 1)) (probe_ v).

Definition starts v (p : perf) : bool := truthy (perf_exu_active p) && (perf_exu_pc p =? roi_start_pc_ v).
Definition stops v (p : perf) : bool := truthy (perf_exu_active p) && (perf_exu_pc p =? roi_end_pc_ v).

(** What [Tick] does to the profile between its two evaluations. *)
Definition sample_edge v (edges : Z) (p : perf) : profile B :=
  let start := starts v p in
  let stop := stops v p in
  let v := if start then
             let v := SampleTrace v edges "PRE_ROI" p in
             let v := set_prof_roi v true (roi_completed_ v) in
             set_probe v (probe_begin_roi (probe_ v))
           else
             Sample (SampleTrace v edges (if roi_ v then "ROI" else "PRE_ROI") p) p in
  if stop then
    let v := set_prof_roi v false true in
    set_probe v (probe_end_roi (probe_ v))
  else v.
End profiling.

(** ** The harness *)

(** The byte loop has no test of the end of the array. *)
Fixpoint commit_bytes (m : bytes) (offset data strobes : Z) (lanes : list Z) : io bytes :=
  match lanes with
  | [] => mret m
  | byte :: lanes =>
      if truthy (Z.land (Z.shiftr strobes byte) 1) then
        if offset + byte <? kMemoryBytes
        then commit_bytes (<[offset + byte := u8 (Z.shiftr data (8 * byte))]> m) offset data strobes lanes
        else fail OutOfBounds
      else commit_bytes m offset data strobes lanes
  end.

Section harness.
Context {T : Type} `{!GolCore T, !PerfPorts T} {B : Type} `{!Probe B}.

Definition CommitWrite (s : gol T) : io (gol T) :=
  let a := write_address_ s in
  if negb (truthy (axi_b_ready_o (core_out (top_ s)))) then mret s
  else if a =? kPayloadAddress then mret (set_marks s (set_payload (marks_ s) (write_data_ s)))
  else if a =? kEventAddress then mret (set_marks s (add_event (marks_ s) (write_data_ s)))
  else if (kMemoryBase <=? a) && (a <? kMemoryBase + kMemoryBytes) then
    m ← commit_bytes (memory_ s) (a - kMemoryBase) (write_data_ s) (write_strobes_ s)
          [0; 1; 2; 3; 4; 5; 6; 7];
    mret (set_memory s m)
  else mret s.

Definition Drive (s : gol T) : gol T :=
  let o := core_out (top_ s) in
  set_pins s (Ins (clk (pins s)) (rstn (pins s)) (axi_aw_valid_o o) (axi_w_valid_o o) (axi_b_ready_o o)
    (axi_ar_valid_o o) (axi_r_ready_o o) (Read64 (memory_ s) (read_address_ s)) 0 0 0 0 1 0 0).
Definition Eval (s : gol T) : gol T :=
  let s := Drive s in
  Gol (core_eval (pins s) (top_ s)) (pins s) (memory_ s) (read_address_ s) (write_address_ s)
    (write_data_ s) (write_strobes_ s) (marks_ s) (rising_edges_ s).

Record prof := Prof { base : gol T; view : profile B }.

Definition Tick (s : prof) : io prof :=
  let g := count_edge (Eval (set_clk (base s) 1)) in
  let p := perf_out (top_ g) in
  let v := sample_edge (view s) (rising_edges_ g) p in
  g ← CommitWrite g;
  mret (Prof (Eval (set_clk (latch g) 0)) (set_levels v p)).

Fixpoint ticks (n : nat) (s : prof) : io prof :=
  match n with O => mret s | S n => s ← Tick s; ticks n s end.

(** The main loop; the fuel bounds its iterations. *)
Fixpoint watch (fuel : nat) (s : prof) : io prof :=
  if negb (done_ (marks_ (base s))) && (rising_edges_ (base s) <? kWatchdogCycles) then
    s ← Tick s;
    match fuel with O => fail OutOfFuel | S fuel => watch fuel s end
  else mret s.

(** The part of [Run] up to the verdict. *)
Definition session (fuel : nat) (s : prof) : io prof :=
  s ← ticks 5 (Prof (Eval (set_rstn (set_clk (base s) 0) 0)) (view s));
  s ← watch fuel (Prof (Eval (set_rstn (base s) 1)) (view s));
  ticks 5 s.

Definition Sequence (s : prof) : string := EventSequence (events_ (marks_ (base s))).

Definition value (c : Counts) (i : nat) : Z := default 0 (values c !! i).
Definition invariants (c : Counts) : bool :=
  (value c 0 =? u64 (value c 1 + value c 2)) &&
  (value c 7 =? u64 (value c 8 + value c 9)) &&
  (value c 7 =? u64 (value c 10 + value c 11)) &&
  (value c 8 =? u64 (value c 12 + value c 13)) &&
  (value c 9 =? u64 (value c 14 + value c 15)).

Definition kNames : list string :=
  ["icache_accesses"; "icache_hits"; "icache_misses"; "icache_refill_started_in_roi";
   "icache_refill_completed_in_roi"; "icache_miss_stall_cycles"; "icache_total_stall_cycles";
   "dcache_accesses"; "dcache_load_accesses"; "dcache_store_accesses"; "dcache_hits"; "dcache_misses";
   "dcache_load_hits"; "dcache_load_misses"; "dcache_store_hits"; "dcache_store_misses";
   "dcache_refill_started_in_roi"; "dcache_refill_completed_in_roi"; "dcache_dirty_evictions";
   "dcache_writeback_started_in_roi"; "dcache_writeback_completed_in_roi"; "dcache_miss_stall_cycles";
   "dcache_writeback_stall_cycles"; "dcache_total_stall_cycles"; "exclusive_dcache_cycles";
   "exclusive_divider_cycles"; "exclusive_branch_cycles"; "exclusive_dependency_cycles";
   "exclusive_icache_cycles"; "exclusive_other_cycles"; "icache_miss_allocated_in_roi";
   "dcache_miss_allocated_in_roi"; "reserved0"; "reserved1"].

(** The text written to [json_]. *)
Definition WriteJson (s : prof) (invs functional : bool) : list string :=
  let c := counts_ (view s) in
  let k := marks_ (base s) in
  ["{" +:+ nl +:+ json_line "schema_version" (quoted "a2-cache-c0-gol-v1");
   json_line "roi_cycles" (fmt_u (measured_cycles_ k));
   json_line "counter_sampled_cycles" (fmt_u (counted_cycles c))]
  ++ map (λ i, json_line (default EmptyString (kNames !! i)) (fmt_u (value c i))) (seq 0 32)
  ++ [json_line "checksum" (fmt_u (checksum_ k));
      json_line "retirement_status" (quoted "NOT_QUALIFIED_UNAVAILABLE_AT_SYNTHESIS_TOP");
      json_line "counter_invariants_pass" (bool_text invs);
      "  " +:+ quoted "functional_status" +:+ ": " +:+ quoted (if functional then "PASS" else "FAIL")
      +:+ nl +:+ "}" +:+ nl].

Definition summary (s : prof) (invs functional : bool) : io unit :=
  let k := marks_ (base s) in
  emit ("MARKER_EVENT_SEQUENCE=" +:+ Sequence s +:+ nl);;
  emit ("OBSERVED_CYCLES_PER_GENERATION=" +:+ fmt_u (measured_cycles_ k) +:+ nl);;
  emit ("COUNTER_SAMPLED_CYCLES=" +:+ fmt_u (counted_cycles (counts_ (view s))) +:+ nl);;
  emit ("OBSERVED_CHECKSUM=" +:+ fmt_u (checksum_ k) +:+ nl);;
  emit ("CACHE_COUNTER_INVARIANTS=" +:+ (if invs then "PASS" else "FAIL") +:+ nl);;
  emit ("CONTROLLED_TERMINATION=" +:+ (if functional then "PASS" else "FAIL") +:+ nl).

(** The constructor behind [LoadHex], on a model [top] with its inputs at [p]
    and an observer [o]; [opens]: whether the trace file can be opened. *)
Definition trace_header : string :=
  "sequence_number,simulation_cycle,phase,address,operation,wmask,rtl_hit,rtl_miss,rtl_dirty_eviction" +:+ nl.
Definition Harness (top : T) (p : ins) (image : bytes * Z * Z) (o : B) (trace : string) (opens : bool) :
    string + prof :=
  let '(m, start, stop) := image in
  let mk f := Prof (GolHarness top p m)
                (Profile counts_zero start stop false false (Levels false false false) f 0 o) in
  if String.eqb trace EmptyString then inr (mk (Ofstream false false []))
  else if opens then inr (mk (Ofstream true false [trace_header]))
  else inl "cannot open trace output".
End harness.
Arguments prof T B : clear implicits.
Arguments Prof {T B} _ _.

(** The arguments of [main] behind the program name. *)
Record cli := Cli { hex_arg : string; json_arg : string; sum_arg : string; cyc_arg : string; trace_arg : string }.
Definition cli_of (args : list string) : option cli :=
  match args with
  | [hex; json; sum; cyc] => Some (Cli hex json sum cyc EmptyString)
  | [hex; json; sum; cyc; trace] => Some (Cli hex json sum cyc trace)
  | _ => None
  end.

(** What escapes as an exception is reported; nothing is written then. *)
Definition reported {A} (r : string + io (Z * A)) : io (Z * option A) :=
  match r with
  | inl what => code ← harness_error what; mret (code, None)
  | inr m => '(code, files) ← m; mret (code, Some files)
  end.

Definition try {A B} (r : string + A) (f : A → string + B) : string + B :=
  match r with inl what => inl what | inr a => f a end.

(** *** The cache harness: no observer, and an exact number of cycles *)

#[global] Instance no_probe : Probe unit :=
  {| probe_begin_roi := id; probe_end_roi := id; probe_cycle := id; probe_sample _ := id |}.

Module CacheHarness.
Section run.
Context {T : Type} `{!GolCore T, !PerfPorts T}.

Definition Read64 : bytes → Z → Z := Gol.Read64.

Definition functional (expected_checksum expected_cycles : Z) (k : marks) : bool :=
  done_ k && bool_decide (events_ k = [1; 2; 3; 4; 5; 6]) &&
  (measured_cycles_ k =? expected_cycles) && (checksum_ k =? expected_checksum).

(** The exit code, the lines of the JSON file and the final state. *)
Definition Run (fuel : nat) (expected_checksum expected_cycles : Z) (s : prof T unit) :
    io (Z * list string * prof T unit) :=
  s ← session fuel s;
  let k := marks_ (base s) in
  let c := counts_ (view s) in
  let invs := invariants c in
  let f := functional expected_checksum expected_cycles k in
  let json := WriteJson s invs f in
  summary s invs f;;
  mret (if invs && f && (counted_cycles c =? measured_cycles_ k) then 0 else 2, json, s).

Definition main (fuel : nat) (file : string → option (list string)) (opens : bool) (top : T) (p : ins)
    (args : list string) : io (Z * option (list string)) :=
  match cli_of args with
  | None => mret (64, None)
  | Some a =>
      reported (try (stoull (sum_arg a)) (λ checksum, try (stoull (cyc_arg a)) (λ cycles,
        try (LoadHex (file (hex_arg a))) (λ image, try (Harness top p image tt (trace_arg a) opens) (λ h,
          inr ('(code, json, _) ← Run fuel checksum cycles h; mret (code, json)))))))
  end.
End run.
End CacheHarness.

(** *** The load-use harness: the dependency observer, and cycles that may be free *)

Definition dependency_sample (p : perf) : DependencyObserverSample :=
  mkSample (truthy (perf_dependency_stall p)) (truthy (perf_dcache_total_stall p))
    (truthy (perf_divider_stall p)) (truthy (perf_branch_recovery p))
    (truthy (perf_dcache_load_access_event p)) (truthy (perf_dcache_hit_event p))
    (truthy (perf_dcache_miss_event p)) (perf_dcache_access_address p)
    (perf_dependency_consumer_pc p) (perf_dependency_consumer_inst p) (perf_exu_pc p) (perf_exu_inst p)
    (perf_dependency_producer_rd p) (perf_dependency_producer_address p).

#[global] Instance dependency_probe : Probe observer :=
  {| probe_begin_roi := dependency_observer_begin_roi; probe_end_roi := dependency_observer_end_roi;
     probe_cycle := dependency_observer_cycle;
     probe_sample p o := dependency_observer_sample o (dependency_sample p) |}.

Module P1Harness.
Section run.
Context {T : Type} `{!GolCore T, !PerfPorts T}.

(** The functions that the second file repeats word for word. *)
Definition LoadHex : option (list string) → string + bytes * Z * Z := GolProf.LoadHex.
Definition Read64 : bytes → Z → Z := Gol.Read64.
Definition SampleTrace : profile observer → Z → string → perf → profile observer := GolProf.SampleTrace.
Definition CommitWrite : gol T → io (gol T) := GolProf.CommitWrite.
Definition Drive : gol T → gol T := GolProf.Drive.
Definition Eval : gol T → gol T := GolProf.Eval.
Definition Sequence : prof T observer → string := GolProf.Sequence.
Definition WriteJson : prof T observer → bool → bool → list string := GolProf.WriteJson.

(** The text of the second file where it calls the observer. *)
Definition Sample (v : profile observer) (p : perf) : profile observer :=
  if negb (roi_ v) then v
  else
    let c := counts_ v in
    let v := set_probe v (dependency_observer_cycle (probe_ v)) in
    let v := set_prof_counts v (mkCounts (u64 (counted_cycles c + 1))
               (foldl bump (values c) (increments (levels_ v) p))) in
    set_probe v (dependency_observer_sample (probe_ v) (dependency_sample p)).

Definition Tick (s : prof T observer) : io (prof T observer) :=
  let g := count_edge (Eval (set_clk (base s) 1)) in
  let p := perf_out (top_ g) in
  let v := view s in
  let n := rising_edges_ g in
  let start := starts v p in
  let stop := stops v p in
  let v := if start then
             let v := SampleTrace v n "PRE_ROI" p in
             let v := set_prof_roi v true (roi_completed_ v) in
             set_probe v (dependency_observer_begin_roi (probe_ v))
           else
             Sample (SampleTrace v n (if roi_ v then "ROI" else "PRE_ROI") p) p in
  let v := if stop then
             let v := set_prof_roi v false true in
             set_probe v (dependency_observer_end_roi (probe_ v))
           else v in
  g ← CommitWrite g;
  mret (Prof (Eval (set_clk (latch g) 0)) (set_levels v p)).

(** It is the common text at this observer. *)
Lemma Tick_common (s : prof T observer) : Tick s = GolProf.Tick s.
Proof. done. Qed.

Definition Harness (e : env) (top : T) (p : ins) (image : bytes * Z * Z) (trace : string) (opens : bool) :
    string + prof T observer :=
  let o := dependency_observer_init observer_zero (e "DEPENDENCY_PROFILE_OUT") (e "PERF_WORKLOAD") in
  let o := dependency_observer_end_roi o in
  GolProf.Harness top p image o trace opens.

Definition functional (expected_checksum expected_cycles : Z) (k : marks) : bool :=
  done_ k && bool_decide (events_ k = [1; 2; 3; 4; 5; 6]) &&
  (if expected_cycles =? 0 then 0 <? measured_cycles_ k else measured_cycles_ k =? expected_cycles) &&
  (checksum_ k =? expected_checksum).

(** [fopens]: whether the report of the observer can be opened; the result
    holds its lines, too. *)
Definition Run (fopens : bool) (fuel : nat) (expected_checksum expected_cycles : Z) (s : prof T observer) :
    io (Z * (list string * option (list string)) * prof T observer) :=
  s ← session fuel s;
  let k := marks_ (base s) in
  let c := counts_ (view s) in
  let invs := invariants c in
  let f := functional expected_checksum expected_cycles k in
  let json := WriteJson s invs f in
  let '(dependency_status, report) :=
    dependency_observer_finalize fopens (if f then 0 else 2) (probe_ (view s)) in
  summary s invs f;;
  mret (if invs && f && (counted_cycles c =? measured_cycles_ k) && (dependency_status =? 0) then 0 else 2,
        (json, report), s).

Definition main (e : env) (fopens : bool) (fuel : nat) (file : string → option (list string)) (opens : bool)
    (top : T) (p : ins) (args : list string) : io (Z * option (list string * option (list string))) :=
  match cli_of args with
  | None => mret (64, None)
  | Some a =>
      reported (try (stoull (sum_arg a)) (λ checksum, try (stoull (cyc_arg a)) (λ cycles,
        try (LoadHex (file (hex_arg a))) (λ image, try (Harness e top p image (trace_arg a) opens) (λ h,
          inr ('(code, files, _) ← Run fopens fuel checksum cycles h; mret (code, files)))))))
  end.
End run.
End P1Harness.
