(* ===== verification/GolCount.v ===== *)
(** * What the counters count
    The profile of [GolProf] as a run of one step per clock edge: the samples of
    the region of interest, what each adds to each counter, and the dependency
    observer next to the counters. *)
From stdpp Require Import base numbers list option strings gmap.
From S2P Require Import Prelude Bytes CText PMem Env DepObs Gol GolProf.

Local Open Scope Z_scope.

(** ** Counters *)

(** What a list of updates adds to counter [i]; what a sample adds. *)
Definition inc_at (i : nat) (us : list (nat * Z)) : Z := sum_list_Z (snd <$> filter (λ u, u.1 = i) us).
Definition delta (i : nat) (e : levels * perf) : Z := inc_at i (increments e.1 e.2).

Lemma length_bump v us : length (foldl bump v us) = length v.
Proof. revert v. induction us as [|u us IH]; intros v; [done|]. cbn. rewrite IH. apply length_alter. Qed.

Lemma foldl_bump v us i x :
  v !! i = Some x → 0 <= x < 2 ^ 64 → foldl bump v us !! i = Some (u64 (x + inc_at i us)).
Proof.
  revert v x. induction us as [|[j y] us IH]; intros v x Hv Hx.
  { cbn. unfold u64. by rewrite Z.add_0_r, wrap_small. }
  unfold inc_at in *. rewrite filter_cons. cbn [foldl fst]. unfold bump at 2. cbn [fst snd].
  destruct (decide (j = i)) as [->|Hj].
  - rewrite (IH _ (u64 (x + y))); [|by rewrite list_lookup_alter_eq, Hv|apply wrap_range; lia].
    f_equal. unfold u64. rewrite wrap_add_l. cbn. f_equal. unfold sum_list_Z. lia.
  - apply IH; [|done]. by rewrite list_lookup_alter_ne.
Qed.

Section observing.
Context {B : Type} `{!Probe B}.
Implicit Types v : profile B.

Definition at_pc (pc : Z) (p : perf) : bool := truthy (perf_exu_active p) && (perf_exu_pc p =? pc).
Definition levels_of (p : perf) : levels :=
  Levels (truthy (perf_icache_miss_stall p)) (truthy (perf_dcache_miss_stall p))
    (truthy (perf_dcache_writeback_stall p)).

(** One rising edge, as the profile sees it: the number of edges, the ports. *)
Definition observe v (e : Z * perf) : profile B := set_levels (sample_edge v e.1 e.2) e.2.

Definition add_sample (c : Counts) (e : levels * perf) : Counts :=
  mkCounts (u64 (counted_cycles c + 1)) (foldl bump (values c) (increments e.1 e.2)).
(** The observer after the first half of [sample_edge], and after both. *)
Definition probe_mid (start roi : bool) (p : perf) (o : B) : B :=
  if start then probe_begin_roi o else if roi then probe_sample p (probe_cycle o) else o.
Definition probe_next (start stop roi : bool) (p : perf) (o : B) : B :=
  if stop then probe_end_roi (probe_mid start roi p o) else probe_mid start roi p o.

(** Everything but the trace. *)
Lemma observe_spec v n p :
  let v' := observe v (n, p) in
  let s := at_pc (roi_start_pc_ v) p in
  let t := at_pc (roi_end_pc_ v) p in
  counts_ v' = (if roi_ v && negb s then add_sample (counts_ v) (levels_ v, p) else counts_ v) ∧
  roi_ v' = (if t then false else s || roi_ v) ∧
  levels_ v' = levels_of p ∧ roi_start_pc_ v' = roi_start_pc_ v ∧ roi_end_pc_ v' = roi_end_pc_ v ∧
  probe_ v' = probe_next s t (roi_ v) p (probe_ v).
Proof.
  unfold observe, sample_edge, starts, stops, at_pc, probe_next, probe_mid, SampleTrace, Sample. cbn [fst snd].
  destruct (truthy (perf_exu_active p) && (perf_exu_pc p =? roi_start_pc_ v)),
    (truthy (perf_exu_active p) && (perf_exu_pc p =? roi_end_pc_ v)), (roi_ v) eqn:Er;
    destruct (bad (trace_file_ v) || roi_completed_ v || negb (truthy (perf_dcache_access_event p)));
    cbn -[foldl increments]; rewrite ?Er; cbn -[foldl increments]; done.
Qed.

(** The samples of a run: the edges inside the ROI that do not (re)start it,
    each with the levels of the edge before. *)
Fixpoint sampled (a b : Z) (roi : bool) (l : levels) (ps : list perf) : list (levels * perf) :=
  match ps with
  | [] => []
  | p :: ps =>
      let rest := sampled a b (if at_pc b p then false else at_pc a p || roi) (levels_of p) ps in
      if roi && negb (at_pc a p) then (l, p) :: rest else rest
  end.
Definition samples_of v (es : list (Z * perf)) : list (levels * perf) :=
  sampled (roi_start_pc_ v) (roi_end_pc_ v) (roi_ v) (levels_ v) (snd <$> es).

Lemma counts_fold es v : counts_ (run observe v es) = foldl add_sample (counts_ v) (samples_of v es).
Proof.
  revert v. induction es as [|[n p] es IH]; intros v; [done|]. cbn [run]. rewrite IH.
  destruct (observe_spec v n p) as (Hc & Hr & Hl & Ha & Hb & _).
  unfold samples_of. rewrite Hc, Hr, Hl, Ha, Hb. cbn [fmap list_fmap sampled snd].
  by destruct (roi_ v && negb (at_pc (roi_start_pc_ v) p)).
Qed.

Definition sums (i : nat) (w : list (levels * perf)) : Z := sum_list_Z (delta i <$> w).

Lemma sums_cons i e w : sums i (e :: w) = delta i e + sums i w.
Proof. done. Qed.
Lemma sums_app i w w' : sums i (w ++ w') = sums i w + sums i w'.
Proof. unfold sums. by rewrite fmap_app, sum_list_Z_app. Qed.
#[local] Opaque delta.

Lemma fold_samples w c i x :
  values c !! i = Some x → 0 <= x < 2 ^ 64 → 0 <= counted_cycles c < 2 ^ 64 →
  let c' := foldl add_sample c w in
  values c' !! i = Some (u64 (x + sums i w)) ∧ counted_cycles c' = u64 (counted_cycles c + Z.of_nat (length w)).
Proof.
  revert c x. induction w as [|e w IH]; intros c x Hi Hx Hc.
  { cbn. unfold u64. by rewrite !Z.add_0_r, !wrap_small. }
  cbn [foldl]. destruct (IH (add_sample c e) (u64 (x + delta i e))) as [H1 H2].
  { by apply foldl_bump. }
  { apply wrap_range; lia. }
  { apply wrap_range; lia. }
  rewrite sums_cons. cbn [length]. split; [etrans; [exact H1|]|etrans; [exact H2|]];
    cbn [add_sample counted_cycles]; unfold u64; rewrite wrap_add_l; [f_equal|]; f_equal; lia.
Qed.

(** From a profile whose counters are zero. *)
Lemma counts_run v es i :
  counts_ v = counts_zero → (i < 34)%nat →
  value (counts_ (run observe v es)) i = u64 (sums i (samples_of v es)) ∧
  counted_cycles (counts_ (run observe v es)) = u64 (Z.of_nat (length (samples_of v es))).
Proof.
  intros Hc Hi. rewrite counts_fold, Hc.
  destruct (fold_samples (samples_of v es) counts_zero i 0) as [H1 H2]; [by apply lookup_replicate_2|done..|].
  unfold value. cbv zeta in *. rewrite H1, H2. done.
Qed.
End observing.

(** *** What one sample adds *)

Lemma delta_eq i l p :
  delta i (l, p) = foldr (λ u acc, (if Nat.eqb u.1 i then u.2 else 0) + acc) 0 (increments l p).
Proof.
  change (delta i (l, p)) with (inc_at i (increments l p)). unfold inc_at.
  induction (increments l p) as [|[j x] us IH]; [done|]. rewrite filter_cons. cbn [foldr fst snd].
  rewrite <- IH. destruct (decide (j = i)) as [->|Hj].
  - by rewrite Nat.eqb_refl.
  - apply Nat.eqb_neq in Hj. by rewrite Hj.
Qed.

Lemma exclusive_range p : (24 <= exclusive p < 30)%nat.
Proof. unfold exclusive. repeat case_if; lia. Qed.
Lemma exclusive_ne p i : (i < 24)%nat → Nat.eqb (exclusive p) i = false.
Proof. intros Hi. apply Nat.eqb_neq. pose proof (exclusive_range p). lia. Qed.

(** The sum over the updates, for a numeral below 24. *)
Ltac delta_event := rewrite !delta_eq; cbn -[exclusive Z.add]; rewrite !exclusive_ne by lia.

(** What the core promises of its event signals in one cycle. *)
Definition is_bit (z : Z) : Prop := z = 0 ∨ z = 1.
Record coherent (p : perf) : Prop := {
  coherent_bits : Forall is_bit [perf_dcache_load_access_event p; perf_dcache_store_access_event p;
                    perf_dcache_hit_event p; perf_dcache_miss_event p; perf_dcache_access_event p];
  coherent_icache : perf_icache_access_event p = perf_icache_hit_event p + perf_icache_miss_event p;
  coherent_kind : perf_dcache_access_event p = perf_dcache_load_access_event p + perf_dcache_store_access_event p;
  coherent_dcache : perf_dcache_access_event p = perf_dcache_hit_event p + perf_dcache_miss_event p
}.

Lemma delta_identities l p :
  coherent p →
  delta 0 (l, p) = delta 1 (l, p) + delta 2 (l, p) ∧ delta 7 (l, p) = delta 8 (l, p) + delta 9 (l, p) ∧
  delta 7 (l, p) = delta 10 (l, p) + delta 11 (l, p) ∧ delta 8 (l, p) = delta 12 (l, p) + delta 13 (l, p) ∧
  delta 9 (l, p) = delta 14 (l, p) + delta 15 (l, p).
Proof.
  intros [Hb Hi Hk Hd]. delta_event. rewrite !Forall_cons in Hb. destruct Hb as (Hl & Hs & Hh & Hm & Ha & _).
  unfold is_bit, land_z in *. revert Hi Hk Hd Hl Hs Hh Hm.
  generalize (perf_dcache_load_access_event p), (perf_dcache_store_access_event p),
    (perf_dcache_hit_event p), (perf_dcache_miss_event p).
  intros load store hit miss Hi Hk Hd [-> | ->] [-> | ->] [-> | ->] [-> | ->]; cbn; lia.
Qed.

(** Every sample goes to one of the six causes. *)
Lemma delta_exclusive l p :
  delta 24 (l, p) + delta 25 (l, p) + delta 26 (l, p) + delta 27 (l, p) + delta 28 (l, p) + delta 29 (l, p) = 1.
Proof.
  rewrite !delta_eq. cbn -[exclusive Z.add]. pose proof (exclusive_range p) as Hr. revert Hr.
  generalize (exclusive p). intros n Hr.
  assert (n = 24 ∨ n = 25 ∨ n = 26 ∨ n = 27 ∨ n = 28 ∨ n = 29)%nat as Hn by lia.
  by destruct Hn as [-> | [-> | [-> | [-> | [-> | ->]]]]].
Qed.

(** A starting and a completing counter follow the edges of their signal. *)
Lemma delta_edges l p :
  delta 3 (l, p) + Z.b2z (previous_icache_refill_ l) = delta 4 (l, p) + Z.b2z (previous_icache_refill_ (levels_of p)) ∧
  delta 16 (l, p) + Z.b2z (previous_dcache_refill_ l) = delta 17 (l, p) + Z.b2z (previous_dcache_refill_ (levels_of p)) ∧
  delta 19 (l, p) + Z.b2z (previous_dcache_writeback_ l) =
    delta 20 (l, p) + Z.b2z (previous_dcache_writeback_ (levels_of p)).
Proof.
  delta_event. unfold land_z. destruct l as [x y z].
  cbn [levels_of previous_icache_refill_ previous_dcache_refill_ previous_dcache_writeback_].
  split_and!; repeat case_match; repeat match goal with |- context [truthy ?s] => destruct (truthy s) end;
    destruct x, y, z; done.
Qed.

Lemma sums_split i j k w :
  Forall (λ e, delta i e = delta j e + delta k e) w → sums i w = sums j w + sums k w.
Proof. induction 1 as [|e w He Hw IH]; [done|]. rewrite !sums_cons, IH, He. lia. Qed.

(** *** The samples of a window *)

(** Edges with the levels before them, and without the starting ones. *)
Fixpoint paired (l : levels) (ps : list perf) : list (levels * perf) :=
  match ps with [] => [] | p :: ps => (l, p) :: paired (levels_of p) ps end.
Definition not_starting (a : Z) (e : levels * perf) : Prop := at_pc a e.2 = false.
#[global] Instance not_starting_dec a e : Decision (not_starting a e).
Proof. unfold not_starting. apply _. Defined.

Lemma keep_started a l p w :
  filter (not_starting a) ((l, p) :: w) =
    if at_pc a p then filter (not_starting a) w else (l, p) :: filter (not_starting a) w.
Proof.
  rewrite filter_cons. case_decide as H; unfold not_starting in H; cbn in H; [by rewrite H|].
  by destruct (at_pc a p).
Qed.

Lemma sampled_app a b roi l ps qs :
  ∃ roi' l', sampled a b roi l (ps ++ qs) = sampled a b roi l ps ++ sampled a b roi' l' qs ∧
    l' = default l (levels_of <$> last ps) ∧
    (Forall (λ p, at_pc b p = false) ps → roi' = roi || existsb (at_pc a) ps).
Proof.
  revert roi l. induction ps as [|p ps IH]; intros roi l.
  { exists roi, l. split_and!; [done|done|]. intros _. by rewrite orb_false_r. }
  destruct (IH (if at_pc b p then false else at_pc a p || roi) (levels_of p)) as (r' & l' & E & El & Er).
  exists r', l'. cbn [sampled app]. rewrite E. split_and!.
  - by case_if.
  - rewrite El, last_cons. by destruct (last ps).
  - intros [Hp Hps]%Forall_cons. rewrite Er by done. rewrite Hp. cbn [existsb].
    by rewrite (orb_comm (at_pc a p)), orb_assoc.
Qed.

Lemma sampled_idle a b l ps : Forall (λ p, at_pc a p = false) ps → sampled a b false l ps = [].
Proof.
  intros H. revert l. induction H as [|p ps Hp H IH]; intros l; [done|]. cbn [sampled].
  rewrite Hp. cbn. by case_if.
Qed.

Lemma sampled_open a b l ps :
  Forall (λ p, at_pc b p = false) ps → sampled a b true l ps = filter (not_starting a) (paired l ps).
Proof.
  intros H. revert l. induction H as [|p ps Hp H IH]; intros l; [done|]. cbn [sampled paired].
  rewrite Hp, orb_true_r, IH, keep_started. by destruct (at_pc a p).
Qed.

Lemma paired_app l ps qs : paired l (ps ++ qs) = paired l ps ++ paired (default l (levels_of <$> last ps)) qs.
Proof.
  revert l. induction ps as [|p ps IH]; intros l; [done|]. cbn [paired app]. rewrite IH, last_cons.
  by destruct (last ps).
Qed.

(** The ROI from the edge [st] that starts it to the edge [sp] that ends it. *)
Lemma sampled_window a b l pre st body sp post :
  Forall (λ p, at_pc a p = false) pre → at_pc a st = true → at_pc b st = false →
  Forall (λ p, at_pc b p = false) body → at_pc b sp = true → Forall (λ p, at_pc a p = false) post →
  sampled a b false l (pre ++ st :: body ++ sp :: post) =
    filter (not_starting a) (paired (levels_of st) (body ++ [sp])).
Proof.
  intros Hpre Hst Hst' Hbody Hsp Hpost.
  assert (∀ ps l roi, Forall (λ p, at_pc a p = false) ps → sampled a b false l (ps ++ roi) =
    sampled a b false (default l (levels_of <$> last ps)) roi) as Hskip.
  { clear. intros ps l qs H. revert l. induction H as [|p ps Hp H IH]; intros l; [done|].
    cbn [sampled app]. rewrite Hp. cbn [orb andb]. destruct (at_pc b p); rewrite IH, last_cons;
      by destruct (last ps). }
  rewrite Hskip by done. cbn [sampled andb]. rewrite Hst', Hst. cbn [orb].
  destruct (sampled_app a b true (levels_of st) body (sp :: post)) as (r & l' & E & El & Er).
  rewrite E, Er, El by done. cbn [orb sampled]. rewrite Hsp, (sampled_idle _ _ _ post) by done.
  rewrite sampled_open, paired_app, filter_app by done. f_equal. cbn [paired].
  rewrite keep_started. by destruct (at_pc a sp).
Qed.

(** *** The dependency observer next to the counters *)

(** The third cause of a sample is what the observer calls an exclusive stall. *)
Lemma delta_dependency l p : delta 27 (l, p) = Z.b2z (stall_exclusive (dependency_sample p)).
Proof.
  rewrite !delta_eq. cbn -[exclusive Z.add]. unfold exclusive, stall_exclusive, dependency_sample.
  cbn [dependency_stall dcache_total_stall divider_stall branch_recovery].
  destruct (truthy (perf_dcache_total_stall p)), (truthy (perf_divider_stall p)),
    (truthy (perf_branch_recovery p)), (truthy (perf_dependency_stall p)), (truthy (perf_icache_total_stall p)); done.
Qed.

(** Both have counted the same, [n] samples with [m] exclusive stalls. *)
Record in_step (v : profile observer) (w : list (levels * perf)) : Prop := {
  step_enabled : enabled (probe_ v) = true;
  step_active : roi_active (probe_ v) = roi_ v;
  step_cycles : roi_cycles (probe_ v) = u64 (Z.of_nat (length w));
  step_stalls : u64 (sum_cycles (episodes (probe_ v))) = u64 (sums 27 w);
  step_open : previous_exclusive_dependency (probe_ v) = true → episodes (probe_ v) ≠ []
}.

Lemma in_step_begin v n p :
  enabled (probe_ v) = true → at_pc (roi_start_pc_ v) p = true → at_pc (roi_end_pc_ v) p = false →
  in_step (observe v (n, p)) [] ∧ roi_ (observe v (n, p)) = true.
Proof.
  intros He Hs Ht. destruct (observe_spec v n p) as (_ & Hr & _ & _ & _ & Hp).
  rewrite Hs, Ht in Hr, Hp. cbn [orb] in Hr. split; [|exact Hr].
  unfold probe_next, probe_mid in Hp. cbn [probe_begin_roi dependency_probe] in Hp.
  unfold dependency_observer_begin_roi in Hp. rewrite He in Hp. cbn [negb] in Hp.
  split; rewrite Hp; [exact He|by rewrite Hr|done..].
Qed.

Lemma in_step_end (o : observer) :
  enabled o = true →
  let o' := dependency_observer_end_roi o in
  enabled o' = true ∧ roi_active o' = false ∧ roi_cycles o' = roi_cycles o ∧ episodes o' = episodes o ∧
  previous_exclusive_dependency o' = false.
Proof. intros He. unfold dependency_observer_end_roi. by rewrite He. Qed.

Lemma in_step_next v n p w :
  in_step v w → at_pc (roi_start_pc_ v) p = false →
  in_step (observe v (n, p)) (w ++ (if roi_ v then [(levels_ v, p)] else [])).
Proof.
  intros [He Ha Hc Hm Ho] Hs. destruct (observe_spec v n p) as (_ & Hr & _ & _ & _ & Hp).
  rewrite Hs in Hr, Hp. cbn [orb] in Hr. unfold probe_next in Hp.
  set (o1 := probe_mid false (roi_ v) p (probe_ v)) in *.
  assert (enabled o1 = true ∧ roi_active o1 = roi_ v ∧
    (roi_cycles o1 = u64 (Z.of_nat (length (w ++ (if roi_ v then [(levels_ v, p)] else []))))) ∧
    u64 (sum_cycles (episodes o1)) = u64 (sums 27 (w ++ (if roi_ v then [(levels_ v, p)] else []))) ∧
    (previous_exclusive_dependency o1 = true → episodes o1 ≠ [])) as (E1 & A1 & C1 & M1 & O1).
  { unfold o1, probe_mid. destruct (roi_ v) eqn:Er; [|by rewrite app_nil_r].
    cbn [probe_sample probe_cycle dependency_probe]. unfold dependency_observer_cycle. rewrite He, Ha. cbn [andb].
    destruct (sample_inside (DepObs.set_profile (probe_ v) (u64 (roi_cycles (probe_ v) + 1))
      (previous_exclusive_dependency (probe_ v)) (episodes (probe_ v))) (dependency_sample p))
      as (M & P & N & S & A & _); [done..|].
    unfold measured in M. unfold settings in S. injection M as M1 M2 M3. injection S as S1 _ _ _.
    rewrite S1, A, M1, M2, length_app, sums_app, sums_cons, delta_dependency. cbn [roi_cycles DepObs.set_profile episodes length].
    split_and!; [done|done| | |].
    - rewrite Hc. unfold u64. rewrite wrap_add_l. f_equal. lia.
    - change (sums 27 []) with 0. rewrite Z.add_0_r. unfold u64 in *. rewrite <- wrap_add_l, Hm, wrap_add_l. done.
    - rewrite P. exact N. }
  clearbody o1. destruct (at_pc (roi_end_pc_ v) p).
  - destruct (in_step_end o1 E1) as (E2 & A2 & C2 & S2 & P2). cbn [probe_end_roi dependency_probe] in Hp.
    split; rewrite Hp.
    + exact E2.
    + by rewrite Hr.
    + by rewrite C2.
    + by rewrite S2.
    + by rewrite P2.
  - split; rewrite Hp; [done|by rewrite Hr, A1|done..].
Qed.

Lemma in_step_run es v w :
  in_step v w → Forall (λ e, at_pc (roi_start_pc_ v) e.2 = false) es →
  in_step (run observe v es) (w ++ samples_of v es).
Proof.
  intros Hv Hes. revert v w Hv Hes. induction es as [|[n p] es IH]; intros v w Hv Hes.
  { unfold samples_of. cbn. by rewrite app_nil_r. }
  apply Forall_cons in Hes as [Hp Hes]. cbn [snd] in Hp. cbn [run].
  destruct (observe_spec v n p) as (_ & Hr & Hl & Ha & Hb & _).
  pose proof (IH _ _ (in_step_next v n p w Hv Hp)) as H. rewrite Ha in H. specialize (H Hes).
  unfold samples_of in *. rewrite Hr, Hl, Ha, Hb, Hp, <- app_assoc in H. cbn [orb] in H.
  cbn [fmap list_fmap sampled snd]. rewrite Hp. cbn [orb negb]. rewrite andb_true_r.
  by destruct (roi_ v).
Qed.

Lemma paired_not_starting a l ps :
  Forall (λ p, at_pc a p = false) ps → filter (not_starting a) (paired l ps) = paired l ps.
Proof.
  intros H. revert l. induction H as [|p ps Hp H IH]; intros l; [done|]. cbn [paired].
  by rewrite keep_started, Hp, IH.
Qed.

(** Over consecutive edges the rises and falls of a level telescope. *)
Lemma sums_edges l ps :
  let l' := default l (levels_of <$> last ps) in
  sums 3 (paired l ps) + Z.b2z (previous_icache_refill_ l) =
    sums 4 (paired l ps) + Z.b2z (previous_icache_refill_ l') ∧
  sums 16 (paired l ps) + Z.b2z (previous_dcache_refill_ l) =
    sums 17 (paired l ps) + Z.b2z (previous_dcache_refill_ l') ∧
  sums 19 (paired l ps) + Z.b2z (previous_dcache_writeback_ l) =
    sums 20 (paired l ps) + Z.b2z (previous_dcache_writeback_ l').
Proof.
  revert l. induction ps as [|p ps IH]; intros l; [done|]. cbv zeta. cbn [paired]. rewrite !sums_cons, last_cons.
  destruct (IH (levels_of p)) as (I1 & I2 & I3). destruct (delta_edges l p) as (D1 & D2 & D3).
  destruct (last ps); cbn [default from_option fmap option_fmap option_map] in *; unfold id in *; split_and!; lia.
Qed.

(** ** Properties of the profile *)

Section counters.
Context {B : Type} `{!Probe B}.
Implicit Types v : profile B.

Definition fresh v : Prop := counts_ v = counts_zero ∧ roi_ v = false.

(** A run whose edges start the ROI at [st] and end it at [sp]. *)
Record roi_run v (es : list (Z * perf)) (pre : list perf) (st : perf) (body : list perf) (sp : perf)
    (post : list perf) : Prop := {
  run_ports : snd <$> es = pre ++ st :: body ++ sp :: post;
  run_pre : Forall (λ p, at_pc (roi_start_pc_ v) p = false) pre;
  run_start : at_pc (roi_start_pc_ v) st = true ∧ at_pc (roi_end_pc_ v) st = false;
  run_body : Forall (λ p, at_pc (roi_end_pc_ v) p = false) body;
  run_stop : at_pc (roi_end_pc_ v) sp = true;
  run_post : Forall (λ p, at_pc (roi_start_pc_ v) p = false) post
}.

Lemma roi_run_samples v es pre st body sp post :
  roi_ v = false → roi_run v es pre st body sp post →
  samples_of v es = filter (not_starting (roi_start_pc_ v)) (paired (levels_of st) (body ++ [sp])).
Proof.
  intros Hr [Hes Hpre [Hst Hst'] Hbody Hsp Hpost]. unfold samples_of. rewrite Hr, Hes.
  by apply sampled_window.
Qed.

(** C21. The counters are those of the region of interest.  In a run that starts
    the ROI at one edge and ends it at a later one, [counter_sampled_cycles] is
    the number of edges after the start up to and including the end, without
    those at which the start instruction is still active, and every counter is
    the sum of what the sampling statements add at just these edges, whatever
    comes before and after (64-bit sums). *)
Theorem prof_roi_counts v es pre st body sp post :
  fresh v → roi_run v es pre st body sp post →
  let w := filter (not_starting (roi_start_pc_ v)) (paired (levels_of st) (body ++ [sp])) in
  let c := counts_ (run observe v es) in
  counted_cycles c = u64 (Z.of_nat (length w)) ∧ ∀ i, (i < 34)%nat → value c i = u64 (sums i w).
Proof.
  intros [Hc Hr] Hrun w c. unfold w. rewrite <- (roi_run_samples v es pre st body sp post Hr Hrun). split.
  - exact (proj2 (counts_run v es 0 Hc ltac:(lia))).
  - intros i Hi. exact (proj1 (counts_run v es i Hc Hi)).
Qed.

Lemma sampled_ports (P : perf → Prop) a b ps roi l :
  Forall P ps → Forall (λ e, P e.2) (sampled a b roi l ps).
Proof.
  intros H. revert roi l. induction H as [|p ps Hp H IH]; intros roi l; [constructor|]. cbn [sampled].
  destruct (roi && negb (at_pc a p)); [constructor|]; auto.
Qed.

Lemma sums_causes w :
  sums 24 w + sums 25 w + sums 26 w + sums 27 w + sums 28 w + sums 29 w = Z.of_nat (length w).
Proof.
  induction w as [|[l p] w IH]; [done|]. rewrite !sums_cons. pose proof (delta_exclusive l p).
  cbn [length]. lia.
Qed.

(** The counters are consistent.  If in every cycle the core signals cache
    events the way its interface promises, then after any run the identities
    that the harness tests hold, and however the core behaves the six exclusive
    counters add up to the cycles. *)
Theorem prof_counters_consistent v es :
  counts_ v = counts_zero →
  let c := counts_ (run observe v es) in
  u64 (value c 24 + value c 25 + value c 26 + value c 27 + value c 28 + value c 29) = counted_cycles c ∧
  (Forall (λ e, coherent e.2) es → invariants c = true).
Proof.
  intros Hc c. assert (∀ i, (i < 34)%nat → value c i = u64 (sums i (samples_of v es))) as Hv
    by (intros i Hi; exact (proj1 (counts_run v es i Hc Hi))).
  split.
  - destruct (counts_run v es 0 Hc ltac:(lia)) as [_ Hn]. unfold c. fold c in Hn |- *. rewrite Hn, !Hv by lia.
    rewrite <- (sums_causes (samples_of v es)). unfold u64, wrap. dlia.
  - intros Hes. unfold invariants. rewrite !Hv by lia.
    assert (Forall (λ e, coherent e.2) (samples_of v es)) as Hw
      by (apply sampled_ports, Forall_fmap, Hes).
    assert (∀ i j k, (∀ l p, coherent p → delta i (l, p) = delta j (l, p) + delta k (l, p)) →
      (u64 (sums i (samples_of v es)) =? u64 (u64 (sums j (samples_of v es)) + u64 (sums k (samples_of v es)))) = true)
      as Hs.
    { intros i j k Hd. apply Z.eqb_eq. unfold u64. rewrite wrap_add. f_equal. apply sums_split.
      eapply Forall_impl; [exact Hw|]. intros [l p]. apply Hd. }
    pose proof (λ l p Hp, proj1 (delta_identities l p Hp)) as D0.
    pose proof (λ l p Hp, proj2 (delta_identities l p Hp)) as D1.
    rewrite (Hs 0 1 2 D0)%nat, (Hs 7 8 9 (λ l p Hp, proj1 (D1 l p Hp)))%nat,
      (Hs 7 10 11 (λ l p Hp, proj1 (proj2 (D1 l p Hp))))%nat,
      (Hs 8 12 13 (λ l p Hp, proj1 (proj2 (proj2 (D1 l p Hp)))))%nat,
      (Hs 9 14 15 (λ l p Hp, proj2 (proj2 (proj2 (D1 l p Hp)))))%nat. done.
Qed.
End counters.

(** C33. Refills and write-backs balance.  If the start instruction is not active
    again inside the region, then for the instruction cache's refills, the data
    cache's refills and its write-backs those that start in the region and the
    one in flight when it starts are those that complete in it and the one in
    flight when it ends. *)
Theorem prof_refills_balance {B} `{!Probe B} (v : profile B) es pre st body sp post :
  fresh v → roi_run v es pre st body sp post →
  Forall (λ p, at_pc (roi_start_pc_ v) p = false) (body ++ [sp]) →
  let c := counts_ (run observe v es) in
  let busy (s : perf → Z) p := Z.b2z (truthy (s p)) in
  u64 (value c 3 + busy perf_icache_miss_stall st) = u64 (value c 4 + busy perf_icache_miss_stall sp) ∧
  u64 (value c 16 + busy perf_dcache_miss_stall st) = u64 (value c 17 + busy perf_dcache_miss_stall sp) ∧
  u64 (value c 19 + busy perf_dcache_writeback_stall st) = u64 (value c 20 + busy perf_dcache_writeback_stall sp).
Proof.
  intros [Hc Hr] Hrun Hns c busy. pose proof (roi_run_samples v es pre st body sp post Hr Hrun) as Hw.
  rewrite paired_not_starting in Hw by done.
  assert (∀ i, (i < 34)%nat → value c i = u64 (sums i (samples_of v es))) as Hv
    by (intros i Hi; exact (proj1 (counts_run v es i Hc Hi))).
  rewrite !Hv, Hw by lia. unfold u64. rewrite !wrap_add_l.
  pose proof (sums_edges (levels_of st) (body ++ [sp])) as (E1 & E2 & E3).
  rewrite last_snoc in E1, E2, E3. split_and!; f_equal; [exact E1|exact E2|exact E3].
Qed.

Lemma enabled_end (o : observer) : enabled (dependency_observer_end_roi o) = enabled o.
Proof. unfold dependency_observer_end_roi. by case_if. Qed.

Lemma run_idle es (v : profile observer) :
  fresh v → enabled (probe_ v) = true → Forall (λ e, at_pc (roi_start_pc_ v) e.2 = false) es →
  let v' := run observe v es in
  fresh v' ∧ enabled (probe_ v') = true ∧ roi_start_pc_ v' = roi_start_pc_ v ∧ roi_end_pc_ v' = roi_end_pc_ v.
Proof.
  revert v. induction es as [|[n p] es IH]; intros v Hf He Hes; [done|].
  apply Forall_cons in Hes as [Hp Hes]. cbn [snd] in Hp. cbn [run].
  destruct (observe_spec v n p) as (Hc & Hr & _ & Ha & Hb & Ho). destruct Hf as [Hz Hroi].
  rewrite Hp, Hroi in Hc, Hr, Ho. cbn [andb orb] in Hc, Hr. unfold probe_next, probe_mid in Ho.
  rewrite <- Ha, <- Hb. apply IH.
  - split; [congruence|]. rewrite Hr. by case_if.
  - rewrite Ho. case_if; [|done]. cbn [probe_end_roi dependency_probe]. by rewrite enabled_end.
  - by rewrite Ha.
Qed.

Lemma run_starting es (v : profile observer) :
  counts_ v = counts_zero → enabled (probe_ v) = true → roi_start_pc_ v ≠ roi_end_pc_ v →
  Forall (λ e, at_pc (roi_start_pc_ v) e.2 = true) es → es ≠ [] →
  let v' := run observe v es in
  in_step v' [] ∧ counts_ v' = counts_zero ∧ roi_start_pc_ v' = roi_start_pc_ v.
Proof.
  intros Hc He Hne Hes Hnil. destruct es as [|e es]; [done|]. clear Hnil.
  revert v e Hc He Hne Hes. induction es as [|e' es IH]; intros v [n p] Hc He Hne Hes;
    apply Forall_cons in Hes as [Hp Hes]; cbn [snd] in Hp;
    destruct (observe_spec v n p) as (Hc' & _ & _ & Ha & Hb & _);
    assert (at_pc (roi_end_pc_ v) p = false) as Hs
      by (unfold at_pc in *; destruct (truthy (perf_exu_active p)); [bool_to_prop; apply Z.eqb_neq; congruence|done]);
    destruct (in_step_begin v n p He Hp Hs) as [Hi _]; rewrite Hp, andb_false_r in Hc'.
  - cbn [run]. split; [done|]. split; [congruence|done].
  - change (run observe v ((n, p) :: e' :: es)) with (run observe (observe v (n, p)) (e' :: es)).
    rewrite <- Ha. apply IH; [congruence|apply Hi|congruence|by rewrite Ha].
Qed.

(** C30. The two measures of the load-use harness agree.  When the start
    instruction is executed once (it may stay active for several cycles), the
    dependency observer has seen exactly the cycles the counters have, and the
    stall cycles its report attributes to dependencies are the exclusive
    dependency counter of the harness, at every later moment. *)
Theorem p1_measures_agree (v : profile observer) es pre starting rest :
  fresh v → enabled (probe_ v) = true → roi_start_pc_ v ≠ roi_end_pc_ v →
  snd <$> es = pre ++ starting ++ rest → starting ≠ [] →
  Forall (λ p, at_pc (roi_start_pc_ v) p = false) pre →
  Forall (λ p, at_pc (roi_start_pc_ v) p = true) starting →
  Forall (λ p, at_pc (roi_start_pc_ v) p = false) rest →
  let v' := run observe v es in
  roi_cycles (probe_ v') = counted_cycles (counts_ v') ∧
  t_dependency_cycles (totals_of (episodes (probe_ v'))) = value (counts_ v') 27.
Proof.
  intros Hf He Hne Hes Hnil Hpre Hst Hrest v'. unfold v'. clear v'.
  apply fmap_app_inv in Hes as (es1 & es2 & -> & E2 & ->). symmetry in E2.
  apply fmap_app_inv in E2 as (es3 & es4 & -> & -> & ->).
  rewrite !Forall_fmap in Hpre, Hst, Hrest. rewrite !run_app.
  destruct (run_idle es1 v Hf He Hpre) as ([Hc _] & He1 & Ha1 & Hb1).
  set (v1 := run observe v es1) in *. clearbody v1. rewrite <- Ha1 in Hst, Hrest.
  destruct (run_starting es3 v1 Hc He1) as (Hi & Hc2 & Ha2); [congruence|done|by intros ->|].
  set (v2 := run observe v1 es3) in *. clearbody v2. rewrite <- Ha2 in Hrest.
  destruct (in_step_run es4 v2 [] Hi Hrest) as [_ _ HC HM _].
  destruct (counts_run v2 es4 27 Hc2 ltac:(lia)) as [-> ->].
  rewrite totals_of_spec. cbn [t_dependency_cycles totals_spec]. by rewrite HC, HM.
Qed.

(** ** Witnesses *)

(** A core that writes a fixed list of words, one per cycle, while its program
    counter counts the cycles; every cycle hits in both caches. *)
Module ProfToy.
Definition program : list (Z * Z) :=
  [(0, 0); (kEventAddress, 1); (kEventAddress, 2); (kEventAddress, 3); (kPayloadAddress, 3); (kEventAddress, 4);
   (kPayloadAddress, 55); (kEventAddress, 5); (kEventAddress, 6)].
#[global] Instance writer : GolCore nat := {|
  core_eval p n := if clk p =? 1 then S n else n;
  core_out n := let w := default (0, 0) (program !! n) in Outs 1 1 1 0 0 0 w.1 w.2 0x0f
|}.
(** The ports at program counter [pc], with the stalls given. *)
Definition at_cycle (pc : Z) (imiss dep : Z) : perf :=
  Perf 1 1 0 imiss imiss 1 1 0 1 0 0 0 0 0 0x80000100 0 0 0 dep 0 0x00a50513 10 0x80000100 1 pc 0x00053503.
#[global] Instance perf_ports : PerfPorts nat := λ n, at_cycle (Z.of_nat n) 0 0.
Definition start {B} (o : B) : prof nat B :=
  Prof (GolHarness 0%nat (Ins 0 0 0 0 0 0 0 0 0 0 0 0 0 0 0) ∅)
    (Profile counts_zero 5 8 false false (Levels false false false) (Ofstream false false []) 0 o).
Definition ticks_seen : list (Z * perf) :=
  [(1, at_cycle 4 0 1); (2, at_cycle 5 1 0); (3, at_cycle 5 1 0); (4, at_cycle 6 0 1); (5, at_cycle 7 1 1);
   (6, at_cycle 8 1 0); (7, at_cycle 9 0 0)].
Definition probe_on : observer := dependency_observer_end_roi
  (dependency_observer_init observer_zero (Some "out.json") (Some "gol")).
End ProfToy.

Lemma toy_roi_run {B} (o : B) :
  roi_run (view (ProfToy.start o)) ProfToy.ticks_seen [ProfToy.at_cycle 4 0 1] (ProfToy.at_cycle 5 1 0)
    [ProfToy.at_cycle 5 1 0; ProfToy.at_cycle 6 0 1; ProfToy.at_cycle 7 1 1] (ProfToy.at_cycle 8 1 0)
    [ProfToy.at_cycle 9 0 0].
Proof. split; [reflexivity|..]; repeat constructor. Qed.

Lemma prof_roi_counts_witness :
  let c := counts_ (run observe (view (ProfToy.start tt)) ProfToy.ticks_seen) in
  counted_cycles c = 3 ∧ value c 3 = 1 ∧ value c 27 = 2.
Proof.
  intros c.
  destruct (prof_roi_counts (view (ProfToy.start tt)) ProfToy.ticks_seen [ProfToy.at_cycle 4 0 1]
    (ProfToy.at_cycle 5 1 0) [ProfToy.at_cycle 5 1 0; ProfToy.at_cycle 6 0 1; ProfToy.at_cycle 7 1 1]
    (ProfToy.at_cycle 8 1 0) [ProfToy.at_cycle 9 0 0] (conj eq_refl eq_refl) (toy_roi_run tt)) as [Hn Hv].
  split; [etrans; [exact Hn|]; vm_compute; reflexivity|].
  split; (etrans; [apply Hv; lia|]); vm_compute; reflexivity.
Defined.

Lemma toy_coherent pc imiss dep : coherent (ProfToy.at_cycle pc imiss dep).
Proof. split; [|reflexivity..]. repeat apply Forall_cons_2; unfold is_bit; cbn; try lia. apply Forall_nil_2. Qed.

Lemma prof_counters_consistent_witness :
  invariants (counts_ (run observe (view (ProfToy.start tt)) ProfToy.ticks_seen)) = true.
Proof.
  assert (Forall (λ e, coherent e.2) ProfToy.ticks_seen) as H
    by (repeat apply Forall_cons_2; try apply Forall_nil_2; apply toy_coherent).
  exact (proj2 (prof_counters_consistent (view (ProfToy.start tt)) ProfToy.ticks_seen eq_refl) H).
Defined.

Lemma prof_refills_balance_witness :
  let es := [(1, ProfToy.at_cycle 5 1 0); (2, ProfToy.at_cycle 6 0 0); (3, ProfToy.at_cycle 8 1 0)] in
  let c := counts_ (run observe (view (ProfToy.start tt)) es) in
  u64 (value c 3 + 1) = u64 (value c 4 + 1) ∧ value c 3 = 1.
Proof.
  intros es c.
  destruct (prof_refills_balance (view (ProfToy.start tt)) es [] (ProfToy.at_cycle 5 1 0)
    [ProfToy.at_cycle 6 0 0] (ProfToy.at_cycle 8 1 0) []) as (H & _).
  - split; reflexivity.
  - split; [reflexivity|..]; repeat constructor.
  - repeat constructor.
  - split; [exact H|vm_compute; reflexivity].
Defined.

Lemma p1_measures_agree_witness :
  let v' := run observe (view (ProfToy.start ProfToy.probe_on)) ProfToy.ticks_seen in
  t_dependency_cycles (totals_of (episodes (probe_ v'))) = value (counts_ v') 27 ∧ value (counts_ v') 27 = 2.
Proof.
  intros v'.
  destruct (p1_measures_agree (view (ProfToy.start ProfToy.probe_on)) ProfToy.ticks_seen [ProfToy.at_cycle 4 0 1]
    [ProfToy.at_cycle 5 1 0; ProfToy.at_cycle 5 1 0]
    [ProfToy.at_cycle 6 0 1; ProfToy.at_cycle 7 1 1; ProfToy.at_cycle 8 1 0; ProfToy.at_cycle 9 0 0])
    as [_ H]; [split; reflexivity|reflexivity|discriminate|reflexivity|discriminate|repeat constructor..|].
  split; [exact H|vm_compute; reflexivity].
Defined.
