(* ===== verification/GolRun.v ===== *)
(** * Runs of the counting harnesses
    A counting run follows the plain run of [Gol] step by step; from that, that
    both harnesses end, or fault at a write past the memory that the plain run
    makes ([trail], [overruns]), what their verdicts mean, and that counting
    does not change the run.  The region of interest that [LoadHex] finds. *)
From Stdlib Require Import Sorted.
From stdpp Require Import base numbers list option strings gmap.
From S2P Require Import Prelude Bytes CText PMem Env DepObs Gol GolProf GolCount.

Local Open Scope Z_scope.

(** ** Runs of the harnesses *)

(** A write of some lane past the end of the memory. *)
Definition past_end (off strobes : Z) (lanes : list Z) : bool :=
  existsb (λ i, Z.testbit strobes i && (kMemoryBytes <=? off + i)) lanes.

Lemma commit_bytes_loop lanes m off data strobes :
  StronglySorted Z.le lanes → Forall (Z.le 0) lanes →
  result (commit_bytes m off data strobes lanes) =
    if past_end off strobes lanes then Fault OutOfBounds else Ok (commit_loop m off data strobes lanes).
Proof.
  intros Hs Hp. revert m. induction Hs as [|i lanes Hs IH Hi]; intros m; [done|].
  apply Forall_cons in Hp as [H0 Hp]. cbn [commit_bytes commit_loop past_end existsb]. fold (past_end off strobes lanes).
  change 1 with (2 ^ 0). rewrite truthy_land_bit, Z.shiftr_spec, Z.add_0_l by lia.
  destruct (Z.ltb_spec (off + i) kMemoryBytes) as [Ei|Ei].
  - rewrite (proj2 (Z.leb_gt _ _)), andb_false_r by done. cbn [orb]. rewrite (Z.mul_comm i 8).
    destruct (Z.testbit strobes i); by apply IH.
  - rewrite (proj2 (Z.leb_le _ _)), andb_true_r by done. destruct (Z.testbit strobes i); [done|]. cbn [orb].
    rewrite (IH Hp). destruct (past_end _ _ _); [done|]. f_equal. destruct lanes as [|j lanes]; [done|].
    cbn [commit_loop]. apply Forall_cons in Hi as [Hij _]. by zif_false.
Qed.

Section runs.
Context {T : Type} `{!GolCore T, !PerfPorts T} {B : Type} `{!Probe B}.
Implicit Types (g : gol T) (s : prof T B).

(** The write that [g] commits, if it does, reaches past the end. *)
Definition overruns g : bool :=
  let a := write_address_ g in
  truthy (axi_b_ready_o (core_out (top_ g))) && negb (a =? kPayloadAddress) && negb (a =? kEventAddress) &&
  ((kMemoryBase <=? a) && (a <? kMemoryBase + kMemoryBytes)) &&
  past_end (a - kMemoryBase) (write_strobes_ g) [0; 1; 2; 3; 4; 5; 6; 7].

Lemma CommitWrite_follows g :
  result (CommitWrite g) = if overruns g then Fault OutOfBounds else result (Gol.CommitWrite g).
Proof.
  unfold CommitWrite, Gol.CommitWrite, overruns. cbv zeta. destruct (truthy _); cbn [negb andb]; [|done].
  destruct (_ =? kPayloadAddress); cbn [negb andb]; [done|]. destruct (_ =? kEventAddress); cbn [negb andb]; [done|].
  rewrite <- (negb_involutive (_ || _)), negb_orb.
  rewrite <- Z.leb_antisym, <- Z.ltb_antisym. destruct (_ && _); cbn [negb andb]; [|done].
  rewrite result_bind, commit_bytes_loop by (repeat constructor; lia). by destruct (past_end _ _ _).
Qed.

(** *** The edges of a run of the plain harness *)

(** The state in which a cycle commits its write. *)
Definition at_edge g : gol T := count_edge (Evaluate (set_clk g 1)).

Fixpoint cycles_trail (n : nat) g : list (gol T) :=
  match n with
  | O => []
  | S n => at_edge g :: match result (cycle g) with Ok g => cycles_trail n g | Fault _ => [] end
  end.
Fixpoint watch_trail (fuel : nat) g : list (gol T) :=
  if negb (done_ (marks_ g)) && (rising_edges_ g <? kWatchdogCycles) then
    at_edge g :: match result (cycle g), fuel with Ok g, S fuel => watch_trail fuel g | _, _ => [] end
  else [].

(** Five cycles in reset, the main loop, and five more cycles. *)
Definition plain_session (fuel : nat) g : io (gol T) :=
  g ← cycles 5 (Evaluate (set_rstn (set_clk g 0) 0));
  g ← watch_loop fuel (Evaluate (set_rstn g 1));
  cycles 5 g.
Definition and_then (l : list (gol T)) (m : io (gol T)) (f : gol T → list (gol T)) : list (gol T) :=
  l ++ match result m with Ok g => f g | Fault _ => [] end.
Definition trail (fuel : nat) g : list (gol T) :=
  let g := Evaluate (set_rstn (set_clk g 0) 0) in
  and_then (cycles_trail 5 g) (cycles 5 g) (λ g,
    let g := Evaluate (set_rstn g 1) in
    and_then (watch_trail fuel g) (watch_loop fuel g) (cycles_trail 5)).

(** The edge count and the ports that the next tick samples. *)
Definition ports g : Z * perf :=
  let g := count_edge (Evaluate (set_clk g 1)) in (rising_edges_ g, perf_out (top_ g)).

Lemma Tick_follows s :
  if overruns (at_edge (base s)) then result (Tick s) = Fault OutOfBounds
  else ∃ s', result (Tick s) = Ok s' ∧ result (cycle (base s)) = Ok (base s') ∧
         view s' = observe (view s) (ports (base s)).
Proof.
  unfold Tick, cycle, RisingEdge. cbv zeta. rewrite !result_bind.
  change (count_edge (Eval (set_clk (base s) 1))) with (at_edge (base s)).
  change (count_edge (Evaluate (set_clk (base s) 1))) with (at_edge (base s)).
  rewrite CommitWrite_follows. destruct (overruns _); [done|].
  destruct (CommitWrite_ok (at_edge (base s))) as (g & -> & _). by eexists.
Qed.

(** States reached by ticks and changes of the reset, with the ports sampled. *)
Inductive ran s : list (Z * perf) → prof T B → Prop :=
| ran_nil : ran s [] s
| ran_tick es s1 s2 : ran s es s1 → result (Tick s1) = Ok s2 → ran s (es ++ [ports (base s1)]) s2
| ran_reset es s1 r : ran s es s1 → ran s es (Prof (Evaluate (set_rstn (base s1) r)) (view s1))
| ran_low es s1 r : ran s es s1 → ran s es (Prof (Evaluate (set_rstn (set_clk (base s1) 0) r)) (view s1)).

Lemma ran_view s es s' : ran s es s' → view s' = run observe (view s) es.
Proof.
  induction 1 as [|es s1 s2 _ IH E| |]; [done| |done..].
  pose proof (Tick_follows s1) as H. rewrite E in H. destruct (overruns _); [done|].
  destruct H as (s3 & [= <-] & _ & ->). by rewrite run_app, IH.
Qed.

(** A counting run [m] from [s] follows a plain one [n] with the edges [tr]: it
    stops exactly when one of them writes past the end of the memory, and else
    ends as the plain one does, in the same state of the core, the memory and
    the bus. *)
Definition follows s (m : io (prof T B)) (n : io (gol T)) (tr : list (gol T)) : Prop :=
  if existsb overruns tr then result m = Fault OutOfBounds
  else match result n with
       | Ok g => ∃ s' es, result m = Ok s' ∧ ran s es s' ∧ base s' = g
       | Fault x => result m = Fault x
       end.

Lemma follows_ret s es s' : ran s es s' → follows s (mret s') (mret (base s')) [].
Proof. intros H. by exists s', es. Qed.

Lemma follows_bind s m n tr f h k :
  follows s m n tr → (∀ s' es, ran s es s' → follows s (f s') (h (base s')) (k (base s'))) →
  follows s (m ≫= f) (n ≫= h) (and_then tr n k).
Proof.
  unfold follows, and_then. intros Hm Hf. rewrite !result_bind, existsb_app.
  destruct (existsb overruns tr); cbn [orb]; [by rewrite Hm|].
  destruct (result n) as [g|x]; [|cbn; by rewrite Hm].
  destruct Hm as (s' & es & -> & Hr & <-). by apply (Hf s' es).
Qed.

Lemma follows_tick s es s1 : ran s es s1 → follows s (Tick s1) (cycle (base s1)) [at_edge (base s1)].
Proof.
  intros Hr. unfold follows. cbn [existsb]. rewrite orb_false_r. pose proof (Tick_follows s1) as H.
  destruct (overruns _); [done|]. destruct H as (s2 & E & -> & _). exists s2. eexists.
  split; [done|]. split; [by eapply ran_tick|done].
Qed.

Lemma follows_ticks n s es s1 : ran s es s1 → follows s (ticks n s1) (cycles n (base s1)) (cycles_trail n (base s1)).
Proof.
  revert es s1. induction n as [|n IH]; intros es s1 Hr; cbn [ticks cycles cycles_trail]; [by eapply follows_ret|].
  apply (follows_bind s _ _ [_] _ _ (cycles_trail n)); [by eapply follows_tick|]. intros s2 es2 Hr2. by eapply IH.
Qed.

Lemma follows_watch fuel s es s1 :
  ran s es s1 → follows s (watch fuel s1) (watch_loop fuel (base s1)) (watch_trail fuel (base s1)).
Proof.
  revert es s1. induction fuel as [|fuel IH]; intros es s1 Hr; cbn [watch watch_loop watch_trail];
    destruct (negb (done_ (marks_ (base s1))) && (rising_edges_ (base s1) <? kWatchdogCycles));
    try (by eapply follows_ret).
  - assert (∀ l, at_edge (base s1) :: match result (cycle (base s1)) with Ok _ => l | Fault _ => l end = at_edge (base s1) :: l)
      as E by (intros l; by destruct (result _)).
    rewrite E, <- (E []). apply (follows_bind s _ _ [_] _ _ (λ _, [])); [by eapply follows_tick|]. done.
  - apply (follows_bind s _ _ [_] _ _ (watch_trail fuel)); [by eapply follows_tick|]. intros s2 es2 Hr2. by eapply IH.
Qed.

Lemma follows_session fuel s : follows s (session fuel s) (plain_session fuel (base s)) (trail fuel (base s)).
Proof.
  unfold session, plain_session, trail.
  eapply follows_bind; [apply (follows_ticks 5 s [] (Prof (Evaluate (set_rstn (set_clk (base s) 0) 0)) (view s)));
                        apply ran_low, ran_nil|].
  intros s1 es1 Hr1.
  eapply follows_bind; [apply (follows_watch fuel s es1 (Prof (Evaluate (set_rstn (base s1) 1)) (view s1)));
                        by apply ran_reset|].
  intros s2 es2 Hr2. by eapply follows_ticks.
Qed.

Lemma reset_loop_cycles l g : result (reset_loop l g) = result (cycles (length l) g).
Proof.
  revert g. induction l as [|e l IH]; intros g; [done|]. cbn [reset_loop length cycles]. unfold cycle.
  rewrite !result_bind. destruct (result (RisingEdge g)) as [g1|]; [|done].
  rewrite result_bind. cbn [result emit snd mret io_ret]. apply IH.
Qed.

(** Whatever returns has only gone through clock edges. *)
Lemma cycle_edges g ws g1 g2 :
  edges g ws g1 → result (cycle g1) = Ok g2 → ∃ ws', edges g ws' g2.
Proof.
  intros He. unfold cycle. rewrite result_bind. destruct (RisingEdge_ok g1) as (g3 & E & _). rewrite E.
  intros [= <-]. eexists. by eapply edges_fall, edges_rise.
Qed.
Lemma cycles_edges n g ws g1 g2 :
  edges g ws g1 → result (cycles n g1) = Ok g2 → ∃ ws', edges g ws' g2.
Proof.
  revert ws g1. induction n as [|n IH]; intros ws g1 He; cbn [cycles]; [intros [= <-]; by exists ws|].
  intros (g3 & H3 & H)%result_bind_Ok. destruct (cycle_edges _ _ _ _ He H3) as [ws' He']. by eapply IH.
Qed.
Lemma watch_loop_edges fuel g ws g1 g2 :
  edges g ws g1 → result (watch_loop fuel g1) = Ok g2 → ∃ ws', edges g ws' g2.
Proof.
  revert ws g1. induction fuel as [|fuel IH]; intros ws g1 He; cbn [watch_loop]; case_if;
    try (intros [= <-]; by exists ws); intros (g3 & H3 & H)%result_bind_Ok; [done|].
  destruct (cycle_edges _ _ _ _ He H3) as [ws' He']. by eapply IH.
Qed.
Lemma plain_session_edges fuel g g' :
  result (plain_session fuel g) = Ok g' → ∃ ws, edges g ws g'.
Proof.
  unfold plain_session. intros (g1 & H1 & (g2 & H2 & H3)%result_bind_Ok)%result_bind_Ok.
  destruct (cycles_edges _ g [] _ _ (edges_low g [] g 0 (edges_nil g)) H1) as [ws1 E1].
  destruct (watch_loop_edges _ g ws1 _ _ (edges_reset g ws1 g1 1 E1) H2) as [ws2 E2].
  exact (cycles_edges _ g ws2 _ _ E2 H3).
Qed.

(** The clocking part returns, within the bound of the watchdog. *)
Lemma plain_session_ok fuel g :
  rising_edges_ g = 0 → kWatchdogCycles <= Z.of_nat fuel →
  ∃ g' ws, result (plain_session fuel g) = Ok g' ∧ edges g ws g' ∧ rising_edges_ g' <= kWatchdogCycles + 5.
Proof.
  intros Hr Hf. unfold plain_session.
  destruct (cycles_ok 5 g [] (Evaluate (set_rstn (set_clk g 0) 0))) as (ws1 & g1 & R1 & E1 & C1);
    [apply edges_low, edges_nil|unfold fits_counter; cbn; lia|].
  cbn in C1. rewrite result_bind, R1.
  destruct (watch_loop_ok fuel g ([] ++ ws1) (Evaluate (set_rstn g1 1))) as (ws2 & g2 & R2 & E2 & C2);
    [by apply edges_reset|unfold fits_counter, kWatchdogCycles; cbn; lia|unfold kWatchdogCycles in *; cbn; lia|].
  cbn in C2. rewrite result_bind, R2.
  destruct (cycles_ok 5 g ws2 g2 E2) as (ws3 & g3 & R3 & E3 & C3); [unfold fits_counter, kWatchdogCycles in *; lia|].
  exists g3, (ws2 ++ ws3). split; [done|]. split; [done|]. unfold kWatchdogCycles in *; lia.
Qed.
End runs.

(** *** The markers of a passing run *)

Definition six_events (ws : list (Z * Z)) : Prop := events_in ws = [1; 2; 3; 4; 5; 6].

(** The payloads at events 4 and 5 are what the marks keep. *)
Lemma marks_payloads ws c s :
  six_events ws →
  let k := run mark_write marks_init ws in
  (measured_cycles_ k = c ↔ payload_at 4 ws c) ∧ (checksum_ k = s ↔ payload_at 5 ws s).
Proof.
  intros Hev k. assert (NoDup (events_in ws)) as Hnd by (rewrite Hev; decide_now).
  destruct (once 4 ws Hnd) as (p4 & q4 & E4 & N4 & U4); [rewrite Hev; decide_now|].
  destruct (once 5 ws Hnd) as (p5 & q5 & E5 & N5 & U5); [rewrite Hev; decide_now|].
  destruct (marks_recorded p4 4 q4 N4) as [M4 _]. destruct (marks_recorded p5 5 q5 N5) as [_ M5].
  rewrite <- E4 in M4. rewrite <- E5 in M5. unfold k. rewrite M4, M5 by done. unfold payload_at. split; split.
  - intros <- pre post Hw. by rewrite (U4 _ _ Hw).
  - intros H. by apply (H p4 q4).
  - intros <- pre post Hw. by rewrite (U5 _ _ Hw).
  - intros H. by apply (H p5 q5).
Qed.

Lemma cache_functional_spec ec ey ws :
  CacheHarness.functional ec ey (run mark_write marks_init ws) = true ↔
    six_events ws ∧ payload_at 4 ws ey ∧ payload_at 5 ws ec.
Proof.
  destruct (marks_log ws) as (He & _ & Hd). unfold CacheHarness.functional.
  rewrite !andb_true_iff, bool_decide_eq_true, He, Hd, !Z.eqb_eq.
  split; [intros [[[_ Hev] H4] H5]|intros (Hev & H4 & H5)];
    destruct (marks_payloads ws ey ec Hev) as [M4 M5]; (split_and!; [|tauto..] || tauto).
  - done.
  - rewrite Hev. decide_now.
Qed.

Lemma p1_functional_spec ec ey ws :
  P1Harness.functional ec ey (run mark_write marks_init ws) = true ↔
    six_events ws ∧ (∃ n, payload_at 4 ws n ∧ (if ey =? 0 then 0 < n else n = ey)) ∧ payload_at 5 ws ec.
Proof.
  destruct (marks_log ws) as (He & _ & Hd). unfold P1Harness.functional.
  rewrite !andb_true_iff, bool_decide_eq_true, He, Hd, !Z.eqb_eq.
  assert (∀ k : marks, (if ey =? 0 then 0 <? measured_cycles_ k else measured_cycles_ k =? ey) = true ↔
    (if ey =? 0 then 0 < measured_cycles_ k else measured_cycles_ k = ey)) as Hy
    by (intros k; case_if; [apply Z.ltb_lt|apply Z.eqb_eq]).
  rewrite Hy. split.
  - intros [[[_ Hev] H4] H5]. split; [done|]. split.
    + eexists. split; [|exact H4]. by apply (marks_payloads ws _ ec Hev).
    + by apply (marks_payloads ws ey ec Hev).
  - intros (Hev & (n & Hn & H4) & H5). apply (marks_payloads ws n ec Hev) in Hn as E4.
    apply (marks_payloads ws n ec Hev) in H5 as E5. rewrite E4. split_and!; try done.
    rewrite Hev. decide_now.
Qed.

(** ** Properties of the harnesses *)

Section verdicts.
Context {T : Type} `{!GolCore T, !PerfPorts T}.

Lemma summary_result {B} (s : prof T B) invs f : result (summary s invs f) = Ok tt.
Proof. done. Qed.

(** What a session leaves: its writes and the ports it sampled. *)
Lemma session_ends {B} `{!Probe B} fuel (s : prof T B) :
  marks_ (base s) = marks_init → rising_edges_ (base s) = 0 → kWatchdogCycles <= Z.of_nat fuel →
  if existsb overruns (trail fuel (base s)) then result (session fuel s) = Fault OutOfBounds
  else ∃ s' ws es, result (session fuel s) = Ok s' ∧ edges (base s) ws (base s') ∧
    marks_ (base s') = run mark_write marks_init ws ∧ view s' = run observe (view s) es ∧
    rising_edges_ (base s') <= kWatchdogCycles + 5.
Proof.
  intros Hm Hr Hf. destruct (plain_session_ok fuel (base s) Hr Hf) as (g & ws & Rg & Eg & Cg).
  pose proof (follows_session fuel s) as H. unfold follows in H. rewrite Rg in H.
  destruct (existsb _ _); [done|]. destruct H as (s' & es & Es & Hran & <-). exists s', ws, es.
  split; [done|]. split; [done|].
  split; [by rewrite (edges_marks _ _ _ Eg), Hm|]. split; [by apply ran_view|done].
Qed.

(** C20. The cache harness always ends, within ten million and five edges.  It
    stops at a fault of the byte loop exactly when, at one of the edges its core
    goes through in the plain harness ([trail]), a committed write to the memory
    enables a lane past the end of the memory.  Otherwise its exit code is 0
    exactly when the events are 1 to 6 in this order, the payloads at events 4
    and 5 are the expected cycles and checksum, the counter identities hold and
    the counters have sampled just the expected number of cycles, and else 2. *)
Theorem cache_run_verdict fuel ec ey (s : prof T unit) :
  marks_ (base s) = marks_init → rising_edges_ (base s) = 0 → kWatchdogCycles <= Z.of_nat fuel →
  let m := CacheHarness.Run fuel ec ey s in
  if existsb overruns (trail fuel (base s)) then result m = Fault OutOfBounds
  else ∃ code json s' ws es, result m = Ok (code, json, s') ∧ edges (base s) ws (base s') ∧
    view s' = run observe (view s) es ∧ rising_edges_ (base s') <= kWatchdogCycles + 5 ∧
    (code = 0 ∨ code = 2) ∧
    (code = 0 ↔ six_events ws ∧ payload_at 4 ws ey ∧ payload_at 5 ws ec ∧
                invariants (counts_ (view s')) = true ∧ counted_cycles (counts_ (view s')) = ey).
Proof.
  intros Hm Hr Hf m. unfold m, CacheHarness.Run. rewrite result_bind. pose proof (session_ends fuel s Hm Hr Hf) as H.
  destruct (existsb _ _); [by rewrite H|]. destruct H as (s' & ws & es & -> & He & Hk & Hv & Hc).
  cbv zeta. rewrite result_bind, summary_result. do 2 eexists. exists s', ws, es.
  split; [done|]. split; [done|]. split; [done|]. split; [done|]. rewrite Hk.
  pose proof (cache_functional_spec ec ey ws) as Hp.
  assert (six_events ws → payload_at 4 ws ey → measured_cycles_ (run mark_write marks_init ws) = ey) as H4
    by (intros Hev; by apply (marks_payloads ws ey ec Hev)).
  destruct (invariants (counts_ (view s'))); cbn [andb]; [|split; [by right|naive_solver]].
  destruct (CacheHarness.functional ec ey _); cbn [andb]; [|split; [by right|naive_solver]].
  destruct (Z.eqb_spec (counted_cycles (counts_ (view s'))) (measured_cycles_ (run mark_write marks_init ws)));
    (split; [tauto|]); naive_solver congruence.
Qed.

Lemma finalize_status fopens x y (o : observer) :
  (dependency_observer_finalize fopens x o).1 = (dependency_observer_finalize fopens y o).1.
Proof. unfold dependency_observer_finalize. by repeat case_if. Qed.

(** The load-use harness ends in the same bound, or at the same fault.  Its exit code is 0 exactly
    when the events are 1 to 6 in this order, the payload at event 4 is the
    expected number of cycles, or any positive one when 0 is expected, and is
    what the counters have sampled, the payload at event 5 is the checksum, the
    counter identities hold and the observer's report is accepted. *)
Theorem p1_run_verdict fopens fuel ec ey (s : prof T observer) :
  marks_ (base s) = marks_init → rising_edges_ (base s) = 0 → kWatchdogCycles <= Z.of_nat fuel →
  let m := P1Harness.Run fopens fuel ec ey s in
  if existsb overruns (trail fuel (base s)) then result m = Fault OutOfBounds
  else ∃ code files s' ws es, result m = Ok (code, files, s') ∧ edges (base s) ws (base s') ∧
    view s' = run observe (view s) es ∧ rising_edges_ (base s') <= kWatchdogCycles + 5 ∧
    (code = 0 ∨ code = 2) ∧
    (code = 0 ↔ six_events ws ∧ payload_at 4 ws (counted_cycles (counts_ (view s'))) ∧
                (if ey =? 0 then 0 < counted_cycles (counts_ (view s'))
                 else counted_cycles (counts_ (view s')) = ey) ∧
                payload_at 5 ws ec ∧ invariants (counts_ (view s')) = true ∧
                (dependency_observer_finalize fopens 0 (probe_ (view s'))).1 = 0).
Proof.
  intros Hm Hr Hf m. unfold m, P1Harness.Run. rewrite result_bind. pose proof (session_ends fuel s Hm Hr Hf) as H.
  destruct (existsb _ _); [by rewrite H|]. destruct H as (s' & ws & es & -> & He & Hk & Hv & Hc).
  cbv zeta. set (x := if P1Harness.functional ec ey (marks_ (base s')) then 0 else 2).
  pose proof (finalize_status fopens x 0 (probe_ (view s'))) as Hst.
  destruct (dependency_observer_finalize fopens x (probe_ (view s'))) as [st rep]. cbn [fst] in Hst.
  rewrite result_bind, summary_result. do 2 eexists. exists s', ws, es. rewrite <- Hst.
  split; [done|]. split; [done|]. split; [done|]. split; [done|]. rewrite Hk.
  pose proof (p1_functional_spec ec ey ws) as Hp. set (n := counted_cycles (counts_ (view s'))) in *.
  assert (six_events ws → measured_cycles_ (run mark_write marks_init ws) = n ↔ payload_at 4 ws n) as Hn
    by (intros Hev; apply (marks_payloads ws n ec Hev)).
  assert (six_events ws → ∀ c, payload_at 4 ws c → measured_cycles_ (run mark_write marks_init ws) = c) as H4
    by (intros Hev c; apply (marks_payloads ws c ec Hev)).
  clearbody n. destruct (invariants (counts_ (view s'))); cbn [andb]; [|split; [by right|naive_solver]].
  destruct (P1Harness.functional ec ey (run mark_write marks_init ws)); cbn [andb].
  - destruct (proj1 Hp eq_refl) as (Hev & (c & Hc4 & Hcy) & H5). pose proof (H4 Hev c Hc4) as Ec. specialize (Hn Hev).
    destruct (Z.eqb_spec n (measured_cycles_ (run mark_write marks_init ws))), (Z.eqb_spec st 0); cbn [andb];
      (split; [tauto|]); subst; naive_solver congruence.
  - split; [by right|]. split; [done|]. intros (Hev & H4' & Hy & H5 & _). 
    discriminate (proj2 Hp (conj Hev (conj (ex_intro _ n (conj H4' Hy)) H5))).
Qed.

(** The two verdicts on the same marks. *)
Lemma functional_pass ec ey k : CacheHarness.functional ec ey k = true → pass ec ey k = true.
Proof.
  unfold CacheHarness.functional, pass. intros H. bool_to_prop. rewrite bool_decide_eq_true_2 by done.
  rewrite (proj2 (Z.eqb_eq (measured_cycles_ _) ey)), (proj2 (Z.eqb_eq (checksum_ _) ec)) by done. by rewrite orb_true_r.
Qed.
Lemma pass_functional ec ey ws :
  let k := run mark_write marks_init ws in
  pass ec ey k = true → ey ≠ 0 → CacheHarness.functional ec ey k = true.
Proof.
  intros k Hp Hy. unfold pass in Hp. unfold CacheHarness.functional. bool_to_prop.
  rewrite (bool_decide_eq_true_2 (events_ _ = _)), (proj2 (Z.eqb_eq (checksum_ _) ec)) by done.
  assert ((measured_cycles_ k =? ey) = true) as -> by (destruct (Z.eqb_spec ey 0); done).
  destruct (marks_log ws) as (Hev & _ & Hdone). fold k in Hev, Hdone. rewrite (proj2 Hdone); [done|].
  rewrite <- Hev. replace (events_ k) with [1; 2; 3; 4; 5; 6]. decide_now.
Qed.

(** Cycles always return. *)
Lemma cycles_total n g : ∃ g', result (cycles n g) = Ok g'.
Proof.
  revert g. induction n as [|n IH]; intros g; cbn [cycles]; [by exists g|]. unfold cycle. rewrite result_bind.
  rewrite result_bind. destruct (RisingEdge_ok g) as (g1 & -> & _). apply IH.
Qed.

(** The marks of a plain run, and that the last event stays seen. *)
Lemma run_log fuel g g1 g2 g3 :
  result (cycles 5 (Evaluate (set_rstn (set_clk g 0) 0))) = Ok g1 →
  result (watch_loop fuel (Evaluate (set_rstn g1 1))) = Ok g2 → result (cycles 5 g2) = Ok g3 →
  ∃ ws, marks_ g3 = run mark_write (marks_ g) ws ∧
    (marks_ g = marks_init → done_ (marks_ g2) = true → done_ (marks_ g3) = true).
Proof.
  intros R1 R2 R3. destruct (cycles_edges _ g [] _ _ (edges_low g [] g 0 (edges_nil g)) R1) as [ws1 E1].
  destruct (watch_loop_edges _ g ws1 _ _ (edges_reset g ws1 g1 1 E1) R2) as [ws2 E2%edges_marks].
  destruct (cycles_edges _ g2 [] _ _ (edges_nil g2) R3) as [ws3 E3%edges_marks].
  exists (ws2 ++ ws3). rewrite run_app, <- E2. split; [done|]. intros Hm. rewrite Hm in E2. rewrite E3, E2, <- run_app.
  destruct (marks_log ws2) as (_ & _ & H2), (marks_log (ws2 ++ ws3)) as (_ & _ & H3).
  intros Hd%H2. apply H3. rewrite events_in_app. set_solver.
Qed.

(** C17. Counting does not change the run.  Whenever the plain harness returns, the
    cache harness with the same core, image and expectations stops at a fault,
    exactly when at one of the edges a committed write reaches past the end of
    the memory, or it returns, too.  When the plain one has seen the last event,
    both end in the same state of the core, memory and bus with the same marks,
    and a verdict of 0 of the counting one is one of the plain one.  When the
    plain one gives up at the watchdog, with 1, the counting one goes on for five
    cycles and ends in the state behind them, which it then judges. *)
Theorem counting_is_transparent fuel ec ey (s : prof T unit) plain_code g :
  marks_ (base s) = marks_init → result (Gol.Run fuel ec ey (base s)) = Ok (plain_code, g) →
  if existsb overruns (trail fuel (base s)) then result (CacheHarness.Run fuel ec ey s) = Fault OutOfBounds
  else ∃ code json s', result (CacheHarness.Run fuel ec ey s) = Ok (code, json, s') ∧
    if done_ (marks_ g)
    then g = base s' ∧ (code = 0 → plain_code = 0) ∧
         (plain_code = 0 → ey ≠ 0 → CacheHarness.functional ec ey (marks_ g) = true)
    else plain_code = 1 ∧ result (cycles 5 g) = Ok (base s').
Proof.
  intros Hm HR. pose proof (follows_session fuel s) as H. unfold follows in H. unfold CacheHarness.Run.
  rewrite result_bind. destruct (existsb _ _); [by rewrite H|]. cbv zeta.
  unfold Gol.Run in HR. rewrite result_bind, reset_loop_cycles in HR. cbn [length] in HR.
  unfold plain_session in H. rewrite result_bind in H. destruct (result (cycles 5 _)) as [g1|] eqn:R1; [|done].
  cbv zeta in HR. apply result_bind_Ok in HR as (_ & _ & HR). apply result_bind_Ok in HR as (g2 & R2 & HR).
  rewrite result_bind, R2 in H. destruct (cycles_total 5 g2) as [g3 R3]. rewrite R3 in H.
  destruct H as (s' & es & -> & Hr & E). rewrite result_bind, summary_result. do 3 eexists. split; [done|].
  destruct (done_ (marks_ g2)) eqn:Hd; cbn [negb] in HR.
  - rewrite result_bind, R3 in HR. cbv zeta in HR.
    assert (Ok (if pass ec ey (marks_ g3) then 0 else 2, g3) = Ok (plain_code, g)) as [= <- <-]
      by (rewrite <- HR; by destruct (ey =? 0)).
    destruct (run_log fuel (base s) g1 g2 g3) as (ws & Ew & Hd3); [done..|]. rewrite Hm in Ew.
    rewrite Hd3, E by done. split; [done|]. rewrite Ew. split.
    + destruct (CacheHarness.functional ec ey _) eqn:Ef; [by rewrite (functional_pass _ _ _ Ef)|].
      by rewrite andb_false_r.
    + intros Hp Hy. apply pass_functional; [|done]. by destruct (pass ec ey (run mark_write marks_init ws)).
  - apply result_bind_Ok in HR as (_ & _ & [= <- <-]). rewrite Hd. split; [done|]. by rewrite R3, E.
Qed.
End verdicts.
(** ** The ROI in the image *)

(** [csrr rd, cycle], that is [csrrs rd, cycle, x0]. *)
Definition csrr_cycle (rd : Z) : Z := 0xc00 * 2 ^ 20 + 2 * 2 ^ 12 + rd * 2 ^ 7 + 0x73.
Definition reads_cycle (w : Z) : Prop := ∃ rd, 0 <= rd < 32 ∧ w = csrr_cycle rd.
#[global] Instance reads_cycle_dec w : Decision (reads_cycle w).
Proof.
  refine (cast_if (decide (w mod 2 ^ 7 = 0x73 ∧ w / 2 ^ 12 = 0xc0002))).
  - abstract (unfold reads_cycle, csrr_cycle; exists ((w / 2 ^ 7) mod 32); dlia).
  - abstract (intros (rd & Hrd & ->); unfold csrr_cycle in *; dlia).
Defined.
Definition image_word (bs : list Z) (k : nat) : Z := le_combine (take 4 (drop (4 * k) bs)).

Lemma land_shiftl_mask w m k : 0 <= k → Z.land w (Z.shiftl m k) = Z.shiftl (Z.land (Z.shiftr w k) m) k.
Proof.
  intros Hk. apply Z.bits_inj'. intros n Hn. rewrite Z.land_spec. destruct (decide (n < k)).
  - by rewrite !Z.shiftl_spec_low, andb_false_r.
  - rewrite !Z.shiftl_spec, Z.land_spec, Z.shiftr_spec, Z.sub_add by lia. done.
Qed.

Lemma is_csrr_cycle_spec w : 0 <= w < 2 ^ 32 → is_csrr_cycle w = bool_decide (reads_cycle w).
Proof.
  intros Hw. unfold is_csrr_cycle.
  change 0xfffff07f with (Z.lor (Z.ones 7) (Z.shiftl (Z.ones 20) 12)).
  rewrite Z.land_lor_distr_r, land_shiftl_mask, !Z.land_ones, Z.shiftr_div_pow2 by lia.
  rewrite lor_shiftl_add by (try pose proof (Z.mod_pos_bound w (2 ^ 7)); lia).
  apply eq_bool_prop_intro. rewrite bool_decide_spec, Is_true_true, Z.eqb_eq. unfold reads_cycle, csrr_cycle. split.
  - intros H. exists ((w / 2 ^ 7) mod 32). dlia.
  - intros (rd & Hrd & ->). dlia.
Qed.

(** The loader is that of the plain harness with another message. *)
Lemma load_tokens_lines m off lines :
  load_tokens m off lines = match load_lines m off lines with inr r => inr r | inl _ => inl "invalid HEX" end.
Proof.
  revert m off. induction lines as [|token lines IH]; intros m off; [done|]. cbn [load_tokens load_lines].
  destruct (hex_byte token); [|done]. by destruct (kMemoryBytes <=? off).
Qed.

Lemma word_at_load m a : bytes_ok m → word_at m a = load m a 4.
Proof.
  intros Hok. unfold word_at, load. cbn [load_bytes le_combine].
  pose proof (Hok a) as H0. pose proof (Hok (a + 1)) as H1. pose proof (Hok (a + 2)) as H2.
  pose proof (Hok (a + 3)) as H3. unfold is_byte in *.
  replace (a + 1 + 1) with (a + 2) by lia. replace (a + 2 + 1) with (a + 3) by lia.
  rewrite (lor_shiftl_add _ _ 8), (lor_shiftl_add _ _ 16), (lor_shiftl_add _ _ 24) by lia. unfold u32. rewrite wrap_small by lia. lia.
Qed.

Lemma load_image_word bs k :
  (4 * k + 4 <= length bs)%nat → load (store_bytes ∅ 0 bs) (4 * Z.of_nat k) 4 = image_word bs k.
Proof.
  intros Hk. unfold load, image_word. f_equal. apply list_eq. intros i. destruct (decide (i < 4)%nat) as [Hi|Hi].
  - rewrite load_bytes_lookup, lookup_take_lt, lookup_drop by done. rewrite get_store_bytes, decide_True by lia.
    replace (Z.to_nat (4 * Z.of_nat k + Z.of_nat i - 0)) with (4 * k + i)%nat by lia.
    destruct (lookup_lt_is_Some_2 bs (4 * k + i)) as [x ->]; [lia|done].
  - rewrite !lookup_ge_None_2; [done| |rewrite length_load_bytes; lia]. rewrite length_take. lia.
Qed.

Lemma image_word_range bs k : Forall is_byte bs → 0 <= image_word bs k < 2 ^ 32.
Proof.
  intros Hbs. assert (Forall is_byte (take 4 (drop (4 * k) bs))) as H by auto using Forall_take, Forall_drop.
  apply le_combine_range in H. unfold image_word. split; [lia|].
  eapply Z.lt_le_trans; [apply H|]. apply Z.pow_le_mono_r; [lia|]. rewrite length_take. lia.
Qed.

Definition csr_addr (k : nat) : Z := kMemoryBase + 4 * Z.of_nat k.
Lemma scan_csrs_filter fuel bs k n acc :
  Forall is_byte bs → (length bs / 4 = k + n)%nat → (n <= fuel)%nat →
  scan_csrs fuel (store_bytes ∅ 0 bs) (4 * Z.of_nat k) (Z.of_nat (length bs)) acc =
    acc ++ (csr_addr <$> filter (λ i, reads_cycle (image_word bs i)) (seq k n)).
Proof.
  intros Hbs. pose proof (Nat.div_mod_eq (length bs) 4). pose proof (Nat.mod_upper_bound (length bs) 4).
  revert k n acc. induction fuel as [|fuel IH]; intros k n acc Hn Hf; cbn [scan_csrs].
  { assert (n = 0)%nat as -> by lia. cbn. by rewrite app_nil_r. }
  destruct n as [|n].
  { rewrite (proj2 (Z.ltb_ge _ _)) by lia. cbn. by rewrite app_nil_r. }
  assert (4 * k + 4 <= length bs)%nat as Hk by lia. rewrite (proj2 (Z.ltb_lt _ _)) by lia.
  rewrite word_at_load, load_image_word, is_csrr_cycle_spec; [|apply image_word_range, Hbs|done|].
  2: apply bytes_ok_store_bytes; [apply bytes_ok_empty|done].
  replace (4 * Z.of_nat k + 4) with (4 * Z.of_nat (S k)) by lia. rewrite (IH (S k) n) by lia.
  cbn [seq]. rewrite filter_cons. case_bool_decide.
  - rewrite decide_True by done. cbn [fmap list_fmap]. by rewrite <- app_assoc.
  - by rewrite decide_False by done.
Qed.

(** C34. The region of interest is found in the image.  For an image printed one
    byte per line, [LoadHex] succeeds exactly when four of its words, taken from
    the start in fours, are instructions [csrr rd, cycle]; the memory is then the
    image, and the region starts at the third of them and ends at the fourth. *)
Theorem load_hex_roi bs :
  Forall is_byte bs → Z.of_nat (length bs) <= kMemoryBytes →
  LoadHex (Some (hex2 <$> bs)) =
    match filter (λ k, reads_cycle (image_word bs k)) (seq 0 (length bs / 4)) with
    | [_; _; i; j] => inr (store_bytes ∅ 0 bs, csr_addr i, csr_addr j)
    | _ => inl "unexpected csrr cycle count"
    end.
Proof.
  intros Hbs Hl. unfold LoadHex. rewrite load_tokens_lines, load_lines_bytes by (done || lia).
  rewrite Z.add_0_l, Nat2Z.id. pose proof (scan_csrs_filter (length bs) bs 0 (length bs / 4) [] Hbs eq_refl) as E.
  change (4 * Z.of_nat 0) with 0 in E. rewrite E by (apply Nat.Div0.div_le_upper_bound; lia). cbn [app]. destruct (filter _ _) as [|? [|? [|? [|? [|? ?]]]]]; done.
Qed.

(** ** Witnesses *)

Example toy_cache_run :
  (λ r, r.1.1) <$> match result (CacheHarness.Run 40 55 3 (ProfToy.start tt)) with Ok r => Some r | Fault _ => None end
  = Some 0.
Proof. vm_compute. reflexivity. Qed.

(** More fuel changes nothing. *)
Section more.
Context {T : Type} `{!GolCore T, !PerfPorts T}.

Lemma watch_more fuel k (g g' : gol T) :
  result (watch_loop fuel g) = Ok g' →
  result (watch_loop (fuel + k) g) = Ok g' ∧ watch_trail (fuel + k) g = watch_trail fuel g.
Proof.
  revert g. induction fuel as [|fuel IH]; intros g; cbn [Nat.add].
  - destruct k as [|k]; [done|]. cbn [watch_loop watch_trail]. destruct (_ && _); [|done].
    by intros (? & _ & ?)%result_bind_Ok.
  - cbn [watch_loop watch_trail]. destruct (_ && _); [|done].
    intros (g1 & E1 & E)%result_bind_Ok. rewrite result_bind, E1. destruct (IH g1 E) as [-> ->]. done.
Qed.

Lemma trail_more fuel k (g g' : gol T) :
  result (plain_session fuel g) = Ok g' → trail (fuel + k) g = trail fuel g.
Proof.
  unfold plain_session, trail. intros (g1 & E1 & E)%result_bind_Ok. apply result_bind_Ok in E as (g2 & E2 & _).
  unfold and_then. rewrite E1. destruct (watch_more fuel k _ _ E2) as [-> ->]. by rewrite E2.
Qed.
End more.

(** A core that writes eight bytes at [a] and then runs through the events. *)
Module WriteToy.
Definition core : Type := list (Z * Z).
#[global] Instance writes : GolCore core := {|
  core_eval p l := if clk p =? 1 then tail l else l;
  core_out l := let w := default (0, 0) (head l) in Outs 1 1 1 0 0 0 w.1 w.2 0xff
|}.
#[global] Instance ports : PerfPorts core := λ l, ProfToy.at_cycle (10 - Z.of_nat (length l)) 0 0.
Definition start (a : Z) : prof core unit :=
  Prof (GolHarness ((0, 0) :: (a, 0x1122334455667788) :: tail ProfToy.program) (Ins 0 0 0 0 0 0 0 0 0 0 0 0 0 0 0) ∅)
    (Profile counts_zero 5 8 false false (Levels false false false) (Ofstream false false []) 0 tt).
(** The last double word of the memory, and half a word further. *)
Definition last_word : Z := kMemoryBase + kMemoryBytes - 8.
End WriteToy.

Lemma cache_run_verdict_witness :
  let run a := CacheHarness.Run (Z.to_nat kWatchdogCycles) 55 3 (WriteToy.start a) in
  result (run (WriteToy.last_word + 4)) = Fault OutOfBounds ∧
  ∃ code json s' ws, result (run WriteToy.last_word) = Ok (code, json, s') ∧
    edges (base (WriteToy.start WriteToy.last_word)) ws (base s') ∧
    (code = 0 → six_events ws ∧ counted_cycles (counts_ (view s')) = 3).
Proof.
  intros run. subst run. cbv beta. assert (kWatchdogCycles <= Z.of_nat (Z.to_nat kWatchdogCycles)) as Hf
    by (rewrite Z2Nat.id; [reflexivity|discriminate]).
  assert (∃ k, Z.to_nat kWatchdogCycles = (40 + k)%nat) as [k Ek].
  { exists (Z.to_nat kWatchdogCycles - 40)%nat. clear -Hf. unfold kWatchdogCycles in *. lia. }
  split.
  - pose proof (cache_run_verdict _ 55 3 (WriteToy.start (WriteToy.last_word + 4)) eq_refl eq_refl Hf) as H. cbv zeta in H.
    assert (existsb overruns (trail (Z.to_nat kWatchdogCycles) (base (WriteToy.start (WriteToy.last_word + 4)))) = true) as E.
    { rewrite Ek. assert (result (plain_session 40 (base (WriteToy.start (WriteToy.last_word + 4)))) = Ok _) as R by (vm_compute; reflexivity).
      rewrite (trail_more 40 k _ _ R). vm_compute. reflexivity. }
    rewrite E in H. exact H.
  - pose proof (cache_run_verdict _ 55 3 (WriteToy.start WriteToy.last_word) eq_refl eq_refl Hf) as H. cbv zeta in H.
    assert (existsb overruns (trail (Z.to_nat kWatchdogCycles) (base (WriteToy.start WriteToy.last_word))) = false) as E.
    { rewrite Ek. assert (result (plain_session 40 (base (WriteToy.start WriteToy.last_word))) = Ok _) as R by (vm_compute; reflexivity).
      rewrite (trail_more 40 k _ _ R). vm_compute. reflexivity. }
    rewrite E in H. destruct H as (code & json & s' & ws & es & HR & He & _ & _ & _ & Hp).
    exists code, json, s', ws. split; [exact HR|]. split; [exact He|]. intros H0. apply Hp in H0. split; apply H0.
Defined.

Lemma counting_is_transparent_witness :
  let run a := CacheHarness.Run 40 55 3 (WriteToy.start a) in
  result (run (WriteToy.last_word + 4)) = Fault OutOfBounds ∧
  ∃ code json s' plain_code, result (run WriteToy.last_word) = Ok (code, json, s') ∧
    result (Gol.Run 40 55 3 (base (WriteToy.start WriteToy.last_word))) = Ok (plain_code, base s') ∧
    (code = 0 → plain_code = 0) ∧ load (memory_ (base s')) (kMemoryBytes - 8) 8 = 0x1122334455667788.
Proof.
  intros run. subst run. cbv beta. split.
  - assert (result (Gol.Run 40 55 3 (base (WriteToy.start (WriteToy.last_word + 4)))) = Ok (_, _)) as ER
      by (vm_compute; reflexivity).
    pose proof (counting_is_transparent 40 55 3 (WriteToy.start (WriteToy.last_word + 4)) _ _ eq_refl ER) as H.
    assert (existsb overruns (trail 40 (base (WriteToy.start (WriteToy.last_word + 4)))) = true) as E by (vm_compute; reflexivity).
    rewrite E in H. exact H.
  - assert (result (Gol.Run 40 55 3 (base (WriteToy.start WriteToy.last_word))) = Ok (_, _)) as ER by (vm_compute; reflexivity).
    pose proof (counting_is_transparent 40 55 3 (WriteToy.start WriteToy.last_word) _ _ eq_refl ER) as H.
    assert (existsb overruns (trail 40 (base (WriteToy.start WriteToy.last_word))) = false) as E by (vm_compute; reflexivity).
    rewrite E in H. destruct H as (code & json & s' & HR & Hg & Hc & _). eexists code, json, s', _.
    split; [exact HR|]. rewrite <- Hg. split; [exact ER|]. split; [exact Hc|]. vm_compute. reflexivity.
Defined.

Lemma load_hex_roi_witness :
  let bs := le_split 4 0xc0002573 ++ le_split 4 0x13 ++ le_split 4 0xc00025f3 ++ le_split 4 0xc0002673
            ++ le_split 4 0xc0102573 ++ le_split 4 0xc0002073 in
  LoadHex (Some (hex2 <$> bs)) = inr (store_bytes ∅ 0 bs, 0x8000000c, 0x80000014).
Proof.
  intros bs. etrans; [apply (load_hex_roi bs)|].
  - repeat apply Forall_app_2; apply le_split_bytes.
  - discriminate.
  - vm_compute. reflexivity.
Defined.
